(* ===== verification/_CoqProject ===== *)
-Q . S2P
Prelude.v
Effects.v
Text.v
External.v
Concrete.v
Crypto.v
Entity.v
Storage.v
Auctioneer.v
UseCase.v
UseCaseSpec.v
UseCaseTests.v
Concurrency.v
Conversion.v
Services.v
ApiTests.v
Grpc.v
Beacon.v
Commands.v
BeaconEvents.v
CrateTests.v
RelayService.v
System.v
EndToEnd.v
Config.v
Served.v
Lifecycle.v
IntegrationTest.v
