(* ===== verification/Prelude.v ===== *)
(** * mev-relay-rs: a verification library

    mev-relay-rs is a relay between the block builders and the proposers of
    Ethereum.  Builders stream bids; the relay keeps the best bid of each slot;
    a proposer retrieves the signed header of the best bid, signs the block blindly
    and gets the payload for its signature.  This library models the relay's own
    code, crate by crate, and proves what makes it correct; where the code does not
    do what it means to, the theorems state what it does.

    ** How the program is put together

    The crates under [src/crates] are layered.  [crypto] has the keys, the signatures
    and the signing domains, [entity] the data of bids, payloads and registrations,
    [datastore] the shared state behind two traits, [Storage] and [Auctioneer],
    [usecase] the four operations of the relay on that state, [api] the gRPC messages
    and services in front of them, [gateway] the client of the beacon node, and
    [app] the configuration, the start, and the task that follows the chain.  The
    tasks of the services and of [app] run concurrently and share the storage and
    the auctioneer only.

    ** Files

    - [Prelude]: Rust's [Result], panics, 64-bit arithmetic, byte arrays, and the
      lemmas and tactics that the other files share.
    - [Effects]: asynchronous code.  A task is a finite tree of atomic operations
      ([prog]); [run] executes it alone, [pool_step] interleaves any number of tasks
      operation by operation; [safe] and [pool_invariant] are the rule by which
      invariants of all interleavings are proved.
    - [Text]: UTF-8, lines, trimming and integer parsing, from the standard library.
    - [External]: the libraries the program calls (blst, tree_hash, hex, alloy,
      ssz_types, serde_json, moka, tokio's interval) as classes of operations, with the laws that are
      used of them as separate classes.  [Concrete] instantiates every class and proves
      its laws, so that the theorems apply at concrete inputs.
    - [Crypto]: crate [crypto], all of it ([fork.rs], [fork_name.rs],
      [public_key.rs], [secret_key.rs], [signature.rs], [signer.rs]).
    - [Entity]: crate [entity]: the data, their tree hash roots, [build_header], and the
      slot arithmetic of [head_slot.rs].
    - [Storage]: the trait, [MemoryStorage], the abstract storage ([StorageView],
      [spec_handler]) and the class [StorageLaws] that ties an implementation to it.
    - [Auctioneer]: the trait, [MemoryAuctioneer] over the moka cache, the class
      [AuctioneerLaws] of what the use cases rely on, and its part [SharedAuction] for
      calls that overlap, with [Contended], an auctioneer whose overlapping calls are
      coalesced.
    - [UseCase]: the four [execute] functions as tasks over [relayE], the operations of
      the storage, of the auctioneer, and the allocation of an [Arc].
    - [UseCaseSpec]: what each use case does when it runs alone.
    - [Concurrency]: what they do together.
    - [Conversion]: the messages of [api/src/proto/relay.rs] and [conversion.rs].
    - [Services]: the gRPC services of [api], each connection a task.
    - [Grpc]: the generated clients and servers of [proto/relay.rs], the paths they agree
      on, and the router of the three services, over tonic as a parameter.
    - [Beacon]: the calls of [gateway/src/beacon/api.rs] and their errors.
    - [Commands]: the beacon service and its handles ([beacon/service]).
    - [BeaconEvents]: the gateway's event streams ([beacon/events]).
    - [RelayService]: the task of [app/src/relay_service.rs].
    - [System]: everything that runs at once: a task per client, and the one that
      follows the chain, over one signature of operations ([systemE]).
    - [EndToEnd]: one exchange through the services, from the bytes of the builder's
      request to those of the revealed block.
    - [Config]: the command line, the configuration, the start and [main]
      ([app/src/cli.rs], [app/src/lib.rs], [src/main.rs]).
    - [Served]: one proposer from the registration over the head event, the bid and the
      header to the revealed block; no code of its own.
    - [Lifecycle]: what [run_inner] spawns, and the process until its shutdown.
    - [UseCaseTests], [ApiTests], [CrateTests]: the unit tests of the crates, with their
      mocks, each a computation that answers whether its assertions hold.
    - [IntegrationTest]: [tests/integration.rs], with its mock beacon node, and the lemmas
      that run all tests.

    ** Interfaces

    The use cases are proved correct against [StorageLaws] and [AuctioneerLaws], and their
    interleavings against [StorageLaws] and [SharedAuction]; [MemoryStorage_laws],
    [MemoryAuctioneer_laws] and [laws_shared] discharge them for the in-memory
    implementations, [Contended_shared] for an auctioneer with coalesced calls.  [RelayService] uses
    the same [StorageLaws].  [BeaconApi] is the trait of the beacon calls: [Commands] proves its service for every instance, and
    [BeaconNodeApi_BeaconApi] is the HTTP one.  The generated traits [BidderService],
    [RetrieverService] and [ValidatorService] are classes of [Grpc], which dispatches to
    every instance; the services of [Services] are the ones that run.

    ** What the theorems show

    - The auction: while bids live, the auctioneer answers like an abstract auction with
      one current bid per slot, and that bid is the first of the highest ones
      ([Auctioneer]); the best value of a slot never falls, whatever the interleaving
      ([Concurrency]).
    - The use cases: exactly which requests are accepted, what they change, which
      error the others get, and that a rejected request changes nothing
      ([UseCaseSpec]).
    - The relay as a whole: every live bid, stored payload, served header and revealed
      payload comes from a bid signed by a whitelisted builder, under every
      interleaving of requests and chain updates; a header served without overlap
      can be unblinded to the payload it commits to; two overlapping submissions can
      break that, and right after a later bid was accepted only that bid's payload can be
      unblinded ([Concurrency]).  The same holds of what
      the real tasks send on their connections, whatever their clients and the
      beacon node do ([System]), and of a relay started from a configuration, for
      its configured builders ([Config]); but one answer can mix the header of one bid
      with the payload of another ([System]).  Every admitted bid is one that a client
      sent, and everything held is well typed ([System]).
    - Commitments: headers commit to payloads, signed roots bind every field, domains
      are separate; each up to an explicit collision of the hash ([Crypto], [Entity],
      [UseCase]).
    - Messages: a request converts to the submission that carries its bytes or to
      the error of its first bad field, and exactly when the conversion panics
      ([Conversion]); the requests of a session are answered in order, up to one that
      panics ([Services]); the bytes of an accepted bid are those that the proposer is
      given, beside the header while the bid lives and for its signature ([EndToEnd]); a
      generated client reaches the method of its name, and no other path reaches any, and
      it receives the items of a stream up to the first error ([Grpc]).
    - What is in order is served: after a signed registration and a head event that
      announces the proposer's duty, an honest bid is accepted, its header is served while
      it lives, and the proposer's signature reveals its payload ([Served]).
    - The beacon node: a call through a handle is the call of the API ([Commands]);
      the merged event stream loses nothing, a subscription outlasts refusals, and
      the gateway's parser delivers no event ([BeaconEvents]); what is fetched and
      when a publication panics ([Beacon]).
    - Following the chain, with a positive number of slots per epoch: an event stream is
      handled event by event whatever its chunks, a connection is over exactly when its
      subscription failed or its stream failed or ended, a head event updates exactly the
      head and the duties, a poll does the same, and once the connection is over the
      service polls for ever and the payload attributes are never updated; it panics
      exactly when its polling interval is zero and its connection is over
      ([RelayService]), so never in a relay that [main] starts ([Config]).
    - The command line: [main] runs exactly on valid arguments ([Config]).
    - The process: the gRPC server drains after the shutdown only, but the process ends
      without waiting for it, and a port that cannot be bound goes unnoticed ([Lifecycle]).
    - The tests of the repository hold of the model: the 97 unit tests, and the integration
      test, over every lawful transport, wherever in the first three polls of the relay
      service the registration arrives ([IntegrationTest]).  These are evaluations on the
      concrete libraries: they validate the model.

    ** How the code is modelled

    - Integers are [Z].  The additions that can overflow take the [build_profile]: a
      debug build panics, a release build wraps.  Fixed-width fields are kept in range
      by hypotheses ([u64_range]) or by the code's own checks.
    - A panic unwinds the task that raised it ([outcome]); the state it has already
      written stays.
    - Each call on the storage or the auctioneer is one atomic operation, because the
      code holds the lock of the structure for the whole call, or calls one method of the
      cache.  Between two operations any task may run.  The cache coalesces overlapping
      [or_insert_with_if] calls on one key, and a call that waits is answered with the
      inserted value whatever its own is worth: [MemoryAuctioneer] is the auctioneer
      whose calls do not overlap, and the theorems on interleavings are proved against
      [SharedAuction], which overlapping calls satisfy too ([Auctioneer.Contended];
      [Concurrency.coalesced_higher_bid_refused] is a bid that is refused so).
    - The clock is a function from the number of operations done so far to the time,
      assumed monotone where time matters.  An [Arc] is identified by the number of
      the operation that allocated it.
    - Cryptography is not assumed secure: a theorem about signatures says which
      verification was made, a theorem about hashes offers the collision.
    - Fuel appears in [Text] (the length of the text, one byte per step), in the
      buffer loops of [BeaconEvents] and [RelayService] (the length of the buffer plus
      one; every round removes at least one byte), and as the number of attempts,
      connections and polls of the loops that the code runs for ever; the theorems
      hold for every number of them.
    - A stream of bytes is the list of what its polls have answered so far.  It is over
      when a poll has answered [Ready None]; behind the end of the list it is open, and
      its reader is [Pending].  Services that never return are run for a number of
      connections and polls, and the theorems hold for every such number.
    - The response channels of the streams are unbounded: a full channel only delays its
      task, and the interleavings contain every delay.  A client that has gone is a
      send that fails.  After an error item the stream is dropped, and what the task sends
      then is not received, whether or not the channel still accepts it
      ([Grpc.collect]).

    ** What is not modelled

    Logging and tracing spans; what an interceptor does; how the servers listen, and the
    health endpoint, which are I/O; the tests that need a public beacon node.  The
    decoding and encoding of JSON by serde, of messages by prost, and tonic are
    parameters. *)

From Stdlib Require Import ZArith Lia.
From Stdlib Require Export Strings.Byte.
From Stdlib Require Export Strings.Ascii Strings.String.
From stdpp Require Export base option list strings gmap numbers pretty.

#[global] Open Scope Z_scope.

Declare Scope relay_scope.
Delimit Scope relay_scope with relay.

(** ** Rust's [Result], and computations that may panic *)

(** Rust's [Result<A, E>]. *)
Inductive result (A E : Type) : Type :=
| Ok (a : A)
| Err (e : E).
Arguments Ok {A E} a.
Arguments Err {A E} e.

(** The result of evaluating code that may panic: either a value or the panic
    message.  A panic unwinds the task that raised it, so nothing after it
    runs. *)
Inductive outcome (A : Type) : Type :=
| Done (a : A)
| Panicked (msg : string).
Arguments Done {A} a.
Arguments Panicked {A} msg.

#[export] Instance result_eq_dec {A E} `{EqDecision A, EqDecision E} :
  EqDecision (result A E).
Proof. solve_decision. Defined.

#[export] Instance outcome_ret : MRet outcome := @Done.
#[export] Instance outcome_bind : MBind outcome :=
  fun _ _ f m => match m with Done a => f a | Panicked s => Panicked s end.

Definition is_ok {A E} (r : result A E) : bool :=
  match r with Ok _ => true | Err _ => false end.

(** [Result::ok] *)
Definition ok {A E} (r : result A E) : option A :=
  match r with Ok a => Some a | Err _ => None end.

(** [Option::ok_or] *)
Definition ok_or {A E} (e : E) (o : option A) : result A E :=
  match o with Some a => Ok a | None => Err e end.

(** [Result::map_err] *)
Definition map_err {A E F} (f : E -> F) (r : result A E) : result A F :=
  match r with Ok a => Ok a | Err e => Err (f e) end.

(** [Result::map] *)
Definition map_ok {A B E} (f : A -> B) (r : result A E) : result B E :=
  match r with Ok a => Ok (f a) | Err e => Err e end.

(** [Result::and_then], the [?] operator on pure code. *)
Definition and_then {A B E} (r : result A E) (k : A -> result B E) : result B E :=
  match r with Ok a => k a | Err e => Err e end.

(** The [?] operator inside an effectful function that itself returns a
    [Result]: on [Err] the rest of the function is skipped. *)
Definition try_bind {M : Type -> Type} `{MRet M, MBind M} {A B E}
    (m : M (result A E)) (k : A -> M (result B E)) : M (result B E) :=
  m ≫= fun r => match r with Ok a => k a | Err e => mret (Err e) end.

(** [iter.map(f).collect::<Result<Vec<_>, _>>()]: stops at the first [Err]. *)
Fixpoint collect_results {A B E} (f : A -> result B E) (l : list A) :
    result (list B) E :=
  match l with
  | [] => Ok []
  | a :: l' => and_then (f a) (fun b => map_ok (cons b) (collect_results f l'))
  end.

Notation "'let!' x ':=' m 'in' k" := (mbind (fun x => k) m)
  (at level 10, x pattern, m at level 100, k at level 200)
  : relay_scope.
Notation "'let?' x ':=' m 'in' k" := (try_bind m (fun x => k))
  (at level 10, x pattern, m at level 100, k at level 200)
  : relay_scope.
Notation "'let*' x ':=' m 'in' k" := (and_then m (fun x => k))
  (at level 10, x pattern, m at level 100, k at level 200)
  : relay_scope.
#[global] Open Scope relay_scope.

(** ** Machine integers *)

(** The two cargo profiles: arithmetic overflow panics in [Debug] and wraps
    around in [Release] (the profile of the repository's [Cargo.toml] does not
    turn overflow checks on). *)
Inductive build_profile : Type := Debug | Release.

Definition u64_modulus : Z := 2 ^ 64.
Definition u64_max : Z := u64_modulus - 1.
Definition u64_range (x : Z) : Prop := 0 <= x < u64_modulus.
Definition u256_range (x : Z) : Prop := 0 <= x < 2 ^ 256.

(** [a + b] on [u64] *)
Definition u64_add (p : build_profile) (a b : Z) : outcome Z :=
  if a + b <? u64_modulus then Done (a + b)
  else match p with
       | Debug => Panicked "attempt to add with overflow"
       | Release => Done ((a + b) mod u64_modulus)
       end.

(** [a % b] on [u64] *)
Definition u64_rem (a b : Z) : outcome Z :=
  if b =? 0
  then Panicked "attempt to calculate the remainder with a divisor of zero"
  else Done (a mod b).

(** [a / b] on [u64] *)
Definition u64_div (a b : Z) : outcome Z :=
  if b =? 0 then Panicked "attempt to divide by zero" else Done (a / b).

(** [u64::to_string]: the decimal digits. *)
Definition u64_to_string (x : Z) : string := pretty x.

(** ** Bytes and fixed-size arrays *)

#[export] Instance byte_eq_dec : EqDecision byte := Byte.byte_eq_dec.

#[export] Instance byte_countable : Countable byte.
Proof.
  refine (inj_countable Byte.to_N Byte.of_N _).
  intros b. apply Byte.of_to_N.
Defined.

Definition byte_of_Z (z : Z) : byte :=
  default x00 (Byte.of_N (Z.to_N (z mod 256))).

Definition Z_of_byte (b : byte) : Z := Z.of_N (Byte.to_N b).

(** [uN::to_le_bytes] for an integer of [n] bytes. *)
Fixpoint to_le_bytes (n : nat) (z : Z) : list byte :=
  match n with
  | O => []
  | S n' => byte_of_Z z :: to_le_bytes n' (z / 256)
  end.

(** [uN::from_le_bytes] *)
Fixpoint from_le_bytes (l : list byte) : Z :=
  match l with
  | [] => 0
  | b :: l' => Z_of_byte b + 256 * from_le_bytes l'
  end.

(** Rust's [[u8; n]].  The length is part of the type, as in the source; the
    proof is a boolean, so two arrays are equal when their bytes are. *)
Record FixedBytes (n : Z) : Type := mkFixedBytes {
  fb_bytes : list byte;
  fb_length : bool_decide (Z.of_nat (length fb_bytes) = n);
}.
Arguments mkFixedBytes {n} _ _.
Arguments fb_bytes {n} _.
Arguments fb_length {n} _.

Lemma fb_eq {n} (a b : FixedBytes n) : fb_bytes a = fb_bytes b -> a = b.
Proof.
  destruct a as [a Ha], b as [b Hb]; simpl; intros ->.
  f_equal. apply proof_irrel.
Qed.

(** Decided on the bytes, without looking into the proof. *)
#[export] Instance FixedBytes_eq_dec n : EqDecision (FixedBytes n).
Proof.
  refine (fun a b => cast_if (decide (fb_bytes a = fb_bytes b))).
  - by apply fb_eq.
  - congruence.
Defined.

(** Any proof of a boolean is as good as the canonical one, to which this one
    evaluates on closed arrays. *)
Definition canonical_proof (b : bool) : Is_true b -> Is_true b :=
  match b with true => fun _ => I | false => fun H => H end.

(** An array from a list of the right length. *)
Definition array_of_list (n : Z) (l : list byte) (H : Z.of_nat (length l) = n) :
    FixedBytes n :=
  mkFixedBytes l (canonical_proof _ (bool_decide_pack _ H)).

(** [<[u8; n]>::try_from(slice)] *)
Definition array_try_from (n : Z) (l : list byte) : option (FixedBytes n) :=
  match decide (bool_decide (Z.of_nat (length l) = n)) with
  | left H => Some (mkFixedBytes l H)
  | right _ => None
  end.

(** [FixedBytes::<n>::from_slice], which panics on a slice of another
    length. *)
Definition from_slice (n : Z) (l : list byte) : outcome (FixedBytes n) :=
  match array_try_from n l with
  | Some a => Done a
  | None => Panicked "cannot convert a slice of that length to FixedBytes"
  end.

(** [[b; n]] *)
Definition array_repeat (n : nat) (b : byte) : FixedBytes (Z.of_nat n).
Proof.
  refine (array_of_list _ (replicate n b) _). by rewrite length_replicate.
Defined.

(** [<[u8; n]>::default()] *)
Definition array_default (n : nat) : FixedBytes (Z.of_nat n) := array_repeat n x00.

(** An array literal of four bytes. *)
Definition bytes4 (a b c d : byte) : FixedBytes 4 := @mkFixedBytes 4 [a; b; c; d] I.

(** The bytes of [a] followed by those of [b]: what two [copy_from_slice] into
    the two halves of an array leave in it. *)
Definition array_concat {n m : Z} (a : FixedBytes n) (b : FixedBytes m) :
  FixedBytes (n + m).
Proof.
  refine (array_of_list _ (fb_bytes a ++ fb_bytes b) _).
  rewrite length_app, Nat2Z.inj_add.
  by rewrite (bool_decide_unpack _ (fb_length a)), (bool_decide_unpack _ (fb_length b)).
Defined.

(** [a[..k]] *)
Definition array_prefix {n : Z} (k : Z) (a : FixedBytes n) :
  FixedBytes (Z.min (Z.max 0 k) n).
Proof.
  refine (array_of_list _ (take (Z.to_nat k) (fb_bytes a)) _). rewrite length_take.
  pose proof (bool_decide_unpack _ (fb_length a)). lia.
Defined.

Lemma fb_len {n} (a : FixedBytes n) : Z.of_nat (length (fb_bytes a)) = n.
Proof. apply (bool_decide_unpack _ (fb_length a)). Qed.

Lemma array_try_from_Some n l (a : FixedBytes n) :
  array_try_from n l = Some a <-> fb_bytes a = l.
Proof.
  unfold array_try_from. destruct (decide _) as [H|H]; split.
  - by intros [= <-].
  - intros <-. f_equal. by apply fb_eq.
  - done.
  - intros <-. destruct H. apply fb_length.
Qed.

Lemma array_try_from_None n l :
  array_try_from n l = None <-> Z.of_nat (length l) <> n.
Proof.
  unfold array_try_from. destruct (decide _) as [H|H]; split; try done.
  - pose proof (bool_decide_unpack _ H). done.
  - intros _ Hl. apply H. by apply bool_decide_pack.
Qed.

Lemma array_try_from_bytes {n} (a : FixedBytes n) :
  array_try_from n (fb_bytes a) = Some a.
Proof. by apply array_try_from_Some. Qed.

(** ** Strings

    A Rust [String] is modelled by its UTF-8 bytes. *)

(** [s.strip_prefix(p)] *)
Fixpoint strip_prefix (p s : string) : option string :=
  match p, s with
  | EmptyString, _ => Some s
  | String a p', String b s' =>
      if Ascii.eqb a b then strip_prefix p' s' else None
  | String _ _, EmptyString => None
  end.

Fixpoint trim_start_matches_fuel (fuel : nat) (p s : string) : string :=
  match fuel with
  | O => s
  | S fuel' =>
      match strip_prefix p s with
      | Some s' => trim_start_matches_fuel fuel' p s'
      | None => s
      end
  end.

(** [s.trim_start_matches(p)]: removes the prefix as often as it occurs.  For a
    non-empty [p] every removal shortens [s], so its length is enough fuel. *)
Definition trim_start_matches (p s : string) : string :=
  trim_start_matches_fuel (String.length s) p s.

(** ** Lemmas on bytes and little-endian encodings *)

Lemma Z_of_byte_range b : 0 <= Z_of_byte b < 256.
Proof.
  unfold Z_of_byte. pose proof (Byte.to_N_bounded b). lia.
Qed.

Lemma Z_of_byte_of_Z z : Z_of_byte (byte_of_Z z) = z mod 256.
Proof.
  unfold byte_of_Z, Z_of_byte.
  pose proof (Z.mod_pos_bound z 256 ltac:(lia)) as Hz.
  destruct (Byte.of_N (Z.to_N (z mod 256))) as [b|] eqn:E; simpl.
  - apply Byte.to_of_N in E. rewrite E. lia.
  - apply Byte.of_N_None_iff in E. lia.
Qed.

Lemma length_to_le_bytes n z : length (to_le_bytes n z) = n.
Proof. revert z; induction n as [|n IH]; intros z; simpl; [done|by rewrite IH]. Qed.

Lemma from_to_le_bytes n z :
  from_le_bytes (to_le_bytes n z) = z mod 256 ^ Z.of_nat n.
Proof.
  revert z. induction n as [|n IH]; intros z; cbn [to_le_bytes from_le_bytes].
  - by rewrite Z.mod_1_r.
  - rewrite IH, Z_of_byte_of_Z, Nat2Z.inj_succ, Z.pow_succ_r by lia.
    rewrite Z.mul_comm with (n := 256) (m := 256 ^ Z.of_nat n).
    rewrite (Z.mul_comm (256 ^ Z.of_nat n)), Z.rem_mul_r by lia. lia.
Qed.

Lemma from_le_bytes_range l : 0 <= from_le_bytes l < 256 ^ Z.of_nat (length l).
Proof.
  induction l as [|b l IH]; cbn [from_le_bytes length]; [by rewrite Z.pow_0_r|].
  pose proof (Z_of_byte_range b). rewrite Nat2Z.inj_succ, Z.pow_succ_r by lia. lia.
Qed.

Lemma to_le_bytes_inj n x y :
  0 <= x < 256 ^ Z.of_nat n -> 0 <= y < 256 ^ Z.of_nat n ->
  to_le_bytes n x = to_le_bytes n y -> x = y.
Proof.
  intros Hx Hy H. apply (f_equal from_le_bytes) in H.
  rewrite !from_to_le_bytes, !Z.mod_small in H by done. done.
Qed.

Lemma app_inj_length {A} (a b c d : list A) :
  length a = length c -> a ++ b = c ++ d -> a = c /\ b = d.
Proof. intros Hl H. by apply app_inj_1. Qed.

(** ** Lemmas on results *)

Ltac destruct_ex :=
  repeat match goal with
  | H : exists _, _ |- _ => destruct H
  | H : _ /\ _ |- _ => destruct H
  end.

Lemma ok_Some {A E} (r : result A E) a : ok r = Some a <-> r = Ok a.
Proof. destruct r; simpl; split; intros; destruct_ex; simplify_eq; eauto. Qed.

Lemma ok_or_Ok {A E} (e : E) (o : option A) a : ok_or e o = Ok a <-> o = Some a.
Proof. destruct o; simpl; split; intros; simplify_eq; eauto. Qed.

Lemma map_err_Ok {A E F} (f : E -> F) (r : result A E) a :
  map_err f r = Ok a <-> r = Ok a.
Proof. destruct r; simpl; split; intros; destruct_ex; simplify_eq; eauto. Qed.

Lemma map_ok_Ok {A B E} (f : A -> B) (r : result A E) b :
  map_ok f r = Ok b <-> exists a, r = Ok a /\ f a = b.
Proof. destruct r; simpl; split; intros; destruct_ex; simplify_eq; eauto. Qed.

Lemma and_then_Ok {A B E} (r : result A E) (k : A -> result B E) b :
  and_then r k = Ok b <-> exists a, r = Ok a /\ k a = Ok b.
Proof. destruct r; simpl; split; intros; destruct_ex; simplify_eq; eauto. Qed.

(** [collect] succeeds exactly when every element converts, and then element
    by element. *)
Lemma collect_results_Ok {A B E} (f : A -> result B E) l l' :
  collect_results f l = Ok l' <-> Forall2 (fun a b => f a = Ok b) l l'.
Proof.
  revert l'. induction l as [|a l IH]; intros l'; simpl.
  - split; [intros [= <-]; constructor | by inversion 1].
  - rewrite and_then_Ok. setoid_rewrite map_ok_Ok. setoid_rewrite IH. split.
    + intros (b & Hb & l'' & Hl & <-). by constructor.
    + inversion 1; subst. eauto.
Qed.

Lemma collect_results_iff {A B E} (f : A -> result B E) (P : A -> B -> Prop) l l' :
  (forall a b, f a = Ok b <-> P a b) -> collect_results f l = Ok l' <-> Forall2 P l l'.
Proof.
  intros Hf. rewrite collect_results_Ok. split; intros Hl; (eapply Forall2_impl; [exact Hl|]);
    intros a b; apply Hf.
Qed.

(** On failure the reported error is the one of the first bad element. *)
Lemma collect_results_Err {A B E} (f : A -> result B E) l e :
  collect_results f l = Err e <->
  exists l1 a l2,
    l = l1 ++ a :: l2 /\ Forall (fun x => is_ok (f x) = true) l1 /\ f a = Err e.
Proof.
  induction l as [|a l IH]; cbn [collect_results].
  - split; [done|]. intros ([|x l1] & b & l2 & Hl & _); discriminate.
  - destruct (f a) as [b|e'] eqn:Ha; cbn [and_then].
    + assert (map_ok (cons b) (collect_results f l) = Err e <->
              collect_results f l = Err e) as ->
        by (destruct (collect_results f l); simpl; intuition congruence).
      rewrite IH. split.
      * intros (l1 & a' & l2 & -> & Hl1 & Ha'). exists (a :: l1), a', l2.
        split; [done|]. split; [|done]. constructor; [by rewrite Ha|done].
      * intros ([|x l1] & a' & l2 & [= -> ->] & Hl1 & Ha'); [congruence|].
        inversion Hl1; subst. eauto 10.
    + split.
      * intros [= ->]. exists [], a, l. eauto.
      * intros ([|x l1] & a' & l2 & [= -> ->] & Hl1 & Ha'); [congruence|].
        inversion Hl1 as [|? ? Hx]; subst. by rewrite Ha in Hx.
Qed.

(** ** Arithmetic on [u64] *)

Lemma u64_add_fits p a b : a + b < u64_modulus -> u64_add p a b = Done (a + b).
Proof. intros H. unfold u64_add. by rewrite (proj2 (Z.ltb_lt _ _) H). Qed.

Lemma u64_rem_pos a b : b <> 0 -> u64_rem a b = Done (a mod b).
Proof. intros H. unfold u64_rem. by rewrite (proj2 (Z.eqb_neq _ _) H). Qed.

Lemma u64_div_pos a b : b <> 0 -> u64_div a b = Done (a / b).
Proof. intros H. unfold u64_div. by rewrite (proj2 (Z.eqb_neq _ _) H). Qed.

(** ** Automation *)

Create HintDb relay.
Create Rewrite HintDb relay.

#[export] Hint Resolve fb_len Z_of_byte_range length_to_le_bytes : relay.
#[export] Hint Rewrite @fb_len length_to_le_bytes @array_try_from_bytes : relay.
#[export] Hint Rewrite u64_add_fits u64_rem_pos u64_div_pos using (lia || done) : relay.

(** Case analysis on the next test the goal is stuck on, closing the branches
    that contradict the hypotheses. *)
Ltac case_next :=
  match goal with
  | |- context [match ?x with _ => _ end] =>
      lazymatch x with
      | context [match _ with _ => _ end] => fail
      | _ => let E := fresh "E" in destruct x eqn:E; simplify_eq/=
      end
  end.

Ltac case_next_in H :=
  match type of H with
  | context [match ?x with _ => _ end] =>
      lazymatch x with
      | context [match _ with _ => _ end] => fail
      | _ => let E := fresh "E" in destruct x eqn:E; simplify_eq/=
      end
  end.

(** ** Collisions

    A hash function cannot be injective.  A theorem that needs it to be exhibits,
    in the case where the conclusion fails, the two inputs that collide. *)
Definition collision {A B} (f : A -> B) (x y : A) : Prop := x <> y /\ f x = f y.

Lemma eq_or_collision {A B} `{EqDecision A} (f : A -> B) x y :
  f x = f y -> x = y \/ collision f x y.
Proof. intros Hf. destruct (decide (x = y)); [by left|by right]. Qed.
