(* ===== verification/Effects.v ===== *)
(** * Effectful code, its sequential runs and its interleavings

    The asynchronous functions of the relay are programs over a signature of
    atomic operations: the methods of the [Storage] and [Auctioneer] traits, the
    calls to the beacon node, the allocation of an [Arc].  A program is a finite
    tree ([prog]); [run] executes it alone, [pool_step] interleaves the
    operations of any number of programs, as the tokio runtime does with the
    tasks it has spawned: between two operations of one task, any other task may
    run. *)

From S2P Require Import Prelude.

Section prog.
Context {E : Type -> Type}.

(** A task: it has returned, it has panicked, or it is about to perform the
    operation [e]. *)
Inductive prog (R : Type) : Type :=
| Ret (r : R)
| Panic (msg : string)
| Vis {X : Type} (e : E X) (k : X -> prog R).
Arguments Ret {R} r.
Arguments Panic {R} msg.
Arguments Vis {R X} e k.

Fixpoint prog_bind {A B} (p : prog A) (f : A -> prog B) : prog B :=
  match p with
  | Ret a => f a
  | Panic msg => Panic msg
  | Vis e k => Vis e (fun x => prog_bind (k x) f)
  end.

#[export] Instance prog_mret : MRet prog := @Ret.
#[export] Instance prog_mbind : MBind prog := fun _ _ f p => prog_bind p f.

(** Perform one operation. *)
Definition perform {X} (e : E X) : prog X := Vis e Ret.

(** Pure code that may panic, as a task. *)
Definition lift_outcome {A} (o : outcome A) : prog A :=
  match o with Done a => Ret a | Panicked msg => Panic msg end.

(** [return Err(e)] *)
Definition throw {A Er} (e : Er) : prog (result A Er) := Ret (Err e).

(** [if b { return Err(e); }] *)
Definition reject_if {Er} (b : bool) (e : Er) : prog (result unit Er) :=
  if b then throw e else Ret (Ok tt).

Section run.
Context {W : Type}.

(** The meaning of every operation on the shared state. *)
Definition handler : Type := forall X, E X -> W -> X * W.

Variable h : handler.

(** Run a task alone. *)
Fixpoint run {R} (p : prog R) (w : W) : outcome R * W :=
  match p with
  | Ret r => (Done r, w)
  | Panic msg => (Panicked msg, w)
  | Vis e k => let '(x, w') := h _ e w in run (k x) w'
  end.

Definition run_state {R} (p : prog R) (w : W) : W := snd (run p w).
Definition run_value {R} (p : prog R) (w : W) : outcome R := fst (run p w).

(** One operation of one task. *)
Definition task_step {R} (p : prog R) (w : W) : option (prog R * W) :=
  match p with
  | Ret _ | Panic _ => None
  | Vis e k => let '(x, w') := h _ e w in Some (k x, w')
  end.

(** A pool of tasks over a shared state. *)
Definition pool (R : Type) : Type := list (prog R) * W.

Inductive pool_step {R} : pool R -> pool R -> Prop :=
| pool_step_task i ts w p p' w' :
    ts !! i = Some p -> task_step p w = Some (p', w') ->
    pool_step (ts, w) (<[i := p']> ts, w').

(** Run the pool under an explicit schedule: the numbers of the tasks that take
    the next steps. *)
Fixpoint run_schedule {R} (sched : list nat) (c : pool R) : option (pool R) :=
  match sched with
  | [] => Some c
  | i :: sched' =>
      let '(ts, w) := c in
      p ← ts !! i;
      '(p', w') ← task_step p w;
      run_schedule sched' (<[i := p']> ts, w')
  end.

(** Run one task of the pool, for at most [fuel] operations. *)
Fixpoint run_task {R} (fuel : nat) (i : nat) (c : pool R) : pool R :=
  match fuel with
  | O => c
  | S fuel' =>
      match run_schedule [i] c with
      | Some c' => run_task fuel' i c'
      | None => c
      end
  end.

End run.
End prog.

Arguments prog E R : clear implicits.
Arguments Ret {E R} r.
Arguments Panic {E R} msg.
Arguments Vis {E R X} e k.
Arguments handler E W : clear implicits.

(** A task over one signature, called from a task over another. *)
Fixpoint prog_map {E F : Type -> Type} (f : forall X, E X -> F X) {R} (p : prog E R) :
    prog F R :=
  match p with
  | Ret r => Ret r
  | Panic msg => Panic msg
  | Vis e k => Vis (f _ e) (fun x => prog_map f (k x))
  end.

(** ** Runs compose *)

Section run_lemmas.
Context {E : Type -> Type} {W : Type} (h : handler E W).

Lemma run_bind {A B} (p : prog E A) (f : A -> prog E B) w :
  run h (prog_bind p f) w =
  match run h p w with
  | (Done a, w') => run h (f a) w'
  | (Panicked msg, w') => (Panicked msg, w')
  end.
Proof.
  revert w. induction p as [a|msg|X e k IH]; intros w; simpl; [done..|].
  destruct (h X e w) as [x w']. apply IH.
Qed.

Lemma run_bind_mbind {A B} (p : prog E A) (f : A -> prog E B) w :
  run h (p ≫= f) w =
  match run h p w with
  | (Done a, w') => run h (f a) w'
  | (Panicked msg, w') => (Panicked msg, w')
  end.
Proof. apply run_bind. Qed.

Lemma run_lift {A} (o : outcome A) w :
  run h (lift_outcome o) w = (o, w).
Proof. by destruct o. Qed.

(** A called task runs on its part of the caller's state. *)
Lemma run_map {F W2} (h2 : handler F W2) (f : forall X, E X -> F X)
    (get : W2 -> W) (put : W -> W2 -> W2) {R} (p : prog E R) v :
  (forall w v, get (put w v) = w) -> (forall w1 w2 v, put w2 (put w1 v) = put w2 v) ->
  (forall v, put (get v) v = v) ->
  (forall X (e : E X) v, h2 X (f X e) v =
     (fst (h X e (get v)), put (snd (h X e (get v))) v)) ->
  run h2 (prog_map f p) v =
  (fst (run h p (get v)), put (snd (run h p (get v))) v).
Proof.
  intros Hgp Hpp Hpg Hstep. revert v. induction p as [r|msg|X e k IH]; intros v; simpl.
  - by rewrite Hpg.
  - by rewrite Hpg.
  - rewrite Hstep, IH. destruct (h X e (get v)) as [x w]; simpl. by rewrite Hgp, Hpp.
Qed.

(** Two handlers related step by step give related runs of every program. *)
Lemma run_refines {W2} (h2 : handler E W2) (rel : W -> W2 -> Prop) {R} (p : prog E R) w v :
  (forall X (e : E X) w v, rel w v ->
     fst (h X e w) = fst (h2 X e v) /\ rel (snd (h X e w)) (snd (h2 X e v))) ->
  rel w v ->
  run_value h p w = run_value h2 p v /\ rel (run_state h p w) (run_state h2 p v).
Proof.
  intros Hstep. unfold run_value, run_state. revert w v.
  induction p as [r|msg|X e k IH]; intros w v Hrel; simpl; [done..|].
  destruct (Hstep X e w v Hrel) as [Hx Hrel'].
  destruct (h X e w) as [x w'], (h2 X e v) as [x2 v']; simpl in *; subst x2. by apply IH.
Qed.

(** A schedule is a path of the step relation. *)
Lemma run_schedule_steps {R} sched (c c' : pool R) :
  run_schedule h sched c = Some c' -> rtc (pool_step h) c c'.
Proof.
  revert c. induction sched as [|i sched IH]; intros [ts w]; simpl.
  - intros [= <-]. constructor.
  - destruct (ts !! i) as [p|] eqn:Hp; simpl; [|done].
    destruct (task_step h p w) as [[p' w']|] eqn:Hs; simpl; [|done].
    intros H. eapply rtc_l; [by econstructor|]. by apply IH.
Qed.

Lemma run_task_steps {R} fuel i (c : pool R) : rtc (pool_step h) c (run_task h fuel i c).
Proof.
  revert c. induction fuel as [|fuel IH]; intros c; [constructor|]. cbn [run_task].
  destruct (run_schedule h [i] c) as [c'|] eqn:Hc; [|constructor].
  etrans; [by eapply run_schedule_steps|apply IH].
Qed.

End run_lemmas.

(** ** Invariants of interleaved tasks

    [safe post p]: whatever answers allowed by [resp] the task [p] receives, every
    operation it performs satisfies [pre], and the value it returns satisfies
    [post]. *)

Section safe.
Context {E : Type -> Type} {W : Type} (h : handler E W).
Variable pre : forall X, E X -> Prop.
Variable resp : forall X, E X -> X -> Prop.

Fixpoint safe {R} (post : R -> Prop) (p : prog E R) : Prop :=
  match p with
  | Ret r => post r
  | Panic _ => True
  | Vis e k => pre _ e /\ forall x, resp _ e x -> safe post (k x)
  end.

Lemma safe_bind {A B} (mid : A -> Prop) (post : B -> Prop) (p : prog E A)
    (f : A -> prog E B) :
  safe mid p -> (forall a, mid a -> safe post (f a)) -> safe post (prog_bind p f).
Proof.
  induction p as [a|msg|X e k IH]; simpl; [by eauto..|].
  intros [Hpre Hk] Hf. split; [done|]. intros x Hx. by apply IH; [apply Hk|].
Qed.

Lemma safe_perform {A X} (post : A -> Prop) (e : E X) (f : X -> prog E A) :
  pre _ e -> (forall x, resp _ e x -> safe post (f x)) ->
  safe post (perform e ≫= f).
Proof. done. Qed.

Lemma safe_lift {A B} (post : B -> Prop) (o : outcome A) (f : A -> prog E B) :
  (forall a, o = Done a -> safe post (f a)) -> safe post (lift_outcome o ≫= f).
Proof. destruct o as [a|msg]; simpl; intros Hf; [by apply Hf|done]. Qed.

Lemma safe_try_pure {A B Er} (post : result B Er -> Prop) (r : result A Er)
    (f : A -> prog E (result B Er)) :
  (forall e, r = Err e -> post (Err e)) -> (forall a, r = Ok a -> safe post (f a)) ->
  safe post (try_bind (Ret r) f).
Proof. destruct r as [a|e]; simpl; intros Herr Hf; [by apply Hf|by apply Herr]. Qed.

Lemma safe_reject {B Er} (post : result B Er -> Prop) (b : bool) (e : Er)
    (f : unit -> prog E (result B Er)) :
  (b = true -> post (Err e)) -> (b = false -> safe post (f tt)) ->
  safe post (try_bind (reject_if b e) f).
Proof. destruct b; simpl; eauto. Qed.

Lemma safe_impl {R} (post post' : R -> Prop) (p : prog E R) :
  (forall r, post r -> post' r) -> safe post p -> safe post' p.
Proof.
  intros Himp. induction p as [r|msg|X e k IH]; simpl; [eauto..|].
  intros [Hpre Hk]. split; [done|]. intros x Hx. by apply IH, Hk.
Qed.

(** What the operations owe to the invariant [I]. *)
Definition handler_preserves (I : W -> Prop) : Prop :=
  forall X (e : E X) w, I w -> pre _ e ->
    resp _ e (fst (h _ e w)) /\ I (snd (h _ e w)).

Lemma safe_run {R} (I : W -> Prop) (post : R -> Prop) (p : prog E R) w :
  handler_preserves I -> safe post p -> I w ->
  I (run_state h p w) /\ match run_value h p w with Done r => post r | Panicked _ => True end.
Proof.
  intros Hh. revert w. unfold run_state, run_value.
  induction p as [r|msg|X e k IH]; intros w; simpl; [done..|].
  intros [Hpre Hk] Hw. specialize (Hh X e w Hw Hpre) as [Hr HI].
  destruct (h X e w) as [x w']; simpl in *. apply IH; [by apply Hk|done].
Qed.

Definition pool_safe {R} (post : R -> Prop) (ts : list (prog E R)) : Prop :=
  Forall (safe post) ts.

(** One step of the pool keeps the invariant and the safety of every task. *)
Lemma pool_step_invariant {R} (I : W -> Prop) (post : R -> Prop) (c c' : pool R) :
  handler_preserves I -> pool_step h c c' ->
  pool_safe post (fst c) /\ I (snd c) -> pool_safe post (fst c') /\ I (snd c').
Proof.
  intros Hh [i ts w p p' w' Hp Ht] [Hs HI]; simpl in *.
  pose proof (proj1 (Forall_lookup _ _) Hs _ _ Hp) as Hsafe.
  destruct p as [r|msg|X e k]; simplify_eq/=.
  destruct Hsafe as [Hpre Hk]. destruct (Hh X e w HI Hpre) as [Hresp HI'].
  destruct (h X e w) as [x w'']; simplify_eq/=. split; [|done].
  apply Forall_insert; auto.
Qed.

(** The invariant rule: whatever the interleaving, the invariant holds in every
    reachable state, and every task that has returned satisfies [post]. *)
Lemma pool_invariant {R} (I : W -> Prop) (post : R -> Prop) (c c' : pool R) :
  handler_preserves I -> pool_safe post (fst c) -> I (snd c) ->
  rtc (pool_step h) c c' -> pool_safe post (fst c') /\ I (snd c').
Proof.
  intros Hh Hs HI Hrtc. assert (H := conj Hs HI). clear Hs HI. revert H.
  induction Hrtc as [c|c1 c2 c3 Hstep _ IH]; [done|].
  intros H. apply IH. by eapply pool_step_invariant.
Qed.

Lemma pool_safe_returned {R} (post : R -> Prop) (ts : list (prog E R)) i r :
  pool_safe post ts -> ts !! i = Some (Ret r) -> post r.
Proof. intros Hs Hi. exact (proj1 (Forall_lookup _ _) Hs _ _ Hi). Qed.

End safe.

(** ** Tasks that return

    [returns post p]: whatever its operations answer, the task [p] returns, without a
    panic, a value that satisfies [post]. *)

Section returns.
Context {E : Type -> Type}.

Fixpoint returns {R} (post : R -> Prop) (p : prog E R) : Prop :=
  match p with
  | Ret r => post r
  | Panic _ => False
  | Vis e k => forall x, returns post (k x)
  end.

Lemma returns_bind {A B} (mid : A -> Prop) (post : B -> Prop) (p : prog E A)
    (f : A -> prog E B) :
  returns mid p -> (forall a, mid a -> returns post (f a)) -> returns post (p ≫= f).
Proof.
  change (p ≫= f) with (prog_bind p f).
  induction p as [a|msg|X e k IH]; simpl; [by eauto|done|]. eauto.
Qed.

Lemma returns_op {X B} (post : B -> Prop) (e : E X) (f : X -> prog E B) :
  (forall x, returns post (f x)) -> returns post (perform e ≫= f).
Proof. done. Qed.

Lemma returns_lift {A B} (post : B -> Prop) (a : A) o (f : A -> prog E B) :
  o = Done a -> returns post (f a) -> returns post (lift_outcome o ≫= f).
Proof. by intros ->. Qed.

Lemma returns_try_pure {A B Er} (post : result B Er -> Prop) (r : result A Er)
    (f : A -> prog E (result B Er)) :
  (forall e, r = Err e -> post (Err e)) -> (forall a, r = Ok a -> returns post (f a)) ->
  returns post (try_bind (Ret r) f).
Proof. destruct r as [a|e]; simpl; intros Herr Hf; [by apply Hf|by apply Herr]. Qed.

Lemma returns_reject {B Er} (post : result B Er -> Prop) (b : bool) (e : Er)
    (f : unit -> prog E (result B Er)) :
  (b = true -> post (Err e)) -> (b = false -> returns post (f tt)) ->
  returns post (try_bind (reject_if b e) f).
Proof. destruct b; simpl; eauto. Qed.

Lemma returns_impl {R} (post post' : R -> Prop) (p : prog E R) :
  (forall r, post r -> post' r) -> returns post p -> returns post' p.
Proof. intros Himp. induction p as [r|msg|X e k IH]; simpl; eauto. Qed.

Lemma returns_run {W} (h : handler E W) {R} (post : R -> Prop) (p : prog E R) w :
  returns post p -> exists r w', run h p w = (Done r, w') /\ post r.
Proof.
  revert w. induction p as [r|msg|X e k IH]; simpl; intros w Hp; [by eauto|done|].
  destruct (h X e w) as [x w']. by apply IH.
Qed.

End returns.

Lemma returns_map {E F : Type -> Type} (f : forall X, E X -> F X) {R} (post : R -> Prop)
    (p : prog E R) : returns post p -> returns post (prog_map f p).
Proof. induction p as [r|msg|X e k IH]; simpl; eauto. Qed.

(** Every task is safe when nothing is asked of it. *)
Lemma safe_any {E R} (resp : forall X, E X -> X -> Prop) (p : prog E R) :
  safe (fun _ _ => True) resp (fun _ => True) p.
Proof. induction p as [r|msg|X e k IH]; simpl; [done..|]. by split. Qed.

(** A task that is safe in its own signature is safe in its caller's. *)
Lemma safe_map {E F : Type -> Type} (f : forall X, E X -> F X)
    (preE : forall X, E X -> Prop) (respE : forall X, E X -> X -> Prop)
    (preF : forall X, F X -> Prop) (respF : forall X, F X -> X -> Prop)
    {R} (post : R -> Prop) (p : prog E R) :
  (forall X e, preE X e -> preF X (f X e)) ->
  (forall X e x, respF X (f X e) x -> respE X e x) ->
  safe preE respE post p -> safe preF respF post (prog_map f p).
Proof.
  intros Hpre Hresp. induction p as [r|msg|X e k IH]; simpl; [done..|].
  intros [He Hk]. split; [by apply Hpre|]. intros x Hx. by apply IH, Hk, Hresp.
Qed.
