(* ===== verification/Text.v ===== *)
(** * The standard library on text

    What the gateway and the relay service use of Rust's [str] and [String]:
    UTF-8 validation and lossy decoding, lines, trimming, and the parsing of
    integers.  A string is its UTF-8 bytes. *)

From S2P Require Import Prelude.

(** ** UTF-8 *)

Definition in_range (lo hi : Z) (b : byte) : bool := (lo <=? Z_of_byte b) && (Z_of_byte b <=? hi).
Definition is_cont : byte -> bool := in_range 128 191.

(** What follows the first byte of a well-formed character: the tests of its
    continuation bytes, or [None] for a byte that starts no character. *)
Definition utf8_tail (b : byte) : option (list (byte -> bool)) :=
  let z := Z_of_byte b in
  if z <? 128 then Some []
  else if (194 <=? z) && (z <=? 223) then Some [is_cont]
  else if z =? 224 then Some [in_range 160 191; is_cont]
  else if ((225 <=? z) && (z <=? 236)) || ((238 <=? z) && (z <=? 239)) then Some [is_cont; is_cont]
  else if z =? 237 then Some [in_range 128 159; is_cont]
  else if z =? 240 then Some [in_range 144 191; is_cont; is_cont]
  else if (241 <=? z) && (z <=? 243) then Some [is_cont; is_cont; is_cont]
  else if z =? 244 then Some [in_range 128 143; is_cont; is_cont]
  else None.

(** The longest prefix of [l] that passes the tests, what is left, and whether all
    the tests passed. *)
Fixpoint utf8_take (tests : list (byte -> bool)) (l : list byte) : list byte * list byte * bool :=
  match tests, l with
  | [], _ => ([], l, true)
  | _ :: _, [] => ([], [], false)
  | t :: tests', b :: l' =>
      if t b then let '(taken, rest, good) := utf8_take tests' l' in (b :: taken, rest, good)
      else ([], l, false)
  end.

(** U+FFFD *)
Definition replacement : list byte := [xef; xbf; xbd].

Fixpoint utf8_lossy_fuel (fuel : nat) (l : list byte) : list byte :=
  match fuel, l with
  | O, _ | _, [] => []
  | S fuel', b :: l' =>
      match utf8_tail b with
      | None => replacement ++ utf8_lossy_fuel fuel' l'
      | Some tests =>
          let '(taken, rest, good) := utf8_take tests l' in
          (if good then b :: taken else replacement) ++ utf8_lossy_fuel fuel' rest
      end
  end.

(** [String::from_utf8_lossy]: every maximal ill-formed sequence becomes one
    replacement character.  Every step consumes a byte. *)
Definition from_utf8_lossy (l : list byte) : string :=
  String.string_of_list_byte (utf8_lossy_fuel (length l) l).

Fixpoint utf8_valid_fuel (fuel : nat) (l : list byte) : bool :=
  match fuel, l with
  | _, [] => true
  | O, _ => false
  | S fuel', b :: l' =>
      match utf8_tail b with
      | None => false
      | Some tests =>
          let '(_, rest, good) := utf8_take tests l' in good && utf8_valid_fuel fuel' rest
      end
  end.

(** [str::from_utf8(..).ok()] *)
Definition from_utf8 (l : list byte) : option string :=
  if utf8_valid_fuel (length l) l then Some (String.string_of_list_byte l) else None.

(** ** Lines *)

Definition newline : ascii := "010"%char.

(** [s.find('\n')], with the text before and after the newline. *)
Fixpoint split_newline (s : string) : option (string * string) :=
  match s with
  | EmptyString => None
  | String c s' =>
      if Ascii.eqb c newline then Some ("", s')
      else match split_newline s' with
           | Some (before, after) => Some (String c before, after)
           | None => None
           end
  end.

Fixpoint strip_cr (s : string) : string :=
  match s with
  | EmptyString => ""
  | String c EmptyString => if Ascii.eqb c "013"%char then "" else s
  | String c s' => String c (strip_cr s')
  end.

Fixpoint lines_fuel (fuel : nat) (s : string) : list string :=
  match fuel, s with
  | O, _ | _, EmptyString => []
  | S fuel', _ =>
      match split_newline s with
      | Some (line, rest) => strip_cr line :: lines_fuel fuel' rest
      | None => [s]
      end
  end.

(** [s.lines()]: the lines without their endings [\n] or [\r\n]. *)
Definition lines (s : string) : list string := lines_fuel (S (String.length s)) s.

(** ** Trimming *)

(** The UTF-8 encodings of the characters with the property White_Space. *)
Definition whitespace : list (list byte) :=
  map (fun b => [b]) [x09; x0a; x0b; x0c; x0d; x20] ++
  [[xc2; x85]; [xc2; xa0]; [xe1; x9a; x80]] ++
  map (fun b => [xe2; x80; b])
    [x80; x81; x82; x83; x84; x85; x86; x87; x88; x89; x8a; xa8; xa9; xaf] ++
  [[xe2; x81; x9f]; [xe3; x80; x80]].

Fixpoint strip_list (p l : list byte) : option (list byte) :=
  match p, l with
  | [], _ => Some l
  | a :: p', b :: l' => if decide (a = b) then strip_list p' l' else None
  | _ :: _, [] => None
  end.

Fixpoint strip_any (ps : list (list byte)) (l : list byte) : option (list byte) :=
  match ps with
  | [] => None
  | p :: ps' => match strip_list p l with Some l' => Some l' | None => strip_any ps' l end
  end.

Fixpoint trim_list (fuel : nat) (ps : list (list byte)) (l : list byte) : list byte :=
  match fuel with
  | O => l
  | S fuel' => match strip_any ps l with Some l' => trim_list fuel' ps l' | None => l end
  end.

(** [s.trim()]: no encoding is empty, so the length is enough fuel. *)
Definition trim (s : string) : string :=
  let l := String.list_byte_of_string s in
  let l := trim_list (length l) whitespace l in
  String.string_of_list_byte (rev (trim_list (length l) (map (@rev byte) whitespace) (rev l))).

(** ** Integers *)

Definition digit (c : ascii) : option Z :=
  let n := Z.of_nat (nat_of_ascii c) in
  if (48 <=? n) && (n <=? 57) then Some (n - 48) else None.

Fixpoint parse_digits (acc : Z) (s : string) : result Z string :=
  match s with
  | EmptyString => Ok acc
  | String c s' =>
      match digit c with
      | None => Err "invalid digit found in string"
      | Some d =>
          if acc * 10 + d <? u64_modulus then parse_digits (acc * 10 + d) s'
          else Err "number too large to fit in target type"
      end
  end.

(** [s.parse::<u64>()] *)
Definition parse_u64 (s : string) : result Z string :=
  match s with
  | EmptyString => Err "cannot parse integer from empty string"
  | String c EmptyString =>
      if Ascii.eqb c "+"%char || Ascii.eqb c "-"%char then Err "invalid digit found in string"
      else parse_digits 0 s
  | String c s' => if Ascii.eqb c "+"%char then parse_digits 0 s' else parse_digits 0 s
  end.

(** [s.starts_with(p)] *)
Definition starts_with (p s : string) : bool :=
  match strip_prefix p s with Some _ => true | None => false end.

(** ** Lemmas *)

Definition is_ascii (b : byte) : bool := Z_of_byte b <? 128.

(** ASCII text decodes to itself, chunk by chunk. *)
Lemma from_utf8_lossy_ascii l :
  Forall (fun b => is_ascii b = true) l ->
  from_utf8_lossy l = String.string_of_list_byte l.
Proof.
  intros Hl. unfold from_utf8_lossy. f_equal.
  induction Hl as [|b l Hb Hl IH]; [done|]. cbn [length utf8_lossy_fuel].
  unfold is_ascii in Hb. unfold utf8_tail. rewrite Hb. simpl. by rewrite IH.
Qed.

Lemma string_of_list_byte_app l1 l2 :
  String.string_of_list_byte (l1 ++ l2) =
  String.string_of_list_byte l1 +:+ String.string_of_list_byte l2.
Proof.
  unfold String.string_of_list_byte. rewrite List.map_app.
  induction (List.map ascii_of_byte l1) as [|c l IH]; [done|]. cbn. by rewrite IH.
Qed.

Lemma string_app_assoc (a b c : string) : (a +:+ b) +:+ c = a +:+ (b +:+ c).
Proof.
  induction a as [|x a IH]; [done|].
  change (String x ((a +:+ b) +:+ c) = String x (a +:+ (b +:+ c))). by rewrite IH.
Qed.

Lemma string_app_nil_r (a : string) : a +:+ "" = a.
Proof.
  induction a as [|x a IH]; [done|]. change (String x (a +:+ "") = String x a). by rewrite IH.
Qed.

Lemma split_newline_app s t line rest :
  split_newline s = Some (line, rest) -> split_newline (s +:+ t) = Some (line, rest +:+ t).
Proof.
  revert line. induction s as [|c s IH]; intros line; [done|].
  change (String c s +:+ t) with (String c (s +:+ t)). simpl.
  destruct (Ascii.eqb c newline); [by intros [= <- <-]|].
  destruct (split_newline s) as [[b a]|]; [|done].
  intros [= <- <-]. by rewrite (IH b eq_refl).
Qed.

Lemma split_newline_length s line rest :
  split_newline s = Some (line, rest) ->
  String.length s = S (String.length line + String.length rest).
Proof.
  revert line. induction s as [|c s IH]; intros line; simpl; [done|].
  destruct (Ascii.eqb c newline); [by intros [= <- <-]|].
  destruct (split_newline s) as [[b a]|]; [|done].
  intros [= <- <-]. simpl. by rewrite (IH b eq_refl).
Qed.

(** A parsed integer fits. *)
Lemma parse_digits_range acc s z :
  0 <= acc < u64_modulus -> parse_digits acc s = Ok z -> u64_range z.
Proof.
  revert acc. induction s as [|c s IH]; intros acc Hacc; simpl.
  - by intros [= <-].
  - unfold digit. destruct ((48 <=? _) && _) eqn:Hd; [|done].
    destruct (_ <? u64_modulus) eqn:Hlt; [|done]. apply IH. lia.
Qed.

Lemma parse_u64_range s z : parse_u64 s = Ok z -> u64_range z.
Proof.
  assert (H0 : 0 <= 0 < u64_modulus) by (unfold u64_modulus; lia).
  unfold parse_u64. destruct s as [|c [|d s]]; [done|..].
  - destruct (_ || _); [done|]. by apply parse_digits_range.
  - destruct (Ascii.eqb c "+"); by apply parse_digits_range.
Qed.
