(* ===== verification/External.v ===== *)
(** * The libraries the relay is built on

    The code under [src/] calls libraries that are not part of the repository.
    Each is a class here: its types and functions are parameters of every
    definition that uses them, and the documented behaviour a theorem relies on is
    a second class of laws.  [Concrete.v] instantiates all of them with executable
    functions, on which the hypotheses of the theorems are checked. *)

From S2P Require Import Prelude.

(** [tree_hash::Hash256] *)
Abbreviation Hash256 := (FixedBytes 32).

(** [blst::min_pk] *)
Class Blst : Type := {
  PublicKey : Type;
  SecretKey : Type;
  Signature : Type;
  BLST_ERROR : Type;
  BLST_SUCCESS : BLST_ERROR;
  #[global] PublicKey_eq_dec :: EqDecision PublicKey;
  #[global] PublicKey_countable :: Countable PublicKey;
  #[global] BLST_ERROR_eq_dec :: EqDecision BLST_ERROR;
  blst_error_debug : BLST_ERROR -> string;
  PublicKey_default : PublicKey;
  pk_compress : PublicKey -> FixedBytes 48;
  pk_key_validate : list byte -> result PublicKey BLST_ERROR;
  sk_key_gen : list byte -> list byte -> result SecretKey BLST_ERROR;
  sk_to_bytes : SecretKey -> FixedBytes 32;
  sk_from_bytes : list byte -> result SecretKey BLST_ERROR;
  sk_to_pk : SecretKey -> PublicKey;
  sk_sign : SecretKey -> list byte -> list byte -> list byte -> Signature;
  sig_compress : Signature -> FixedBytes 96;
  sig_from_bytes : list byte -> result Signature BLST_ERROR;
  sig_verify : Signature -> bool -> list byte -> list byte -> list byte ->
    PublicKey -> bool -> BLST_ERROR;
}.

(** The secret keys the library hands out. *)
Definition sk_generated `{Blst} (sk : SecretKey) : Prop :=
  (exists bs, sk_from_bytes bs = Ok sk) \/
  (exists ikm info, sk_key_gen ikm info = Ok sk).

(** The documented behaviour of [blst] the relay relies on: keys and signatures
    survive serialization, and a signature verifies under the public key of the
    secret key that made it. *)
Class BlstLaws `{Blst} : Prop := {
  blst_pk_roundtrip sk : sk_generated sk ->
    pk_key_validate (fb_bytes (pk_compress (sk_to_pk sk))) = Ok (sk_to_pk sk);
  blst_sk_roundtrip sk : sk_generated sk ->
    sk_from_bytes (fb_bytes (sk_to_bytes sk)) = Ok sk;
  blst_sig_roundtrip sk msg dst aug : sk_generated sk ->
    sig_from_bytes (fb_bytes (sig_compress (sk_sign sk msg dst aug))) =
    Ok (sk_sign sk msg dst aug);
  blst_sign_verify sk msg dst aug : sk_generated sk ->
    sig_verify (sk_sign sk msg dst aug) true msg dst aug (sk_to_pk sk) true =
    BLST_SUCCESS;
}.

(** [tree_hash] and [ethereum_types]: [container_root] is the root the derived
    [TreeHash] of a struct computes from the roots of its fields, in order;
    [list_root n] the root of a [VariableList] of bound [n] from the roots of its
    items; [bytes_list_root] and [bytes_vector_root] those of lists and vectors of
    [u8]. *)
Class TreeHashLib : Type := {
  TreeHashType : Type;
  TreeHashType_Basic : TreeHashType;
  TreeHashType_Vector : TreeHashType;
  container_root : list Hash256 -> Hash256;
  list_root : Z -> list Hash256 -> Hash256;
  bytes_list_root : Z -> list byte -> Hash256;
  bytes_vector_root : Z -> list byte -> Hash256;
  u64_root : Z -> Hash256;
  hash256_root : Hash256 -> Hash256;
  array_root : forall n, FixedBytes n -> Hash256;
  array_tree_hash_type : Z -> TreeHashType;
  array_packed_encoding : forall n, FixedBytes n -> outcome (list byte);
  array_packing_factor : Z -> outcome Z;
  hash256_from_str : string -> result Hash256 string;
}.

(** The root of a [Hash256] is the value itself, that of a [u64] its
    little-endian bytes padded to 32. *)
Class TreeHashLaws `{TreeHashLib} : Prop := {
  hash256_root_self h : hash256_root h = h;
  u64_root_bytes z : u64_range z -> fb_bytes (u64_root z) = to_le_bytes 32 z;
}.

(** The crate [hex] and [alloy_primitives::hex]; errors are rendered. *)
Class HexLib : Type := {
  hex_decode : string -> result (list byte) string;
  hex_encode : list byte -> string;
  alloy_hex_decode : string -> result (list byte) string;
  alloy_hex_encode_prefixed : list byte -> string;
}.

(** Both decoders invert their encoder, and hex has two digits per byte. *)
Class HexLaws `{HexLib} : Prop := {
  hex_roundtrip bs : hex_decode (hex_encode bs) = Ok bs;
  alloy_hex_roundtrip bs : alloy_hex_decode (alloy_hex_encode_prefixed bs) = Ok bs;
}.

(** The [tree_hash_root] method of the trait [TreeHash]. *)
Class TreeHash `{TreeHashLib} (T : Type) : Type := tree_hash_root : T -> Hash256.

(** [alloy_primitives] *)
Class Alloy : Type := {
  keccak256 : list byte -> FixedBytes 32;
  b256_from_str : string -> result (FixedBytes 32) string;
  address_from_str : string -> result (FixedBytes 20) string;
  u256_from_str : string -> result Z string;
  u256_to_string : Z -> string;
  u256_from_be_slice : list byte -> outcome Z;
  u256_to_le_bytes : Z -> FixedBytes 32;
}.

(** A parsed [U256] is below 2^256, its 32 little-endian bytes determine it, and
    [from_be_slice] reads up to 32 big-endian bytes and panics on more. *)
Class AlloyLaws `{Alloy} : Prop := {
  u256_from_str_range s v : u256_from_str s = Ok v -> u256_range v;
  u256_from_be_slice_value bs :
    (length bs <= 32)%nat -> u256_from_be_slice bs = Done (from_le_bytes (rev bs));
  u256_from_be_slice_panics bs :
    (32 < length bs)%nat -> exists msg, u256_from_be_slice bs = Panicked msg;
  u256_to_le_bytes_value v : u256_range v -> from_le_bytes (fb_bytes (u256_to_le_bytes v)) = v;
}.

(** [ssz_types]: a [FixedVector<T, n>] holds exactly [n] items and a
    [VariableList<T, n>] at most [n]; errors are rendered. *)
Class SszTypes : Type := {
  fixed_vector_new : forall {T}, Z -> list T -> result (list T) string;
  variable_list_new : forall {T}, Z -> list T -> result (list T) string;
}.

Class SszLaws `{SszTypes} : Prop := {
  fixed_vector_new_Ok T n (l l' : list T) :
    fixed_vector_new n l = Ok l' <-> l' = l /\ Z.of_nat (length l) = n;
  variable_list_new_Ok T n (l l' : list T) :
    variable_list_new n l = Ok l' <-> l' = l /\ Z.of_nat (length l) <= n;
}.

(** [serde_json] on a type of the program. *)
Class JsonSerialize (T : Type) : Type := to_json : T -> result (list byte) string.
Class JsonDeserialize (T : Type) : Type := from_json : string -> result T string.

(** [moka::future::Cache], with the time of the call made explicit:
    [cache_build ttl tti] is
    [Cache::builder().time_to_live(ttl).time_to_idle(tti).build()], [cache_get]
    is [cache.get(&k)] and [cache_or_insert_with_if now k v p] is
    [cache.entry(k).or_insert_with_if(async { v }, p)], returning the value of the
    entry. *)
Class MokaCache (K V C : Type) : Type := {
  cache_build : Z -> Z -> C;
  cache_ttl : C -> Z;
  cache_tti : C -> Z;
  cache_get : Z -> K -> C -> option V * C;
  cache_or_insert_with_if : Z -> K -> V -> (V -> bool) -> C -> V * C;
}.

(** What a [get] at time [t] would answer. *)
Definition cache_live {K V C} `{MokaCache K V C} (t : Z) (k : K) (c : C) : option V :=
  fst (cache_get t k c).

(** The documented behaviour of the cache.  Entries only leave it with time
    ([cache_live_antitone]); a written entry lives for the smaller of the two
    durations ([cache_live_written]); a [get], and an [or_insert_with_if] that
    does not write, can only prolong the life of the entry they read. *)
Class MokaLaws (K V C : Type) `{MokaCache K V C} : Prop := {
  cache_build_policy ttl tti :
    cache_ttl (cache_build ttl tti) = ttl /\ cache_tti (cache_build ttl tti) = tti;
  cache_get_policy now k c :
    cache_ttl (snd (cache_get now k c)) = cache_ttl c /\
    cache_tti (snd (cache_get now k c)) = cache_tti c;
  cache_or_insert_policy now k v p c :
    cache_ttl (snd (cache_or_insert_with_if now k v p c)) = cache_ttl c /\
    cache_tti (snd (cache_or_insert_with_if now k v p c)) = cache_tti c;
  cache_build_empty ttl tti t k : cache_live t k (cache_build ttl tti) = None;
  cache_live_antitone now t k c v :
    now <= t -> cache_live t k c = Some v -> cache_live now k c = Some v;
  cache_get_live now t k k' c :
    now <= t ->
    let c' := snd (cache_get now k c) in
    (forall v, cache_live t k' c = Some v -> cache_live t k' c' = Some v) /\
    (forall v, cache_live t k' c' = Some v -> cache_live now k' c = Some v);
  cache_or_insert_value now k v p c :
    fst (cache_or_insert_with_if now k v p c) =
    match cache_live now k c with
    | Some old => if p old then v else old
    | None => v
    end;
  cache_live_written now t k v p c :
    now <= t ->
    match cache_live now k c with Some old => p old = true | None => True end ->
    cache_live t k (snd (cache_or_insert_with_if now k v p c)) =
    if t <? now + Z.min (cache_ttl c) (cache_tti c) then Some v else None;
  cache_live_kept now t k v p c old :
    now <= t -> cache_live now k c = Some old -> p old = false ->
    let c' := snd (cache_or_insert_with_if now k v p c) in
    (cache_live t k c = Some old -> cache_live t k c' = Some old) /\
    (forall x, cache_live t k c' = Some x -> x = old);
  cache_live_other now t k k' v p c :
    now <= t -> k' <> k ->
    cache_live t k' (snd (cache_or_insert_with_if now k v p c)) = cache_live t k' c;
}.

(** [tokio::time::interval] of a period in seconds, with its documented panic. *)
Class Tokio : Type := { tokio_interval : Z -> outcome unit }.

Class TokioLaws `{Tokio} : Prop := {
  tokio_interval_zero : exists msg, tokio_interval 0 = Panicked msg;
  tokio_interval_positive period : 0 < period -> tokio_interval period = Done tt;
}.

(** [serde_json::Value] *)
#[warnings="-register-all"]
Inductive json : Type :=
| JNull
| JBool (b : bool)
| JNumber (n : string)
| JString (s : string)
| JArray (l : list json)
| JObject (fields : list (string * json)).

(** [resp.json::<T>()] on the bytes of a body, and [serde_json::to_value]. *)
Class JsonBody (T : Type) : Type := json_of_body : list byte -> result T string.
Class JsonValue (T : Type) : Type := to_value : T -> result json string.
