(* ===== verification/Concrete.v ===== *)
(** * Executable interpretations of the external libraries

    One instance per class of [External.v], each proved to satisfy its laws.
    They are not claims about the libraries: they show that the laws can hold
    together, and make every definition of the development executable. *)

From S2P Require Import Prelude External.

(** ** Hashes *)

(** A byte string folded into 16 bits. *)
Definition toy_digest (l : list byte) : Z :=
  foldr (fun b acc => (acc * 31 + Z_of_byte b + 1) mod 65521) 7 l.

Definition le_array (n : nat) (z : Z) : FixedBytes (Z.of_nat n).
Proof.
  refine (array_of_list _ (to_le_bytes n z) _). by rewrite length_to_le_bytes.
Defined.

Definition toy_hash (l : list byte) : Hash256 := le_array 32 (toy_digest l).

(** ** BLS

    A toy scheme: the public key of a secret key is its 32 bytes, written with sixteen
    ones after them so that zeros are not a key, and a signature
    is the key followed by the first 64 bytes of the padded message. *)

Definition pad (n : nat) (l : list byte) : list byte := take n (l ++ replicate n x00).

Lemma length_pad n l : length (pad n l) = n.
Proof. unfold pad. rewrite length_take, length_app, length_replicate. lia. Qed.

Definition pad_array (n : nat) (l : list byte) : FixedBytes (Z.of_nat n).
Proof.
  refine (array_of_list _ (pad n l) _). by rewrite length_pad.
Defined.

Definition toy_sign (sk : FixedBytes 32) (msg : list byte) : FixedBytes 96 :=
  array_concat sk (pad_array 64 msg).

Definition toy_result {n} (l : list byte) : result (FixedBytes n) bool :=
  match array_try_from n l with Some a => Ok a | None => Err false end.

Definition toy_key_validate (l : list byte) : result (FixedBytes 32) bool :=
  match array_try_from 32 (take 32 l) with
  | Some a => if decide (drop 32 l = replicate 16 x01) then Ok a else Err false
  | None => Err false
  end.

#[export] Instance toy_blst : Blst := {
  PublicKey := FixedBytes 32;
  SecretKey := FixedBytes 32;
  Signature := FixedBytes 96;
  BLST_ERROR := bool;
  BLST_SUCCESS := true;
  PublicKey_countable :=
    inj_countable fb_bytes (array_try_from 32) array_try_from_bytes;
  blst_error_debug e := if (e : bool) then "BLST_SUCCESS" else "BLST_BAD_ENCODING";
  PublicKey_default := array_default 32;
  pk_compress pk := array_concat (pk : FixedBytes 32) (array_repeat 16 x01);
  pk_key_validate := toy_key_validate;
  sk_key_gen ikm info := toy_result ikm;
  sk_to_bytes sk := sk;
  sk_from_bytes := toy_result;
  sk_to_pk sk := sk;
  sk_sign sk msg dst aug := toy_sign sk msg;
  sig_compress s := s;
  sig_from_bytes := toy_result;
  sig_verify s gc msg dst aug pk pv := bool_decide (s = toy_sign pk msg);
}.

#[export] Instance toy_blst_laws : BlstLaws.
Proof.
  split; intros; simpl.
  - unfold toy_key_validate. rewrite take_app_length', drop_app_length'
      by (pose proof (fb_len (n := 32) sk); lia).
    by rewrite array_try_from_bytes, decide_True.
  - unfold toy_result. by rewrite array_try_from_bytes.
  - unfold toy_result.
    change (fb_bytes sk ++ pad 64 msg) with (fb_bytes (toy_sign sk msg)).
    by rewrite array_try_from_bytes.
  - by apply bool_decide_eq_true.
Qed.

(** ** Tree hashes and hex *)

#[export] Instance toy_tree_hash : TreeHashLib := {
  TreeHashType := bool;
  TreeHashType_Basic := false;
  TreeHashType_Vector := true;
  container_root l := toy_hash (concat (map fb_bytes l));
  list_root n l := toy_hash (to_le_bytes 8 n ++ concat (map fb_bytes l));
  bytes_list_root n l := toy_hash (to_le_bytes 8 n ++ l);
  bytes_vector_root n l := toy_hash l;
  u64_root z := le_array 32 z;
  hash256_root h := h;
  array_root n a := toy_hash (fb_bytes a);
  array_tree_hash_type n := true;
  array_packed_encoding n a := Panicked "Vector should never be packed.";
  array_packing_factor n := Panicked "Vector should never be packed.";
  hash256_from_str s := Ok (toy_hash (String.list_byte_of_string s));
}.

#[export] Instance toy_tree_hash_laws : TreeHashLaws.
Proof. by split. Qed.

Definition hex_digit (z : Z) : ascii :=
  nth (Z.to_nat z) (String.list_ascii_of_string "0123456789abcdef") "0"%char.

Definition hex_value (c : ascii) : option Z :=
  match list_find (eq c) (String.list_ascii_of_string "0123456789abcdef") with
  | Some (i, _) => Some (Z.of_nat i)
  | None => None
  end.

Fixpoint toy_hex_encode (l : list byte) : string :=
  match l with
  | [] => ""
  | b :: l' =>
      String (hex_digit (Z_of_byte b / 16))
        (String (hex_digit (Z_of_byte b mod 16)) (toy_hex_encode l'))
  end.

Fixpoint toy_hex_decode (s : string) : result (list byte) string :=
  match s with
  | EmptyString => Ok []
  | String a (String b s') =>
      match hex_value a, hex_value b with
      | Some x, Some y => map_ok (cons (byte_of_Z (16 * x + y))) (toy_hex_decode s')
      | _, _ => Err "Invalid character"
      end
  | String _ EmptyString => Err "Odd number of digits"
  end.

Definition toy_strip_0x (s : string) : string := default s (strip_prefix "0x" s).

#[export] Instance toy_hex : HexLib := {
  hex_decode := toy_hex_decode;
  hex_encode := toy_hex_encode;
  alloy_hex_decode s := toy_hex_decode (toy_strip_0x s);
  alloy_hex_encode_prefixed l := "0x" +:+ toy_hex_encode l;
}.

Lemma toy_hex_byte b :
  hex_value (hex_digit (Z_of_byte b / 16)) = Some (Z_of_byte b / 16) /\
  hex_value (hex_digit (Z_of_byte b mod 16)) = Some (Z_of_byte b mod 16) /\
  byte_of_Z (16 * (Z_of_byte b / 16) + Z_of_byte b mod 16) = b.
Proof. by destruct b; vm_compute. Qed.

Lemma toy_hex_roundtrip l : toy_hex_decode (toy_hex_encode l) = Ok l.
Proof.
  induction l as [|b l IH]; cbn [toy_hex_encode toy_hex_decode]; [done|].
  destruct (toy_hex_byte b) as (-> & -> & ->). by rewrite IH.
Qed.

#[export] Instance toy_hex_laws : HexLaws.
Proof. split; intros bs; simpl; apply toy_hex_roundtrip. Qed.

(** ** alloy and ssz *)

Fixpoint decimal_value (acc : Z) (s : string) : option Z :=
  match s with
  | EmptyString => Some acc
  | String c s' =>
      match list_find (eq c) (String.list_ascii_of_string "0123456789") with
      | Some (i, _) => decimal_value (acc * 10 + Z.of_nat i) s'
      | None => None
      end
  end.

Definition toy_u256 (z : Z) : result Z string :=
  if (0 <=? z) && (z <? 2 ^ 256) then Ok z else Err "overflow".

#[export] Instance toy_alloy : Alloy := {
  keccak256 := toy_hash;
  b256_from_str s :=
    let* bs := toy_hex_decode (toy_strip_0x s) in
    ok_or "length" (array_try_from 32 bs);
  address_from_str s :=
    let* bs := toy_hex_decode (toy_strip_0x s) in
    ok_or "length" (array_try_from 20 bs);
  u256_from_str s :=
    let* z := ok_or "digit" (decimal_value 0 s) in toy_u256 z;
  u256_to_string z := pretty z;
  u256_from_be_slice bs :=
    if (length bs <=? 32)%nat then Done (from_le_bytes (rev bs))
    else Panicked "Value too large for Uint";
  u256_to_le_bytes z := le_array 32 z;
}.

Lemma toy_u256_range z v : toy_u256 z = Ok v -> u256_range v.
Proof.
  unfold toy_u256, u256_range. destruct (0 <=? z) eqn:H0, (z <? 2 ^ 256) eqn:H1;
    intros [= <-]; lia.
Qed.

#[export] Instance toy_alloy_laws : AlloyLaws.
Proof.
  split; simpl.
  - intros s v H. apply and_then_Ok in H as (z & _ & H). by eapply toy_u256_range.
  - intros bs Hl. by rewrite (proj2 (Nat.leb_le _ _) Hl).
  - intros bs Hl. rewrite (proj2 (Nat.leb_gt _ _) Hl). eauto.
  - intros v Hv. change (from_le_bytes (to_le_bytes 32 v) = v).
    rewrite from_to_le_bytes. by apply Z.mod_small.
Qed.

#[export] Instance toy_ssz : SszTypes := {
  fixed_vector_new T n l :=
    if bool_decide (Z.of_nat (length l) = n) then Ok l else Err "OutOfBounds";
  variable_list_new T n l :=
    if bool_decide (Z.of_nat (length l) <= n) then Ok l else Err "OutOfBounds";
}.

#[export] Instance toy_ssz_laws : SszLaws.
Proof.
  split; intros T n l l'; simpl; case_bool_decide;
    split; intros; destruct_ex; simplify_eq; first [done | eauto | contradiction].
Qed.

(** ** The cache: a finite map of values with the times of their last write and
    of their last access *)

Record ToyCache (V : Type) : Type := {
  tc_ttl : Z;
  tc_tti : Z;
  tc_map : gmap Z (V * Z * Z);
}.
Arguments Build_ToyCache {V} _ _ _.
Arguments tc_ttl {V} _.
Arguments tc_tti {V} _.
Arguments tc_map {V} _.

Section toy_cache.
Context {V : Type}.

Definition toy_fresh (t : Z) (c : ToyCache V) (e : V * Z * Z) : bool :=
  (t <? snd (fst e) + tc_ttl c) && (t <? snd e + tc_tti c).

Definition toy_live (t k : Z) (c : ToyCache V) : option V :=
  match tc_map c !! k with
  | Some e => if toy_fresh t c e then Some (fst (fst e)) else None
  | None => None
  end.

Definition toy_touch (t k : Z) (c : ToyCache V) : ToyCache V :=
  match tc_map c !! k with
  | Some e =>
      if toy_fresh t c e
      then Build_ToyCache (tc_ttl c) (tc_tti c)
             (<[k := (fst e, Z.max t (snd e))]> (tc_map c))
      else c
  | None => c
  end.

Definition toy_write (t k : Z) (v : V) (c : ToyCache V) : ToyCache V :=
  Build_ToyCache (tc_ttl c) (tc_tti c) (<[k := (v, t, t)]> (tc_map c)).

#[export] Instance toy_moka : MokaCache Z V (ToyCache V) := {
  cache_build ttl tti := Build_ToyCache ttl tti ∅;
  cache_ttl := tc_ttl;
  cache_tti := tc_tti;
  cache_get now k c := (toy_live now k c, toy_touch now k c);
  cache_or_insert_with_if now k v p c :=
    match toy_live now k c with
    | Some old => if p old then (v, toy_write now k v c) else (old, toy_touch now k c)
    | None => (v, toy_write now k v c)
    end;
}.

Lemma toy_touch_live now t k k' (c : ToyCache V) :
  now <= t ->
  (forall v, toy_live t k' c = Some v -> toy_live t k' (toy_touch now k c) = Some v) /\
  (forall v, toy_live t k' (toy_touch now k c) = Some v -> toy_live now k' c = Some v).
Proof.
  intros Ht. unfold toy_live, toy_touch.
  destruct (tc_map c !! k) as [[[v w] a]|] eqn:Hk; simpl.
  - destruct (toy_fresh now c (v, w, a)) eqn:Hf; simpl.
    + rewrite lookup_insert. case_decide as Hkk; [subst k'|]; simpl.
      * rewrite Hk. unfold toy_fresh in *; simpl in *. rewrite Hf.
        split; intros v'; repeat case_match; try done; intros [= <-]; f_equal; lia.
      * destruct (tc_map c !! k') as [[[v' w'] a']|]; [|done].
        unfold toy_fresh in *; simpl in *.
        split; intros x; repeat case_match; try done; intros [= <-]; f_equal; lia.
    + destruct (tc_map c !! k') as [[[v' w'] a']|]; [|done].
      unfold toy_fresh; simpl.
      split; intros x; repeat case_match; try done; intros [= <-]; f_equal; lia.
  - destruct (tc_map c !! k') as [[[v' w'] a']|]; [|done].
    unfold toy_fresh; simpl.
    split; intros x; repeat case_match; try done; intros [= <-]; f_equal; lia.
Qed.

Lemma toy_write_live now t k v (c : ToyCache V) :
  now <= t ->
  toy_live t k (toy_write now k v c) =
  if t <? now + Z.min (tc_ttl c) (tc_tti c) then Some v else None.
Proof.
  intros Ht. unfold toy_live, toy_write; simpl. rewrite lookup_insert_eq.
  unfold toy_fresh; simpl.
  destruct (t <? now + tc_ttl c) eqn:E1, (t <? now + tc_tti c) eqn:E2,
    (t <? now + Z.min (tc_ttl c) (tc_tti c)) eqn:E3; simpl; try done; lia.
Qed.

Lemma toy_write_other now t k k' v (c : ToyCache V) :
  k' <> k -> toy_live t k' (toy_write now k v c) = toy_live t k' c.
Proof.
  intros Hk. unfold toy_live, toy_write; simpl. by rewrite lookup_insert_ne.
Qed.

Lemma toy_touch_other now t k k' (c : ToyCache V) :
  k' <> k -> toy_live t k' (toy_touch now k c) = toy_live t k' c.
Proof.
  intros Hk. unfold toy_live, toy_touch.
  destruct (tc_map c !! k) as [e|]; [|done].
  destruct (toy_fresh now c e); simpl; [|done]. by rewrite lookup_insert_ne.
Qed.

Lemma toy_touch_policy now k (c : ToyCache V) :
  tc_ttl (toy_touch now k c) = tc_ttl c /\ tc_tti (toy_touch now k c) = tc_tti c.
Proof. unfold toy_touch. by repeat case_match. Qed.

Lemma toy_live_antitone now t k (c : ToyCache V) v :
  now <= t -> toy_live t k c = Some v -> toy_live now k c = Some v.
Proof.
  intros Ht. unfold toy_live, toy_fresh. destruct (tc_map c !! k) as [[[x w] a]|]; [|done].
  simpl. repeat case_match; try done. lia.
Qed.

#[export] Instance toy_moka_laws : MokaLaws Z V (ToyCache V).
Proof.
  split; unfold cache_live; simpl.
  - done.
  - intros. apply toy_touch_policy.
  - intros. repeat case_match; simpl; auto using toy_touch_policy.
  - intros. unfold toy_live; simpl. by rewrite lookup_empty.
  - intros. by eapply toy_live_antitone.
  - intros. by apply toy_touch_live.
  - intros. by repeat case_match.
  - intros now t k v p c Ht Hp. destruct (toy_live now k c) as [old|] eqn:E.
    + rewrite Hp. by apply toy_write_live.
    + by apply toy_write_live.
  - intros now t k v p c old Ht Hl Hp. rewrite Hl, Hp. simpl.
    destruct (toy_touch_live now t k k c Ht) as [H1 H2]. split; [apply H1|].
    intros x Hx. apply H2 in Hx. congruence.
  - intros now t k k' v p c Ht Hk.
    repeat case_match; simpl; auto using toy_write_other, toy_touch_other.
Qed.
End toy_cache.

(** ** tokio *)

#[export] Instance toy_tokio : Tokio := {
  tokio_interval period :=
    if period =? 0 then Panicked "`period` must be non-zero." else Done tt;
}.

#[export] Instance toy_tokio_laws : TokioLaws.
Proof.
  split; [by eexists|]. intros period Hp. cbn. by rewrite (proj2 (Z.eqb_neq _ _)) by lia.
Qed.
