(* ===== verification/Crypto.v ===== *)
(** * The [crypto] crate

    Domains and fork data ([fork.rs]), fork names ([fork_name.rs]), BLS public
    keys, secret keys and signatures ([public_key.rs], [secret_key.rs],
    [signature.rs]) and the relay's signer ([signer.rs]). *)

From S2P Require Import Prelude External Concrete.

(** ** [fork_name.rs] *)

Inductive ForkName : Type := Bellatrix | Capella | Deneb | Electra.

#[export] Instance ForkName_eq_dec : EqDecision ForkName.
Proof. solve_decision. Defined.

(** ** [fork.rs] *)

Definition Domain : Type := FixedBytes 32.

Record ProposerDomain : Type := { ProposerDomain_0 : FixedBytes 4 }.
Record BuilderDomain : Type := { BuilderDomain_0 : FixedBytes 4 }.

Definition ProposerDomain_default : ProposerDomain :=
  {| ProposerDomain_0 := array_default 4 |}.

Definition BuilderDomain_as_ref (d : BuilderDomain) : list byte :=
  fb_bytes (BuilderDomain_0 d).

Definition BuilderDomain_default : BuilderDomain :=
  {| BuilderDomain_0 := bytes4 x00 x00 x00 x01 |}.

Inductive Chain : Type := Mainnet | Goerli | Holesky | Sepolia | Dev.

#[export] Instance Chain_eq_dec : EqDecision Chain.
Proof. solve_decision. Defined.

Definition Chain_fork_version (c : Chain) : FixedBytes 4 :=
  match c with
  | Mainnet => bytes4 x00 x00 x00 x00
  | Goerli => bytes4 x00 x00 x10 x20
  | Holesky => bytes4 x01 x01 x70 x00
  | Sepolia => bytes4 x90 x00 x00 x69
  | Dev => bytes4 x20 x00 x00 x89
  end.

Definition Chain_from_fork_version (bytes : FixedBytes 4) : option Chain :=
  match fb_bytes bytes with
  | [x00; x00; x00; x00] => Some Mainnet
  | [x00; x00; x10; x20] => Some Goerli
  | [x01; x01; x70; x00] => Some Holesky
  | [x90; x00; x00; x69] => Some Sepolia
  | [x20; x00; x00; x89] => Some Dev
  | _ => None
  end.

Record ForkVersion : Type := { ForkVersion_0 : FixedBytes 4 }.

Definition ForkVersion_default : ForkVersion := {| ForkVersion_0 := array_default 4 |}.
Definition ForkVersion_as_ref (v : ForkVersion) : list byte := fb_bytes (ForkVersion_0 v).
Definition ForkVersion_new (bytes : FixedBytes 4) : ForkVersion :=
  {| ForkVersion_0 := bytes |}.
Definition ForkVersion_try_from_chain (c : Chain) : result ForkVersion string :=
  Ok {| ForkVersion_0 := Chain_fork_version c |}.
Definition ForkVersion_into (v : ForkVersion) : FixedBytes 4 := ForkVersion_0 v.

Definition ForkVersion_from_str `{HexLib} (s : string) :
    outcome (result ForkVersion string) :=
  let s := trim_start_matches "0x" s in
  let? bytes := Done (map_err (fun e => "Invalid fork version: " +:+ e) (alloy_hex_decode s)) in
  if negb (Z.of_nat (length bytes) =? 4) then Done (Err "Invalid fork version length")
  else match array_try_from 4 bytes with
       | Some arr => Done (Ok (ForkVersion_new arr))
       | None => Panicked "slice with incorrect length"
       end.

Record ForkData : Type := {
  fd_current_version : FixedBytes 4;
  fd_genesis_validators_root : Hash256;
}.

#[export] Instance ForkData_eq_dec : EqDecision ForkData.
Proof. solve_decision. Defined.

Definition ForkData_default : ForkData := {|
  fd_current_version := array_default 4;
  fd_genesis_validators_root := array_default 32;
|}.

#[export] Instance ForkData_tree_hash `{TreeHashLib} : TreeHash ForkData :=
  fun fd => container_root [array_root 4 (fd_current_version fd);
                            hash256_root (fd_genesis_validators_root fd)].

(** [domain[..4]] is the tag of the domain, [domain[4..]] the first 28 bytes of
    the root of the fork data. *)
Definition ForkData_compute_builder_domain `{TreeHashLib} (fd : ForkData) : Domain :=
  let fork_data_root := tree_hash_root fd in
  array_concat (BuilderDomain_0 BuilderDomain_default) (array_prefix 28 fork_data_root).

Definition ForkData_compute_proposer_domain `{TreeHashLib} (fd : ForkData) : Domain :=
  let fork_data_root := tree_hash_root fd in
  array_concat (ProposerDomain_0 ProposerDomain_default) (array_prefix 28 fork_data_root).

Record ForkDatas : Type := {
  fds_builder : ForkData;
  fds_proposer : ForkData;
}.

Definition ForkDatas_from_genesis_and_current_version
    (genesis_fork_version current_version : FixedBytes 4)
    (genesis_validators_root : Hash256) : ForkDatas :=
  let builder := {| fd_current_version := genesis_fork_version;
                    fd_genesis_validators_root := array_default 32 |} in
  let proposer := {| fd_current_version := current_version;
                     fd_genesis_validators_root := genesis_validators_root |} in
  {| fds_builder := builder; fds_proposer := proposer |}.

Definition ForkDatas_new (builder proposer : ForkData) : ForkDatas :=
  {| fds_builder := builder; fds_proposer := proposer |}.

Definition compute_builder_domain `{TreeHashLib} (fds : ForkDatas) : Domain :=
  ForkData_compute_builder_domain (fds_builder fds).

Definition compute_proposer_domain `{TreeHashLib} (fds : ForkDatas) : Domain :=
  ForkData_compute_proposer_domain (fds_proposer fds).

(** [ForkDatas::default()]; the two [unwrap]s panic on an [Err]. *)
Definition ForkDatas_default `{TreeHashLib, HexLib} : outcome ForkDatas :=
  let! root :=
    match hash256_from_str
      "0x0000000000000000000000000000000000000000000000000000000000000001" with
    | Ok r => Done r
    | Err _ => Panicked "called `Result::unwrap()` on an `Err` value"
    end in
  let! parsed := ForkVersion_from_str "0x20000093" in
  match parsed with
  | Ok v => Done {| fds_builder := ForkData_default;
                    fds_proposer := {| fd_current_version := ForkVersion_into v;
                                       fd_genesis_validators_root := root |} |}
  | Err _ => Panicked "called `Result::unwrap()` on an `Err` value"
  end.

Record SigningData : Type := {
  sd_object_root : Hash256;
  sd_domain : Hash256;
}.

#[export] Instance SigningData_tree_hash `{TreeHashLib} : TreeHash SigningData :=
  fun sd => container_root [hash256_root (sd_object_root sd); hash256_root (sd_domain sd)].

(** [SignedRoot::signing_root] *)
Definition signing_root `{TreeHash T} (msg : T) (domain : Hash256) : Hash256 :=
  tree_hash_root {| sd_object_root := tree_hash_root msg; sd_domain := domain |}.

(** ** [public_key.rs] *)

Section keys.
Context `{Blst}.

Definition PUBLIC_KEY_BYTES_LEN : Z := 48.
Definition SECRET_KEY_BYTES_LEN : Z := 32.
Definition SIGNATURE_BYTES_LEN : Z := 96.

Record BlsPublicKey : Type := mkBlsPublicKey { BlsPublicKey_0 : PublicKey }.
Record BlsSecretKey : Type := mkBlsSecretKey { BlsSecretKey_0 : SecretKey }.
Record BlsSignature : Type := mkBlsSignature { BlsSignature_0 : Signature }.

#[export] Instance BlsPublicKey_eq_dec : EqDecision BlsPublicKey.
Proof. solve_decision. Defined.

#[export] Instance BlsPublicKey_countable : Countable BlsPublicKey.
Proof. by refine (inj_countable' BlsPublicKey_0 mkBlsPublicKey _); intros []. Defined.

Definition BlsPublicKey_default : BlsPublicKey := mkBlsPublicKey PublicKey_default.

Definition BlsPublicKey_serialize (pk : BlsPublicKey) : FixedBytes 48 :=
  pk_compress (BlsPublicKey_0 pk).

Definition BlsPublicKey_deserialize (bytes : list byte) : result BlsPublicKey string :=
  if negb (Z.of_nat (length bytes) =? PUBLIC_KEY_BYTES_LEN) then Err "invalid length"
  else map_err blst_error_debug (map_ok mkBlsPublicKey (pk_key_validate bytes)).

Definition BlsPublicKey_from_secret_key (sk : BlsSecretKey) : BlsPublicKey :=
  mkBlsPublicKey (sk_to_pk (BlsSecretKey_0 sk)).

(** The bytes the [Hash] instance feeds to the hasher. *)
Definition BlsPublicKey_hash (pk : BlsPublicKey) : list byte :=
  fb_bytes (BlsPublicKey_serialize pk).

(** [serde]: the key is a prefixed hex string. *)
Definition BlsPublicKey_serde_serialize `{HexLib} (pk : BlsPublicKey) : string :=
  alloy_hex_encode_prefixed (fb_bytes (BlsPublicKey_serialize pk)).

Definition BlsPublicKey_serde_deserialize `{HexLib} (s : string) :
    result BlsPublicKey string :=
  let* bytes := alloy_hex_decode s in BlsPublicKey_deserialize bytes.

#[export] Instance BlsPublicKey_tree_hash `{TreeHashLib} : TreeHash BlsPublicKey :=
  fun pk => array_root 48 (BlsPublicKey_serialize pk).

Definition BlsPublicKey_tree_hash_type `{TreeHashLib} : TreeHashType :=
  array_tree_hash_type PUBLIC_KEY_BYTES_LEN.
Definition BlsPublicKey_tree_hash_packed_encoding `{TreeHashLib} (pk : BlsPublicKey) :
    outcome (list byte) :=
  array_packed_encoding 48 (BlsPublicKey_serialize pk).
Definition BlsPublicKey_tree_hash_packing_factor `{TreeHashLib} : outcome Z :=
  array_packing_factor PUBLIC_KEY_BYTES_LEN.

(** ** [signature.rs] *)

(** The domain separation tag. *)
Definition DST : list byte :=
  String.list_byte_of_string "BLS_SIG_BLS12381G2_XMD:SHA-256_SSWU_RO_POP_".

Definition BlsSignature_serialize (s : BlsSignature) : FixedBytes 96 :=
  sig_compress (BlsSignature_0 s).

Definition BlsSignature_deserialize (bytes : list byte) : result BlsSignature string :=
  if negb (Z.of_nat (length bytes) =? SIGNATURE_BYTES_LEN)
  then Err "invalid signature bytes length"
  else
    let* arr := ok_or "length mismatch" (array_try_from 96 bytes) in
    map_err blst_error_debug (map_ok mkBlsSignature (sig_from_bytes (fb_bytes arr))).

Definition BlsSignature_verify (s : BlsSignature) (pubkey : BlsPublicKey)
    (msg : list byte) : bool :=
  bool_decide
    (sig_verify (BlsSignature_0 s) true msg DST [] (BlsPublicKey_0 pubkey) true =
     BLST_SUCCESS).

Definition BlsSignature_debug `{HexLib} (s : BlsSignature) : string :=
  "BlsSignature(" +:+ alloy_hex_encode_prefixed (fb_bytes (BlsSignature_serialize s)) +:+ ")".

Definition BlsSignature_serde_serialize `{HexLib} (s : BlsSignature) : string :=
  alloy_hex_encode_prefixed (fb_bytes (BlsSignature_serialize s)).

Definition BlsSignature_serde_deserialize `{HexLib} (s : string) :
    result BlsSignature string :=
  let* bytes := alloy_hex_decode s in BlsSignature_deserialize bytes.

(** ** [secret_key.rs] *)

(** [ikm] is what [rng.fill] wrote. *)
Definition BlsSecretKey_random (ikm : FixedBytes 32) : outcome BlsSecretKey :=
  match sk_key_gen (fb_bytes ikm) [] with
  | Ok sk => Done (mkBlsSecretKey sk)
  | Err _ => Panicked "called `Result::unwrap()` on an `Err` value"
  end.

Definition BlsSecretKey_serialize (sk : BlsSecretKey) : FixedBytes 32 :=
  sk_to_bytes (BlsSecretKey_0 sk).

Definition BlsSecretKey_deserialize (bytes : list byte) : result BlsSecretKey string :=
  if negb (Z.of_nat (length bytes) =? SECRET_KEY_BYTES_LEN)
  then Err "invalid secret key length"
  else
    let* arr := ok_or "length mismatch" (array_try_from 32 bytes) in
    map_err blst_error_debug (map_ok mkBlsSecretKey (sk_from_bytes (fb_bytes arr))).

Definition BlsSecretKey_public_key (sk : BlsSecretKey) : BlsPublicKey :=
  BlsPublicKey_from_secret_key sk.

Definition BlsSecretKey_sign (sk : BlsSecretKey) (msg : list byte) : BlsSignature :=
  mkBlsSignature (sk_sign (BlsSecretKey_0 sk) msg DST []).

(** ** [signer.rs] *)

Record BlsSigner : Type := {
  signer_secret_key : BlsSecretKey;
  signer_fork_data : ForkDatas;
  signer_fork_name : ForkName;
}.

Definition BlsSigner_new (secret_key : BlsSecretKey) (fork_data : ForkDatas)
    (fork_name : ForkName) : BlsSigner :=
  {| signer_secret_key := secret_key; signer_fork_data := fork_data;
     signer_fork_name := fork_name |}.

Definition BlsSigner_default `{TreeHashLib, HexLib} (ikm : FixedBytes 32) :
    outcome BlsSigner :=
  let! sk := BlsSecretKey_random ikm in
  let! fds := ForkDatas_default in
  Done (BlsSigner_new sk fds Electra).

Definition BlsSigner_sign `{TreeHash T} (signer : BlsSigner) (msg : T) : BlsSignature :=
  let domain := compute_builder_domain (signer_fork_data signer) in
  let root := signing_root msg domain in
  BlsSecretKey_sign (signer_secret_key signer) (fb_bytes root).

Definition BlsSigner_verify `{TreeHash T} (signer : BlsSigner) (sig : BlsSignature)
    (pubkey : BlsPublicKey) (msg : T) : bool :=
  let domain := compute_builder_domain (signer_fork_data signer) in
  let root := signing_root msg domain in
  BlsSignature_verify sig pubkey (fb_bytes root).

Definition BlsSigner_public_key (signer : BlsSigner) : BlsPublicKey :=
  BlsSecretKey_public_key (signer_secret_key signer).

End keys.

(** ** Lemmas *)

Lemma deserialize_length {A} (parse : list byte -> result A string) n msg bs :
  (if negb (Z.of_nat (length bs) =? n) then Err msg else parse bs) =
  if bool_decide (Z.of_nat (length bs) = n) then parse bs else Err msg.
Proof.
  case_bool_decide as H.
  - by rewrite H, Z.eqb_refl.
  - apply Z.eqb_neq in H. by rewrite H.
Qed.

Section key_lemmas.
Context `{BlstLaws}.

Lemma BlsSecretKey_roundtrip sk :
  sk_generated (BlsSecretKey_0 sk) ->
  BlsSecretKey_deserialize (fb_bytes (BlsSecretKey_serialize sk)) = Ok sk.
Proof.
  intros Hsk. unfold BlsSecretKey_deserialize, SECRET_KEY_BYTES_LEN.
  rewrite fb_len, Z.eqb_refl. simpl. rewrite array_try_from_bytes. simpl.
  unfold BlsSecretKey_serialize. rewrite blst_sk_roundtrip by done. by destruct sk.
Qed.

Lemma BlsPublicKey_roundtrip sk :
  sk_generated (BlsSecretKey_0 sk) ->
  BlsPublicKey_deserialize (fb_bytes (BlsPublicKey_serialize (BlsSecretKey_public_key sk))) =
  Ok (BlsSecretKey_public_key sk).
Proof.
  intros Hsk. unfold BlsPublicKey_deserialize, PUBLIC_KEY_BYTES_LEN.
  rewrite fb_len, Z.eqb_refl. simpl. unfold BlsPublicKey_serialize; simpl.
  by rewrite blst_pk_roundtrip.
Qed.

Lemma BlsSignature_roundtrip sk msg :
  sk_generated (BlsSecretKey_0 sk) ->
  BlsSignature_deserialize (fb_bytes (BlsSignature_serialize (BlsSecretKey_sign sk msg))) =
  Ok (BlsSecretKey_sign sk msg).
Proof.
  intros Hsk. unfold BlsSignature_deserialize, SIGNATURE_BYTES_LEN.
  rewrite fb_len, Z.eqb_refl. simpl. rewrite array_try_from_bytes. simpl.
  unfold BlsSignature_serialize; simpl. by rewrite blst_sig_roundtrip.
Qed.

Lemma BlsSignature_verify_sign sk msg :
  sk_generated (BlsSecretKey_0 sk) ->
  BlsSignature_verify (BlsSecretKey_sign sk msg) (BlsSecretKey_public_key sk) msg = true.
Proof. intros Hsk. by apply bool_decide_eq_true, blst_sign_verify. Qed.

Lemma BlsSigner_verify_sign `{TreeHash T} signer (msg : T) :
  sk_generated (BlsSecretKey_0 (signer_secret_key signer)) ->
  BlsSigner_verify signer (BlsSigner_sign signer msg) (BlsSigner_public_key signer) msg = true.
Proof. intros Hsk. by apply BlsSignature_verify_sign. Qed.

End key_lemmas.

#[export] Hint Resolve BlsSecretKey_roundtrip BlsPublicKey_roundtrip
  BlsSignature_roundtrip BlsSignature_verify_sign BlsSigner_verify_sign : relay.

Lemma domain_parts `{TreeHashLib} (tag : FixedBytes 4) (root : Hash256) :
  let d := array_concat tag (array_prefix 28 root) in
  take 4 (fb_bytes d) = fb_bytes tag /\ drop 4 (fb_bytes d) = take 28 (fb_bytes root).
Proof.
  pose proof (fb_len tag) as Htag. simpl. split.
  - apply take_app_length'. lia.
  - apply drop_app_length'. lia.
Qed.

(** ** Properties *)

(** The two signing domains never coincide: whatever the fork data, the
    builder domain is tagged [0x00000001] and the proposer domain [0x00000000],
    so a builder-domain signature of the relay, a builder or a registration can
    never be replayed as a proposer's signature of a block. *)
Theorem builder_proposer_domains_differ `{TreeHashLib} (f1 f2 : ForkDatas) :
  compute_builder_domain f1 <> compute_proposer_domain f2.
Proof.
  intros Heq.
  destruct (domain_parts (BuilderDomain_0 BuilderDomain_default)
              (tree_hash_root (fds_builder f1))) as [Hb _].
  destruct (domain_parts (ProposerDomain_0 ProposerDomain_default)
              (tree_hash_root (fds_proposer f2))) as [Hp _].
  unfold compute_builder_domain, compute_proposer_domain,
    ForkData_compute_builder_domain, ForkData_compute_proposer_domain in Heq.
  rewrite Heq in Hb. rewrite Hp in Hb. discriminate Hb.
Qed.

(** The chain of a fork version and the fork version of a chain are inverse
    to each other: [from_fork_version] answers a chain exactly on that chain's
    version. *)
Theorem Chain_fork_version_roundtrip (c : Chain) (v : FixedBytes 4) :
  Chain_from_fork_version v = Some c <-> v = Chain_fork_version c.
Proof.
  split.
  - unfold Chain_from_fork_version. intros Hm. apply fb_eq.
    repeat (case_match; try discriminate Hm); by injection Hm as <-.
  - intros ->. by destruct c.
Qed.

(** [ForkVersion::from_str] never panics: its [expect] is guarded by the
    length test.  It accepts exactly the strings whose hex digits, after any
    number of [0x] prefixes, decode to four bytes, and answers these bytes. *)
Theorem ForkVersion_from_str_spec `{HexLib} (s : string) :
  ForkVersion_from_str s =
  Done match alloy_hex_decode (trim_start_matches "0x" s) with
       | Err e => Err ("Invalid fork version: " +:+ e)
       | Ok bs =>
           match array_try_from 4 bs with
           | Some v => Ok (ForkVersion_new v)
           | None => Err "Invalid fork version length"
           end
       end.
Proof.
  unfold ForkVersion_from_str, try_bind.
  destruct (alloy_hex_decode _) as [bs|e]; cbn; [|done].
  destruct (array_try_from 4 bs) as [v|] eqn:Hv.
  - apply array_try_from_Some in Hv as <-. pose proof (fb_len v) as Hl.
    by rewrite Hl.
  - apply array_try_from_None in Hv. apply Z.eqb_neq in Hv. by rewrite Hv.
Qed.

(** Keys and signatures survive serialization, as bytes and (for public
    keys, in the beacon node's JSON) as prefixed hex; and a signature that has
    been sent and parsed verifies under the signer's parsed public key. *)
Theorem bls_serialization_roundtrip `{BlstLaws, HexLaws} (sk : BlsSecretKey) (msg : list byte) :
  sk_generated (BlsSecretKey_0 sk) ->
  BlsSecretKey_deserialize (fb_bytes (BlsSecretKey_serialize sk)) = Ok sk /\
  BlsPublicKey_serde_deserialize
    (BlsPublicKey_serde_serialize (BlsSecretKey_public_key sk)) =
  Ok (BlsSecretKey_public_key sk) /\
  exists pk sig,
    BlsPublicKey_deserialize
      (fb_bytes (BlsPublicKey_serialize (BlsSecretKey_public_key sk))) = Ok pk /\
    BlsSignature_deserialize
      (fb_bytes (BlsSignature_serialize (BlsSecretKey_sign sk msg))) = Ok sig /\
    BlsSignature_verify sig pk msg = true.
Proof.
  intros Hsk. split; [auto with relay|]. split.
  - unfold BlsPublicKey_serde_deserialize, BlsPublicKey_serde_serialize.
    rewrite alloy_hex_roundtrip. simpl. auto with relay.
  - exists (BlsSecretKey_public_key sk), (BlsSecretKey_sign sk msg). auto with relay.
Qed.

Definition sample_sk : BlsSecretKey := mkBlsSecretKey (array_repeat 32 x2a).

Lemma bls_serialization_roundtrip_witness :
  sk_generated (BlsSecretKey_0 sample_sk) /\
  exists pk sig,
    BlsPublicKey_deserialize
      (fb_bytes (BlsPublicKey_serialize (BlsSecretKey_public_key sample_sk))) = Ok pk /\
    BlsSignature_deserialize
      (fb_bytes (BlsSignature_serialize (BlsSecretKey_sign sample_sk [x01; x02]))) = Ok sig /\
    BlsSignature_verify sig pk [x01; x02] = true.
Proof.
  assert (Hsk : sk_generated (BlsSecretKey_0 sample_sk)).
  { left. exists (fb_bytes (array_repeat 32 x2a)). vm_compute. reflexivity. }
  split; [exact Hsk|].
  exact (proj2 (proj2 (bls_serialization_roundtrip sample_sk [x01; x02] Hsk))).
Defined.

(** A signing root binds both the object and the domain: if two signing
    roots are equal then the objects have the same tree hash and the domains are
    the same, or else the two pairs of roots are an explicit collision of the
    hash the tree is built with. *)
Theorem signing_root_binds `{TreeHashLaws} {T1 T2} `{!TreeHash T1, !TreeHash T2}
    (m1 : T1) (m2 : T2) (d1 d2 : Hash256) :
  signing_root m1 d1 = signing_root m2 d2 ->
  (tree_hash_root m1 = tree_hash_root m2 /\ d1 = d2) \/
  collision container_root [tree_hash_root m1; d1] [tree_hash_root m2; d2].
Proof.
  unfold signing_root, tree_hash_root at 1 3, SigningData_tree_hash; simpl.
  rewrite !hash256_root_self. intros Hc.
  destruct (eq_or_collision _ _ _ Hc) as [[= -> ->]|Hcol]; [by left|by right].
Qed.

Lemma signing_root_binds_witness :
  let d := compute_builder_domain (ForkDatas_new ForkData_default ForkData_default) in
  tree_hash_root ForkData_default = tree_hash_root ForkData_default /\ d = d \/
  collision container_root [tree_hash_root ForkData_default; d]
    [tree_hash_root ForkData_default; d].
Proof. apply signing_root_binds. reflexivity. Defined.
