(* ===== verification/Entity.v ===== *)
(** * The [entity] crate

    The domain types of the relay and their methods: fixed-size values
    ([types.rs]), bids ([bid_trace.rs], [bid_submission.rs]), execution payloads
    and their headers ([execution_payload.rs], [signed_header.rs],
    [blinded_block.rs]), the head slot ([head_slot.rs]), duties, registrations and
    beacon events.  Integers are [Z]; a [u64] that reaches arithmetic is kept at
    its width by the operations of [Prelude.v]. *)

From S2P Require Import Prelude External Concrete Crypto.

(** ** [types.rs] *)

Record B256 : Type := mkB256 { B256_0 : FixedBytes 32 }.
Record Address : Type := mkAddress { Address_0 : FixedBytes 20 }.
Record U256 : Type := mkU256 { U256_0 : Z }.

#[export] Instance B256_eq_dec : EqDecision B256.
Proof. solve_decision. Defined.
#[export] Instance Address_eq_dec : EqDecision Address.
Proof. solve_decision. Defined.
#[export] Instance U256_eq_dec : EqDecision U256.
Proof. solve_decision. Defined.

Definition B256_default : B256 := mkB256 (array_default 32).
Definition Address_default : Address := mkAddress (array_default 20).

(** The derived [Ord] of [U256]. *)
Definition U256_cmp (a b : U256) : comparison := Z.compare (U256_0 a) (U256_0 b).
Definition U256_gt (a b : U256) : bool := U256_0 b <? U256_0 a.

Section types.
Context `{Alloy, TreeHashLib}.

Definition B256_from_str (s : string) : result B256 string :=
  map_ok mkB256 (b256_from_str s).
Definition B256_tree_hash_type : TreeHashType := TreeHashType_Vector.
Definition B256_tree_hash_packed_encoding (b : B256) : list byte := fb_bytes (B256_0 b).
Definition B256_tree_hash_packing_factor : Z := 1.

(** [Hash256::from_slice] of the 32 bytes of the value. *)
#[export] Instance B256_tree_hash : TreeHash B256 := fun b => B256_0 b.

Definition Address_from_str (s : string) : result Address string :=
  map_ok mkAddress (address_from_str s).

(** [buf = [0u8; 32]; buf[..20].copy_from_slice(address)] *)
Definition Address_buf (a : Address) : FixedBytes 32 :=
  array_concat (Address_0 a) (array_default 12).
Definition Address_tree_hash_type : TreeHashType := TreeHashType_Vector.
Definition Address_tree_hash_packed_encoding (a : Address) : list byte :=
  fb_bytes (Address_buf a).
Definition Address_tree_hash_packing_factor : Z := 1.
#[export] Instance Address_tree_hash : TreeHash Address := Address_buf.

(** [Display] *)
Definition U256_to_string (u : U256) : string := u256_to_string (U256_0 u).
Definition U256_from_str (s : string) : result U256 string :=
  map_ok mkU256 (u256_from_str s).
Definition U256_tree_hash_type : TreeHashType := TreeHashType_Basic.
Definition U256_tree_hash_packed_encoding (u : U256) : list byte :=
  fb_bytes (u256_to_le_bytes (U256_0 u)).
Definition U256_tree_hash_packing_factor : Z := 1.
#[export] Instance U256_tree_hash : TreeHash U256 := fun u => u256_to_le_bytes (U256_0 u).

#[export] Instance u64_tree_hash : TreeHash Z := u64_root.

End types.

(** ** [execution_payload.rs] *)

Definition Bytes48 : Type := FixedBytes 48.
Definition KzgCommitment : Type := Bytes48.
Definition Blob : Type := FixedBytes 131072.

Record Withdrawal : Type := {
  w_index : Z;
  w_validator_index : Z;
  w_address : Address;
  w_amount : Z;
}.

Record ExecutionPayload : Type := {
  ep_parent_hash : B256;
  ep_fee_recipient : Address;
  ep_state_root : B256;
  ep_receipts_root : B256;
  ep_logs_bloom : list byte;
  ep_prev_randao : B256;
  ep_block_number : Z;
  ep_gas_limit : Z;
  ep_gas_used : Z;
  ep_timestamp : Z;
  ep_extra_data : list byte;
  ep_base_fee_per_gas : U256;
  ep_block_hash : B256;
  ep_transactions : list (list byte);
  ep_withdrawals : list Withdrawal;
  ep_blob_gas_used : Z;
  ep_excess_blob_gas : Z;
}.

Definition ExecutionPayload_prev_randao (p : ExecutionPayload) : FixedBytes 32 :=
  B256_0 (ep_prev_randao p).

Record ExecutionPayloadHeader : Type := {
  eph_parent_hash : B256;
  eph_fee_recipient : Address;
  eph_state_root : B256;
  eph_receipts_root : B256;
  eph_logs_bloom : list byte;
  eph_prev_randao : B256;
  eph_block_number : Z;
  eph_gas_limit : Z;
  eph_gas_used : Z;
  eph_timestamp : Z;
  eph_extra_data : list byte;
  eph_base_fee_per_gas : U256;
  eph_block_hash : B256;
  eph_transactions_root : B256;
  eph_withdrawals_root : B256;
  eph_blob_gas_used : Z;
  eph_excess_blob_gas : Z;
}.

Record BlobsBundle : Type := {
  bb_commitments : list Bytes48;
  bb_proofs : list Bytes48;
  bb_blobs : list Blob;
}.

Definition BlobsBundle_default : BlobsBundle :=
  {| bb_commitments := []; bb_proofs := []; bb_blobs := [] |}.

Section payload_roots.
Context `{Alloy, TreeHashLib}.

#[export] Instance Withdrawal_tree_hash : TreeHash Withdrawal := fun w =>
  container_root [tree_hash_root (w_index w); tree_hash_root (w_validator_index w);
                  tree_hash_root (w_address w); tree_hash_root (w_amount w)].

(** [VariableList<VariableList<u8, 2^30>, 2^20>] *)
Definition transactions_tree_hash_root (txs : list (list byte)) : Hash256 :=
  list_root 1048576 (map (bytes_list_root 1073741824) txs).

(** [VariableList<Withdrawal, 16>] *)
Definition withdrawals_tree_hash_root (ws : list Withdrawal) : Hash256 :=
  list_root 16 (map tree_hash_root ws).

#[export] Instance ExecutionPayload_tree_hash : TreeHash ExecutionPayload := fun p =>
  container_root
    [tree_hash_root (ep_parent_hash p); tree_hash_root (ep_fee_recipient p);
     tree_hash_root (ep_state_root p); tree_hash_root (ep_receipts_root p);
     bytes_vector_root 256 (ep_logs_bloom p); tree_hash_root (ep_prev_randao p);
     tree_hash_root (ep_block_number p); tree_hash_root (ep_gas_limit p);
     tree_hash_root (ep_gas_used p); tree_hash_root (ep_timestamp p);
     bytes_list_root 32 (ep_extra_data p); tree_hash_root (ep_base_fee_per_gas p);
     tree_hash_root (ep_block_hash p); transactions_tree_hash_root (ep_transactions p);
     withdrawals_tree_hash_root (ep_withdrawals p); tree_hash_root (ep_blob_gas_used p);
     tree_hash_root (ep_excess_blob_gas p)].

#[export] Instance ExecutionPayloadHeader_tree_hash : TreeHash ExecutionPayloadHeader :=
  fun h =>
  container_root
    [tree_hash_root (eph_parent_hash h); tree_hash_root (eph_fee_recipient h);
     tree_hash_root (eph_state_root h); tree_hash_root (eph_receipts_root h);
     bytes_vector_root 256 (eph_logs_bloom h); tree_hash_root (eph_prev_randao h);
     tree_hash_root (eph_block_number h); tree_hash_root (eph_gas_limit h);
     tree_hash_root (eph_gas_used h); tree_hash_root (eph_timestamp h);
     bytes_list_root 32 (eph_extra_data h); tree_hash_root (eph_base_fee_per_gas h);
     tree_hash_root (eph_block_hash h); tree_hash_root (eph_transactions_root h);
     tree_hash_root (eph_withdrawals_root h); tree_hash_root (eph_blob_gas_used h);
     tree_hash_root (eph_excess_blob_gas h)].

End payload_roots.

(** ** [head_slot.rs] *)

Record HeadSlot : Type := mkHeadSlot { HeadSlot_0 : Z }.

#[export] Instance HeadSlot_eq_dec : EqDecision HeadSlot.
Proof. solve_decision. Defined.

Definition HeadSlot_is_next_slot (profile : build_profile) (h : HeadSlot)
    (proposal_slot : Z) : outcome bool :=
  let! next := u64_add profile (HeadSlot_0 h) 1 in Done (next =? proposal_slot).

Definition HeadSlot_is_duty_refresh_slot (h : HeadSlot) (slots_per_epoch : Z) :
    outcome bool :=
  let! r := u64_rem (HeadSlot_0 h) slots_per_epoch in Done (r =? 1).

Definition HeadSlot_epoch (h : HeadSlot) (slots_per_epoch : Z) : outcome Z :=
  u64_div (HeadSlot_0 h) slots_per_epoch.

Definition HeadSlot_from (slot : Z) : HeadSlot := mkHeadSlot slot.
Definition HeadSlot_as_ref (h : HeadSlot) : Z := HeadSlot_0 h.

(** ** [payload_attributes.rs], [sync.rs], [versioned.rs], [beacon_event.rs] *)

Record PayloadAttributes : Type := {
  pa_timestamp : Z;
  pa_prev_randao : FixedBytes 32;
  pa_suggested_fee_recipient : Address;
}.

Record SyncStatus : Type := { ss_head_slot : Z; ss_is_syncing : bool }.

Record Versioned (T : Type) : Type := { version : ForkName; data : T }.
Arguments version {T} _.
Arguments data {T} _.

Definition Versioned_new {T} (v : ForkName) (d : T) : Versioned T :=
  {| version := v; data := d |}.

Record HeadEvent : Type := {
  he_slot : Z;
  he_block : string;
  he_epoch_transition : bool;
  he_execution_optimistic : bool;
}.

Record InnerPayloadAttributes : Type := {
  ipa_timestamp : Z;
  ipa_prev_randao : string;
  ipa_suggested_fee_recipient : string;
}.

Record PayloadAttributesData : Type := {
  pad_proposal_slot : Z;
  pad_parent_block_hash : string;
  pad_payload_attributes : InnerPayloadAttributes;
}.

Record PayloadAttributesEvent : Type := {
  pae_version : string;
  pae_data : PayloadAttributesData;
}.

Inductive BeaconEvent : Type :=
| Head (e : HeadEvent)
| PayloadAttributesEv (e : PayloadAttributesEvent).

(** ** Types that mention keys and signatures *)

Section keyed.
Context `{Blst}.

(** [proposer_duty.rs] *)
Record ProposerDuty : Type := {
  pd_pubkey : BlsPublicKey;
  pd_validator_index : Z;
  pd_slot : Z;
}.

(** [bid_trace.rs] *)
Record BidTrace : Type := {
  bt_slot : Z;
  bt_parent_hash : B256;
  bt_block_hash : B256;
  bt_builder_pubkey : BlsPublicKey;
  bt_proposer_pubkey : BlsPublicKey;
  bt_proposer_fee_recipient : Address;
  bt_gas_limit : Z;
  bt_gas_used : Z;
  bt_value : U256;
}.

#[export] Instance BidTrace_eq_dec : EqDecision BidTrace.
Proof. solve_decision. Defined.

(** [Ord for BidTrace] *)
Definition BidTrace_cmp (a b : BidTrace) : comparison := U256_cmp (bt_value a) (bt_value b).
Definition BidTrace_partial_cmp (a b : BidTrace) : option comparison :=
  Some (BidTrace_cmp a b).

(** [bid_submission.rs] *)
Record BidSubmission : Type := {
  message : BidTrace;
  bid_payload : ExecutionPayload;
  bid_blobs : BlobsBundle;
  bid_signature : BlsSignature;
}.

Definition BidSubmission_new (m : BidTrace) (p : ExecutionPayload) (b : BlobsBundle)
    (s : BlsSignature) : BidSubmission :=
  {| message := m; bid_payload := p; bid_blobs := b; bid_signature := s |}.
Definition bid_trace (b : BidSubmission) : BidTrace := message b.
Definition BidSubmission_signature (b : BidSubmission) : BlsSignature := bid_signature b.
Definition execution_payload (b : BidSubmission) : ExecutionPayload := bid_payload b.

(** [blinded_block.rs] *)
Record BlindedBlockResponse : Type := {
  bbr_execution_payload : ExecutionPayload;
  bbr_blobs_bundle : option BlobsBundle;
}.

Definition to_blinded_block_response (b : BidSubmission) : BlindedBlockResponse :=
  {| bbr_execution_payload := bid_payload b; bbr_blobs_bundle := Some (bid_blobs b) |}.

(** [validator.rs] *)
Record ValidatorRegistration : Type := {
  vr_fee_recipient : Address;
  vr_gas_limit : Z;
  vr_timestamp : Z;
  vr_pubkey : BlsPublicKey;
}.

#[export] Instance ValidatorRegistration_eq_dec : EqDecision ValidatorRegistration.
Proof. solve_decision. Defined.

Record SignedValidatorRegistration : Type := {
  svr_message : ValidatorRegistration;
  svr_signature : BlsSignature;
}.

(** [signed_header.rs] *)
Record SignedHeader : Type := {
  sh_message : ExecutionPayloadHeader;
  sh_signature : BlsSignature;
}.

Definition SignedHeader_new (m : ExecutionPayloadHeader) (s : BlsSignature) : SignedHeader :=
  {| sh_message := m; sh_signature := s |}.

Context `{Alloy, TreeHashLib}.

Definition BidTrace_field_roots (b : BidTrace) : list Hash256 :=
  [tree_hash_root (bt_slot b); tree_hash_root (bt_parent_hash b);
   tree_hash_root (bt_block_hash b); tree_hash_root (bt_builder_pubkey b);
   tree_hash_root (bt_proposer_pubkey b); tree_hash_root (bt_proposer_fee_recipient b);
   tree_hash_root (bt_gas_limit b); tree_hash_root (bt_gas_used b);
   tree_hash_root (bt_value b)].

#[export] Instance BidTrace_tree_hash : TreeHash BidTrace := fun b =>
  container_root (BidTrace_field_roots b).

#[export] Instance ValidatorRegistration_tree_hash : TreeHash ValidatorRegistration :=
  fun r =>
  container_root
    [tree_hash_root (vr_fee_recipient r); tree_hash_root (vr_gas_limit r);
     tree_hash_root (vr_timestamp r); tree_hash_root (vr_pubkey r)].

Definition BidTrace_verify_signature (b : BidTrace) (signature : BlsSignature)
    (domain : Domain) : bool :=
  let root := signing_root b domain in
  BlsSignature_verify signature (bt_builder_pubkey b) (fb_bytes root).

Definition SignedValidatorRegistration_verify_signature (r : SignedValidatorRegistration)
    (domain : Domain) : bool :=
  let root := signing_root (svr_message r) domain in
  BlsSignature_verify (svr_signature r) (vr_pubkey (svr_message r)) (fb_bytes root).

(** [SignedHeader::build_header]; [B256::from_slice] panics on a root of another
    length. *)
Definition build_header (bid : BidSubmission) : outcome ExecutionPayloadHeader :=
  let payload := execution_payload bid in
  let transactions_root := transactions_tree_hash_root (ep_transactions payload) in
  let withdrawals_root := withdrawals_tree_hash_root (ep_withdrawals payload) in
  let! t := from_slice 32 (fb_bytes transactions_root) in
  let! w := from_slice 32 (fb_bytes withdrawals_root) in
  Done {|
    eph_parent_hash := ep_parent_hash payload;
    eph_fee_recipient := ep_fee_recipient payload;
    eph_state_root := ep_state_root payload;
    eph_receipts_root := ep_receipts_root payload;
    eph_logs_bloom := ep_logs_bloom payload;
    eph_prev_randao := ep_prev_randao payload;
    eph_block_number := ep_block_number payload;
    eph_gas_limit := ep_gas_limit payload;
    eph_gas_used := ep_gas_used payload;
    eph_timestamp := ep_timestamp payload;
    eph_extra_data := ep_extra_data payload;
    eph_base_fee_per_gas := ep_base_fee_per_gas payload;
    eph_block_hash := ep_block_hash payload;
    eph_transactions_root := mkB256 t;
    eph_withdrawals_root := mkB256 w;
    eph_blob_gas_used := ep_blob_gas_used payload;
    eph_excess_blob_gas := ep_excess_blob_gas payload;
  |}.

End keyed.

(** ** Lemmas *)

Lemma from_slice_bytes {n} (a : FixedBytes n) : from_slice n (fb_bytes a) = Done a.
Proof. unfold from_slice. by rewrite array_try_from_bytes. Qed.

#[export] Hint Rewrite @from_slice_bytes : relay.

Lemma B256_eta (h : B256) : mkB256 (B256_0 h) = h.
Proof. by destruct h. Qed.

Lemma u64_root_inj `{TreeHashLaws} x y :
  u64_range x -> u64_range y -> u64_root x = u64_root y -> x = y.
Proof.
  intros Hx Hy Heq. apply (f_equal fb_bytes) in Heq.
  rewrite !u64_root_bytes in Heq by done.
  unfold u64_range, u64_modulus in *. apply to_le_bytes_inj in Heq; [done|simpl; lia..].
Qed.

Lemma Address_buf_inj a b : Address_buf a = Address_buf b -> a = b.
Proof.
  intros Heq. apply (f_equal fb_bytes) in Heq. destruct a as [a], b as [b]. simpl in Heq.
  pose proof (fb_len a). pose proof (fb_len b).
  apply app_inj_length in Heq as [Heq _]; [|lia]. f_equal. by apply fb_eq.
Qed.

Lemma u256_le_bytes_inj `{AlloyLaws} x y :
  u256_range x -> u256_range y -> u256_to_le_bytes x = u256_to_le_bytes y -> x = y.
Proof.
  intros Hx Hy Heq. rewrite <- (u256_to_le_bytes_value x), <- (u256_to_le_bytes_value y)
    by done. by rewrite Heq.
Qed.

(** The fields of a bid trace are in the range of their Rust types. *)
Definition BidTrace_in_range `{Blst} (b : BidTrace) : Prop :=
  u64_range (bt_slot b) /\ u64_range (bt_gas_limit b) /\ u64_range (bt_gas_used b) /\
  u256_range (U256_0 (bt_value b)).

(** Agreement on every field, public keys by their compressed bytes. *)
Definition BidTrace_agree `{Blst} (a b : BidTrace) : Prop :=
  bt_slot a = bt_slot b /\ bt_parent_hash a = bt_parent_hash b /\
  bt_block_hash a = bt_block_hash b /\
  BlsPublicKey_serialize (bt_builder_pubkey a) =
    BlsPublicKey_serialize (bt_builder_pubkey b) /\
  BlsPublicKey_serialize (bt_proposer_pubkey a) =
    BlsPublicKey_serialize (bt_proposer_pubkey b) /\
  bt_proposer_fee_recipient a = bt_proposer_fee_recipient b /\
  bt_gas_limit a = bt_gas_limit b /\ bt_gas_used a = bt_gas_used b /\
  bt_value a = bt_value b.

Section header.
Context `{Blst, Alloy, TreeHashLib}.

(** What [build_header] computes: it never panics. *)
Definition header_of (p : ExecutionPayload) : ExecutionPayloadHeader := {|
  eph_parent_hash := ep_parent_hash p;
  eph_fee_recipient := ep_fee_recipient p;
  eph_state_root := ep_state_root p;
  eph_receipts_root := ep_receipts_root p;
  eph_logs_bloom := ep_logs_bloom p;
  eph_prev_randao := ep_prev_randao p;
  eph_block_number := ep_block_number p;
  eph_gas_limit := ep_gas_limit p;
  eph_gas_used := ep_gas_used p;
  eph_timestamp := ep_timestamp p;
  eph_extra_data := ep_extra_data p;
  eph_base_fee_per_gas := ep_base_fee_per_gas p;
  eph_block_hash := ep_block_hash p;
  eph_transactions_root := mkB256 (transactions_tree_hash_root (ep_transactions p));
  eph_withdrawals_root := mkB256 (withdrawals_tree_hash_root (ep_withdrawals p));
  eph_blob_gas_used := ep_blob_gas_used p;
  eph_excess_blob_gas := ep_excess_blob_gas p;
|}.

Lemma build_header_Done bid : build_header bid = Done (header_of (bid_payload bid)).
Proof. unfold build_header. by rewrite !from_slice_bytes. Qed.

End header.

(** ** Properties *)

(** Building the header of a bid never panics, and the header has the same
    hash tree root as the full execution payload it hides: by signing the header
    the relay commits to the whole payload. *)
Theorem build_header_commits_to_payload `{Blst, Alloy, TreeHashLib} (bid : BidSubmission) :
  exists header,
    build_header bid = Done header /\
    eph_block_hash header = ep_block_hash (execution_payload bid) /\
    tree_hash_root header = tree_hash_root (execution_payload bid).
Proof. exists (header_of (bid_payload bid)). by rewrite build_header_Done. Qed.

(** C35: the tree hash of a bid trace, which the builder signs, binds every field:
    two traces with the same root agree on every field, public keys by their
    compressed bytes, unless they exhibit a collision of the hash: on their lists
    of field roots, or on the compressed bytes of their builder's or proposer's
    keys. *)
Theorem BidTrace_root_binds_fields `{Blst, AlloyLaws, TreeHashLaws} (a b : BidTrace) :
  BidTrace_in_range a -> BidTrace_in_range b ->
  tree_hash_root a = tree_hash_root b ->
  collision container_root (BidTrace_field_roots a) (BidTrace_field_roots b) \/
  collision (array_root 48) (BlsPublicKey_serialize (bt_builder_pubkey a))
    (BlsPublicKey_serialize (bt_builder_pubkey b)) \/
  collision (array_root 48) (BlsPublicKey_serialize (bt_proposer_pubkey a))
    (BlsPublicKey_serialize (bt_proposer_pubkey b)) \/
  BidTrace_agree a b.
Proof.
  intros (Ha1 & Ha2 & Ha3 & Ha4) (Hb1 & Hb2 & Hb3 & Hb4) Heq.
  apply (eq_or_collision container_root) in Heq as [Heq|Hcol]; [|by left].
  injection Heq as Hslot Hparent Hblock Hbuilder Hproposer Hfee Hlimit Hused Hvalue.
  apply (eq_or_collision (array_root 48)) in Hbuilder as [Hbuilder|Hcol]; [|by right; left].
  apply (eq_or_collision (array_root 48)) in Hproposer as [Hproposer|Hcol]; [|by right; right; left].
  right; right; right.
  apply u64_root_inj in Hslot; [|done..]. apply u64_root_inj in Hlimit; [|done..].
  apply u64_root_inj in Hused; [|done..].
  apply (fb_eq (Address_buf _) (Address_buf _)), Address_buf_inj in Hfee.
  apply u256_le_bytes_inj in Hvalue; [|done..].
  cbv [tree_hash_root B256_tree_hash] in Hparent, Hblock.
  destruct a as [? [] [] ? ? ? ? ? []], b as [? [] [] ? ? ? ? ? []]; simpl in *.
  unfold BidTrace_agree; simpl. repeat split; congruence.
Qed.

Definition sample_trace `{Blst} (slot value : Z) (builder : BlsPublicKey) : BidTrace := {|
  bt_slot := slot;
  bt_parent_hash := B256_default;
  bt_block_hash := B256_default;
  bt_builder_pubkey := builder;
  bt_proposer_pubkey := BlsPublicKey_default;
  bt_proposer_fee_recipient := Address_default;
  bt_gas_limit := 30000000;
  bt_gas_used := 15000000;
  bt_value := mkU256 value;
|}.

Definition sample_payload (prev_randao : FixedBytes 32) (block_hash : B256)
    (txs : list (list byte)) : ExecutionPayload := {|
  ep_parent_hash := B256_default;
  ep_fee_recipient := Address_default;
  ep_state_root := B256_default;
  ep_receipts_root := B256_default;
  ep_logs_bloom := replicate 256 x00;
  ep_prev_randao := mkB256 prev_randao;
  ep_block_number := 1;
  ep_gas_limit := 30000000;
  ep_gas_used := 15000000;
  ep_timestamp := 12;
  ep_extra_data := [];
  ep_base_fee_per_gas := mkU256 7;
  ep_block_hash := block_hash;
  ep_transactions := txs;
  ep_withdrawals := [];
  ep_blob_gas_used := 0;
  ep_excess_blob_gas := 0;
|}.

(** A bid signed by [sk] in the given domain. *)
Definition sample_bid `{Blst, Alloy, TreeHashLib} (sk : BlsSecretKey) (domain : Domain)
    (slot value : Z) (block_hash : B256) : BidSubmission :=
  let trace := sample_trace slot value (BlsSecretKey_public_key sk) in
  BidSubmission_new trace (sample_payload (array_default 32) block_hash [])
    BlobsBundle_default (BlsSecretKey_sign sk (fb_bytes (signing_root trace domain))).

Lemma BidTrace_root_binds_fields_witness :
  let a := sample_trace 10 100 BlsPublicKey_default in
  BidTrace_in_range a /\
  (collision container_root (BidTrace_field_roots a) (BidTrace_field_roots a) \/
   collision (array_root 48) (BlsPublicKey_serialize (bt_builder_pubkey a))
     (BlsPublicKey_serialize (bt_builder_pubkey a)) \/
   collision (array_root 48) (BlsPublicKey_serialize (bt_proposer_pubkey a))
     (BlsPublicKey_serialize (bt_proposer_pubkey a)) \/
   BidTrace_agree a a).
Proof.
  intros a.
  assert (Ha : BidTrace_in_range a)
    by (unfold BidTrace_in_range, u64_range, u256_range, u64_modulus; simpl; lia).
  exact (conj Ha (BidTrace_root_binds_fields a a Ha Ha eq_refl)).
Defined.

(** C37: [is_next_slot] answers whether the slot is the one after the head.  Only
    at the very last head slot does the addition overflow: a debug build panics
    there, a release build wraps around and accepts slot 0 alone. *)
Theorem is_next_slot_spec (profile : build_profile) (h : HeadSlot) (s : Z) :
  u64_range (HeadSlot_0 h) ->
  HeadSlot_is_next_slot profile h s =
  if HeadSlot_0 h <? u64_max then Done (s =? HeadSlot_0 h + 1)
  else match profile with
       | Debug => Panicked "attempt to add with overflow"
       | Release => Done (s =? 0)
       end.
Proof.
  intros Hh. unfold HeadSlot_is_next_slot, u64_range, u64_max in *.
  destruct (HeadSlot_0 h <? u64_modulus - 1) eqn:E.
  - rewrite u64_add_fits by lia. simpl. by rewrite Z.eqb_sym.
  - assert (HeadSlot_0 h = u64_modulus - 1) as -> by lia.
    unfold u64_add. simpl. destruct profile; simpl; [done|]. by rewrite Z.eqb_sym.
Qed.

Lemma is_next_slot_spec_witness :
  u64_range u64_max /\
  HeadSlot_is_next_slot Release (mkHeadSlot u64_max) 0 = Done true /\
  HeadSlot_is_next_slot Debug (mkHeadSlot 9) 10 = Done true.
Proof.
  assert (H1 : u64_range u64_max) by (unfold u64_range, u64_max, u64_modulus; lia).
  assert (H2 : u64_range 9) by (unfold u64_range, u64_modulus; lia).
  split; [exact H1|]. split.
  - rewrite (is_next_slot_spec Release (mkHeadSlot u64_max) 0 H1). reflexivity.
  - rewrite (is_next_slot_spec Debug (mkHeadSlot 9) 10 H2). reflexivity.
Defined.

(** With at least two slots per epoch, the duty refresh slot is the second
    slot of an epoch, so every epoch has exactly one; with one slot per epoch no
    slot is ever a refresh slot, and with none the test and the epoch both panic
    with a division by zero. *)
Theorem duty_refresh_slot_spec (h : HeadSlot) (n : Z) :
  0 <= HeadSlot_0 h -> 0 <= n ->
  match HeadSlot_is_duty_refresh_slot h n, HeadSlot_epoch h n with
  | Done refresh, Done e =>
      0 < n /\ n * e <= HeadSlot_0 h < n * e + n /\
      (refresh = true <-> 2 <= n /\ HeadSlot_0 h = n * e + 1)
  | Panicked _, Panicked _ => n = 0
  | _, _ => False
  end.
Proof.
  intros Hh Hn. unfold HeadSlot_is_duty_refresh_slot, HeadSlot_epoch, u64_rem, u64_div.
  destruct (n =? 0) eqn:E; [by apply Z.eqb_eq|]. apply Z.eqb_neq in E. simpl.
  pose proof (Z.div_mod (HeadSlot_0 h) n E) as Hdiv.
  pose proof (Z.mod_pos_bound (HeadSlot_0 h) n ltac:(lia)) as Hmod.
  split; [lia|]. split; [lia|]. rewrite Z.eqb_eq. split; [intros; lia|].
  intros [_ Hs]. lia.
Qed.

Lemma duty_refresh_slot_spec_witness :
  HeadSlot_is_duty_refresh_slot (mkHeadSlot 33) 32 = Done true /\
  match HeadSlot_is_duty_refresh_slot (mkHeadSlot 33) 32, HeadSlot_epoch (mkHeadSlot 33) 32 with
  | Done refresh, Done e =>
      0 < 32 /\ 32 * e <= 33 < 32 * e + 32 /\ (refresh = true <-> 2 <= 32 /\ 33 = 32 * e + 1)
  | Panicked _, Panicked _ => 32 = 0
  | _, _ => False
  end.
Proof.
  split; [reflexivity|]. apply (duty_refresh_slot_spec (mkHeadSlot 33) 32); simpl; lia.
Defined.

(** The [Ord] of bid traces is a total preorder by value, but it is coarser
    than the derived equality: there are different traces that compare as
    [Equal], which the contract of [Ord] rules out. *)
Theorem BidTrace_cmp_total_but_coarse `{Blst} :
  (forall a b : BidTrace, BidTrace_cmp b a = CompOpp (BidTrace_cmp a b)) /\
  (forall a b c : BidTrace,
     BidTrace_cmp a b <> Gt -> BidTrace_cmp b c <> Gt -> BidTrace_cmp a c <> Gt) /\
  (forall a : BidTrace, exists b, a <> b /\ BidTrace_cmp a b = Eq).
Proof.
  unfold BidTrace_cmp, U256_cmp. split; [|split].
  - intros a b. by rewrite Z.compare_antisym.
  - intros a b c.
    change (U256_0 (bt_value a) <= U256_0 (bt_value b) ->
            U256_0 (bt_value b) <= U256_0 (bt_value c) ->
            U256_0 (bt_value a) <= U256_0 (bt_value c)). lia.
  - intros a. exists {|
      bt_slot := bt_slot a + 1; bt_parent_hash := bt_parent_hash a;
      bt_block_hash := bt_block_hash a; bt_builder_pubkey := bt_builder_pubkey a;
      bt_proposer_pubkey := bt_proposer_pubkey a;
      bt_proposer_fee_recipient := bt_proposer_fee_recipient a;
      bt_gas_limit := bt_gas_limit a; bt_gas_used := bt_gas_used a;
      bt_value := bt_value a |}.
    split; [|apply Z.compare_refl]. intros Heq. apply (f_equal bt_slot) in Heq.
    simpl in Heq. lia.
Qed.
