(* ===== verification/Storage.v ===== *)
(** * The [Storage] half of the [datastore] crate

    The trait [Storage] ([storage/traits.rs]) as a class of operations, its
    operations as a signature of atomic events, the in-memory implementation
    ([storage/memory/storage.rs]), and the abstract specification both sides
    share: [StorageView] and [spec_handler].  [StorageLaws] is what the use cases
    know of a storage; [memory_storage_refines] discharges it for every program
    at once. *)

From S2P Require Import Prelude Effects External Concrete Crypto Entity.

(** [storage/error.rs] *)
Inductive StorageError : Type := NotFound | AlreadyExists.

#[export] Instance StorageError_eq_dec : EqDecision StorageError.
Proof. solve_decision. Defined.

Section storage.
Context `{Blst}.

(** ** The trait

    The methods take [&self] and change the state behind a lock; here the state is
    an argument and a result.  [HashMap<BlsPublicKey, _>] is a finite map. *)

Class Storage (S : Type) : Type := {
  set_head_slot : HeadSlot -> S -> S;
  read_head_slot : S -> HeadSlot;
  set_payload_attributes : PayloadAttributes -> S -> S;
  read_payload_attributes : S -> PayloadAttributes;
  set_validator_registration : BlsPublicKey -> ValidatorRegistration -> S -> S;
  set_validator_registrations : gmap BlsPublicKey ValidatorRegistration -> S -> S;
  read_validator_registration : BlsPublicKey -> S -> option ValidatorRegistration;
  empty_validator_regs : S -> bool;
  is_whitelisted_builder : BlsPublicKey -> S -> bool;
  set_proposer_duties : list ProposerDuty -> S -> S;
  find_duty_by_slot : Z -> S -> option ProposerDuty;
  read_proposer_duties : S -> list ProposerDuty;
  set_blinded_block_response : BlsPublicKey -> BlindedBlockResponse -> S -> S;
  read_blinded_block_response : BlsPublicKey -> S -> option BlindedBlockResponse;
  set_delivered_blocks : B256 -> S -> S;
}.

(** The calls a task can make on a storage. *)
Inductive storageE : Type -> Type :=
| SetHeadSlot (slot : HeadSlot) : storageE unit
| ReadHeadSlot : storageE HeadSlot
| SetPayloadAttributes (attrs : PayloadAttributes) : storageE unit
| ReadPayloadAttributes : storageE PayloadAttributes
| SetValidatorRegistration (key : BlsPublicKey) (reg : ValidatorRegistration) : storageE unit
| SetValidatorRegistrations (regs : gmap BlsPublicKey ValidatorRegistration) : storageE unit
| ReadValidatorRegistration (key : BlsPublicKey) : storageE (option ValidatorRegistration)
| EmptyValidatorRegs : storageE bool
| IsWhitelistedBuilder (key : BlsPublicKey) : storageE bool
| SetProposerDuties (duties : list ProposerDuty) : storageE unit
| FindDutyBySlot (slot : Z) : storageE (option ProposerDuty)
| ReadProposerDuties : storageE (list ProposerDuty)
| SetBlindedBlockResponse (proposer : BlsPublicKey) (resp : BlindedBlockResponse) : storageE unit
| ReadBlindedBlockResponse (proposer : BlsPublicKey) : storageE (option BlindedBlockResponse)
| SetDeliveredBlocks (block_hash : B256) : storageE unit.

Definition storage_handler {S} `{Storage S} : handler storageE S := fun X e s =>
  match e in storageE X return X * S with
  | SetHeadSlot slot => (tt, set_head_slot slot s)
  | ReadHeadSlot => (read_head_slot s, s)
  | SetPayloadAttributes attrs => (tt, set_payload_attributes attrs s)
  | ReadPayloadAttributes => (read_payload_attributes s, s)
  | SetValidatorRegistration key reg => (tt, set_validator_registration key reg s)
  | SetValidatorRegistrations regs => (tt, set_validator_registrations regs s)
  | ReadValidatorRegistration key => (read_validator_registration key s, s)
  | EmptyValidatorRegs => (empty_validator_regs s, s)
  | IsWhitelistedBuilder key => (is_whitelisted_builder key s, s)
  | SetProposerDuties duties => (tt, set_proposer_duties duties s)
  | FindDutyBySlot slot => (find_duty_by_slot slot s, s)
  | ReadProposerDuties => (read_proposer_duties s, s)
  | SetBlindedBlockResponse proposer resp => (tt, set_blinded_block_response proposer resp s)
  | ReadBlindedBlockResponse proposer => (read_blinded_block_response proposer s, s)
  | SetDeliveredBlocks block_hash => (tt, set_delivered_blocks block_hash s)
  end.

(** ** The in-memory storage *)

Record MemoryStorageInner : Type := {
  head_slot : HeadSlot;
  payload_attributes : PayloadAttributes;
  validator_registrations : gmap BlsPublicKey ValidatorRegistration;
  proposer_duties : list ProposerDuty;
  whitelist : list BlsPublicKey;
  blinded_blocks : gmap BlsPublicKey BlindedBlockResponse;
  delivered_blocks : list B256;
}.

(** [Arc<RwLock<MemoryStorageInner>>]: every clone shares the one state, and every
    method holds the lock for its whole body. *)
Definition MemoryStorage : Type := MemoryStorageInner.

Definition MemoryStorage_new (whitelist : list BlsPublicKey) : MemoryStorage := {|
  head_slot := mkHeadSlot 0;
  payload_attributes := {|
    pa_timestamp := 0;
    pa_prev_randao := array_default 32;
    pa_suggested_fee_recipient := Address_default;
  |};
  validator_registrations := ∅;
  proposer_duties := [];
  whitelist := whitelist;
  blinded_blocks := ∅;
  delivered_blocks := [];
|}.

Definition MemoryStorage_set_head_slot (slot : HeadSlot) (s : MemoryStorage) : MemoryStorage :=
  Build_MemoryStorageInner slot (payload_attributes s) (validator_registrations s)
    (proposer_duties s) (whitelist s) (blinded_blocks s) (delivered_blocks s).

Definition MemoryStorage_read_head_slot (s : MemoryStorage) : HeadSlot := head_slot s.

Definition MemoryStorage_set_payload_attributes (attrs : PayloadAttributes)
    (s : MemoryStorage) : MemoryStorage :=
  Build_MemoryStorageInner (head_slot s) attrs (validator_registrations s)
    (proposer_duties s) (whitelist s) (blinded_blocks s) (delivered_blocks s).

Definition MemoryStorage_read_payload_attributes (s : MemoryStorage) : PayloadAttributes :=
  payload_attributes s.

Definition MemoryStorage_set_validator_registration (key : BlsPublicKey)
    (reg : ValidatorRegistration) (s : MemoryStorage) : MemoryStorage :=
  Build_MemoryStorageInner (head_slot s) (payload_attributes s)
    (<[key := reg]> (validator_registrations s))
    (proposer_duties s) (whitelist s) (blinded_blocks s) (delivered_blocks s).

Definition MemoryStorage_set_validator_registrations
    (regs : gmap BlsPublicKey ValidatorRegistration) (s : MemoryStorage) : MemoryStorage :=
  Build_MemoryStorageInner (head_slot s) (payload_attributes s) regs
    (proposer_duties s) (whitelist s) (blinded_blocks s) (delivered_blocks s).

Definition MemoryStorage_read_validator_registration (key : BlsPublicKey)
    (s : MemoryStorage) : option ValidatorRegistration :=
  validator_registrations s !! key.

Definition MemoryStorage_empty_validator_regs (s : MemoryStorage) : bool :=
  (size (validator_registrations s) =? 0)%nat.

(** [Vec::contains] *)
Definition MemoryStorage_is_whitelisted_builder (key : BlsPublicKey) (s : MemoryStorage) : bool :=
  existsb (fun k => bool_decide (k = key)) (whitelist s).

Definition MemoryStorage_set_proposer_duties (duties : list ProposerDuty)
    (s : MemoryStorage) : MemoryStorage :=
  Build_MemoryStorageInner (head_slot s) (payload_attributes s) (validator_registrations s)
    duties (whitelist s) (blinded_blocks s) (delivered_blocks s).

(** [iter().find(..)]: the first duty of the slot. *)
Definition MemoryStorage_find_duty_by_slot (slot : Z) (s : MemoryStorage) :
    option ProposerDuty :=
  List.find (fun d => pd_slot d =? slot) (proposer_duties s).

Definition MemoryStorage_read_proposer_duties (s : MemoryStorage) : list ProposerDuty :=
  proposer_duties s.

Definition MemoryStorage_set_blinded_block_response (proposer : BlsPublicKey)
    (resp : BlindedBlockResponse) (s : MemoryStorage) : MemoryStorage :=
  Build_MemoryStorageInner (head_slot s) (payload_attributes s) (validator_registrations s)
    (proposer_duties s) (whitelist s) (<[proposer := resp]> (blinded_blocks s))
    (delivered_blocks s).

Definition MemoryStorage_read_blinded_block_response (proposer : BlsPublicKey)
    (s : MemoryStorage) : option BlindedBlockResponse :=
  blinded_blocks s !! proposer.

(** [Vec::push] *)
Definition MemoryStorage_set_delivered_blocks (block_hash : B256)
    (s : MemoryStorage) : MemoryStorage :=
  Build_MemoryStorageInner (head_slot s) (payload_attributes s) (validator_registrations s)
    (proposer_duties s) (whitelist s) (blinded_blocks s) (delivered_blocks s ++ [block_hash]).

#[export] Instance MemoryStorage_Storage : Storage MemoryStorage := {
  set_head_slot := MemoryStorage_set_head_slot;
  read_head_slot := MemoryStorage_read_head_slot;
  set_payload_attributes := MemoryStorage_set_payload_attributes;
  read_payload_attributes := MemoryStorage_read_payload_attributes;
  set_validator_registration := MemoryStorage_set_validator_registration;
  set_validator_registrations := MemoryStorage_set_validator_registrations;
  read_validator_registration := MemoryStorage_read_validator_registration;
  empty_validator_regs := MemoryStorage_empty_validator_regs;
  is_whitelisted_builder := MemoryStorage_is_whitelisted_builder;
  set_proposer_duties := MemoryStorage_set_proposer_duties;
  find_duty_by_slot := MemoryStorage_find_duty_by_slot;
  read_proposer_duties := MemoryStorage_read_proposer_duties;
  set_blinded_block_response := MemoryStorage_set_blinded_block_response;
  read_blinded_block_response := MemoryStorage_read_blinded_block_response;
  set_delivered_blocks := MemoryStorage_set_delivered_blocks;
}.

(** ** The abstract specification

    What a storage promises, without its representation: registrations and
    blinded responses are partial functions of the key, the whitelist is a set, and
    the duty of a slot is the first one listed. *)

Record StorageView : Type := {
  v_head : HeadSlot;
  v_attrs : PayloadAttributes;
  v_regs : gmap BlsPublicKey ValidatorRegistration;
  v_duties : list ProposerDuty;
  v_whitelist : gset BlsPublicKey;
  v_blinded : gmap BlsPublicKey BlindedBlockResponse;
  v_delivered : list B256;
}.

(** The first duty of a slot, as a specification: it is in the list, and no
    earlier duty is for the slot. *)
Definition is_duty_of (duties : list ProposerDuty) (slot : Z) (d : ProposerDuty) : Prop :=
  exists before after, duties = before ++ d :: after /\ pd_slot d = slot /\
    Forall (fun d' => pd_slot d' <> slot) before.

Definition spec_handler : handler storageE StorageView := fun X e v =>
  let 'Build_StorageView h a r ds w b dl := v in
  match e in storageE X return X * StorageView with
  | SetHeadSlot h' => (tt, Build_StorageView h' a r ds w b dl)
  | ReadHeadSlot => (h, v)
  | SetPayloadAttributes a' => (tt, Build_StorageView h a' r ds w b dl)
  | ReadPayloadAttributes => (a, v)
  | SetValidatorRegistration k reg => (tt, Build_StorageView h a (<[k := reg]> r) ds w b dl)
  | SetValidatorRegistrations r' => (tt, Build_StorageView h a r' ds w b dl)
  | ReadValidatorRegistration k => (r !! k, v)
  | EmptyValidatorRegs => (bool_decide (r = ∅), v)
  | IsWhitelistedBuilder k => (bool_decide (k ∈ w), v)
  | SetProposerDuties ds' => (tt, Build_StorageView h a r ds' w b dl)
  | FindDutyBySlot slot => (List.find (fun d => pd_slot d =? slot) ds, v)
  | ReadProposerDuties => (ds, v)
  | SetBlindedBlockResponse k resp => (tt, Build_StorageView h a r ds w (<[k := resp]> b) dl)
  | ReadBlindedBlockResponse k => (b !! k, v)
  | SetDeliveredBlocks bh => (tt, Build_StorageView h a r ds w b (dl ++ [bh]))
  end.

(** The interface the use cases are proved against: the state has a view on which
    every operation acts as specified. *)
Class StorageLaws (S : Type) `{Storage S} : Type := {
  storage_view : S -> StorageView;
  storage_refines X (e : storageE X) (s : S) :
    fst (storage_handler X e s) = fst (spec_handler X e (storage_view s)) /\
    storage_view (snd (storage_handler X e s)) = snd (spec_handler X e (storage_view s));
}.

Definition memory_view (s : MemoryStorage) : StorageView := {|
  v_head := head_slot s;
  v_attrs := payload_attributes s;
  v_regs := validator_registrations s;
  v_duties := proposer_duties s;
  v_whitelist := list_to_set (whitelist s);
  v_blinded := blinded_blocks s;
  v_delivered := delivered_blocks s;
|}.

(** ** Lemmas *)

Lemma existsb_eq_elem {A} `{EqDecision A} (l : list A) (x : A) :
  existsb (fun y => bool_decide (y = x)) l = bool_decide (x ∈ l).
Proof.
  induction l as [|y l IH]; cbn [existsb].
  - symmetry. apply bool_decide_eq_false_2. by apply not_elem_of_nil.
  - rewrite IH. rewrite (bool_decide_ext (x ∈ y :: l) (y = x \/ x ∈ l)) by
      (rewrite elem_of_cons; intuition congruence).
    by rewrite bool_decide_or.
Qed.

Lemma find_duty_spec (ds : list ProposerDuty) slot d :
  List.find (fun d => pd_slot d =? slot) ds = Some d <-> is_duty_of ds slot d.
Proof.
  unfold is_duty_of. induction ds as [|d0 ds IH]; simpl.
  - split; [done|]. intros ([|? ?] & ? & ? & _); discriminate.
  - destruct (Z.eqb_spec (pd_slot d0) slot) as [Heq|Hne].
    + split.
      * intros [= <-]. exists [], ds. auto.
      * intros ([|x before] & after & [= -> ->] & Hd & Hb); [done|].
        by inversion Hb.
    + rewrite IH. split.
      * intros (before & after & -> & Hd & Hb). exists (d0 :: before), after. auto.
      * intros ([|x before] & after & [= -> ->] & Hd & Hb); [done|].
        inversion Hb; subst. eauto.
Qed.

Lemma find_duty_None (ds : list ProposerDuty) slot :
  List.find (fun d => pd_slot d =? slot) ds = None <->
  Forall (fun d => pd_slot d <> slot) ds.
Proof.
  induction ds as [|d ds IH]; simpl; [done|].
  destruct (Z.eqb_spec (pd_slot d) slot); rewrite List.Forall_cons_iff.
  - split; [done|]. by intros [? _].
  - rewrite IH. split; [done|]. by intros [_ ?].
Qed.

Lemma memory_storage_step X (e : storageE X) (s : MemoryStorage) :
  fst (storage_handler X e s) = fst (spec_handler X e (memory_view s)) /\
  memory_view (snd (storage_handler X e s)) = snd (spec_handler X e (memory_view s)).
Proof.
  destruct e; simpl; split; try done.
  - unfold MemoryStorage_empty_validator_regs. case_bool_decide as Hr.
    + by rewrite Hr, map_size_empty.
    + apply Nat.eqb_neq. intros Hs. by apply Hr, map_size_empty_inv.
  - unfold MemoryStorage_is_whitelisted_builder. rewrite existsb_eq_elem.
    apply bool_decide_ext. by rewrite elem_of_list_to_set.
Qed.

#[export] Instance MemoryStorage_laws : StorageLaws MemoryStorage := {
  storage_view := memory_view;
  storage_refines := memory_storage_step;
}.

(** ** Properties *)

(** C15: the in-memory storage refines its specification: every program over the
    storage gets the same answers from [MemoryStorage] as from the abstract state,
    and leaves a state whose view is the abstract one. *)
Theorem memory_storage_refines {R} (p : prog storageE R) (s : MemoryStorage) :
  run_value storage_handler p s = run_value spec_handler p (memory_view s) /\
  memory_view (run_state storage_handler p s) = run_state spec_handler p (memory_view s).
Proof.
  apply (run_refines storage_handler spec_handler (fun s v => memory_view s = v)); [|done].
  intros X e s' v <-. apply memory_storage_step.
Qed.

(** [find_duty_by_slot] answers the first duty of the slot in the list last
    set, and nothing exactly when the list has no duty for the slot. *)
Theorem find_duty_by_slot_spec (duties : list ProposerDuty) (slot : Z) (s : MemoryStorage) :
  let s' := MemoryStorage_set_proposer_duties duties s in
  (forall d, MemoryStorage_find_duty_by_slot slot s' = Some d <-> is_duty_of duties slot d) /\
  (MemoryStorage_find_duty_by_slot slot s' = None <->
   Forall (fun d => pd_slot d <> slot) duties).
Proof. split; [intros d; apply find_duty_spec|apply find_duty_None]. Qed.

End storage.
