(* ===== verification/Auctioneer.v ===== *)
(** * The [Auctioneer] half of the [datastore] crate

    The trait [Auctioneer] ([auctioneer/traits.rs]), its errors
    ([auctioneer/error.rs]) and the implementation on a [moka] cache
    ([auctioneer/memory/auctioneer.rs]).  The asynchronous methods read the clock
    of the cache: the time of the call is their first argument.  [AuctioneerLaws]
    is what the use cases know of an auctioneer that is called by one task at a time,
    [SharedAuction] what they know of one whose calls overlap. *)

From S2P Require Import Prelude Effects External Concrete Crypto Entity.

(** ** [Arc]

    A reference-counted pointer: its address and the value it points to.
    [Arc::ptr_eq] compares addresses. *)
Record Arc (A : Type) : Type := mkArc { arc_ptr : N; arc_val : A }.
Arguments mkArc {A} _ _.
Arguments arc_ptr {A} _.
Arguments arc_val {A} _.

Definition ptr_eq {A} (a b : Arc A) : bool := (arc_ptr a =? arc_ptr b)%N.

(** ** [auctioneer/error.rs] *)

Inductive AuctioneerError : Type :=
| BidNotFound (slot : Z)
| BidValueNotHighEnough (provided current : string).

#[export] Instance AuctioneerError_eq_dec : EqDecision AuctioneerError.
Proof. solve_decision. Defined.

(** The [Display] of the error. *)
Definition AuctioneerError_to_string (e : AuctioneerError) : string :=
  match e with
  | BidNotFound slot => "bid not found for slot " +:+ u64_to_string slot
  | BidValueNotHighEnough provided current =>
      "bid value not high enough: provided " +:+ provided +:+ ", current " +:+ current
  end.

Section auctioneer.
Context `{Blst, Alloy}.

(** ** [auctioneer/traits.rs] *)

Class Auctioneer (A : Type) : Type := {
  compare_and_bid : Z -> Z -> Arc BidSubmission -> A -> result unit AuctioneerError * A;
  get_best_bid : Z -> Z -> A -> result (Arc BidSubmission) AuctioneerError * A;
}.

Definition bid_value (b : Arc BidSubmission) : U256 := bt_value (message (arc_val b)).

(** [bid.message.value > existing.message.value] *)
Definition outbids (bid existing : Arc BidSubmission) : bool :=
  U256_gt (bid_value bid) (bid_value existing).

Definition too_low (bid current : Arc BidSubmission) : AuctioneerError :=
  BidValueNotHighEnough (U256_to_string (bid_value bid)) (U256_to_string (bid_value current)).

(** ** The contract

    [best t slot a] is the bid the auctioneer would answer for the slot at time
    [t], [lifetime a] how long an accepted bid lasts. *)
Class AuctionView (A : Type) : Type := {
  best : Z -> Z -> A -> option (Arc BidSubmission);
  lifetime : A -> Z;
}.

(** What a read answers, and that nothing but time and [compare_and_bid] changes what it
    answers. *)
Class AuctionReads (A : Type) `{Auctioneer A, AuctionView A} : Prop := {
  best_antitone now t slot a b :
    now <= t -> best t slot a = Some b -> best now slot a = Some b;
  get_best_bid_value now slot a :
    fst (get_best_bid now slot a) =
    match best now slot a with Some b => Ok b | None => Err (BidNotFound slot) end;
  get_best_bid_best now t slot slot' a :
    now <= t ->
    let a' := snd (get_best_bid now slot a) in
    (forall b, best t slot' a = Some b -> best t slot' a' = Some b) /\
    (forall b, best t slot' a' = Some b -> best now slot' a = Some b);
  get_best_bid_lifetime now slot a : lifetime (snd (get_best_bid now slot a)) = lifetime a;
  compare_and_bid_lifetime now slot bid a :
    lifetime (snd (compare_and_bid now slot bid a)) = lifetime a;
}.

(** The part of the contract that tasks may rely on when their calls overlap: a call
    adds no bid but its own, and the best bid of a slot is replaced by a higher one
    only.  A call may be refused for no good reason. *)
Class SharedAuction (A : Type) `{Auctioneer A, !AuctionView A} : Prop := {
  shared_reads :: AuctionReads A;
  compare_and_bid_bids now t slot slot' bid a b :
    now <= t -> best t slot' (snd (compare_and_bid now slot bid a)) = Some b ->
    best now slot' a = Some b \/ (slot' = slot /\ b = bid);
  compare_and_bid_holds now t slot slot' bid a b :
    now <= t -> t < now + lifetime a -> best t slot' a = Some b ->
    exists b', best t slot' (snd (compare_and_bid now slot bid a)) = Some b' /\
      U256_0 (bid_value b) <= U256_0 (bid_value b');
}.

(** The whole contract, of calls that do not overlap. *)
Class AuctioneerLaws (A : Type) `{Auctioneer A} : Type := {
  auction_view :: AuctionView A;
  auction_reads :: AuctionReads A;
  compare_and_bid_value now slot bid a :
    fst (compare_and_bid now slot bid a) =
    match best now slot a with
    | None => Ok tt
    | Some old =>
        if outbids bid old then Ok tt
        else if ptr_eq old bid then Ok tt else Err (too_low bid old)
    end;
  compare_and_bid_accepts now t slot bid a :
    now <= t ->
    match best now slot a with Some old => outbids bid old = true | None => True end ->
    best t slot (snd (compare_and_bid now slot bid a)) =
    if t <? now + lifetime a then Some bid else None;
  compare_and_bid_keeps now t slot bid a old :
    now <= t -> best now slot a = Some old -> outbids bid old = false ->
    let a' := snd (compare_and_bid now slot bid a) in
    (best t slot a = Some old -> best t slot a' = Some old) /\
    (forall x, best t slot a' = Some x -> x = old);
  compare_and_bid_other now t slot slot' bid a :
    now <= t -> slot' <> slot ->
    best t slot' (snd (compare_and_bid now slot bid a)) = best t slot' a;
}.

Lemma outbids_spec b old : outbids b old = true <-> U256_0 (bid_value old) < U256_0 (bid_value b).
Proof. apply Z.ltb_lt. Qed.

Lemma outbids_false b old :
  outbids b old = false <-> U256_0 (bid_value b) <= U256_0 (bid_value old).
Proof. apply Z.ltb_ge. Qed.

#[export] Instance laws_shared {A} `{AuctioneerLaws A} : SharedAuction A.
Proof.
  constructor; [apply auction_reads| |].
  - intros t t' slot slot' bid a b Ht Hb. destruct (decide (slot' = slot)) as [->|Hne].
    + destruct (best t slot a) as [old|] eqn:Hold; [destruct (outbids bid old) eqn:Ho|].
      * rewrite compare_and_bid_accepts in Hb by (rewrite ?Hold; done).
        destruct (t' <? _); [|done]. injection Hb as <-. by right.
      * destruct (compare_and_bid_keeps t t' slot bid a old Ht Hold Ho) as [_ Hx].
        left. by rewrite (Hx b Hb).
      * rewrite compare_and_bid_accepts in Hb by (rewrite ?Hold; done).
        destruct (t' <? _); [|done]. injection Hb as <-. by right.
    + rewrite compare_and_bid_other in Hb by done. left. by eapply best_antitone.
  - intros now t slot' slot bid a b Ht Hlife Hb. destruct (decide (slot = slot')) as [<-|Hne].
    + pose proof (best_antitone now t slot a b Ht Hb) as Hnow. destruct (outbids bid b) eqn:Ho.
      * exists bid. rewrite compare_and_bid_accepts by (rewrite ?Hnow; done).
        rewrite (proj2 (Z.ltb_lt _ _)) by lia. split; [done|]. apply outbids_spec in Ho. lia.
      * exists b. split; [|done]. by eapply compare_and_bid_keeps.
    + exists b. by rewrite compare_and_bid_other.
Qed.

(** ** Overlapping calls

    The cache coalesces the insertions that tasks make for one key at the same time: one
    of them inserts its value, and the others are given that value without testing the
    condition of [or_insert_with_if] on it again.  [compare_and_bid] takes such an
    answer for a refusal, also when its bid is the higher one.  [coalesced] tells which of
    the coming calls are answered so. *)
Record Contended (A : Type) : Type := mkContended {
  contended : A;
  coalesced : list bool;
}.
#[global] Arguments mkContended {A} _ _.
#[global] Arguments contended {A} _.
#[global] Arguments coalesced {A} _.

Section contention.
Context {A : Type} `{!Auctioneer A, !AuctionView A}.

Definition Contended_compare_and_bid (now slot : Z) (bid : Arc BidSubmission)
    (a : Contended A) : result unit AuctioneerError * Contended A :=
  match coalesced a, best now slot (contended a) with
  | true :: later, Some inserted =>
      (Err (too_low bid inserted), mkContended (contended a) later)
  | answers, _ =>
      let '(r, a') := compare_and_bid now slot bid (contended a) in
      (r, mkContended a' (tail answers))
  end.

#[local] Instance Contended_Auctioneer : Auctioneer (Contended A) := {
  compare_and_bid := Contended_compare_and_bid;
  get_best_bid now slot a :=
    let '(r, a') := get_best_bid now slot (contended a) in (r, mkContended a' (coalesced a));
}.

#[local] Instance Contended_view : AuctionView (Contended A) := {
  best t slot a := best t slot (contended a);
  lifetime a := lifetime (contended a);
}.

(** A call is refused, or is a call of the auctioneer. *)
Lemma contended_call now slot bid (a : Contended A) :
  contended (snd (compare_and_bid now slot bid a)) = contended a \/
  contended (snd (compare_and_bid now slot bid a)) =
    snd (compare_and_bid now slot bid (contended a)).
Proof.
  simpl. unfold Contended_compare_and_bid.
  destruct (coalesced a) as [|[] later]; [|destruct (best _ _ _); [by left|]|];
    right; by destruct (compare_and_bid _ _ _ (contended a)).
Qed.

Context `{!SharedAuction A}.

#[local] Instance Contended_shared : SharedAuction (Contended A).
Proof.
  constructor; [constructor| |]; simpl.
  - intros. by eapply best_antitone.
  - intros now slot a. rewrite <- get_best_bid_value. by destruct (get_best_bid _ _ _).
  - intros now t slot slot' a Ht. pose proof (get_best_bid_best now t slot slot' (contended a) Ht).
    by destruct (get_best_bid _ _ _).
  - intros now slot a. rewrite <- (get_best_bid_lifetime now slot (contended a)).
    by destruct (get_best_bid _ _ _).
  - intros now slot bid a. destruct (contended_call now slot bid a) as [E|E]; simpl in E; rewrite E;
      [done|apply compare_and_bid_lifetime].
  - intros now t slot slot' bid a b Ht Hb.
    destruct (contended_call now slot bid a) as [E|E]; simpl in E; rewrite E in Hb.
    + left. by eapply best_antitone.
    + by eapply compare_and_bid_bids.
  - intros now t slot slot' bid a b Ht Hl Hb.
    destruct (contended_call now slot bid a) as [E|E]; simpl in E; rewrite E; [by exists b|].
    by apply compare_and_bid_holds.
Qed.

End contention.

(** ** The implementation on a [moka] cache *)

Section memory.
Context {C : Type} `{MokaCache Z (Arc BidSubmission) C}.

Record MemoryAuctioneer : Type := { cache : C }.

(** [MemoryAuctioneer::new(ttl)] *)
Definition MemoryAuctioneer_new (ttl : Z) : MemoryAuctioneer :=
  {| cache := cache_build ttl ttl |}.

(** [compare_and_bid], when no other call for the slot overlaps it: see [Contended] for
    calls that do. *)
Definition MemoryAuctioneer_compare_and_bid (now slot : Z) (bid : Arc BidSubmission)
    (a : MemoryAuctioneer) : result unit AuctioneerError * MemoryAuctioneer :=
  let '(entry, cache') :=
    cache_or_insert_with_if now slot bid
      (fun existing => U256_gt (bid_value bid) (bid_value existing)) (cache a) in
  let a' := {| cache := cache' |} in
  if negb (ptr_eq entry bid)
  then (Err (BidValueNotHighEnough
               (U256_to_string (bid_value bid)) (U256_to_string (bid_value entry))), a')
  else (Ok tt, a').

Definition MemoryAuctioneer_get_best_bid (now slot : Z) (a : MemoryAuctioneer) :
    result (Arc BidSubmission) AuctioneerError * MemoryAuctioneer :=
  let '(found, cache') := cache_get now slot (cache a) in
  (ok_or (BidNotFound slot) found, {| cache := cache' |}).

#[export] Instance MemoryAuctioneer_Auctioneer : Auctioneer MemoryAuctioneer := {
  compare_and_bid := MemoryAuctioneer_compare_and_bid;
  get_best_bid := MemoryAuctioneer_get_best_bid;
}.

Definition memory_best (t slot : Z) (a : MemoryAuctioneer) : option (Arc BidSubmission) :=
  cache_live t slot (cache a).

Definition memory_lifetime (a : MemoryAuctioneer) : Z :=
  Z.min (cache_ttl (cache a)) (cache_tti (cache a)).

Context `{!MokaLaws Z (Arc BidSubmission) C}.

Lemma ptr_eq_refl {A} (a : Arc A) : ptr_eq a a = true.
Proof. apply N.eqb_refl. Qed.

Lemma memory_compare_and_bid_snd now slot bid a :
  snd (MemoryAuctioneer_compare_and_bid now slot bid a) =
  {| cache := snd (cache_or_insert_with_if now slot bid
       (fun existing => U256_gt (bid_value bid) (bid_value existing)) (cache a)) |}.
Proof.
  unfold MemoryAuctioneer_compare_and_bid.
  destruct (cache_or_insert_with_if _ _ _ _ _) as [entry c']. by destruct (negb _).
Qed.

Lemma memory_compare_and_bid_fst now slot bid a :
  fst (MemoryAuctioneer_compare_and_bid now slot bid a) =
  match memory_best now slot a with
  | None => Ok tt
  | Some old =>
      if outbids bid old then Ok tt
      else if ptr_eq old bid then Ok tt else Err (too_low bid old)
  end.
Proof.
  unfold MemoryAuctioneer_compare_and_bid, memory_best.
  pose proof (cache_or_insert_value now slot bid
    (fun existing => U256_gt (bid_value bid) (bid_value existing)) (cache a)) as Hv.
  destruct (cache_or_insert_with_if _ _ _ _ _) as [entry c']; simpl in Hv. subst entry.
  destruct (cache_live now slot (cache a)) as [old|]; [|by rewrite ptr_eq_refl].
  fold (outbids bid old). destruct (outbids bid old); [by rewrite ptr_eq_refl|].
  by destruct (ptr_eq old bid).
Qed.

Definition MemoryAuctioneer_view : AuctionView MemoryAuctioneer := {|
  best := memory_best; lifetime := memory_lifetime;
|}.

Lemma MemoryAuctioneer_reads :
  @AuctionReads MemoryAuctioneer MemoryAuctioneer_Auctioneer MemoryAuctioneer_view.
Proof.
  constructor; simpl; unfold memory_best, memory_lifetime.
  - intros. by eapply cache_live_antitone.
  - intros. unfold MemoryAuctioneer_get_best_bid, cache_live.
    destruct (cache_get now slot (cache a)) as [[b|] c']; done.
  - intros now t slot slot' a Ht.
    pose proof (cache_get_live now t slot slot' (cache a) Ht) as Hl.
    unfold MemoryAuctioneer_get_best_bid.
    by destruct (cache_get now slot (cache a)) as [b c'].
  - intros now slot a. unfold MemoryAuctioneer_get_best_bid.
    destruct (cache_get_policy now slot (cache a)) as [Httl Htti].
    destruct (cache_get now slot (cache a)) as [b c']; simpl in *. by rewrite Httl, Htti.
  - intros now slot bid a. rewrite memory_compare_and_bid_snd. simpl.
    destruct (cache_or_insert_policy now slot bid
      (fun existing => U256_gt (bid_value bid) (bid_value existing)) (cache a)) as [Httl Htti].
    by rewrite Httl, Htti.
Qed.

#[export] Instance MemoryAuctioneer_laws : AuctioneerLaws MemoryAuctioneer.
Proof.
  refine {| auction_view := MemoryAuctioneer_view; auction_reads := MemoryAuctioneer_reads |}; simpl; unfold memory_best, memory_lifetime.
  - intros. apply memory_compare_and_bid_fst.
  - intros. rewrite memory_compare_and_bid_snd. by apply cache_live_written.
  - intros. rewrite memory_compare_and_bid_snd. by eapply cache_live_kept.
  - intros. rewrite memory_compare_and_bid_snd. by apply cache_live_other.
Defined.

Lemma memory_new_best ttl t slot : best t slot (MemoryAuctioneer_new ttl) = None.
Proof. apply cache_build_empty. Qed.

Lemma memory_new_lifetime ttl : lifetime (MemoryAuctioneer_new ttl) = ttl.
Proof.
  change (memory_lifetime (MemoryAuctioneer_new ttl) = ttl). unfold memory_lifetime; simpl.
  destruct (cache_build_policy (K := Z) (V := Arc BidSubmission) (C := C) ttl ttl) as [-> ->]. apply Z.min_id.
Qed.

End memory.

(** ** The auction as a whole *)

(** A submission: its time, its slot, its bid. *)
Definition submission : Type := Z * Z * Arc BidSubmission.

Fixpoint submit_all {A} `{Auctioneer A} (l : list submission) (a : A) :
    list (result unit AuctioneerError) * A :=
  match l with
  | [] => ([], a)
  | (now, slot, bid) :: l' =>
      let '(r, a') := compare_and_bid now slot bid a in
      let '(rs, a'') := submit_all l' a' in
      (r :: rs, a'')
  end.

(** The abstract auction: one current bid per slot. *)
Definition spec_submit (slot : Z) (bid : Arc BidSubmission)
    (m : gmap Z (Arc BidSubmission)) :
    result unit AuctioneerError * gmap Z (Arc BidSubmission) :=
  match m !! slot with
  | None => (Ok tt, <[slot := bid]> m)
  | Some old =>
      if outbids bid old then (Ok tt, <[slot := bid]> m)
      else (if ptr_eq old bid then Ok tt else Err (too_low bid old), m)
  end.

Fixpoint spec_submit_all (l : list submission) (m : gmap Z (Arc BidSubmission)) :
    list (result unit AuctioneerError) * gmap Z (Arc BidSubmission) :=
  match l with
  | [] => ([], m)
  | (_, slot, bid) :: l' =>
      let '(r, m') := spec_submit slot bid m in
      let '(rs, m'') := spec_submit_all l' m' in
      (r :: rs, m'')
  end.

Definition bids_for (slot : Z) (l : list submission) : list (Arc BidSubmission) :=
  map snd (filter (fun x => snd (fst x) = slot) l).

(** [b] is the first of the highest bids of [l]. *)
Definition first_maximum (l : list (Arc BidSubmission)) (b : Arc BidSubmission) : Prop :=
  exists before after, l = before ++ b :: after /\
    Forall (fun x => U256_0 (bid_value x) < U256_0 (bid_value b)) before /\
    Forall (fun x => U256_0 (bid_value x) <= U256_0 (bid_value b)) after.

(** The times of the submissions do not decrease and stay in [t, stop]. *)
Fixpoint timed (t stop : Z) (l : list submission) : Prop :=
  match l with
  | [] => t <= stop
  | (now, _, _) :: l' => t <= now /\ timed now stop l'
  end.

Lemma timed_le t stop l : timed t stop l -> t <= stop.
Proof.
  revert t. induction l as [|[[now slot] bid] l IH]; intros t; simpl; [done|].
  intros [Ht Hl]. specialize (IH _ Hl). lia.
Qed.

Section auction.
Context {A : Type} `{AuctioneerLaws A}.

(** [m] is what the auctioneer answers at every time from [t] to before
    [deadline]. *)
Definition answers (t deadline : Z) (a : A) (m : gmap Z (Arc BidSubmission)) : Prop :=
  forall t' slot, t <= t' < deadline -> best t' slot a = m !! slot.

Lemma compare_and_bid_answers t now deadline slot bid a m :
  t <= now < deadline -> deadline <= now + lifetime a -> answers t deadline a m ->
  fst (compare_and_bid now slot bid a) = fst (spec_submit slot bid m) /\
  answers now deadline (snd (compare_and_bid now slot bid a)) (snd (spec_submit slot bid m)).
Proof.
  intros Hnow Hdl Ha. rewrite compare_and_bid_value, (Ha now slot) by lia.
  unfold spec_submit. split; [by repeat case_match|].
  intros t' slot' Ht'. destruct (decide (slot' = slot)) as [->|Hne].
  - destruct (m !! slot) as [old|] eqn:Hm; [destruct (outbids bid old) eqn:Ho|]; simpl.
    + rewrite compare_and_bid_accepts by (rewrite ?(Ha now slot), ?Hm by lia; lia || done).
      rewrite lookup_insert_eq. by rewrite (proj2 (Z.ltb_lt _ _)) by lia.
    + rewrite Hm. eapply compare_and_bid_keeps; [lia| |done|].
      * by rewrite (Ha now slot) by lia.
      * by rewrite (Ha t' slot) by lia.
    + rewrite compare_and_bid_accepts by (rewrite ?(Ha now slot), ?Hm by lia; lia || done).
      rewrite lookup_insert_eq. by rewrite (proj2 (Z.ltb_lt _ _)) by lia.
  - rewrite compare_and_bid_other by (lia || done). rewrite (Ha t' slot') by lia.
    repeat case_match; simpl; by rewrite ?lookup_insert_ne by done.
Qed.

Lemma submit_all_answers t stop deadline l a m :
  timed t stop l -> stop < deadline -> deadline <= t + lifetime a ->
  answers t deadline a m ->
  fst (submit_all l a) = fst (spec_submit_all l m) /\
  answers stop deadline (snd (submit_all l a)) (snd (spec_submit_all l m)).
Proof.
  revert t a m. induction l as [|[[now slot] bid] l IH]; intros t a m; simpl.
  - intros Ht Hs Hd Ha. split; [done|]. intros t' sl Ht'. apply Ha. lia.
  - intros [Ht Hl] Hs Hd Ha. pose proof (timed_le _ _ _ Hl).
    destruct (compare_and_bid_answers t now deadline slot bid a m) as [Hr Ha']; [lia..|done|].
    pose proof (compare_and_bid_lifetime now slot bid a) as Hlife.
    destruct (compare_and_bid now slot bid a) as [r a'], (spec_submit slot bid m) as [r' m'].
    simpl in *. subst r'.
    destruct (IH now a' m') as [Hrs Ha'']; [done..|lia|done|].
    destruct (submit_all l a') as [rs a''], (spec_submit_all l m') as [rs' m''].
    simpl in *. by subst rs'.
Qed.

End auction.

(** The abstract auction keeps the first maximum. *)
Lemma first_maximum_snoc l b bid :
  first_maximum l b ->
  first_maximum (l ++ [bid]) (if outbids bid b then bid else b).
Proof.
  intros (before & after & -> & Hb & Ha). destruct (outbids bid b) eqn:Ho.
  - apply outbids_spec in Ho. exists (before ++ b :: after), [].
    split; [done|]. split; [|done]. apply Forall_app; split.
    + eapply Forall_impl; [exact Hb|]. simpl; intros; lia.
    + constructor; [lia|]. eapply Forall_impl; [exact Ha|]. simpl; intros; lia.
  - apply outbids_false in Ho. exists before, (after ++ [bid]).
    split; [by rewrite <- app_assoc|]. split; [done|]. apply Forall_app; split; [done|].
    by constructor.
Qed.

Definition keeps_maximum (seen : Z -> list (Arc BidSubmission))
    (m : gmap Z (Arc BidSubmission)) : Prop :=
  forall slot, match m !! slot with
               | Some b => first_maximum (seen slot) b
               | None => seen slot = []
               end.

Lemma bids_for_cons sl now slot bid l :
  bids_for sl ((now, slot, bid) :: l) =
  (if decide (slot = sl) then [bid] else []) ++ bids_for sl l.
Proof. unfold bids_for. rewrite filter_cons. simpl. by case_decide. Qed.

Lemma spec_submit_all_maximum l m seen :
  keeps_maximum seen m ->
  keeps_maximum (fun slot => seen slot ++ bids_for slot l) (snd (spec_submit_all l m)).
Proof.
  revert m seen. induction l as [|[[now slot] bid] l IH]; intros m seen Hm; simpl.
  - intros sl. specialize (Hm sl). unfold bids_for. simpl. by rewrite app_nil_r.
  - destruct (spec_submit slot bid m) as [r m'] eqn:Hs.
    assert (Hm' : keeps_maximum
      (fun sl => if decide (slot = sl) then seen sl ++ [bid] else seen sl) m').
    { intros sl. specialize (Hm sl). unfold spec_submit in Hs. case_decide as Hd.
      - subst sl. destruct (m !! slot) as [old|] eqn:E.
        + pose proof (first_maximum_snoc _ _ bid Hm) as Hf.
          destruct (outbids bid old); injection Hs as <- <-.
          * by rewrite lookup_insert_eq.
          * by rewrite E.
        + injection Hs as <- <-. rewrite lookup_insert_eq, Hm. by exists [], [].
      - assert (m' !! sl = m !! sl) as ->; [|done].
        repeat case_match; injection Hs as <- <-; rewrite ?lookup_insert_ne by done; done. }
    specialize (IH m' _ Hm'). destruct (spec_submit_all l m') as [rs m'']; simpl in *.
    intros sl. specialize (IH sl). cbn beta in IH. rewrite bids_for_cons.
    case_decide; [|done]. by rewrite <- app_assoc in IH.
Qed.

(** C3: the auctioneer refines the abstract auction: submissions made within the
    lifetime of a bid get the answers of an auction that holds one current bid per
    slot, replaces it exactly when the value is strictly higher, and reports the
    two values otherwise; and its answers to [get_best_bid] are those of the
    abstract state, until the first bid's lifetime is over. *)
Theorem auctioneer_refines_auction {A} `{AuctioneerLaws A} (a : A) (l : list submission)
    (t stop : Z) :
  (forall slot, best t slot a = None) ->
  timed t stop l -> stop < t + lifetime a ->
  let '(results, m) := spec_submit_all l ∅ in
  fst (submit_all l a) = results /\
  forall slot, fst (get_best_bid stop slot (snd (submit_all l a))) =
    match m !! slot with Some b => Ok b | None => Err (BidNotFound slot) end.
Proof.
  intros Hempty Hl Hstop. pose proof (timed_le _ _ _ Hl).
  destruct (submit_all_answers t stop (t + lifetime a) l a ∅) as [Hr Ha];
    [done..|lia| |].
  - intros t' slot Ht'. rewrite lookup_empty.
    destruct (best t' slot a) as [b|] eqn:E; [|done].
    eapply best_antitone in E; [|exact (proj1 Ht')]. by rewrite Hempty in E.
  - destruct (spec_submit_all l ∅) as [results m]; simpl in *. split; [done|].
    intros slot. rewrite get_best_bid_value. by rewrite (Ha stop slot) by lia.
Qed.

(** C16: the best bid of a slot is the first of the highest bids submitted for
    it: equal bids never replace an earlier one, and bids for other slots do not
    matter. *)
Theorem best_bid_is_first_maximum {A} `{AuctioneerLaws A} (a : A) (l : list submission)
    (t stop slot : Z) :
  (forall slot, best t slot a = None) ->
  timed t stop l -> stop < t + lifetime a ->
  match fst (get_best_bid stop slot (snd (submit_all l a))) with
  | Ok b => first_maximum (bids_for slot l) b
  | Err e => bids_for slot l = [] /\ e = BidNotFound slot
  end.
Proof.
  intros Hempty Hl Hstop. pose proof (timed_le _ _ _ Hl).
  destruct (submit_all_answers t stop (t + lifetime a) l a ∅) as [_ Ha]; [done..|lia| |].
  - intros t' sl Ht'. rewrite lookup_empty.
    destruct (best t' sl a) as [b|] eqn:E; [|done].
    eapply best_antitone in E; [|exact (proj1 Ht')]. by rewrite Hempty in E.
  - pose proof (spec_submit_all_maximum l ∅ (fun _ => [])) as Hmax.
    rewrite get_best_bid_value. rewrite (Ha stop slot) by lia.
    specialize (Hmax ltac:(intros sl; by rewrite lookup_empty) slot). simpl in Hmax.
    by destruct (snd (spec_submit_all l ∅) !! slot).
Qed.

End auctioneer.

(** ** A concrete auction: three bids for one slot, the second and the third of the
    same value, and one for another slot *)

Definition sample_submission (ptr : N) (now slot value : Z) : submission :=
  (now, slot, mkArc ptr (sample_bid sample_sk (array_default 32) slot value B256_default)).

Definition sample_auction : list submission :=
  [sample_submission 0 1 10 100; sample_submission 1 2 10 150;
   sample_submission 2 3 10 150; sample_submission 3 3 11 120].

Lemma auctioneer_refines_auction_witness :
  let a := MemoryAuctioneer_new (C := ToyCache (Arc BidSubmission)) 60 in
  (forall slot, best 0 slot a = None) /\ timed 0 5 sample_auction /\ 5 < 0 + lifetime a /\
  (let '(results, m) := spec_submit_all sample_auction ∅ in
   fst (submit_all sample_auction a) = results /\
   forall slot, fst (get_best_bid 5 slot (snd (submit_all sample_auction a))) =
     match m !! slot with Some b => Ok b | None => Err (BidNotFound slot) end).
Proof.
  intros a.
  assert (H1 : forall slot, best 0 slot a = None) by (intros slot; apply memory_new_best).
  assert (H2 : timed 0 5 sample_auction) by (simpl; lia).
  assert (H3 : 5 < 0 + lifetime a) by (simpl; reflexivity).
  exact (conj H1 (conj H2 (conj H3 (auctioneer_refines_auction a sample_auction 0 5 H1 H2 H3)))).
Defined.

Lemma best_bid_is_first_maximum_witness :
  let a := MemoryAuctioneer_new (C := ToyCache (Arc BidSubmission)) 60 in
  (forall slot, best 0 slot a = None) /\ timed 0 5 sample_auction /\ 5 < 0 + lifetime a /\
  match fst (get_best_bid 5 10 (snd (submit_all sample_auction a))) with
  | Ok b => first_maximum (bids_for 10 sample_auction) b
  | Err e => bids_for 10 sample_auction = [] /\ e = BidNotFound 10
  end.
Proof.
  intros a.
  assert (H1 : forall slot, best 0 slot a = None) by (intros slot; apply memory_new_best).
  assert (H2 : timed 0 5 sample_auction) by (simpl; lia).
  assert (H3 : 5 < 0 + lifetime a) by (simpl; reflexivity).
  exact (conj H1 (conj H2 (conj H3 (best_bid_is_first_maximum a sample_auction 0 5 10 H1 H2 H3)))).
Defined.
