(* ===== verification/UseCase.v ===== *)
(** * The [usecase] crate

    The errors of the relay ([error.rs]) and its four use cases ([submit_bid.rs],
    [get_header.rs], [register_validator.rs], [unblind_block.rs]) as tasks over the
    operations of a storage and an auctioneer.  A task does not hold a lock across
    two operations: the theorems of this file are about a task that runs alone,
    those of [Concurrency.v] about all interleavings. *)

From S2P Require Import Prelude Effects External Concrete Crypto Entity Storage Auctioneer.

(** ** [error.rs] *)

Inductive UseCaseError : Type :=
| AuctioneerErr (e : AuctioneerError)
| ZeroBid
| UnauthorizedBuilder
| UnauthorizedGetHeader
| InvalidSlot
| NoBidFound
| DutyNotFound
| InvalidBuilderSignature
| InvalidValidatorSignature
| InvalidPayloadAttributes (reason : string)
| ProposerIndexMismatch (expected actual : Z)
| NoBlindedBlockResponse
| UnauthorizedSubmission
| BlockHashMismatch.

#[export] Instance UseCaseError_eq_dec : EqDecision UseCaseError.
Proof. solve_decision. Defined.

(** The [Display] of the error. *)
Definition UseCaseError_to_string (e : UseCaseError) : string :=
  match e with
  | AuctioneerErr e => "Auctioneer error: " +:+ AuctioneerError_to_string e
  | ZeroBid => "bid value is zero"
  | UnauthorizedBuilder => "builder is not whitelisted"
  | UnauthorizedGetHeader => "unauthorized validator"
  | InvalidSlot => "bid slot is in the past"
  | NoBidFound => "no bid found for slot"
  | DutyNotFound => "no proposer duty found for slot"
  | InvalidBuilderSignature => "invalid builder signature"
  | InvalidValidatorSignature => "invalid validator signature"
  | InvalidPayloadAttributes reason => "invalid payload attributes: " +:+ reason
  | ProposerIndexMismatch expected actual =>
      "proposer index mismatch: expected " +:+ u64_to_string expected +:+
      ", got " +:+ u64_to_string actual
  | NoBlindedBlockResponse => "no blinded block response found"
  | UnauthorizedSubmission => "validator not registered"
  | BlockHashMismatch => "block hash mismatch"
  end.

Section operations.
Context `{Blst}.

(** ** The operations of a task

    [NewArc] is [Arc::new]: the allocator answers an address no live [Arc] has. *)
Inductive relayE : Type -> Type :=
| StorageOp {X} (e : storageE X) : relayE X
| CompareAndBid (slot : Z) (bid : Arc BidSubmission) : relayE (result unit AuctioneerError)
| GetBestBid (slot : Z) : relayE (result (Arc BidSubmission) AuctioneerError)
| NewArc (bid : BidSubmission) : relayE (Arc BidSubmission).

End operations.

(** [Option::is_some]; the source tests [is_none]. *)
Definition is_some {T} (o : option T) : bool :=
  match o with Some _ => true | None => false end.

Abbreviation task := (prog relayE).

Section usecase.
Context `{Blst, Alloy, TreeHashLib}.

Definition storage_op {X} (e : storageE X) : task X := perform (StorageOp e).

(** The shared state of the tasks.  [w_ops] counts the operations performed so
    far: it dates them, and it is the supply of fresh addresses. *)
Record World (S A : Type) : Type := mkWorld {
  w_storage : S;
  w_auctioneer : A;
  w_ops : N;
}.
#[global] Arguments mkWorld {S A} _ _ _.
#[global] Arguments w_storage {S A} _.
#[global] Arguments w_auctioneer {S A} _.
#[global] Arguments w_ops {S A} _.

(** [clock n] is the time of the [n]-th operation. *)
Definition relay_handler {S A} `{!Auctioneer A} (hs : handler storageE S) (clock : N -> Z) :
    handler relayE (World S A) := fun X e w =>
  let 'mkWorld s a n := w in
  match e in relayE X return X * World S A with
  | StorageOp e => let '(x, s') := hs _ e s in (x, mkWorld s' a (n + 1)%N)
  | CompareAndBid slot bid =>
      let '(r, a') := compare_and_bid (clock n) slot bid a in (r, mkWorld s a' (n + 1)%N)
  | GetBestBid slot =>
      let '(r, a') := get_best_bid (clock n) slot a in (r, mkWorld s a' (n + 1)%N)
  | NewArc bid => (mkArc n bid, mkWorld s a (n + 1)%N)
  end.

(** ** [submit_bid.rs] *)

Record SubmitBidUseCase : Type := { sb_fork_datas : ForkDatas }.

Definition SubmitBidUseCase_new (fork_datas : ForkDatas) : SubmitBidUseCase :=
  {| sb_fork_datas := fork_datas |}.

Definition SubmitBidUseCase_execute (profile : build_profile) (self : SubmitBidUseCase)
    (bid : BidSubmission) : task (result unit UseCaseError) :=
  let slot := bt_slot (message bid) in
  let builder_pubkey := bt_builder_pubkey (message bid) in
  let value := bt_value (message bid) in
  let? _ := reject_if (bool_decide (value = mkU256 0)) ZeroBid in
  let! whitelisted := storage_op (IsWhitelistedBuilder builder_pubkey) in
  let? _ := reject_if (negb whitelisted) UnauthorizedBuilder in
  let! head_slot := storage_op ReadHeadSlot in
  let! is_next := lift_outcome (HeadSlot_is_next_slot profile head_slot slot) in
  let? _ := reject_if (negb is_next) InvalidSlot in
  let! attrs := storage_op ReadPayloadAttributes in
  let? _ := reject_if
    (negb (bool_decide (pa_prev_randao attrs = ExecutionPayload_prev_randao (bid_payload bid))))
    (InvalidPayloadAttributes "prev_randao mismatch") in
  let! found := storage_op (FindDutyBySlot slot) in
  let? duty := Ret (ok_or DutyNotFound found) in
  let builder_domain := compute_builder_domain (sb_fork_datas self) in
  let? _ := reject_if
    (negb (BidTrace_verify_signature (message bid) (bid_signature bid) builder_domain))
    InvalidBuilderSignature in
  let! bid_arc := perform (NewArc bid) in
  let! compared := perform (CompareAndBid slot bid_arc) in
  let? _ := Ret (map_err AuctioneerErr compared) in
  let blinded := to_blinded_block_response (arc_val bid_arc) in
  let! _ := storage_op (SetBlindedBlockResponse (pd_pubkey duty) blinded) in
  Ret (Ok tt).

(** ** [get_header.rs] *)

Record GetHeaderUseCase : Type := { gh_signer : BlsSigner }.

Definition GetHeaderUseCase_new (signer : BlsSigner) : GetHeaderUseCase :=
  {| gh_signer := signer |}.

Definition GetHeaderUseCase_execute (profile : build_profile) (self : GetHeaderUseCase)
    (slot : Z) (parent_hash : B256) (proposer_pubkey : BlsPublicKey) :
    task (result (Versioned SignedHeader) UseCaseError) :=
  let! registered := storage_op (ReadValidatorRegistration proposer_pubkey) in
  let? _ := reject_if (negb (is_some registered)) UnauthorizedGetHeader in
  let! found := storage_op (FindDutyBySlot slot) in
  let? duty := Ret (ok_or DutyNotFound found) in
  let? _ := reject_if (negb (bool_decide (pd_pubkey duty = proposer_pubkey)))
    UnauthorizedGetHeader in
  let! head_slot := storage_op ReadHeadSlot in
  let! is_next := lift_outcome (HeadSlot_is_next_slot profile head_slot slot) in
  let? _ := reject_if (negb is_next) InvalidSlot in
  let! got := perform (GetBestBid slot) in
  let? best_bid := Ret (map_err AuctioneerErr got) in
  let? _ := reject_if
    (negb (bool_decide (bt_parent_hash (bid_trace (arc_val best_bid)) = parent_hash)))
    NoBidFound in
  let version := signer_fork_name (gh_signer self) in
  let! header := lift_outcome (build_header (arc_val best_bid)) in
  let signature := BlsSigner_sign (gh_signer self) header in
  let signed_header := SignedHeader_new header signature in
  Ret (Ok (Versioned_new version signed_header)).

(** ** [register_validator.rs] *)

Record RegisterValidatorUseCase : Type := { rv_fork_datas : ForkDatas }.

Definition RegisterValidatorUseCase_new (fork_datas : ForkDatas) : RegisterValidatorUseCase :=
  {| rv_fork_datas := fork_datas |}.

Definition RegisterValidatorUseCase_execute (self : RegisterValidatorUseCase)
    (registration : SignedValidatorRegistration) : task (result unit UseCaseError) :=
  let pubkey := vr_pubkey (svr_message registration) in
  let domain := compute_builder_domain (rv_fork_datas self) in
  let? _ := reject_if
    (negb (SignedValidatorRegistration_verify_signature registration domain))
    InvalidValidatorSignature in
  let! _ := storage_op (SetValidatorRegistration pubkey (svr_message registration)) in
  Ret (Ok tt).

(** ** [unblind_block.rs] *)

Record UnblindBlockUseCase : Type := { ub_fork_datas : ForkDatas }.

Definition UnblindBlockUseCase_new (fork_datas : ForkDatas) : UnblindBlockUseCase :=
  {| ub_fork_datas := fork_datas |}.

Definition blinded_block_preimage (slot proposer_index : Z) (block_hash : B256) : list byte :=
  to_le_bytes 8 slot ++ to_le_bytes 8 proposer_index ++ fb_bytes (B256_0 block_hash).

Definition blinded_block_signing_root (slot proposer_index : Z) (block_hash : B256)
    (domain : FixedBytes 32) : list byte :=
  let hash := keccak256 (blinded_block_preimage slot proposer_index block_hash) in
  let root := fb_bytes hash ++ fb_bytes domain in
  fb_bytes (keccak256 root).

Definition UnblindBlockUseCase_execute (self : UnblindBlockUseCase)
    (slot proposer_index : Z) (block_hash : B256) (signature : BlsSignature) :
    task (result BlindedBlockResponse UseCaseError) :=
  let! found := storage_op (FindDutyBySlot slot) in
  let? duty := Ret (ok_or DutyNotFound found) in
  let? _ := reject_if (negb (pd_validator_index duty =? proposer_index))
    (ProposerIndexMismatch (pd_validator_index duty) proposer_index) in
  let proposer_pubkey := pd_pubkey duty in
  let! registered := storage_op (ReadValidatorRegistration proposer_pubkey) in
  let? _ := reject_if (negb (is_some registered)) UnauthorizedSubmission in
  let domain := compute_proposer_domain (ub_fork_datas self) in
  let? _ := reject_if
    (negb (BlsSignature_verify signature proposer_pubkey
             (blinded_block_signing_root slot proposer_index block_hash domain)))
    InvalidValidatorSignature in
  let! stored := storage_op (ReadBlindedBlockResponse proposer_pubkey) in
  let? resp := Ret (ok_or NoBlindedBlockResponse stored) in
  let? _ := reject_if
    (negb (bool_decide (ep_block_hash (bbr_execution_payload resp) = block_hash)))
    BlockHashMismatch in
  let! _ := storage_op (SetDeliveredBlocks block_hash) in
  Ret (Ok resp).


(** ** Specifications

    The requirements of a use case, in the order of the code, each with the error
    that reports its failure; [first_failure] is the error of the first requirement
    that fails. *)

Definition requirements : Type := list (bool * UseCaseError).

Definition first_failure (reqs : requirements) : option UseCaseError :=
  option_map snd (List.find (fun r => negb (fst r)) reqs).

(** The duty of a slot; the proposer of the slot. *)
Definition duty_at (v : StorageView) (slot : Z) : option ProposerDuty :=
  List.find (fun d => pd_slot d =? slot) (v_duties v).

Definition duty_for (P : ProposerDuty -> bool) (o : option ProposerDuty) : bool :=
  match o with Some d => P d | None => false end.

(** [current] is the live best bid of the slot. *)
Definition submit_bid_requires (fds : ForkDatas) (v : StorageView)
    (current : option (Arc BidSubmission)) (bid : BidSubmission) : requirements :=
  let m := message bid in
  [(negb (bool_decide (bt_value m = mkU256 0)), ZeroBid);
   (bool_decide (bt_builder_pubkey m ∈ v_whitelist v), UnauthorizedBuilder);
   (bt_slot m =? HeadSlot_0 (v_head v) + 1, InvalidSlot);
   (bool_decide (pa_prev_randao (v_attrs v) = B256_0 (ep_prev_randao (bid_payload bid))),
    InvalidPayloadAttributes "prev_randao mismatch");
   (is_some (duty_at v (bt_slot m)), DutyNotFound);
   (BidTrace_verify_signature m (bid_signature bid) (compute_builder_domain fds),
    InvalidBuilderSignature)] ++
  match current with
  | Some old =>
      [(U256_gt (bt_value m) (bid_value old),
        AuctioneerErr (BidValueNotHighEnough (U256_to_string (bt_value m))
                         (U256_to_string (bid_value old))))]
  | None => []
  end.

Definition get_header_requires (v : StorageView) (current : option (Arc BidSubmission))
    (slot : Z) (parent_hash : B256) (proposer : BlsPublicKey) : requirements :=
  [(is_some (v_regs v !! proposer), UnauthorizedGetHeader);
   (is_some (duty_at v slot), DutyNotFound);
   (duty_for (fun d => bool_decide (pd_pubkey d = proposer)) (duty_at v slot),
    UnauthorizedGetHeader);
   (slot =? HeadSlot_0 (v_head v) + 1, InvalidSlot)] ++
  match current with
  | Some b =>
      [(bool_decide (bt_parent_hash (message (arc_val b)) = parent_hash), NoBidFound)]
  | None => [(false, AuctioneerErr (BidNotFound slot))]
  end.

Definition unblind_block_requires (fds : ForkDatas) (v : StorageView) (slot index : Z)
    (block_hash : B256) (signature : BlsSignature) : requirements :=
  match duty_at v slot with
  | None => [(false, DutyNotFound)]
  | Some duty =>
      [(pd_validator_index duty =? index,
        ProposerIndexMismatch (pd_validator_index duty) index);
       (is_some (v_regs v !! pd_pubkey duty), UnauthorizedSubmission);
       (BlsSignature_verify signature (pd_pubkey duty)
          (blinded_block_signing_root slot index block_hash (compute_proposer_domain fds)),
        InvalidValidatorSignature)] ++
      match v_blinded v !! pd_pubkey duty with
      | Some resp =>
          [(bool_decide (ep_block_hash (bbr_execution_payload resp) = block_hash),
            BlockHashMismatch)]
      | None => [(false, NoBlindedBlockResponse)]
      end
  end.

End usecase.

(** ** The message a proposer signs *)

(** The message a proposer signs to unblind a block binds the slot, the
    proposer index, the block hash and the domain: two requests with the same
    signing root agree on all four, unless they exhibit a collision of
    [keccak256] on the encoded requests or on the digests with their domains. *)
Theorem blinded_block_root_binds_request `{Alloy} (s1 i1 s2 i2 : Z) (h1 h2 : B256)
    (d1 d2 : FixedBytes 32) :
  u64_range s1 -> u64_range i1 -> u64_range s2 -> u64_range i2 ->
  let m1 := blinded_block_preimage s1 i1 h1 in
  let m2 := blinded_block_preimage s2 i2 h2 in
  blinded_block_signing_root s1 i1 h1 d1 = blinded_block_signing_root s2 i2 h2 d2 ->
  (s1 = s2 /\ i1 = i2 /\ h1 = h2 /\ d1 = d2) \/
  collision keccak256 m1 m2 \/
  collision keccak256 (fb_bytes (keccak256 m1) ++ fb_bytes d1)
    (fb_bytes (keccak256 m2) ++ fb_bytes d2).
Proof.
  intros Hs1 Hi1 Hs2 Hi2 m1 m2 Heq. unfold u64_range, u64_modulus in *. apply fb_eq in Heq.
  apply (eq_or_collision keccak256) in Heq as [Heq|Hcol]; [|by right; right].
  apply app_inj_length in Heq as [Hm Hd]; [|by apply Nat2Z.inj; rewrite !fb_len]. apply fb_eq in Hm, Hd.
  apply (eq_or_collision keccak256) in Hm as [Hm|Hcol]; [|by right; left]. left.
  unfold m1, m2, blinded_block_preimage in Hm.
  apply app_inj_length in Hm as [Hs Hm]; [|by rewrite !length_to_le_bytes].
  apply app_inj_length in Hm as [Hi Hh]; [|by rewrite !length_to_le_bytes].
  apply to_le_bytes_inj in Hs; [|simpl; lia..]. apply to_le_bytes_inj in Hi; [|simpl; lia..].
  apply fb_eq in Hh. destruct h1, h2; simpl in *. by subst.
Qed.

Lemma blinded_block_root_binds_request_witness :
  let m := blinded_block_preimage 10 7 (B256_default) in
  let d := compute_proposer_domain (ForkDatas_new ForkData_default ForkData_default) in
  (u64_range 10 /\ u64_range 7) /\
  ((10 = 10 /\ 7 = 7 /\ B256_default = B256_default /\ d = d) \/
   collision keccak256 m m \/
   collision keccak256 (fb_bytes (keccak256 m) ++ fb_bytes d)
     (fb_bytes (keccak256 m) ++ fb_bytes d)).
Proof.
  intros m d.
  assert (H1 : u64_range 10) by (unfold u64_range, u64_modulus; lia).
  assert (H2 : u64_range 7) by (unfold u64_range, u64_modulus; lia).
  exact (conj (conj H1 H2)
    (blinded_block_root_binds_request 10 7 10 7 (B256_default) (B256_default) d d
       H1 H2 H1 H2 eq_refl)).
Defined.
