(* ===== verification/UseCaseSpec.v ===== *)
(** * The use cases, one at a time

    What each use case does when it runs alone over a storage and an auctioneer
    that satisfy their interfaces: which requests it accepts, what it changes,
    which error a rejected request gets, and that it leaves the state alone
    then. *)

From S2P Require Import Prelude Effects External Concrete Crypto Entity Storage Auctioneer.
From S2P Require Import UseCase.

(** Time does not run backwards. *)
Definition clock_monotone (clock : N -> Z) : Prop :=
  forall n m, (n <= m)%N -> clock n <= clock m.

Section spec.
Context `{Blst, Alloy, TreeHashLib}.
Context {S A : Type} `{!Storage S, !StorageLaws S, !Auctioneer A, !AuctioneerLaws A}.
Variable clock : N -> Z.

(** A task on the implementation, and the same task on the view of its storage. *)
Definition relay_run {R} (p : task R) (w : World S A) : outcome R * World S A :=
  run (relay_handler storage_handler clock) p w.

Definition spec_run {R} (p : task R) (w : World StorageView A) :
    outcome R * World StorageView A :=
  run (relay_handler spec_handler clock) p w.

Definition world_view (w : World S A) : World StorageView A :=
  mkWorld (storage_view (w_storage w)) (w_auctioneer w) (w_ops w).

(** The storage as the tasks see it, the current time, and the best bid of a
    slot at the time of the next operation. *)
Definition view (w : World S A) : StorageView := storage_view (w_storage w).
Definition now {T} (w : World T A) : Z := clock (w_ops w).

(** Every live bid was allocated before the next [Arc]. *)
Definition arcs_old {T} (w : World T A) : Prop :=
  forall t slot b, now w <= t -> best t slot (w_auctioneer w) = Some b ->
    (arc_ptr b < w_ops w)%N.

(** Reading a bid may prolong its life; nothing else changes. *)
Definition bids_kept (t : Z) (a a' : A) : Prop :=
  forall t' slot, t <= t' ->
    (forall b, best t' slot a = Some b -> best t' slot a' = Some b) /\
    (forall b, best t' slot a' = Some b -> best t slot a = Some b).

(** The implementation does what its view does. *)
Lemma relay_refines {R} (p : task R) (w : World S A) :
  fst (relay_run p w) = fst (spec_run p (world_view w)) /\
  world_view (snd (relay_run p w)) = snd (spec_run p (world_view w)).
Proof.
  apply (run_refines (relay_handler storage_handler clock) (relay_handler spec_handler clock)
           (fun w v => world_view w = v)); [|done].
  intros X e [s a n] v <-. destruct e as [X e|slot bid|slot|bid]; unfold world_view; simpl.
  - destruct (storage_refines X e s) as [Hx Hv].
    destruct (storage_handler X e s), (spec_handler X e (storage_view s)); simpl in *.
    by subst.
  - by destruct (compare_and_bid _ _ _ a).
  - by destruct (get_best_bid _ _ a).
  - done.
Qed.

Lemma bids_kept_refl t a : bids_kept t a a.
Proof. intros t' slot Ht. split; [done|]. intros b Hb. by eapply best_antitone. Qed.

Lemma bids_kept_get t slot a : bids_kept t a (snd (get_best_bid t slot a)).
Proof. intros t' slot' Ht. by apply get_best_bid_best. Qed.

(** A bid that has just been allocated wins or loses by value alone. *)
Lemma compare_fresh t slot (bid : Arc BidSubmission) a :
  (forall b, best t slot a = Some b -> (arc_ptr b < arc_ptr bid)%N) ->
  fst (compare_and_bid t slot bid a) =
  match best t slot a with
  | Some old =>
      if bool_decide (U256_0 (bid_value bid) <= U256_0 (bid_value old))
      then Err (too_low bid old) else Ok tt
  | None => Ok tt
  end.
Proof.
  intros Hfresh. rewrite compare_and_bid_value.
  destruct (best t slot a) as [old|]; [|done]. specialize (Hfresh old eq_refl).
  destruct (outbids bid old) eqn:Ho; case_bool_decide as Hv; try done.
  - apply outbids_spec in Ho. lia.
  - unfold ptr_eq. by rewrite (proj2 (N.eqb_neq _ _)) by lia.
  - apply outbids_false in Ho. lia.
Qed.

Lemma bid_gt_decide (bid old : Arc BidSubmission) :
  bool_decide (U256_0 (bid_value bid) <= U256_0 (bid_value old)) =
  negb (U256_gt (bt_value (message (arc_val bid))) (bid_value old)).
Proof. unfold U256_gt, bid_value. case_bool_decide; symmetry; lia. Qed.

Lemma bids_kept_rejected t slot bid a old :
  best t slot a = Some old -> outbids bid old = false ->
  bids_kept t a (snd (compare_and_bid t slot bid a)).
Proof.
  intros Hb Ho t' slot' Ht. destruct (decide (slot' = slot)) as [->|Hne].
  - destruct (compare_and_bid_keeps t t' slot bid a old Ht Hb Ho) as [Hk Hx]. split.
    + intros b Hb'. assert (b = old) as ->; [|by apply Hk].
      apply (best_antitone t) in Hb'; [congruence|done].
    + intros b Hb'. by rewrite (Hx b Hb').
  - rewrite compare_and_bid_other by done. split; [done|]. intros b Hb'. by eapply best_antitone.
Qed.

(** ** Requirements *)

Lemma first_failure_cons b e reqs :
  first_failure ((b, e) :: reqs) = if b then first_failure reqs else Some e.
Proof. by destruct b. Qed.

Lemma first_failure_None reqs :
  first_failure reqs = None <-> Forall (fun r => fst r = true) reqs.
Proof.
  induction reqs as [|[b e] reqs IH]; [done|].
  rewrite first_failure_cons, List.Forall_cons_iff, <- IH. destruct b; simpl; intuition done.
Qed.

Lemma next_slot_run profile head slot :
  HeadSlot_0 head < u64_max ->
  HeadSlot_is_next_slot profile head slot = Done (slot =? HeadSlot_0 head + 1).
Proof.
  intros Hh. unfold HeadSlot_is_next_slot, u64_max in *.
  rewrite u64_add_fits by lia. simpl. by rewrite Z.eqb_sym.
Qed.


(** ** Symbolic execution *)

Lemma exec_storage {R X} (e : storageE X) (k : X -> task R) v a n :
  spec_run (storage_op e ≫= k) (mkWorld v a n) =
  spec_run (k (fst (spec_handler X e v))) (mkWorld (snd (spec_handler X e v)) a (n + 1)).
Proof. unfold spec_run. simpl. by destruct (spec_handler X e v). Qed.

Lemma exec_new_arc {R} bid (k : Arc BidSubmission -> task R) v a n :
  spec_run (perform (NewArc bid) ≫= k) (mkWorld v a n) =
  spec_run (k (mkArc n bid)) (mkWorld v a (n + 1)).
Proof. done. Qed.

Lemma exec_compare {R} slot bid (k : _ -> task R) v a n :
  spec_run (perform (CompareAndBid slot bid) ≫= k) (mkWorld v a n) =
  spec_run (k (fst (compare_and_bid (clock n) slot bid a)))
    (mkWorld v (snd (compare_and_bid (clock n) slot bid a)) (n + 1)).
Proof. unfold spec_run. simpl. by destruct (compare_and_bid _ _ _ a). Qed.

Lemma exec_get_best {R} slot (k : _ -> task R) v a n :
  spec_run (perform (GetBestBid slot) ≫= k) (mkWorld v a n) =
  spec_run (k (fst (get_best_bid (clock n) slot a)))
    (mkWorld v (snd (get_best_bid (clock n) slot a)) (n + 1)).
Proof. unfold spec_run. simpl. by destruct (get_best_bid _ _ a). Qed.

Lemma exec_lift {R X} (x : X) (k : X -> task R) w :
  spec_run (lift_outcome (Done x) ≫= k) w = spec_run (k x) w.
Proof. done. Qed.

Lemma exec_reject {T Er} b (e : Er) (k : unit -> task (result T Er)) w :
  spec_run (try_bind (reject_if b e) k) w =
  if b then (Done (Err e), w) else spec_run (k tt) w.
Proof. by destruct b. Qed.

Lemma exec_require {T Er} b (e : Er) (k : unit -> task (result T Er)) w :
  spec_run (try_bind (reject_if (negb b) e) k) w =
  if b then spec_run (k tt) w else (Done (Err e), w).
Proof. by destruct b. Qed.

Lemma exec_try_ret {T U Er} (r : result T Er) (k : T -> task (result U Er)) w :
  spec_run (try_bind (Ret r) k) w =
  match r with Ok t => spec_run (k t) w | Err e => (Done (Err e), w) end.
Proof. by destruct r. Qed.

End spec.

(** One operation of the task under execution. *)
Ltac exec1 :=
  first [ rewrite exec_require | rewrite exec_reject | rewrite exec_storage
        | rewrite exec_try_ret | rewrite exec_new_arc | rewrite exec_compare
        | rewrite exec_get_best | rewrite exec_lift ];
  cbv beta; cbn [fst snd spec_handler v_head v_attrs v_regs v_duties v_whitelist
                 v_blinded v_delivered].

(** The requirement the task tests next: the failing case is over. *)
Ltac required b :=
  let E := fresh "E" in
  destruct b eqn:E; cbn [negb ok_or is_some duty_for]; [|by eauto using bids_kept_refl].

Section submit.
Context `{Blst, Alloy, TreeHashLib}.
Context {S A : Type} `{!Storage S, !StorageLaws S, !Auctioneer A, !AuctioneerLaws A}.
Variable clock : N -> Z.

(** What a run of [submit_bid] answers and leaves behind. *)
Definition submit_bid_outcome (self : SubmitBidUseCase) (bid : BidSubmission)
    (w : World StorageView A) (r : outcome (result unit UseCaseError))
    (w' : World StorageView A) : Prop :=
  let v := w_storage w in
  let slot := bt_slot (message bid) in
  let t := clock (w_ops w + 5)%N in
  let arc := mkArc (w_ops w + 4)%N bid in
  match first_failure (submit_bid_requires (sb_fork_datas self) v
                         (best t slot (w_auctioneer w)) bid) with
  | Some e =>
      r = Done (Err e) /\ w_storage w' = v /\ bids_kept t (w_auctioneer w) (w_auctioneer w')
  | None =>
      r = Done (Ok tt) /\
      exists duty, duty_at v slot = Some duty /\
      w_storage w' = snd (spec_handler _ (SetBlindedBlockResponse (pd_pubkey duty)
                                            (to_blinded_block_response bid)) v) /\
      w_auctioneer w' = snd (compare_and_bid t slot arc (w_auctioneer w)) /\
      w_ops w' = (w_ops w + 7)%N
  end.

Lemma submit_bid_exec profile self bid (w : World StorageView A) :
  clock_monotone clock ->
  HeadSlot_0 (v_head (w_storage w)) < u64_max -> arcs_old clock w ->
  let '(r, w') := spec_run clock (SubmitBidUseCase_execute profile self bid) w in
  submit_bid_outcome self bid w r w'.
Proof.
  intros Hclock Hhead Hold. destruct w as [[hd at_ rg ds wl bl dl] a n]. simpl in Hhead.
  unfold SubmitBidUseCase_execute.
  unfold submit_bid_outcome, submit_bid_requires, ExecutionPayload_prev_randao, duty_at;
    cbn [w_storage w_auctioneer w_ops v_head v_attrs v_duties v_whitelist app];
    rewrite !first_failure_cons.
  exec1. destruct (bool_decide (bt_value _ = _)); cbn [negb]; [by eauto using bids_kept_refl|].
  do 2 exec1. required (bool_decide (bt_builder_pubkey (message bid) ∈ wl)).
  exec1. rewrite next_slot_run by done. do 2 exec1.
  required (bt_slot (message bid) =? HeadSlot_0 hd + 1).
  do 2 exec1. required (bool_decide (pa_prev_randao at_ = B256_0 (ep_prev_randao (bid_payload bid)))).
  do 2 exec1. required (List.find (fun d => pd_slot d =? bt_slot (message bid)) ds).
  exec1. required (BidTrace_verify_signature (message bid) (bid_signature bid)
                     (compute_builder_domain (sb_fork_datas self))).
  do 3 exec1. replace (n + 1 + 1 + 1 + 1)%N with (n + 4)%N by lia.
  replace (n + 4 + 1)%N with (n + 5)%N by lia.
  rewrite compare_fresh by (intros b Hb; apply Hold in Hb; [|apply Hclock]; simpl in *; lia).
  destruct (best (clock (n + 5)) _ a) as [old|] eqn:Hbest; cbn [map_err];
    [|exec1; cbn; split; [done|]; exists p; repeat split; lia].
  rewrite first_failure_cons, bid_gt_decide. cbn [arc_val].
  destruct (U256_gt (bt_value (message bid)) (bid_value old)) eqn:Ho; cbn [negb map_err].
  - exec1. cbn. split; [done|]. exists p. repeat split; lia.
  - split; [done|]. split; [done|]. by eapply bids_kept_rejected.
Qed.

(** The answer to a [get_header] request that is served with the bid [b]. *)
Definition signed_header_of (signer : BlsSigner) (b : BidSubmission) :
    Versioned SignedHeader :=
  let header := header_of (bid_payload b) in
  Versioned_new (signer_fork_name signer)
    (SignedHeader_new header (BlsSigner_sign signer header)).

Definition get_header_outcome (self : GetHeaderUseCase) (slot : Z) (parent_hash : B256)
    (proposer : BlsPublicKey) (w : World StorageView A)
    (r : outcome (result (Versioned SignedHeader) UseCaseError))
    (w' : World StorageView A) : Prop :=
  let v := w_storage w in
  let t := clock (w_ops w + 3)%N in
  let current := best t slot (w_auctioneer w) in
  w_storage w' = v /\ bids_kept t (w_auctioneer w) (w_auctioneer w') /\
  match first_failure (get_header_requires v current slot parent_hash proposer) with
  | Some e => r = Done (Err e)
  | None => exists b, current = Some b /\
      r = Done (Ok (signed_header_of (gh_signer self) (arc_val b))) /\
      w_ops w' = (w_ops w + 4)%N
  end.

Lemma get_header_exec profile self slot parent_hash proposer (w : World StorageView A) :
  HeadSlot_0 (v_head (w_storage w)) < u64_max ->
  let '(r, w') := spec_run clock
    (GetHeaderUseCase_execute profile self slot parent_hash proposer) w in
  get_header_outcome self slot parent_hash proposer w r w'.
Proof.
  intros Hhead. destruct w as [[hd at_ rg ds wl bl dl] a n]. simpl in Hhead.
  unfold GetHeaderUseCase_execute, get_header_outcome, get_header_requires, duty_at, bid_trace.
  cbn [w_storage w_auctioneer w_ops v_head v_regs v_duties app]. rewrite !first_failure_cons.
  do 2 exec1. required (rg !! proposer).
  do 2 exec1. required (List.find (fun d => pd_slot d =? slot) ds).
  exec1. required (bool_decide (pd_pubkey p = proposer)).
  exec1. rewrite next_slot_run by done. do 2 exec1. required (slot =? HeadSlot_0 hd + 1).
  do 2 exec1. replace (n + 1 + 1 + 1)%N with (n + 3)%N by lia. rewrite get_best_bid_value.
  pose proof (bids_kept_get (clock (n + 3)%N) slot a) as Hkept.
  destruct (best (clock (n + 3)) slot a) as [b|] eqn:Hbest; cbn [map_err]; [|by eauto].
  exec1. rewrite first_failure_cons.
  destruct (bool_decide (bt_parent_hash (message (arc_val b)) = parent_hash)); [|by eauto].
  rewrite build_header_Done. exec1. cbn. split; [done|]. split; [done|].
  exists b. repeat split. lia.
Qed.

Definition unblind_block_outcome (self : UnblindBlockUseCase) (slot index : Z)
    (block_hash : B256) (signature : BlsSignature) (w : World StorageView A)
    (r : outcome (result BlindedBlockResponse UseCaseError))
    (w' : World StorageView A) : Prop :=
  let v := w_storage w in
  w_auctioneer w' = w_auctioneer w /\
  match first_failure (unblind_block_requires (ub_fork_datas self) v slot index
                         block_hash signature) with
  | Some e => r = Done (Err e) /\ w_storage w' = v
  | None => exists duty resp,
      duty_at v slot = Some duty /\ v_blinded v !! pd_pubkey duty = Some resp /\
      r = Done (Ok resp) /\
      w_storage w' = snd (spec_handler _ (SetDeliveredBlocks block_hash) v)
  end.

Lemma unblind_block_exec self slot index block_hash signature (w : World StorageView A) :
  let '(r, w') := spec_run clock
    (UnblindBlockUseCase_execute self slot index block_hash signature) w in
  unblind_block_outcome self slot index block_hash signature w r w'.
Proof.
  destruct w as [[hd at_ rg ds wl bl dl] a n].
  unfold UnblindBlockUseCase_execute, unblind_block_outcome, unblind_block_requires, duty_at.
  cbn [w_storage w_auctioneer w_ops v_head v_regs v_duties v_blinded].
  do 2 exec1. destruct (List.find (fun d => pd_slot d =? slot) ds) as [duty|] eqn:Hduty;
    cbn [ok_or]; [|done].
  cbn [app]. rewrite !first_failure_cons.
  exec1. required (pd_validator_index duty =? index).
  do 2 exec1. required (rg !! pd_pubkey duty).
  exec1. required (BlsSignature_verify signature (pd_pubkey duty)
    (blinded_block_signing_root slot index block_hash
       (compute_proposer_domain (ub_fork_datas self)))).
  do 2 exec1. destruct (bl !! pd_pubkey duty) as [resp|] eqn:Hresp; cbn [ok_or]; [|done].
  rewrite first_failure_cons.
  exec1. required (bool_decide (ep_block_hash (bbr_execution_payload resp) = block_hash)).
  exec1. cbn. eauto 10.
Qed.

Lemma register_validator_exec self reg (w : World StorageView A) :
  spec_run clock (RegisterValidatorUseCase_execute self reg) w =
  if SignedValidatorRegistration_verify_signature reg
       (compute_builder_domain (rv_fork_datas self))
  then (Done (Ok tt),
        mkWorld (snd (spec_handler _ (SetValidatorRegistration
                   (vr_pubkey (svr_message reg)) (svr_message reg)) (w_storage w)))
          (w_auctioneer w) (w_ops w + 1))
  else (Done (Err InvalidValidatorSignature), w).
Proof.
  destruct w as [[hd at_ rg ds wl bl dl] a n]. unfold RegisterValidatorUseCase_execute.
  exec1. destruct (SignedValidatorRegistration_verify_signature _ _); [|done]. by exec1.
Qed.

End submit.

(** ** Properties *)

Section properties.
Context `{Blst, Alloy, TreeHashLib}.
Context {S A : Type} `{!Storage S, !StorageLaws S, !Auctioneer A, !AuctioneerLaws A}.
Variable clock : N -> Z.

Lemma relay_run_bind {X R} (p : task X) (k : X -> task R) (w : World S A) :
  relay_run clock (p ≫= k) w =
  match relay_run clock p w with
  | (Done x, w') => relay_run clock (k x) w'
  | (Panicked msg, w') => (Panicked msg, w')
  end.
Proof. apply run_bind. Qed.

Lemma relay_try_ret {X Y Er} (r : result X Er) (k : X -> task (result Y Er)) (w : World S A) :
  relay_run clock (try_bind (Ret r) k) w =
  match r with Ok x => relay_run clock (k x) w | Err e => (Done (Err e), w) end.
Proof. by destruct r. Qed.

(** What holds of the view of a run holds of the run. *)
Lemma relay_of_spec {R} (P : outcome R -> World StorageView A -> Prop) (p : task R)
    (w : World S A) :
  (let '(r, w') := spec_run clock p (world_view w) in P r w') ->
  let '(r, w') := relay_run clock p w in P r (world_view w').
Proof.
  destruct (relay_refines clock p w) as [Hr Hw].
  destruct (relay_run clock p w) as [r w'], (spec_run clock p (world_view w)) as [r2 w2].
  simpl in *. by subst.
Qed.

(** The conditions on which a bid is accepted, [current] being the live best bid
    of its slot. *)
Record bid_acceptable (fds : ForkDatas) (v : StorageView)
    (current : option (Arc BidSubmission)) (bid : BidSubmission) : Prop := {
  acc_value : U256_0 (bt_value (message bid)) <> 0;
  acc_builder : bt_builder_pubkey (message bid) ∈ v_whitelist v;
  acc_slot : bt_slot (message bid) = HeadSlot_0 (v_head v) + 1;
  acc_randao : pa_prev_randao (v_attrs v) = B256_0 (ep_prev_randao (bid_payload bid));
  acc_duty : exists duty, is_duty_of (v_duties v) (bt_slot (message bid)) duty;
  acc_signature : BidTrace_verify_signature (message bid) (bid_signature bid)
                    (compute_builder_domain fds) = true;
  acc_outbids : forall old, current = Some old ->
                  U256_0 (bid_value old) < U256_0 (bt_value (message bid));
}.

Lemma is_some_duty v slot :
  is_some (duty_at v slot) = true <-> exists duty, is_duty_of (v_duties v) slot duty.
Proof.
  unfold duty_at. setoid_rewrite <- find_duty_spec.
  destruct (List.find _ _) as [duty|]; simpl; split; [eauto|done|done|].
  by intros [? ?].
Qed.

Lemma submit_bid_requires_met fds v current bid :
  first_failure (submit_bid_requires fds v current bid) = None <->
  bid_acceptable fds v current bid.
Proof.
  rewrite first_failure_None. unfold submit_bid_requires. cbn [app].
  rewrite !List.Forall_cons_iff. cbn [fst].
  rewrite negb_true_iff, bool_decide_eq_false, !bool_decide_eq_true, Z.eqb_eq, is_some_duty.
  assert (Hc : Forall (fun r => fst r = true)
      match current with
      | Some old => [(U256_gt (bt_value (message bid)) (bid_value old),
          AuctioneerErr (BidValueNotHighEnough (U256_to_string (bt_value (message bid)))
                           (U256_to_string (bid_value old))))]
      | None => [] end <->
    (forall old, current = Some old ->
       U256_0 (bid_value old) < U256_0 (bt_value (message bid)))).
  { destruct current as [old|]; [|by split; [intros _ old|constructor]].
    rewrite List.Forall_cons_iff. unfold U256_gt. cbn [fst]. rewrite Z.ltb_lt. split.
    - by intros [Hlt _] ? [= <-].
    - intros Hall. split; [by apply Hall|constructor]. }
  rewrite Hc. assert (Hz : bt_value (message bid) <> mkU256 0 <->
                           U256_0 (bt_value (message bid)) <> 0).
  { destruct (bt_value (message bid)) as [z]; simpl. split; congruence. }
  rewrite Hz. split.
  - intros (? & ? & ? & ? & ? & ? & ?). by constructor.
  - intros []. tauto.
Qed.

(** C4: a bid that is submitted alone is accepted exactly when its value is not
    zero, its builder is whitelisted, its slot is the one after the head and has a
    proposer duty, its payload has the announced [prev_randao], the builder signed
    the trace, and it is strictly higher than the live best bid of the slot.  The
    accepted bid is then the best bid of its slot for the lifetime of a bid, no
    other slot's bid changes, and of the storage only the blinded response of the
    slot's proposer does: it becomes the payload and blobs of the bid. *)
Theorem submit_bid_accepts profile self bid (w : World S A) :
  clock_monotone clock -> HeadSlot_0 (v_head (view w)) < u64_max -> arcs_old clock w ->
  let slot := bt_slot (message bid) in
  let t := clock (w_ops w + 5)%N in
  let a := w_auctioneer w in
  let '(r, w') := relay_run clock (SubmitBidUseCase_execute profile self bid) w in
  (r = Done (Ok tt) <-> bid_acceptable (sb_fork_datas self) (view w) (best t slot a) bid) /\
  (r = Done (Ok tt) ->
   exists duty, is_duty_of (v_duties (view w)) slot duty /\
     view w' = snd (spec_handler _ (SetBlindedBlockResponse (pd_pubkey duty)
                      (to_blinded_block_response bid)) (view w)) /\
     forall t' slot', t <= t' ->
       best t' slot' (w_auctioneer w') =
       if decide (slot' = slot)
       then if t' <? t + lifetime a then Some (mkArc (w_ops w + 4)%N bid) else None
       else best t' slot' a).
Proof.
  intros Hclock Hhead Hold slot t a.
  pose proof (relay_of_spec (submit_bid_outcome clock self bid (world_view w))
    _ w (submit_bid_exec clock profile self bid (world_view w) Hclock Hhead Hold)) as Hrun.
  destruct (relay_run clock _ w) as [r w']. unfold submit_bid_outcome in Hrun.
  simpl in Hrun. fold slot t a (view w) (view w') in Hrun. rewrite <- submit_bid_requires_met.
  destruct (first_failure _) as [e|] eqn:Hreq.
  { destruct Hrun as (-> & _). by split. }
  destruct Hrun as (-> & duty & Hduty & Hv & Ha & _). split; [done|]. intros _.
  exists duty. split; [by apply find_duty_spec|]. split; [done|].
  intros t' slot' Ht'. rewrite Ha. case_decide as Hs; [subst slot'|].
  - apply submit_bid_requires_met in Hreq. rewrite compare_and_bid_accepts; [done|done|].
    destruct (best t slot a) as [old|] eqn:Hb; [|done].
    apply outbids_spec. by apply (acc_outbids _ _ _ _ Hreq).
  - by rewrite compare_and_bid_other.
Qed.

(** C25: a bid that is not accepted gets the error of the first requirement it
    fails, in the order zero value, whitelist, slot, [prev_randao], duty,
    signature, auction; the storage is untouched and so are the live bids. *)
Theorem submit_bid_rejects profile self bid (w : World S A) :
  clock_monotone clock -> HeadSlot_0 (v_head (view w)) < u64_max -> arcs_old clock w ->
  let slot := bt_slot (message bid) in
  let t := clock (w_ops w + 5)%N in
  let a := w_auctioneer w in
  let '(r, w') := relay_run clock (SubmitBidUseCase_execute profile self bid) w in
  match first_failure (submit_bid_requires (sb_fork_datas self) (view w) (best t slot a) bid) with
  | Some e => r = Done (Err e) /\ view w' = view w /\ bids_kept t a (w_auctioneer w')
  | None => r = Done (Ok tt)
  end.
Proof.
  intros Hclock Hhead Hold slot t a.
  pose proof (relay_of_spec (submit_bid_outcome clock self bid (world_view w))
    _ w (submit_bid_exec clock profile self bid (world_view w) Hclock Hhead Hold)) as Hrun.
  destruct (relay_run clock _ w) as [r w']. unfold submit_bid_outcome in Hrun.
  simpl in Hrun. fold slot t a (view w) (view w') in Hrun.
  destruct (first_failure _) as [e|]; [done|by destruct Hrun].
Qed.

(** C6: [get_header] serves the live best bid of the slot, and only to the
    registered proposer of the slot after the head who builds on the bid's parent
    hash: the answer is the header of the bid's payload under the relay's
    signature.  Every other request gets the error of the first requirement it
    fails.  No request changes the storage or the live bids. *)
Theorem get_header_serves_best_bid profile self slot parent_hash proposer (w : World S A) :
  HeadSlot_0 (v_head (view w)) < u64_max ->
  let t := clock (w_ops w + 3)%N in
  let current := best t slot (w_auctioneer w) in
  let '(r, w') := relay_run clock
    (GetHeaderUseCase_execute profile self slot parent_hash proposer) w in
  (view w' = view w /\ bids_kept t (w_auctioneer w) (w_auctioneer w')) /\
  match first_failure (get_header_requires (view w) current slot parent_hash proposer) with
  | Some e => r = Done (Err e)
  | None => exists b, current = Some b /\
      bt_parent_hash (message (arc_val b)) = parent_hash /\
      r = Done (Ok (signed_header_of (gh_signer self) (arc_val b)))
  end.
Proof.
  intros Hhead t current.
  pose proof (relay_of_spec (get_header_outcome clock self slot parent_hash proposer (world_view w))
    _ w (get_header_exec clock profile self slot parent_hash proposer (world_view w) Hhead)) as Hrun.
  destruct (relay_run clock _ w) as [r w']. unfold get_header_outcome in Hrun.
  simpl in Hrun. fold t current (view w) (view w') in Hrun. destruct Hrun as (Hv & Ha & Hrun).
  split; [done|]. destruct (first_failure _) as [e|] eqn:Hreq; [done|].
  destruct Hrun as (b & Hb & Hr & _). exists b. split; [done|]. split; [|done].
  apply first_failure_None in Hreq. unfold get_header_requires in Hreq. rewrite Hb in Hreq.
  cbn [app] in Hreq. rewrite !List.Forall_cons_iff in Hreq.
  destruct Hreq as (_ & _ & _ & _ & Hp & _). by apply bool_decide_eq_true in Hp.
Qed.

(** The conditions on which a payload is revealed. *)
Record unblind_allowed (fds : ForkDatas) (v : StorageView) (slot index : Z)
    (block_hash : B256) (signature : BlsSignature) (duty : ProposerDuty)
    (resp : BlindedBlockResponse) : Prop := {
  ub_duty : is_duty_of (v_duties v) slot duty;
  ub_index : pd_validator_index duty = index;
  ub_registered : is_some (v_regs v !! pd_pubkey duty) = true;
  ub_signature : BlsSignature_verify signature (pd_pubkey duty)
    (blinded_block_signing_root slot index block_hash (compute_proposer_domain fds)) = true;
  ub_stored : v_blinded v !! pd_pubkey duty = Some resp;
  ub_hash : ep_block_hash (bbr_execution_payload resp) = block_hash;
}.

Lemma unblind_block_requires_met fds v slot index block_hash signature :
  first_failure (unblind_block_requires fds v slot index block_hash signature) = None <->
  exists duty resp, unblind_allowed fds v slot index block_hash signature duty resp.
Proof.
  rewrite first_failure_None. unfold unblind_block_requires, duty_at. split.
  - destruct (List.find _ _) as [duty|] eqn:Hd; cbn [app]; rewrite !List.Forall_cons_iff;
      cbn [fst]; [|by intros []].
    intros (Hi & Hr & Hs & Hh). apply Z.eqb_eq in Hi.
    destruct (v_blinded v !! pd_pubkey duty) as [resp|] eqn:Hb;
      apply List.Forall_cons_iff in Hh as [Hh _]; cbn [fst] in Hh; [|done].
    apply bool_decide_eq_true in Hh. exists duty, resp. constructor; try done.
    by apply find_duty_spec.
  - intros (duty & resp & [Hd Hi Hr Hs Hb Hh]). apply find_duty_spec in Hd. rewrite Hd.
    cbn [app]. rewrite Hb, !List.Forall_cons_iff. cbn [fst].
    rewrite Z.eqb_eq, bool_decide_eq_true. by repeat split.
Qed.

(** C5: a payload is revealed exactly to the registered proposer of the slot, for
    a block hash under its signature in the proposer domain, and only when it is
    the payload stored last for that proposer; the block hash is then recorded as
    delivered.  Any other request gets the error of the first requirement it fails
    and changes nothing; no request touches the bids. *)
Theorem unblind_block_reveals self slot index block_hash signature (w : World S A) :
  let '(r, w') := relay_run clock
    (UnblindBlockUseCase_execute self slot index block_hash signature) w in
  let v := view w in
  w_auctioneer w' = w_auctioneer w /\
  (forall resp, r = Done (Ok resp) <->
    exists duty, unblind_allowed (ub_fork_datas self) v slot index block_hash signature duty resp) /\
  match first_failure (unblind_block_requires (ub_fork_datas self) v slot index
                         block_hash signature) with
  | Some e => r = Done (Err e) /\ view w' = v
  | None => view w' = snd (spec_handler _ (SetDeliveredBlocks block_hash) v)
  end.
Proof.
  pose proof (relay_of_spec (unblind_block_outcome self slot index block_hash signature
    (world_view w)) _ w
    (unblind_block_exec clock self slot index block_hash signature (world_view w))) as Hrun.
  destruct (relay_run clock _ w) as [r w']. unfold unblind_block_outcome in Hrun.
  simpl in Hrun. fold (view w) (view w') in Hrun. destruct Hrun as [Ha Hrun].
  split; [done|].
  pose proof (unblind_block_requires_met (ub_fork_datas self) (view w) slot index
                block_hash signature) as Hmet.
  destruct (first_failure _) as [e|].
  - destruct Hrun as [-> Hv]. split; [|done]. intros resp. split; [done|].
    intros (duty & Hd). assert (Some e = None) by (apply Hmet; eauto). done.
  - destruct Hrun as (duty & resp & Hd & Hb & -> & Hv).
    destruct (proj1 Hmet eq_refl) as (duty' & resp' & Hall). split; [|done].
    assert (duty' = duty) as ->.
    { pose proof (ub_duty _ _ _ _ _ _ _ _ Hall) as Hd'. apply find_duty_spec in Hd'.
      unfold duty_at in Hd. congruence. }
    pose proof (ub_stored _ _ _ _ _ _ _ _ Hall) as Hb'.
    assert (resp' = resp) as -> by congruence.
    intros x. split; [intros [= <-]; eauto|]. intros (d & Hall2).
    pose proof (ub_duty _ _ _ _ _ _ _ _ Hall2) as Hd2. apply find_duty_spec in Hd2.
    unfold duty_at in Hd. assert (d = duty) as -> by congruence.
    pose proof (ub_stored _ _ _ _ _ _ _ _ Hall2). congruence.
Qed.

Lemma register_validator_impl self reg (w : World S A) :
  let '(r, w') := relay_run clock (RegisterValidatorUseCase_execute self reg) w in
  if SignedValidatorRegistration_verify_signature reg (compute_builder_domain (rv_fork_datas self))
  then r = Done (Ok tt) /\
       v_regs (view w') = <[vr_pubkey (svr_message reg) := svr_message reg]> (v_regs (view w))
  else r = Done (Err InvalidValidatorSignature) /\ view w' = view w.
Proof.
  pose proof (register_validator_exec clock self reg (world_view w)) as Hrun.
  destruct (relay_refines clock (RegisterValidatorUseCase_execute self reg) w) as [Hr Hw].
  rewrite Hrun in Hr, Hw. destruct (relay_run clock _ w) as [r w']. simpl in Hr, Hw.
  apply (f_equal w_storage) in Hw. simpl in Hw. fold (view w') in Hw. rewrite Hw.
  destruct (SignedValidatorRegistration_verify_signature _ _); simpl; [|done].
  by destruct (storage_view (w_storage w)) eqn:Hv; unfold view; rewrite Hv.
Qed.

(** C36: a registration is stored exactly when the validator signed it in the
    builder domain, and it then replaces whatever was stored for the key: the
    timestamps are not compared, so replaying an older registration of the
    validator after a newer one puts the older one back. *)
Theorem register_validator_last_wins self reg (w : World S A) :
  let '(r, w') := relay_run clock (RegisterValidatorUseCase_execute self reg) w in
  if SignedValidatorRegistration_verify_signature reg (compute_builder_domain (rv_fork_datas self))
  then r = Done (Ok tt) /\
       v_regs (view w') = <[vr_pubkey (svr_message reg) := svr_message reg]> (v_regs (view w))
  else r = Done (Err InvalidValidatorSignature) /\ view w' = view w.
Proof. apply register_validator_impl. Qed.

End properties.

(** ** A concrete relay *)

Definition sample_proposer_sk : BlsSecretKey := mkBlsSecretKey (array_repeat 32 x17).
Definition sample_proposer : BlsPublicKey := BlsSecretKey_public_key sample_proposer_sk.
Definition sample_fds : ForkDatas := ForkDatas_new ForkData_default ForkData_default.
Definition sample_hash (b : byte) : B256 := mkB256 (array_repeat 32 b).
Definition sample_clock (n : N) : Z := Z.of_N n.

Definition sample_registration : ValidatorRegistration := {|
  vr_fee_recipient := Address_default;
  vr_gas_limit := 30000000;
  vr_timestamp := 1;
  vr_pubkey := sample_proposer;
|}.

Definition sample_duty : ProposerDuty :=
  {| pd_pubkey := sample_proposer; pd_validator_index := 7; pd_slot := 10 |}.

Definition sample_storage : MemoryStorage :=
  MemoryStorage_set_head_slot (mkHeadSlot 9)
    (MemoryStorage_set_proposer_duties [sample_duty]
       (MemoryStorage_set_validator_registration sample_proposer sample_registration
          (MemoryStorage_new [BlsSecretKey_public_key sample_sk]))).

Abbreviation SampleWorld :=
  (World MemoryStorage (MemoryAuctioneer (C := ToyCache (Arc BidSubmission)))).

Definition sample_world : SampleWorld := mkWorld sample_storage (MemoryAuctioneer_new 60) 0.

(** A bid for slot 10, signed by the whitelisted builder. *)
Definition sample_submit (value : Z) (block_hash : B256) : BidSubmission :=
  sample_bid sample_sk (compute_builder_domain sample_fds) 10 value block_hash.

Definition sample_submit_uc : SubmitBidUseCase := SubmitBidUseCase_new sample_fds.
Definition sample_signer : BlsSigner := BlsSigner_new sample_sk sample_fds Electra.

(** The world after the bid of value 100 for block [0x01..] is in. *)
Definition sample_world1 : SampleWorld :=
  snd (relay_run sample_clock
         (SubmitBidUseCase_execute Debug sample_submit_uc (sample_submit 100 (sample_hash x01)))
         sample_world).

Lemma sample_clock_monotone : clock_monotone sample_clock.
Proof. intros n m Hnm. unfold sample_clock. lia. Qed.

Lemma sample_world_old : arcs_old sample_clock sample_world.
Proof.
  intros t slot b _ Hb. unfold sample_world in Hb; simpl in Hb.
  unfold memory_best, cache_live in Hb. simpl in Hb.
  unfold toy_live in Hb. simpl in Hb. by rewrite lookup_empty in Hb.
Qed.

Lemma submit_bid_accepts_witness :
  let bid := sample_submit 100 (sample_hash x01) in
  HeadSlot_0 (v_head (view sample_world)) < u64_max /\ arcs_old sample_clock sample_world /\
  fst (relay_run sample_clock (SubmitBidUseCase_execute Debug sample_submit_uc bid)
         sample_world) = Done (Ok tt) /\
  bid_acceptable sample_fds (view sample_world) None bid.
Proof.
  intros bid.
  assert (Hhead : HeadSlot_0 (v_head (view sample_world)) < u64_max) by reflexivity.
  assert (Hok : fst (relay_run sample_clock
    (SubmitBidUseCase_execute Debug sample_submit_uc bid) sample_world) = Done (Ok tt))
    by (vm_compute; reflexivity).
  pose proof (submit_bid_accepts sample_clock Debug sample_submit_uc bid sample_world
                sample_clock_monotone Hhead sample_world_old) as Hacc.
  split; [exact Hhead|]. split; [exact sample_world_old|]. split; [exact Hok|].
  revert Hacc Hok. destruct (relay_run _ _ _) as [r w']. intros [Hacc _] Hok.
  exact (proj1 Hacc Hok).
Defined.

(** A bid of zero value is the first thing [submit_bid] rejects. *)
Lemma submit_bid_rejects_witness :
  let bid := sample_submit 0 (sample_hash x02) in
  let slot := bt_slot (message bid) in
  let t := sample_clock (w_ops sample_world + 5)%N in
  let a := w_auctioneer sample_world in
  (HeadSlot_0 (v_head (view sample_world)) < u64_max /\ arcs_old sample_clock sample_world) /\
  first_failure (submit_bid_requires (sb_fork_datas sample_submit_uc) (view sample_world)
                   (best t slot a) bid) = Some ZeroBid /\
  (let '(r, w') := relay_run sample_clock
     (SubmitBidUseCase_execute Debug sample_submit_uc bid) sample_world in
   match first_failure (submit_bid_requires (sb_fork_datas sample_submit_uc)
                          (view sample_world) (best t slot a) bid) with
   | Some e => r = Done (Err e) /\ view w' = view sample_world /\ bids_kept t a (w_auctioneer w')
   | None => r = Done (Ok tt)
   end).
Proof.
  intros bid slot t a.
  assert (Hhead : HeadSlot_0 (v_head (view sample_world)) < u64_max) by reflexivity.
  split; [exact (conj Hhead sample_world_old)|]. split; [vm_compute; reflexivity|].
  exact (submit_bid_rejects sample_clock Debug sample_submit_uc bid sample_world
           sample_clock_monotone Hhead
           sample_world_old).
Defined.

(** A registered proposer without a bid for its slot. *)
Lemma get_header_serves_best_bid_witness :
  let self := GetHeaderUseCase_new sample_signer in
  let t := sample_clock (w_ops sample_world + 3)%N in
  let current := best t 10 (w_auctioneer sample_world) in
  HeadSlot_0 (v_head (view sample_world)) < u64_max /\
  (let '(r, w') := relay_run sample_clock
     (GetHeaderUseCase_execute Debug self 10 B256_default sample_proposer) sample_world in
   (view w' = view sample_world /\
    bids_kept t (w_auctioneer sample_world) (w_auctioneer w')) /\
   match first_failure (get_header_requires (view sample_world) current 10 B256_default
                          sample_proposer) with
   | Some e => r = Done (Err e)
   | None => exists b, current = Some b /\
       bt_parent_hash (message (arc_val b)) = B256_default /\
       r = Done (Ok (signed_header_of (gh_signer self) (arc_val b)))
   end).
Proof.
  intros self t current.
  assert (Hhead : HeadSlot_0 (v_head (view sample_world)) < u64_max) by reflexivity.
  split; [exact Hhead|].
  exact (get_header_serves_best_bid sample_clock Debug self 10 B256_default sample_proposer
           sample_world Hhead).
Defined.
