(* ===== verification/UseCaseTests.v ===== *)
(** * The unit tests of the [usecase] crate

    The test modules of [submit_bid.rs], [get_header.rs], [unblind_block.rs] and
    [register_validator.rs], with their mocks of the two traits: each mock is an instance
    of [Storage] or [Auctioneer], and each test a computation that answers whether its
    assertions hold and panics where the test would.  The tests of all
    crates are run together in [IntegrationTest.v]. *)

From S2P Require Import Prelude Effects External Concrete Crypto Entity Storage Auctioneer.
From S2P Require Import UseCase UseCaseSpec.

(** [Result::unwrap] and [unwrap_err] *)
Definition unwrap {A E} (r : result A E) : outcome A :=
  match r with
  | Ok a => Done a
  | Err _ => Panicked "called `Result::unwrap()` on an `Err` value"
  end.

Definition unwrap_err {A E} (r : result A E) : outcome E :=
  match r with
  | Ok _ => Panicked "called `Result::unwrap_err()` on an `Ok` value"
  | Err e => Done e
  end.

(** [slot.wrapping_sub(1)] *)
Definition wrapping_pred (slot : Z) : Z := (slot - 1) mod u64_modulus.

(** A test passes when it returns with all its assertions true. *)
Definition passes (test : outcome bool) : bool :=
  match test with Done b => b | Panicked _ => false end.

Section usecase_tests.
Context `{Blst, Alloy, TreeHashLib, HexLib}.

(** The test harness runs one task alone. *)
Definition run_alone {S A R} `{!Storage S, !Auctioneer A} (storage : S) (auctioneer : A)
    (p : task R) : outcome R * World S A :=
  run (relay_handler storage_handler Z.of_N) p (mkWorld storage auctioneer 0).

Definition key_gen (b : byte) : outcome SecretKey := unwrap (sk_key_gen (repeat b 32) []).

Definition public_key_of (sk : SecretKey) : outcome BlsPublicKey :=
  unwrap (BlsPublicKey_deserialize (fb_bytes (pk_compress (sk_to_pk sk)))).

Definition sign_bytes (sk : SecretKey) (msg : list byte) : outcome BlsSignature :=
  unwrap (BlsSignature_deserialize (fb_bytes (sig_compress (sk_sign sk msg DST [])))).

Definition zero_attributes : PayloadAttributes := {|
  pa_timestamp := 0;
  pa_prev_randao := array_default 32;
  pa_suggested_fee_recipient := Address_default;
|}.

Definition wrong : list byte := String.list_byte_of_string "wrong".

(** The payload of the tests, with the fields in which they differ. *)
Definition test_payload (number timestamp : Z) (prev_randao block_hash : B256) :
    ExecutionPayload := {|
  ep_parent_hash := B256_default;
  ep_fee_recipient := Address_default;
  ep_state_root := B256_default;
  ep_receipts_root := B256_default;
  ep_logs_bloom := repeat x00 256;
  ep_prev_randao := prev_randao;
  ep_block_number := number;
  ep_gas_limit := 30000000;
  ep_gas_used := 15000000;
  ep_timestamp := timestamp;
  ep_extra_data := [];
  ep_base_fee_per_gas := mkU256 0;
  ep_block_hash := block_hash;
  ep_transactions := [];
  ep_withdrawals := [];
  ep_blob_gas_used := 0;
  ep_excess_blob_gas := 0;
|}.

(** ** [submit_bid.rs] *)

Record SubmitMockStorage : Type := {
  sms_head_slot : HeadSlot;
  sms_payload_attributes : PayloadAttributes;
  sms_whitelist : list BlsPublicKey;
  sms_duties : list ProposerDuty;
  sms_blinded_saved : bool;
}.

Definition SubmitMockStorage_new (head_slot : HeadSlot) (attrs : PayloadAttributes) :
    SubmitMockStorage := {|
  sms_head_slot := head_slot; sms_payload_attributes := attrs; sms_whitelist := [];
  sms_duties := []; sms_blinded_saved := false;
|}.

#[local] Instance SubmitMockStorage_Storage : Storage SubmitMockStorage := {
  set_head_slot slot s :=
    {| sms_head_slot := slot; sms_payload_attributes := sms_payload_attributes s;
       sms_whitelist := sms_whitelist s; sms_duties := sms_duties s;
       sms_blinded_saved := sms_blinded_saved s |};
  read_head_slot s := sms_head_slot s;
  set_payload_attributes _ s := s;
  read_payload_attributes s := sms_payload_attributes s;
  set_validator_registration _ _ s := s;
  set_validator_registrations _ s := s;
  read_validator_registration _ _ := None;
  empty_validator_regs _ := true;
  is_whitelisted_builder key s := bool_decide (key ∈ sms_whitelist s);
  set_proposer_duties _ s := s;
  find_duty_by_slot slot s := List.find (fun d => pd_slot d =? slot) (sms_duties s);
  read_proposer_duties s := sms_duties s;
  set_blinded_block_response _ _ s :=
    {| sms_head_slot := sms_head_slot s; sms_payload_attributes := sms_payload_attributes s;
       sms_whitelist := sms_whitelist s; sms_duties := sms_duties s;
       sms_blinded_saved := true |};
  read_blinded_block_response _ _ := None;
  set_delivered_blocks _ s := s;
}.

Record SubmitMockAuctioneer : Type := { sma_should_fail : bool }.

#[local] Instance SubmitMockAuctioneer_Auctioneer : Auctioneer SubmitMockAuctioneer := {
  compare_and_bid _ _ _ a :=
    (if sma_should_fail a then Err (BidValueNotHighEnough "50" "100") else Ok tt, a);
  get_best_bid _ _ a := (Err (BidNotFound 0), a);
}.

Definition submit_default_payload : ExecutionPayload := test_payload 0 0 B256_default B256_default.

Definition create_signed_bid (slot value : Z) (prev_randao : B256) : outcome BidSubmission :=
  let! sk := key_gen x2a in
  let! pk := public_key_of sk in
  let trace := {|
    bt_slot := slot;
    bt_parent_hash := B256_default;
    bt_block_hash := B256_default;
    bt_builder_pubkey := pk;
    bt_proposer_pubkey := BlsPublicKey_default;
    bt_proposer_fee_recipient := Address_default;
    bt_gas_limit := 30000000;
    bt_gas_used := 15000000;
    bt_value := mkU256 value;
  |} in
  let! fds := ForkDatas_default in
  let! sig := sign_bytes sk (fb_bytes (signing_root trace (compute_builder_domain fds))) in
  let payload := test_payload 0 0 prev_randao B256_default in
  Done (BidSubmission_new trace payload BlobsBundle_default sig).

Definition submit_setup_test (slot : Z) (whitelist : list BlsPublicKey)
    (duties : list ProposerDuty) (auctioneer_fails : bool) :
    outcome (SubmitMockStorage * SubmitMockAuctioneer * SubmitBidUseCase) :=
  let storage := SubmitMockStorage_new (mkHeadSlot (wrapping_pred slot)) zero_attributes in
  let storage := {| sms_head_slot := sms_head_slot storage;
                    sms_payload_attributes := sms_payload_attributes storage;
                    sms_whitelist := whitelist; sms_duties := duties;
                    sms_blinded_saved := sms_blinded_saved storage |} in
  let! fds := ForkDatas_default in
  Done (storage, {| sma_should_fail := auctioneer_fails |}, SubmitBidUseCase_new fds).

Definition submit_result (t : SubmitMockStorage * SubmitMockAuctioneer * SubmitBidUseCase)
    (bid : BidSubmission) : outcome (result unit UseCaseError) :=
  let '(storage, auctioneer, usecase) := t in
  fst (run_alone storage auctioneer (SubmitBidUseCase_execute Debug usecase bid)).

(** The duty of the tests that have one. *)
Definition submit_duty (slot : Z) : ProposerDuty :=
  {| pd_pubkey := BlsPublicKey_default; pd_validator_index := 1; pd_slot := slot |}.

Definition test_successful_submit : outcome bool :=
  let! pk := let! sk := key_gen x2a in public_key_of sk in
  let! usecase := submit_setup_test 10 [pk] [submit_duty 10] false in
  let! bid := create_signed_bid 10 100 B256_default in
  let! result := submit_result usecase bid in
  Done (is_ok result).

Definition test_zero_bid_rejected : outcome bool :=
  let! pk := let! sk := key_gen x2a in public_key_of sk in
  let! usecase := submit_setup_test 10 [pk] [] false in
  let! bid := create_signed_bid 10 0 B256_default in
  let! result := submit_result usecase bid in
  let! err := unwrap_err result in
  Done (match err with ZeroBid => true | _ => false end).

Definition test_unauthorized_builder : outcome bool :=
  let! usecase := submit_setup_test 10 [] [] false in
  let! bid := create_signed_bid 10 100 B256_default in
  let! result := submit_result usecase bid in
  let! err := unwrap_err result in
  Done (match err with UnauthorizedBuilder => true | _ => false end).

Definition test_past_slot_rejected : outcome bool :=
  let! pk := let! sk := key_gen x2a in public_key_of sk in
  let! usecase := submit_setup_test 10 [pk] [] false in
  let! bid := create_signed_bid 5 100 B256_default in
  let! result := submit_result usecase bid in
  let! err := unwrap_err result in
  Done (match err with InvalidSlot => true | _ => false end).

Definition test_invalid_payload_attributes : outcome bool :=
  let! pk := let! sk := key_gen x2a in public_key_of sk in
  let! usecase := submit_setup_test 10 [pk] [] false in
  let! bid := create_signed_bid 10 100 (mkB256 (array_repeat 32 xff)) in
  let! result := submit_result usecase bid in
  let! err := unwrap_err result in
  Done (match err with InvalidPayloadAttributes _ => true | _ => false end).

Definition test_submit_duty_not_found : outcome bool :=
  let! pk := let! sk := key_gen x2a in public_key_of sk in
  let! usecase := submit_setup_test 10 [pk] [] false in
  let! bid := create_signed_bid 10 100 B256_default in
  let! result := submit_result usecase bid in
  let! err := unwrap_err result in
  Done (match err with DutyNotFound => true | _ => false end).

Definition test_invalid_signature : outcome bool :=
  let! pk := let! sk := key_gen x2a in public_key_of sk in
  let! usecase := submit_setup_test 10 [pk] [submit_duty 10] false in
  let! bid := create_signed_bid 10 100 B256_default in
  let! other_sk := key_gen x63 in
  let! sig := sign_bytes other_sk wrong in
  let bid := BidSubmission_new (message bid) (bid_payload bid) (bid_blobs bid) sig in
  let! result := submit_result usecase bid in
  let! err := unwrap_err result in
  Done (match err with InvalidBuilderSignature => true | _ => false end).

Definition test_below_floor : outcome bool :=
  let! pk := let! sk := key_gen x2a in public_key_of sk in
  let! usecase := submit_setup_test 10 [pk] [submit_duty 10] true in
  let! bid := create_signed_bid 10 100 B256_default in
  let! result := submit_result usecase bid in
  let! err := unwrap_err result in
  Done (match err with AuctioneerErr _ => true | _ => false end).

Definition submit_bid_tests : list (outcome bool) :=
  [test_successful_submit; test_zero_bid_rejected; test_unauthorized_builder;
   test_past_slot_rejected; test_invalid_payload_attributes; test_submit_duty_not_found;
   test_invalid_signature; test_below_floor].

(** ** [get_header.rs] *)

Record HeaderMockStorage : Type := {
  hms_registered : list BlsPublicKey;
  hms_head_slot : HeadSlot;
  hms_duties : list ProposerDuty;
}.

Definition HeaderMockStorage_new (head_slot : HeadSlot) : HeaderMockStorage :=
  {| hms_registered := []; hms_head_slot := head_slot; hms_duties := [] |}.

#[local] Instance HeaderMockStorage_Storage : Storage HeaderMockStorage := {
  set_head_slot _ s := s;
  read_head_slot s := hms_head_slot s;
  set_payload_attributes _ s := s;
  read_payload_attributes _ := zero_attributes;
  set_validator_registration key _ s :=
    {| hms_registered := hms_registered s ++ [key]; hms_head_slot := hms_head_slot s;
       hms_duties := hms_duties s |};
  set_validator_registrations _ s := s;
  read_validator_registration key s :=
    if bool_decide (key ∈ hms_registered s) then
      Some {| vr_fee_recipient := Address_default; vr_gas_limit := 30000000;
              vr_timestamp := 0; vr_pubkey := key |}
    else None;
  empty_validator_regs s := match hms_registered s with [] => true | _ => false end;
  is_whitelisted_builder _ _ := false;
  set_proposer_duties duties s :=
    {| hms_registered := hms_registered s; hms_head_slot := hms_head_slot s;
       hms_duties := duties |};
  find_duty_by_slot slot s := List.find (fun d => pd_slot d =? slot) (hms_duties s);
  read_proposer_duties s := hms_duties s;
  set_blinded_block_response _ _ s := s;
  read_blinded_block_response _ _ := None;
  set_delivered_blocks _ s := s;
}.

Record HeaderMockAuctioneer : Type := { hma_best_bid : option (Arc BidSubmission) }.

#[local] Instance HeaderMockAuctioneer_Auctioneer : Auctioneer HeaderMockAuctioneer := {
  compare_and_bid _ _ _ a := (Ok tt, a);
  get_best_bid _ slot a := (ok_or (BidNotFound slot) (hma_best_bid a), a);
}.

Definition default_bid (prev_randao : B256) : outcome (Arc BidSubmission) :=
  let! sk := key_gen x2a in
  let! sig := sign_bytes sk (String.list_byte_of_string "test") in
  Done (mkArc 0 (BidSubmission_new {|
    bt_slot := 0;
    bt_parent_hash := B256_default;
    bt_block_hash := B256_default;
    bt_builder_pubkey := BlsPublicKey_default;
    bt_proposer_pubkey := BlsPublicKey_default;
    bt_proposer_fee_recipient := Address_default;
    bt_gas_limit := 30000000;
    bt_gas_used := 15000000;
    bt_value := mkU256 100;
  |} (test_payload 0 0 prev_randao B256_default) BlobsBundle_default sig)).

(** [ikm] is what [BlsSecretKey::random] draws. *)
Definition header_usecase (ikm : FixedBytes 32) : outcome GetHeaderUseCase :=
  let! sk := BlsSecretKey_random ikm in
  let! fds := ForkDatas_default in
  Done (GetHeaderUseCase_new (BlsSigner_new sk fds Electra)).

Definition header_setup_test (ikm : FixedBytes 32) (slot : Z)
    (registered_validator : option BlsPublicKey) (best_bid : option (Arc BidSubmission)) :
    outcome (HeaderMockStorage * HeaderMockAuctioneer * GetHeaderUseCase) :=
  let duty := {| pd_pubkey := BlsPublicKey_default; pd_validator_index := 1; pd_slot := slot |} in
  let storage := {| hms_registered := option_list registered_validator;
                    hms_head_slot := mkHeadSlot (wrapping_pred slot); hms_duties := [duty] |} in
  let! usecase := header_usecase ikm in
  Done (storage, {| hma_best_bid := best_bid |}, usecase).

Definition header_result (t : HeaderMockStorage * HeaderMockAuctioneer * GetHeaderUseCase)
    (slot : Z) (proposer : BlsPublicKey) :
    outcome (result (Versioned SignedHeader) UseCaseError) :=
  let '(storage, auctioneer, usecase) := t in
  fst (run_alone storage auctioneer
         (GetHeaderUseCase_execute Debug usecase slot B256_default proposer)).

Definition test_unauthorized_get_header (ikm : FixedBytes 32) : outcome bool :=
  let! usecase := header_setup_test ikm 10 None None in
  let! result := header_result usecase 10 BlsPublicKey_default in
  let! err := unwrap_err result in
  Done (match err with UnauthorizedGetHeader => true | _ => false end).

Definition test_header_duty_not_found (ikm : FixedBytes 32) : outcome bool :=
  let pk := BlsPublicKey_default in
  let storage := {| hms_registered := [pk]; hms_head_slot := mkHeadSlot 9; hms_duties := [] |} in
  let! usecase := header_usecase ikm in
  let! result := header_result (storage, {| hma_best_bid := None |}, usecase) 10 pk in
  let! err := unwrap_err result in
  Done (match err with DutyNotFound => true | _ => false end).

Definition test_invalid_slot (ikm : FixedBytes 32) : outcome bool :=
  let pk := BlsPublicKey_default in
  let duty := {| pd_pubkey := BlsPublicKey_default; pd_validator_index := 1; pd_slot := 5 |} in
  let storage := {| hms_registered := [pk]; hms_head_slot := mkHeadSlot 10;
                    hms_duties := [duty] |} in
  let! usecase := header_usecase ikm in
  let! result := header_result (storage, {| hma_best_bid := None |}, usecase) 5 pk in
  let! err := unwrap_err result in
  Done (match err with InvalidSlot => true | _ => false end).

Definition test_bid_not_found (ikm : FixedBytes 32) : outcome bool :=
  let pk := BlsPublicKey_default in
  let! usecase := header_setup_test ikm 10 (Some pk) None in
  let! result := header_result usecase 10 pk in
  let! err := unwrap_err result in
  Done (match err with AuctioneerErr _ => true | _ => false end).

Definition test_successful_get_header (ikm : FixedBytes 32) : outcome bool :=
  let pk := BlsPublicKey_default in
  let! bid := default_bid B256_default in
  let! usecase := header_setup_test ikm 10 (Some pk) (Some bid) in
  let! result := header_result usecase 10 pk in
  let! versioned := unwrap result in
  Done (match version versioned with Electra => true | _ => false end).

Definition get_header_tests (ikm : FixedBytes 32) : list (outcome bool) :=
  [test_unauthorized_get_header ikm; test_header_duty_not_found ikm; test_invalid_slot ikm;
   test_bid_not_found ikm; test_successful_get_header ikm].

(** ** [unblind_block.rs] *)

Record UnblindMockStorage : Type := {
  ums_duties : list ProposerDuty;
  ums_registrations : gmap BlsPublicKey ValidatorRegistration;
  ums_blinded_responses : gmap BlsPublicKey BlindedBlockResponse;
  ums_delivered : list B256;
}.

Definition UnblindMockStorage_new : UnblindMockStorage :=
  {| ums_duties := []; ums_registrations := ∅; ums_blinded_responses := ∅; ums_delivered := [] |}.

#[local] Instance UnblindMockStorage_Storage : Storage UnblindMockStorage := {
  set_head_slot _ s := s;
  read_head_slot _ := mkHeadSlot 0;
  set_payload_attributes _ s := s;
  read_payload_attributes _ := zero_attributes;
  set_validator_registration key reg s :=
    {| ums_duties := ums_duties s; ums_registrations := <[key := reg]> (ums_registrations s);
       ums_blinded_responses := ums_blinded_responses s; ums_delivered := ums_delivered s |};
  set_validator_registrations regs s :=
    {| ums_duties := ums_duties s; ums_registrations := regs ∪ ums_registrations s;
       ums_blinded_responses := ums_blinded_responses s; ums_delivered := ums_delivered s |};
  read_validator_registration key s := ums_registrations s !! key;
  empty_validator_regs s := bool_decide (ums_registrations s = ∅);
  is_whitelisted_builder _ _ := false;
  set_proposer_duties duties s :=
    {| ums_duties := duties; ums_registrations := ums_registrations s;
       ums_blinded_responses := ums_blinded_responses s; ums_delivered := ums_delivered s |};
  find_duty_by_slot slot s := List.find (fun d => pd_slot d =? slot) (ums_duties s);
  read_proposer_duties s := ums_duties s;
  set_blinded_block_response proposer resp s :=
    {| ums_duties := ums_duties s; ums_registrations := ums_registrations s;
       ums_blinded_responses := <[proposer := resp]> (ums_blinded_responses s);
       ums_delivered := ums_delivered s |};
  read_blinded_block_response proposer s := ums_blinded_responses s !! proposer;
  set_delivered_blocks block_hash s :=
    {| ums_duties := ums_duties s; ums_registrations := ums_registrations s;
       ums_blinded_responses := ums_blinded_responses s;
       ums_delivered := ums_delivered s ++ [block_hash] |};
}.

(** The use case has no auctioneer. *)
#[local] Instance NoAuctioneer : Auctioneer unit := {
  compare_and_bid _ _ _ a := (Ok tt, a);
  get_best_bid _ slot a := (Err (BidNotFound slot), a);
}.

Definition make_payload (block_hash : B256) : ExecutionPayload :=
  test_payload 1 100 B256_default block_hash.

Definition make_blinded_block_response (block_hash : B256) : BlindedBlockResponse :=
  {| bbr_execution_payload := make_payload block_hash;
     bbr_blobs_bundle := Some BlobsBundle_default |}.

Definition generate_keypair : outcome (SecretKey * BlsPublicKey) :=
  let! sk := key_gen x2a in
  let! pk := public_key_of sk in
  Done (sk, pk).

Definition sign_message (sk : SecretKey) (slot proposer_index : Z) (block_hash : B256) :
    outcome BlsSignature :=
  let! fds := ForkDatas_default in
  sign_bytes sk (blinded_block_signing_root slot proposer_index block_hash
                   (compute_proposer_domain fds)).

(** A signature of the key that [key_gen] makes of zeros. *)
Definition sign_message_zero (slot proposer_index : Z) : outcome BlsSignature :=
  let! sk := key_gen x00 in sign_message sk slot proposer_index B256_default.

Definition invalid_signature : outcome BlsSignature :=
  let! sk := key_gen x63 in sign_bytes sk wrong.

Definition make_duty (pk : BlsPublicKey) : ProposerDuty :=
  {| pd_pubkey := pk; pd_validator_index := 42; pd_slot := 100 |}.

Definition make_reg (pk : BlsPublicKey) : ValidatorRegistration :=
  {| vr_fee_recipient := Address_default; vr_gas_limit := 30000000; vr_timestamp := 100;
     vr_pubkey := pk |}.

Definition unblind_result (storage : UnblindMockStorage) (slot index : Z) (block_hash : B256)
    (signature : BlsSignature) : outcome (result BlindedBlockResponse UseCaseError) :=
  let! fds := ForkDatas_default in
  fst (run_alone storage tt (UnblindBlockUseCase_execute (UnblindBlockUseCase_new fds) slot index
         block_hash signature)).

(** The storage with the duty and, when [registered], the registration of a key. *)
Definition unblind_storage (pk : BlsPublicKey) (registered : bool) : UnblindMockStorage :=
  let s := set_proposer_duties [make_duty pk] UnblindMockStorage_new in
  if registered then set_validator_registration pk (make_reg pk) s else s.

Definition test_unblind_block_success : outcome bool :=
  let! got := generate_keypair in
  let '(sk, pk) := got in
  let block_hash := mkB256 (array_repeat 32 xab) in
  let storage := set_blinded_block_response pk (make_blinded_block_response block_hash)
                   (unblind_storage pk true) in
  let! signature := sign_message sk 100 42 block_hash in
  let! result := unblind_result storage 100 42 block_hash signature in
  let! unblinded := unwrap result in
  Done (bool_decide (ep_block_hash (bbr_execution_payload unblinded) = block_hash)).

Definition test_unblind_block_duty_not_found : outcome bool :=
  let! sig := sign_message_zero 0 0 in
  let! result := unblind_result UnblindMockStorage_new 999 0 B256_default sig in
  Done (match result with Err DutyNotFound => true | _ => false end).

Definition test_unblind_block_proposer_index_mismatch : outcome bool :=
  let! got := generate_keypair in
  let '(_, pk) := got in
  let! sig := sign_message_zero 100 99 in
  let! result := unblind_result (unblind_storage pk false) 100 99 B256_default sig in
  Done (match result with Err (ProposerIndexMismatch _ _) => true | _ => false end).

Definition test_unblind_block_unauthorized : outcome bool :=
  let! got := generate_keypair in
  let '(_, pk) := got in
  let! sig := sign_message_zero 100 42 in
  let! result := unblind_result (unblind_storage pk false) 100 42 B256_default sig in
  Done (match result with Err UnauthorizedSubmission => true | _ => false end).

Definition test_unblind_block_invalid_signature : outcome bool :=
  let! got := generate_keypair in
  let '(_, pk) := got in
  let! sig := invalid_signature in
  let! result := unblind_result (unblind_storage pk true) 100 42 B256_default sig in
  Done (match result with Err InvalidValidatorSignature => true | _ => false end).

Definition test_unblind_block_no_blinded_response : outcome bool :=
  let! got := generate_keypair in
  let '(sk, pk) := got in
  let block_hash := mkB256 (array_repeat 32 xab) in
  let! signature := sign_message sk 100 42 block_hash in
  let! result := unblind_result (unblind_storage pk true) 100 42 block_hash signature in
  Done (match result with Err NoBlindedBlockResponse => true | _ => false end).

Definition test_unblind_block_hash_mismatch : outcome bool :=
  let! got := generate_keypair in
  let '(sk, pk) := got in
  let stored_hash := mkB256 (array_repeat 32 xab) in
  let storage := set_blinded_block_response pk (make_blinded_block_response stored_hash)
                   (unblind_storage pk true) in
  let wrong_hash := mkB256 (array_repeat 32 xff) in
  let! signature := sign_message sk 100 42 wrong_hash in
  let! result := unblind_result storage 100 42 wrong_hash signature in
  Done (match result with Err BlockHashMismatch => true | _ => false end).

Definition unblind_block_tests : list (outcome bool) :=
  [test_unblind_block_success; test_unblind_block_duty_not_found;
   test_unblind_block_proposer_index_mismatch; test_unblind_block_unauthorized;
   test_unblind_block_invalid_signature; test_unblind_block_no_blinded_response;
   test_unblind_block_hash_mismatch].

(** ** [register_validator.rs] *)

Record RegisterMockStorage : Type := {
  rms_stored : option (BlsPublicKey * ValidatorRegistration);
  rms_registered : bool;
}.

Definition RegisterMockStorage_new : RegisterMockStorage :=
  {| rms_stored := None; rms_registered := false |}.

#[local] Instance RegisterMockStorage_Storage : Storage RegisterMockStorage := {
  set_head_slot _ s := s;
  read_head_slot _ := mkHeadSlot 0;
  set_payload_attributes _ s := s;
  read_payload_attributes _ := zero_attributes;
  set_validator_registration key reg _ :=
    {| rms_stored := Some (key, reg); rms_registered := true |};
  set_validator_registrations _ s := s;
  read_validator_registration _ _ := None;
  empty_validator_regs _ := true;
  is_whitelisted_builder _ _ := false;
  set_proposer_duties _ s := s;
  find_duty_by_slot _ _ := None;
  read_proposer_duties _ := [];
  set_blinded_block_response _ _ s := s;
  read_blinded_block_response _ _ := None;
  set_delivered_blocks _ s := s;
}.

(** The storage of [test_storage_persisted]: a flag. *)
Record CheckStorage : Type := { cs_flag : bool }.

#[local] Instance CheckStorage_Storage : Storage CheckStorage := {
  set_head_slot _ s := s;
  read_head_slot _ := mkHeadSlot 0;
  set_payload_attributes _ s := s;
  read_payload_attributes _ := zero_attributes;
  set_validator_registration _ _ _ := {| cs_flag := true |};
  set_validator_registrations _ s := s;
  read_validator_registration _ _ := None;
  empty_validator_regs _ := true;
  is_whitelisted_builder _ _ := false;
  set_proposer_duties _ s := s;
  find_duty_by_slot _ _ := None;
  read_proposer_duties _ := [];
  set_blinded_block_response _ _ s := s;
  read_blinded_block_response _ _ := None;
  set_delivered_blocks _ s := s;
}.

Definition create_signed_registration (sk : SecretKey) : outcome SignedValidatorRegistration :=
  let! pk := public_key_of sk in
  let registration := {|
    vr_fee_recipient := Address_default; vr_gas_limit := 30000000;
    vr_timestamp := 1711287496; vr_pubkey := pk;
  |} in
  let! fds := ForkDatas_default in
  let! sig := sign_bytes sk (fb_bytes (signing_root registration (compute_builder_domain fds))) in
  Done {| svr_message := registration; svr_signature := sig |}.

Definition register_run {S} `{!Storage S} (storage : S) (reg : SignedValidatorRegistration) :
    outcome (result unit UseCaseError * S) :=
  let! fds := ForkDatas_default in
  let '(result, w) := run_alone storage tt
    (RegisterValidatorUseCase_execute (RegisterValidatorUseCase_new fds) reg) in
  let! result := result in
  Done (result, w_storage w).

Definition test_successful_registration : outcome bool :=
  let! sk := key_gen x2a in
  let! registration := create_signed_registration sk in
  let! got := register_run RegisterMockStorage_new registration in
  let '(result, _) := got in
  Done (is_ok result).

Definition test_invalid_signature_rejected : outcome bool :=
  let! sk := key_gen x2a in
  let! registration := create_signed_registration sk in
  let! other_sk := key_gen x63 in
  let! sig := sign_bytes other_sk wrong in
  let! got := register_run RegisterMockStorage_new
    {| svr_message := svr_message registration; svr_signature := sig |} in
  let '(result, _) := got in
  let! err := unwrap_err result in
  Done (match err with InvalidValidatorSignature => true | _ => false end).

Definition test_storage_persisted : outcome bool :=
  let! sk := key_gen x2a in
  let! registration := create_signed_registration sk in
  let! got := register_run {| cs_flag := false |} registration in
  let '(result, storage) := got in
  let! _ := unwrap result in
  Done (cs_flag storage).

Definition register_validator_tests : list (outcome bool) :=
  [test_successful_registration; test_invalid_signature_rejected; test_storage_persisted].

End usecase_tests.

(** The tests on the concrete cryptography. *)
Definition usecase_tests_on_concrete : list (outcome bool) :=
  submit_bid_tests ++ get_header_tests (array_repeat 32 x07) ++ unblind_block_tests ++
  register_validator_tests.
