(* ===== verification/Concurrency.v ===== *)
(** * The use cases together

    The requests of builders and proposers run as concurrent tasks over one
    storage and one auctioneer, and the relay service writes the head slot, the
    duties and the payload attributes meanwhile.  First what every interleaving
    guarantees, by an invariant of the shared state; then what only requests that
    do not overlap guarantee; then the interleavings that lose it. *)

From S2P Require Import Prelude Effects External Concrete Crypto Entity Storage Auctioneer.
From S2P Require Import UseCase UseCaseSpec.

Section requests.
Context `{Blst, Alloy, TreeHashLib}.

(** The use cases of one relay. *)
Record Relay : Type := {
  r_submit : SubmitBidUseCase;
  r_header : GetHeaderUseCase;
  r_register : RegisterValidatorUseCase;
  r_unblind : UnblindBlockUseCase;
}.

Inductive request : Type :=
| ReqSubmit (bid : BidSubmission)
| ReqHeader (slot : Z) (parent_hash : B256) (proposer : BlsPublicKey)
| ReqRegister (reg : SignedValidatorRegistration)
| ReqUnblind (slot index : Z) (block_hash : B256) (signature : BlsSignature)
| ReqHeadSlot (slot : HeadSlot)
| ReqDuties (duties : list ProposerDuty)
| ReqAttributes (attrs : PayloadAttributes).

Inductive response : Type :=
| RespDone (r : result unit UseCaseError)
| RespHeader (r : result (Versioned SignedHeader) UseCaseError)
| RespPayload (r : result BlindedBlockResponse UseCaseError).

(** The task of a request; it returns the request with its response. *)
Definition serve (profile : build_profile) (relay : Relay) (req : request) :
    task (request * response) :=
  match req with
  | ReqSubmit bid =>
      let! r := SubmitBidUseCase_execute profile (r_submit relay) bid in
      Ret (req, RespDone r)
  | ReqHeader slot parent_hash proposer =>
      let! r := GetHeaderUseCase_execute profile (r_header relay) slot parent_hash proposer in
      Ret (req, RespHeader r)
  | ReqRegister reg =>
      let! r := RegisterValidatorUseCase_execute (r_register relay) reg in
      Ret (req, RespDone r)
  | ReqUnblind slot index block_hash signature =>
      let! r := UnblindBlockUseCase_execute (r_unblind relay) slot index block_hash signature in
      Ret (req, RespPayload r)
  | ReqHeadSlot slot =>
      let! _ := storage_op (SetHeadSlot slot) in Ret (req, RespDone (Ok tt))
  | ReqDuties duties =>
      let! _ := storage_op (SetProposerDuties duties) in Ret (req, RespDone (Ok tt))
  | ReqAttributes attrs =>
      let! _ := storage_op (SetPayloadAttributes attrs) in Ret (req, RespDone (Ok tt))
  end.

(** ** The invariant *)

Variable fds : ForkDatas.
Variable wl : gset BlsPublicKey.

(** What is known of every submission, for example that some client sent it. *)
Variable src : BidSubmission -> Prop.

(** A bid the relay may hold for a slot: it was submitted, for that slot, is worth
    something, and is signed by a whitelisted builder. *)
Record admitted (slot : Z) (bid : BidSubmission) : Prop := {
  adm_source : src bid;
  adm_slot : bt_slot (message bid) = slot;
  adm_value : U256_0 (bt_value (message bid)) <> 0;
  adm_builder : bt_builder_pubkey (message bid) ∈ wl;
  adm_signature : BidTrace_verify_signature (message bid) (bid_signature bid)
                    (compute_builder_domain fds) = true;
}.

(** A payload the relay may reveal: that of an admitted bid. *)
Definition of_admitted (resp : BlindedBlockResponse) : Prop :=
  exists slot bid, admitted slot bid /\ resp = to_blinded_block_response bid.

Definition delivered_admitted (block_hash : B256) : Prop :=
  exists resp, of_admitted resp /\ ep_block_hash (bbr_execution_payload resp) = block_hash.

(** What an operation may be asked... *)
Definition storage_pre {X} (e : storageE X) : Prop :=
  match e with
  | SetBlindedBlockResponse _ resp => of_admitted resp
  | SetDeliveredBlocks block_hash => delivered_admitted block_hash
  | _ => True
  end.

Definition relay_pre X (e : relayE X) : Prop :=
  match e with
  | StorageOp e => storage_pre e
  | CompareAndBid slot bid => admitted slot (arc_val bid)
  | _ => True
  end.

(** ... and what it answers. *)
Definition storage_resp {X} (e : storageE X) : X -> Prop :=
  match e in storageE X return X -> Prop with
  | IsWhitelistedBuilder key => fun b => b = true -> key ∈ wl
  | ReadBlindedBlockResponse _ => fun o => forall resp, o = Some resp -> of_admitted resp
  | _ => fun _ => True
  end.

Definition relay_resp X (e : relayE X) : X -> Prop :=
  match e in relayE X return X -> Prop with
  | StorageOp e => storage_resp e
  | CompareAndBid _ _ => fun _ => True
  | GetBestBid slot => fun r => forall b, r = Ok b -> admitted slot (arc_val b)
  | NewArc bid => fun arc => arc_val arc = bid
  end.

(** What a finished task may have answered: a header commits to an admitted bid
    for the requested slot and parent, under the relay's signature, and a payload
    is an admitted bid's, with the requested block hash. *)
Definition answered (relay : Relay) (a : request * response) : Prop :=
  match a with
  | (ReqHeader slot parent_hash _, RespHeader (Ok header)) =>
      exists bid, admitted slot bid /\ bt_parent_hash (message bid) = parent_hash /\
        header = signed_header_of (gh_signer (r_header relay)) bid
  | (ReqUnblind _ _ block_hash _, RespPayload (Ok resp)) =>
      of_admitted resp /\ ep_block_hash (bbr_execution_payload resp) = block_hash
  | _ => True
  end.

(** What is known of a submitted bid. *)
Definition submits (req : request) : Prop :=
  match req with ReqSubmit bid => src bid | _ => True end.

Section shared.
Context {S A : Type} `{!Storage S, !StorageLaws S, !Auctioneer A, !AuctionView A, !SharedAuction A}.
Variable clock : N -> Z.
Hypothesis clock_mono : clock_monotone clock.

Abbreviation hs := (relay_handler storage_handler clock).

(** The invariant of the shared state. *)
Record relay_invariant (w : World S A) : Prop := {
  inv_whitelist : v_whitelist (view w) = wl;
  inv_best t slot b : now clock w <= t -> best t slot (w_auctioneer w) = Some b ->
    admitted slot (arc_val b);
  inv_blinded key resp : v_blinded (view w) !! key = Some resp -> of_admitted resp;
  inv_delivered block_hash : block_hash ∈ v_delivered (view w) ->
    delivered_admitted block_hash;
}.

Lemma storage_op_preserves X (e : storageE X) s a n :
  relay_invariant (mkWorld s a n) -> storage_pre e ->
  storage_resp e (fst (storage_handler X e s)) /\
  relay_invariant (mkWorld (snd (storage_handler X e s)) a (n + 1)).
Proof.
  intros [Hw Hb Hr Hd] Hpre. destruct (storage_refines X e s) as [Hx Hs].
  unfold view in *; simpl in *. split.
  - rewrite Hx. clear Hs Hx. destruct (storage_view s) as [hd at_ rg ds w bl dl]; simpl in *.
    subst w. destruct e; simpl; try done; eauto. by rewrite bool_decide_eq_true.
  - assert (Hn : (n < n + 1)%N) by lia.
    constructor; unfold view; simpl; rewrite ?Hs; clear Hs Hx.
    + destruct (storage_view s), e; simpl in *; done.
    + intros t slot b Ht Hbest. apply (Hb t slot b); [|done].
      unfold now in *; simpl in *. etrans; [|exact Ht]. apply clock_mono. lia.
    + destruct (storage_view s) as [hd at_ rg ds w bl dl], e; simpl in *; try done.
      intros k r. rewrite lookup_insert_Some. intros [[_ <-]|[_ Hk]]; [done|by eapply Hr].
    + destruct (storage_view s) as [hd at_ rg ds w bl dl], e; simpl in *; try done.
      intros bh. rewrite elem_of_app, list_elem_of_singleton. intros [Hin| ->]; [by apply Hd|done].
Qed.

Lemma auctioneer_preserves s a a' n :
  relay_invariant (mkWorld s a n) ->
  (forall t slot b, clock n <= t -> best t slot a' = Some b ->
     best (clock n) slot a = Some b \/ admitted slot (arc_val b)) ->
  relay_invariant (mkWorld s a' (n + 1)).
Proof.
  intros [Hw Hb Hr Hd] Ha. constructor; try done.
  intros t slot b Ht Hbest. unfold now in *; simpl in *.
  assert (Hn : clock n <= t) by (etrans; [|exact Ht]; apply clock_mono; lia).
  destruct (Ha t slot b Hn Hbest) as [Hb'|]; [|done]. by apply (Hb (clock n)).
Qed.

Lemma relay_preserves : handler_preserves hs relay_pre relay_resp relay_invariant.
Proof.
  intros X e [s a n] HI Hpre. destruct e as [X e|slot bid|slot|bid]; simpl.
  - pose proof (storage_op_preserves X e s a n HI Hpre) as Hp.
    by destruct (storage_handler X e s).
  - destruct (compare_and_bid (clock n) slot bid a) as [r a'] eqn:E; simpl. split; [done|].
    eapply auctioneer_preserves; [exact HI|]. intros t sl b Ht Hb.
    replace a' with (snd (compare_and_bid (clock n) slot bid a)) in Hb by (by rewrite E).
    destruct (compare_and_bid_bids _ _ _ _ _ _ _ Ht Hb) as [Hb'|[-> ->]]; [by left|by right].
  - destruct (get_best_bid (clock n) slot a) as [r a'] eqn:E; simpl. split.
    + intros b ->. pose proof (get_best_bid_value (clock n) slot a) as Hv. rewrite E in Hv.
      simpl in Hv. destruct (best (clock n) slot a) as [b'|] eqn:Hb; [|done].
      injection Hv as ->. by apply (inv_best _ HI (clock n)).
    + eapply auctioneer_preserves; [exact HI|]. intros t sl b Ht Hb. left.
      replace a' with (snd (get_best_bid (clock n) slot a)) in Hb by (by rewrite E).
      by eapply get_best_bid_best in Hb.
  - split; [done|]. eapply auctioneer_preserves; [exact HI|]. intros t sl b Ht Hb.
    left. by eapply best_antitone.
Qed.

(** Every task keeps to its side of the invariant. *)

Lemma safe_submit profile (relay : Relay) bid :
  sb_fork_datas (r_submit relay) = fds -> src bid ->
  safe relay_pre relay_resp (fun _ => True) (SubmitBidUseCase_execute profile (r_submit relay) bid).
Proof.
  intros Hfds Hsrc. unfold SubmitBidUseCase_execute. rewrite Hfds.
  apply safe_reject; [done|]. intros Hv.
  apply safe_perform; [done|]. intros listed Hl. apply safe_reject; [done|]. intros Hlisted.
  apply safe_perform; [done|]. intros head _. apply safe_lift. intros next _.
  apply safe_reject; [done|]. intros _.
  apply safe_perform; [done|]. intros attrs _. apply safe_reject; [done|]. intros _.
  apply safe_perform; [done|]. intros found _. apply safe_try_pure; [done|]. intros duty _.
  apply safe_reject; [done|]. intros Hsig.
  assert (Hadm : admitted (bt_slot (message bid)) bid).
  { constructor; [done|done| | |by apply negb_false_iff].
    - apply bool_decide_eq_false in Hv. intros Hz. apply Hv.
      destruct (bt_value (message bid)); simpl in *; by subst.
    - apply Hl. by apply negb_false_iff. }
  apply safe_perform; [done|]. intros arc Harc. simpl in Harc.
  apply safe_perform; [by simpl; rewrite Harc|]. intros compared _.
  apply safe_try_pure; [done|]. intros [] _.
  apply safe_perform; [|done]. simpl. rewrite Harc. by exists (bt_slot (message bid)), bid.
Qed.

Lemma safe_header profile (relay : Relay) slot parent_hash proposer :
  safe relay_pre relay_resp
    (fun r => answered relay (ReqHeader slot parent_hash proposer, RespHeader r))
    (GetHeaderUseCase_execute profile (r_header relay) slot parent_hash proposer).
Proof.
  unfold GetHeaderUseCase_execute.
  apply safe_perform; [done|]. intros reg _. apply safe_reject; [done|]. intros _.
  apply safe_perform; [done|]. intros found _. apply safe_try_pure; [done|]. intros duty _.
  apply safe_reject; [done|]. intros _.
  apply safe_perform; [done|]. intros head _. apply safe_lift. intros next _.
  apply safe_reject; [done|]. intros _.
  apply safe_perform; [done|]. intros got Hgot. apply safe_try_pure; [done|].
  intros b Hb. apply map_err_Ok in Hb. subst got. specialize (Hgot b eq_refl).
  apply safe_reject; [done|]. intros Hp. apply negb_false_iff, bool_decide_eq_true in Hp.
  apply safe_lift. intros header Hh. rewrite build_header_Done in Hh. injection Hh as <-.
  simpl. by exists (arc_val b).
Qed.

Lemma safe_unblind (relay : Relay) slot index block_hash signature :
  safe relay_pre relay_resp
    (fun r => answered relay (ReqUnblind slot index block_hash signature, RespPayload r))
    (UnblindBlockUseCase_execute (r_unblind relay) slot index block_hash signature).
Proof.
  unfold UnblindBlockUseCase_execute.
  apply safe_perform; [done|]. intros found _. apply safe_try_pure; [done|]. intros duty _.
  apply safe_reject; [done|]. intros _.
  apply safe_perform; [done|]. intros reg _. apply safe_reject; [done|]. intros _.
  apply safe_reject; [done|]. intros _.
  apply safe_perform; [done|]. intros stored Hs. apply safe_try_pure; [done|].
  intros resp Hresp. apply ok_or_Ok in Hresp. specialize (Hs resp Hresp).
  apply safe_reject; [done|]. intros Hh. apply negb_false_iff, bool_decide_eq_true in Hh.
  apply safe_perform; [by exists resp|]. done.
Qed.

Lemma safe_serve profile (relay : Relay) req :
  sb_fork_datas (r_submit relay) = fds -> submits req ->
  safe relay_pre relay_resp (answered relay) (serve profile relay req).
Proof.
  intros Hfds Hsrc. destruct req; unfold serve.
  - by apply (safe_bind _ _ _ _ _ _ (safe_submit profile relay bid Hfds Hsrc)).
  - by apply (safe_bind _ _ _ _ _ _ (safe_header profile relay slot parent_hash proposer)).
  - apply (safe_bind _ _ (fun _ => True)); [|done]. unfold RegisterValidatorUseCase_execute.
    apply safe_reject; [done|]. intros _. by apply safe_perform.
  - by apply (safe_bind _ _ _ _ _ _ (safe_unblind relay slot index block_hash signature)).
  - done.
  - done.
  - done.
Qed.

Lemma interleavings_invariant profile (relay : Relay) (reqs : list request)
    (w w' : World S A) ts :
  sb_fork_datas (r_submit relay) = fds -> Forall submits reqs -> relay_invariant w ->
  rtc (pool_step hs) (map (serve profile relay) reqs, w) (ts, w') ->
  relay_invariant w' /\ forall i req resp, ts !! i = Some (Ret (req, resp)) ->
    answered relay (req, resp).
Proof.
  intros Hfds Hsrc HI Hrtc.
  destruct (pool_invariant hs relay_pre relay_resp relay_invariant (answered relay)
              (map (serve profile relay) reqs, w) (ts, w') relay_preserves) as [Hts HI'];
    [|done|done|split; [done|]].
  - apply Forall_forall. intros p Hp. apply list_elem_of_fmap in Hp as (req & -> & Hreq).
    apply safe_serve; [done|]. exact (proj1 (Forall_forall _ _) Hsrc _ Hreq).
  - intros i req resp Hi. exact (pool_safe_returned _ _ _ _ _ _ Hts Hi).
Qed.

(** C2: whatever requests are in flight and however their operations
    interleave, with each other and with the relay service's updates of the head
    slot, the duties and the payload attributes: every live bid of a slot is one
    that was submitted (more generally, has any property the submitted bids have), for
    that slot, not zero and signed by a whitelisted builder; every stored and
    every revealed payload belongs to such a bid and has the requested block hash;
    every header served is the signed header of such a bid for the requested slot
    and parent; and every delivered block hash is that of such a payload.  The calls
    of the auctioneer may overlap ([SharedAuction]). *)
Theorem interleavings_keep_bids_admitted profile (relay : Relay) (reqs : list request)
    (w w' : World S A) ts :
  sb_fork_datas (r_submit relay) = fds -> Forall submits reqs -> relay_invariant w ->
  rtc (pool_step hs) (map (serve profile relay) reqs, w) (ts, w') ->
  relay_invariant w' /\ forall i req resp, ts !! i = Some (Ret (req, resp)) ->
    answered relay (req, resp).
Proof. apply interleavings_invariant. Qed.

End shared.

(** ** The value of the best bid *)

Section monotone.
Context {S A : Type} `{!Storage S, !StorageLaws S, !Auctioneer A, !AuctionView A, !SharedAuction A}.
Variable clock : N -> Z.
Hypothesis clock_mono : clock_monotone clock.

(** At time [t] the slot has a live bid of at least the value [x]; until time [t]
    it has. *)
Definition worth (t slot x : Z) (a : A) : Prop :=
  exists b, best t slot a = Some b /\ x <= U256_0 (bid_value b).

Definition holds_value (t slot x : Z) (w : World S A) : Prop :=
  t < now clock w + lifetime (w_auctioneer w) /\
  (now clock w <= t -> worth t slot x (w_auctioneer w)).

Lemma relay_step_holds t slot x X (e : relayE X) (w : World S A) :
  holds_value t slot x w ->
  holds_value t slot x (snd (relay_handler storage_handler clock X e w)).
Proof.
  destruct w as [s a n]. unfold holds_value, now; simpl. intros [Hlife Hv].
  assert (Hn : clock n <= clock (n + 1)) by (apply clock_mono; lia).
  destruct e as [X e|slot' bid|slot'|bid]; simpl.
  - destruct (storage_handler X e s); simpl. split; [lia|]. intros. apply Hv. lia.
  - pose proof (compare_and_bid_lifetime (clock n) slot' bid a) as Hl.
    pose proof (compare_and_bid_holds (clock n) t slot' slot bid a) as Hc.
    destruct (compare_and_bid (clock n) slot' bid a) as [r a']; simpl in *. rewrite Hl.
    split; [lia|]. intros Ht. destruct Hv as (b & Hb & Hx); [lia|].
    destruct (Hc b) as (b' & Hb' & Hx'); [lia|lia|done|]. exists b'. split; [done|lia].
  - pose proof (get_best_bid_lifetime (clock n) slot' a) as Hl.
    pose proof (get_best_bid_best (clock n) t slot' slot a) as Hg.
    destruct (get_best_bid (clock n) slot' a) as [r a']; simpl in *. rewrite Hl.
    split; [lia|]. intros Ht. destruct Hv as (b & Hb & Hx); [lia|].
    exists b. split; [|done]. apply Hg; [lia|done].
  - split; [lia|]. intros. apply Hv. lia.
Qed.

(** C17: while the first best bid of a slot is within its lifetime, the value the
    auctioneer would serve for the slot never falls, whatever tasks run and
    however they interleave, also when the calls of the auctioneer overlap. *)
Theorem best_value_never_falls {R} (ts ts' : list (task R)) (w w' : World S A) t slot b :
  best t slot (w_auctioneer w) = Some b ->
  now clock w' <= t -> t < now clock w + lifetime (w_auctioneer w) ->
  rtc (pool_step (relay_handler storage_handler clock)) (ts, w) (ts', w') ->
  worth t slot (U256_0 (bid_value b)) (w_auctioneer w').
Proof.
  intros Hb Ht Hlife Hrtc.
  assert (Hw : holds_value t slot (U256_0 (bid_value b)) w).
  { split; [done|]. intros _. by exists b. }
  assert (Hw' : holds_value t slot (U256_0 (bid_value b)) w').
  { clear Hb Ht Hlife. change w with (snd (ts, w)) in Hw. change w' with (snd (ts', w')).
    induction Hrtc as [c|c1 c2 c3 Hstep _ IH]; [done|]. apply IH.
    destruct Hstep as [i tasks v p p' v' _ Hp]; simpl in *.
    destruct p as [r|msg|X e k]; simplify_eq/=.
    pose proof (relay_step_holds _ _ _ X e v Hw) as Hs.
    destruct (relay_handler storage_handler clock X e v); by simplify_eq/=. }
  by apply Hw'.
Qed.

End monotone.
(** ** Requests that do not overlap *)

Section sequential.
Context {S A : Type} `{!Storage S, !StorageLaws S, !Auctioneer A, !AuctioneerLaws A}.
Variable clock : N -> Z.
Hypothesis clock_mono : clock_monotone clock.

(** The world after an accepted bid, which is the best one until its lifetime is over. *)
Lemma submit_bid_accepted profile self bid (w w' : World S A) :
  HeadSlot_0 (v_head (view w)) < u64_max -> arcs_old clock w ->
  relay_run clock (SubmitBidUseCase_execute profile self bid) w = (Done (Ok tt), w') ->
  let slot := bt_slot (message bid) in
  exists duty, duty_at (view w) slot = Some duty /\
    view w' = snd (spec_handler _ (SetBlindedBlockResponse (pd_pubkey duty)
                     (to_blinded_block_response bid)) (view w)) /\
    (forall t b, now clock w' <= t -> best t slot (w_auctioneer w') = Some b -> arc_val b = bid) /\
    (forall t, now clock w' <= t < now clock w + lifetime (w_auctioneer w) ->
       is_Some (best t slot (w_auctioneer w'))).
Proof.
  intros Hhead Hold Hrun slot.
  pose proof (relay_of_spec clock (submit_bid_outcome clock self bid (world_view w)) _ w
    (submit_bid_exec clock profile self bid (world_view w) clock_mono Hhead Hold)) as Hout.
  rewrite Hrun in Hout. unfold submit_bid_outcome in Hout. simpl in Hout.
  fold (view w) (view w') slot in Hout.
  destruct (first_failure _) as [e|] eqn:Hreq; [by destruct Hout|].
  destruct Hout as (_ & duty & Hduty & Hv & Ha & Hops). exists duty. split; [done|]. split; [done|].
  apply submit_bid_requires_met in Hreq.
  assert (Hbest : forall t, now clock w' <= t -> best t slot (w_auctioneer w') =
    if t <? clock (w_ops w + 5)%N + lifetime (w_auctioneer w)
    then Some (mkArc (w_ops w + 4)%N bid) else None).
  { intros t Ht. rewrite Ha. apply compare_and_bid_accepts.
    - unfold now in Ht. etrans; [|exact Ht]. apply clock_mono. lia.
    - destruct (best _ slot (w_auctioneer w)) as [old|] eqn:Hold'; [|done].
      apply outbids_spec. by apply (acc_outbids _ _ _ _ Hreq). }
  assert (Hstart : now clock w <= clock (w_ops w + 5)%N) by (apply clock_mono; lia).
  split; intros t; [intros b Ht|intros [Ht Hlt]]; rewrite Hbest by done.
  - destruct (t <? _); [|done]. by intros [= <-].
  - rewrite (proj2 (Z.ltb_lt _ _)) by lia. by eexists.
Qed.

(** Unblinding right after an accepted bid looks at that bid's payload. *)
Lemma unblind_after_submit v duty resp fds' slot index block_hash signature (w : World S A)
    duty' resp' :
  duty_at v slot = Some duty ->
  view w = snd (spec_handler _ (SetBlindedBlockResponse (pd_pubkey duty) resp) v) ->
  unblind_allowed fds' (view w) slot index block_hash signature duty' resp' ->
  duty' = duty /\ resp' = resp.
Proof.
  intros Hduty Hv Hall. rewrite Hv in Hall.
  pose proof (ub_duty _ _ _ _ _ _ _ _ Hall) as Hd. pose proof (ub_stored _ _ _ _ _ _ _ _ Hall) as Hr.
  apply find_duty_spec in Hd. destruct v as [hd at_ rg ds wl' bl dl]. unfold duty_at in Hduty.
  simpl in *. rewrite Hduty in Hd. injection Hd as <-. split; [done|].
  rewrite lookup_insert_eq in Hr. congruence.
Qed.

Lemma unblind_block_impl self slot index block_hash signature (w : World S A) :
  let '(r, w') := relay_run clock
    (UnblindBlockUseCase_execute self slot index block_hash signature) w in
  unblind_block_outcome self slot index block_hash signature (world_view w) r (world_view w').
Proof.
  exact (relay_of_spec clock (unblind_block_outcome self slot index block_hash signature
    (world_view w)) _ w
    (unblind_block_exec clock self slot index block_hash signature (world_view w))).
Qed.

Lemma unblind_block_Ok self slot index block_hash signature (w w' : World S A) resp :
  relay_run clock (UnblindBlockUseCase_execute self slot index block_hash signature) w =
    (Done (Ok resp), w') ->
  exists duty, unblind_allowed (ub_fork_datas self) (view w) slot index block_hash signature
                 duty resp.
Proof.
  intros Hrun. pose proof (unblind_block_impl self slot index block_hash signature w) as Hout.
  rewrite Hrun in Hout. unfold unblind_block_outcome in Hout. simpl in Hout.
  fold (view w) in Hout. destruct Hout as [_ Hout].
  destruct (first_failure _) as [e|] eqn:Hreq; [by destruct Hout|].
  destruct Hout as (duty & resp' & Hd & Hb & [= <-] & _).
  apply unblind_block_requires_met in Hreq as (duty' & resp' & Hall).
  pose proof (ub_duty _ _ _ _ _ _ _ _ Hall) as Hd'. apply find_duty_spec in Hd'.
  unfold duty_at in Hd. assert (duty' = duty) as -> by congruence.
  pose proof (ub_stored _ _ _ _ _ _ _ _ Hall). assert (resp' = resp) as -> by congruence.
  by exists duty.
Qed.

Lemma unblind_block_total self slot index block_hash signature (w w' : World S A) msg :
  relay_run clock (UnblindBlockUseCase_execute self slot index block_hash signature) w <>
    (Panicked msg, w').
Proof.
  intros Hrun. pose proof (unblind_block_impl self slot index block_hash signature w) as Hout.
  rewrite Hrun in Hout. destruct Hout as [_ Hout].
  destruct (first_failure _); [by destruct Hout|]. by destruct Hout as (? & ? & _ & _ & ? & _).
Qed.

Lemma unblind_block_allowed self slot index block_hash signature (w : World S A) duty resp :
  unblind_allowed (ub_fork_datas self) (view w) slot index block_hash signature duty resp ->
  fst (relay_run clock (UnblindBlockUseCase_execute self slot index block_hash signature) w) =
    Done (Ok resp).
Proof.
  intros Hall. pose proof (unblind_block_impl self slot index block_hash signature w) as Hout.
  destruct (relay_run clock _ w) as [r w']. unfold unblind_block_outcome in Hout. simpl in *.
  fold (view w) in Hout. destruct Hout as [_ Hout].
  rewrite (proj2 (unblind_block_requires_met _ _ _ _ _ _)) in Hout by eauto.
  destruct Hout as (duty' & resp' & Hd & Hb & -> & _).
  pose proof (ub_duty _ _ _ _ _ _ _ _ Hall) as Hd'. apply find_duty_spec in Hd'.
  unfold duty_at in Hd. pose proof (ub_stored _ _ _ _ _ _ _ _ Hall). congruence.
Qed.

(** What a served header says about the request. *)
Lemma get_header_Ok profile self slot parent_hash proposer (w w' : World S A) header :
  HeadSlot_0 (v_head (view w)) < u64_max ->
  relay_run clock (GetHeaderUseCase_execute profile self slot parent_hash proposer) w =
    (Done (Ok header), w') ->
  view w' = view w /\
  bids_kept (clock (w_ops w + 3)%N) (w_auctioneer w) (w_auctioneer w') /\
  w_ops w' = (w_ops w + 4)%N /\
  exists b duty, best (clock (w_ops w + 3)%N) slot (w_auctioneer w) = Some b /\
    header = signed_header_of (gh_signer self) (arc_val b) /\
    duty_at (view w) slot = Some duty /\ pd_pubkey duty = proposer /\
    is_some (v_regs (view w) !! proposer) = true.
Proof.
  intros Hhead Hrun.
  pose proof (relay_of_spec clock (get_header_outcome clock self slot parent_hash proposer
    (world_view w)) _ w
    (get_header_exec clock profile self slot parent_hash proposer (world_view w) Hhead)) as Hout.
  rewrite Hrun in Hout. unfold get_header_outcome in Hout. simpl in Hout.
  fold (view w) (view w') in Hout. destruct Hout as (Hv & Hk & Hout). split; [done|]. split; [done|].
  destruct (first_failure _) as [e|] eqn:Hreq; [done|].
  destruct Hout as (b & Hb & [= ->] & Hops). split; [done|]. apply first_failure_None in Hreq.
  unfold get_header_requires in Hreq. cbn [app] in Hreq. rewrite !List.Forall_cons_iff in Hreq.
  cbn [fst] in Hreq. destruct Hreq as (Hreg & _ & Hpk & _).
  destruct (duty_at (view w) slot) as [duty|]; simpl in Hpk; [|done].
  apply bool_decide_eq_true in Hpk. eauto 10.
Qed.

(** C29: the relay keeps one payload per proposer.  Right after a submission that ran
    alone was accepted, the only payload that can be unblinded for its slot is the one
    it brought, under its own block hash: the duty's proposer, with the right index and
    a valid signature of the header of any other block, which it may have been served
    and signed just before, is answered [BlockHashMismatch]. *)
Theorem later_bid_blocks_unblinding profile (relay : Relay) bid (w w1 : World S A)
    index block_hash signature :
  HeadSlot_0 (v_head (view w)) < u64_max -> arcs_old clock w ->
  relay_run clock (SubmitBidUseCase_execute profile (r_submit relay) bid) w =
    (Done (Ok tt), w1) ->
  let slot := bt_slot (message bid) in
  let unblind := relay_run clock
    (UnblindBlockUseCase_execute (r_unblind relay) slot index block_hash signature) w1 in
  (forall resp, fst unblind = Done (Ok resp) ->
     block_hash = ep_block_hash (bid_payload bid) /\ resp = to_blinded_block_response bid) /\
  (block_hash <> ep_block_hash (bid_payload bid) ->
   forall duty, is_duty_of (v_duties (view w)) slot duty -> pd_validator_index duty = index ->
     is_some (v_regs (view w) !! pd_pubkey duty) = true ->
     BlsSignature_verify signature (pd_pubkey duty)
       (blinded_block_signing_root slot index block_hash
          (compute_proposer_domain (ub_fork_datas (r_unblind relay)))) = true ->
     fst unblind = Done (Err BlockHashMismatch)).
Proof.
  intros Hhead Hold Hsubmit slot unblind.
  destruct (submit_bid_accepted _ _ _ _ _ Hhead Hold Hsubmit) as (duty & Hduty & Hv & _).
  split.
  - intros resp Hrun. unfold unblind in Hrun.
    destruct (relay_run clock _ w1) as [r w2] eqn:E; simpl in Hrun. subst r.
    apply unblind_block_Ok in E as (duty' & Hall).
    destruct (unblind_after_submit _ _ _ _ _ _ _ _ _ _ _ Hduty Hv Hall) as [_ ->].
    split; [symmetry; exact (ub_hash _ _ _ _ _ _ _ _ Hall)|done].
  - intros Hne duty' Hd Hi Hr Hs. apply find_duty_spec in Hd.
    assert (duty' = duty) as -> by (unfold duty_at in Hduty; fold slot in Hduty; congruence).
    pose proof (unblind_block_impl (r_unblind relay) slot index block_hash signature w1) as Hout.
    fold unblind in Hout. destruct unblind as [r w2]. unfold unblind_block_outcome in Hout.
    cbn [w_storage world_view] in Hout. fold (view w1) in Hout. destruct Hout as [_ Hout].
    unfold unblind_block_requires in Hout. fold slot in Hduty.
    assert (Hduty1 : duty_at (view w1) slot = Some duty)
      by (rewrite Hv; by destruct (view w)).
    assert (Hr1 : is_some (v_regs (view w1) !! pd_pubkey duty) = true)
      by (rewrite Hv; by destruct (view w)).
    assert (Hb1 : v_blinded (view w1) !! pd_pubkey duty = Some (to_blinded_block_response bid))
      by (rewrite Hv; destruct (view w); apply lookup_insert_eq).
    rewrite Hduty1, Hb1, Hi, Z.eqb_refl, Hr1, Hs in Hout. cbn [app] in Hout.
    rewrite !first_failure_cons, bool_decide_eq_false_2 in Hout by (cbn; congruence).
    by destruct Hout.
Qed.

(** The state in which a header is served after an accepted bid, whose block is not yet
    unblinded: the duty and the stored payload are the bid's. *)
Record header_served (v w2 : StorageView) (slot : Z) (proposer : BlsPublicKey)
    (bid : BidSubmission) (duty : ProposerDuty) : Prop := {
  hs_duty : is_duty_of (v_duties v) slot duty;
  hs_duty_now : is_duty_of (v_duties w2) slot duty;
  hs_proposer : pd_pubkey duty = proposer;
  hs_registered : is_some (v_regs w2 !! proposer) = true;
  hs_stored : v_blinded w2 !! proposer = Some (to_blinded_block_response bid);
}.

Lemma header_after_submit profile self hself bid (w w1 w2 : World S A)
    parent_hash proposer header :
  HeadSlot_0 (v_head (view w)) < u64_max -> arcs_old clock w ->
  relay_run clock (SubmitBidUseCase_execute profile self bid) w = (Done (Ok tt), w1) ->
  let slot := bt_slot (message bid) in
  relay_run clock (GetHeaderUseCase_execute profile hself slot parent_hash proposer) w1 =
    (Done (Ok header), w2) ->
  header = signed_header_of (gh_signer hself) bid /\
  (exists duty, header_served (view w) (view w2) slot proposer bid duty) /\
  (forall t b, now clock w2 <= t -> best t slot (w_auctioneer w2) = Some b -> arc_val b = bid) /\
  (forall t, now clock w2 <= t < now clock w + lifetime (w_auctioneer w) ->
     is_Some (best t slot (w_auctioneer w2))).
Proof.
  intros Hhead Hold Hsubmit slot Hheader.
  destruct (submit_bid_accepted _ _ _ _ _ Hhead Hold Hsubmit) as (duty & Hduty & Hv & Hbest & Hlive).
  fold slot in Hduty, Hbest, Hlive.
  assert (Hsame : v_head (view w1) = v_head (view w) /\ v_duties (view w1) = v_duties (view w))
    by (rewrite Hv; by destruct (view w)).
  destruct Hsame as [Hh Hds].
  apply get_header_Ok in Hheader as (Hv2 & Hkept & Hops & b & duty' & Hb & -> & Hduty' & Hpk & Hreg);
    [|by rewrite Hh].
  assert (Ht3 : now clock w1 <= clock (w_ops w1 + 3)%N) by (apply clock_mono; lia).
  assert (Hbid : arc_val b = bid) by exact (Hbest _ _ Ht3 Hb).
  rewrite Hbid. split; [done|]. unfold duty_at in Hduty, Hduty'. rewrite Hds in Hduty'.
  assert (duty' = duty) as -> by congruence. subst proposer. split.
  - exists duty. apply find_duty_spec in Hduty. constructor; rewrite ?Hv2; try done.
    + by rewrite Hds.
    + rewrite Hv. destruct (view w); simpl. apply lookup_insert_eq.
  - assert (Htt : forall t, now clock w2 <= t -> clock (w_ops w1 + 3)%N <= t).
    { intros t Ht. etrans; [|exact Ht]. unfold now. rewrite Hops. apply clock_mono. lia. }
    split.
    + intros t b' Ht%Htt Hb'. apply (Hbest _ _ Ht3). by apply Hkept in Hb'.
    + intros t [Ht%Htt Hlt]. destruct (Hlive t) as [b' Hb']; [lia|].
      exists b'. by apply Hkept.
Qed.

(** In that state the block is unblinded exactly for the proposer's signature and
    index. *)
Lemma unblind_served fself v (w : World S A) slot proposer bid duty index signature :
  header_served v (view w) slot proposer bid duty ->
  let block_hash := ep_block_hash (bid_payload bid) in
  fst (relay_run clock (UnblindBlockUseCase_execute fself slot index block_hash signature) w) =
    Done (Ok (to_blinded_block_response bid)) <->
  pd_validator_index duty = index /\
  BlsSignature_verify signature proposer
    (blinded_block_signing_root slot index block_hash
       (compute_proposer_domain (ub_fork_datas fself))) = true.
Proof.
  intros [_ Hd Hpk Hreg Hst] block_hash. subst proposer. split.
  - intros Hrun. destruct (relay_run clock _ w) as [r w3] eqn:E; simpl in Hrun. subst r.
    apply unblind_block_Ok in E as (d & Hall).
    pose proof (ub_duty _ _ _ _ _ _ _ _ Hall) as Hd'.
    apply find_duty_spec in Hd. apply find_duty_spec in Hd'.
    assert (d = duty) as -> by congruence. by destruct Hall.
  - intros [Hi Hsig]. by apply (unblind_block_allowed _ _ _ _ _ _ duty).
Qed.

(** C7: bids, headers and payloads agree when requests do not overlap: after an
    accepted bid, a header served for the slot is that of the bid's payload, its
    hash tree root is the payload's, and unblinding its block hash reveals exactly
    that payload to the proposer the header was served to, under the proposer's
    index and signature. *)
Theorem header_then_unblind_reveals profile (relay : Relay) bid (w w1 w2 : World S A)
    parent_hash proposer header index signature :
  HeadSlot_0 (v_head (view w)) < u64_max -> arcs_old clock w ->
  relay_run clock (SubmitBidUseCase_execute profile (r_submit relay) bid) w =
    (Done (Ok tt), w1) ->
  let slot := bt_slot (message bid) in
  relay_run clock (GetHeaderUseCase_execute profile (r_header relay) slot parent_hash proposer)
    w1 = (Done (Ok header), w2) ->
  let h := sh_message (data header) in
  let block_hash := eph_block_hash h in
  let revealed := to_blinded_block_response bid in
  tree_hash_root h = tree_hash_root (bbr_execution_payload revealed) /\
  (fst (relay_run clock (UnblindBlockUseCase_execute (r_unblind relay) slot index
                           block_hash signature) w2) = Done (Ok revealed) <->
   (exists duty, is_duty_of (v_duties (view w)) slot duty /\ pd_validator_index duty = index) /\
   BlsSignature_verify signature proposer
     (blinded_block_signing_root slot index block_hash
        (compute_proposer_domain (ub_fork_datas (r_unblind relay)))) = true).
Proof.
  intros Hhead Hold Hsubmit slot Hheader h block_hash revealed.
  destruct (header_after_submit _ _ _ _ _ _ _ _ _ _ Hhead Hold Hsubmit Hheader)
    as (Hh & (duty & Hs) & _).
  unfold block_hash, h, revealed. rewrite Hh. split; [done|].
  pose proof (unblind_served (r_unblind relay) _ _ _ _ _ _ index signature Hs) as Hiff.
  etrans; [exact Hiff|]. apply and_iff_compat_r. split.
  - intros Hi. exists duty. by destruct Hs.
  - intros (d & Hd & Hi). pose proof (hs_duty _ _ _ _ _ _ Hs) as Hd'.
    apply find_duty_spec in Hd. apply find_duty_spec in Hd'. unfold slot in Hd.
    by assert (d = duty) as -> by congruence.
Qed.

End sequential.
End requests.

(** ** A concrete relay *)

Definition sample_relay : Relay := {|
  r_submit := sample_submit_uc;
  r_header := GetHeaderUseCase_new sample_signer;
  r_register := RegisterValidatorUseCase_new sample_fds;
  r_unblind := UnblindBlockUseCase_new sample_fds;
|}.

Definition sample_whitelist : gset BlsPublicKey := {[BlsSecretKey_public_key sample_sk]}.
Definition sample_handler : handler relayE SampleWorld :=
  relay_handler storage_handler sample_clock.

(** Two bids for slot 10, the second one higher. *)
Definition bid_a : BidSubmission := sample_submit 100 (sample_hash x01).
Definition bid_b : BidSubmission := sample_submit 150 (sample_hash x02).

(** The proposer's signature of the block [block_hash]. *)
Definition sample_block_signature (block_hash : B256) : BlsSignature :=
  BlsSecretKey_sign sample_proposer_sk
    (blinded_block_signing_root 10 7 block_hash (compute_proposer_domain sample_fds)).

Lemma sample_world_invariant src :
  relay_invariant sample_fds sample_whitelist src sample_clock sample_world.
Proof.
  constructor.
  - unfold view, sample_world, sample_whitelist; simpl. by rewrite right_id_L by apply _.
  - intros t slot b _ Hb. unfold sample_world in Hb; simpl in Hb.
    unfold memory_best, cache_live in Hb. simpl in Hb. unfold toy_live in Hb. simpl in Hb.
    by rewrite lookup_empty in Hb.
  - intros key resp Hr. unfold view, sample_world in Hr; simpl in Hr. by rewrite lookup_empty in Hr.
  - intros bh Hin. unfold view, sample_world in Hin; simpl in Hin. by apply not_elem_of_nil in Hin.
Qed.

(** The first task is suspended between the auction and the storage of its
    payload, while the second task runs. *)
Definition race_schedule : list nat := repeat 0%nat 6 ++ repeat 1%nat 7 ++ [0%nat].

Definition race_start : pool (request * response) :=
  (map (serve Debug sample_relay) [ReqSubmit bid_a; ReqSubmit bid_b], sample_world).

Definition race_end : pool (request * response) :=
  default race_start (run_schedule sample_handler race_schedule race_start).

Definition race_end_header : outcome (result (Versioned SignedHeader) UseCaseError) :=
  fst (relay_run sample_clock
         (GetHeaderUseCase_execute Debug (r_header sample_relay) 10 B256_default sample_proposer)
         (snd race_end)).

Definition race_end_unblind (bid : BidSubmission) :
    outcome (result BlindedBlockResponse UseCaseError) :=
  let block_hash := ep_block_hash (bid_payload bid) in
  fst (relay_run sample_clock
         (UnblindBlockUseCase_execute (r_unblind sample_relay) 10 7 block_hash
            (sample_block_signature block_hash)) (snd race_end)).

Lemma race_end_reachable : rtc (pool_step sample_handler) race_start race_end.
Proof.
  unfold race_end. destruct (run_schedule sample_handler race_schedule race_start) as [c|] eqn:E.
  - by eapply run_schedule_steps.
  - constructor.
Qed.

(** C27: [submit_bid] is not atomic: two overlapping submissions that both succeed
    can leave the higher bid as the best one and the lower bid's payload stored.
    The proposer is then served, and signs, the header of a block that cannot be
    unblinded: its valid request is answered [BlockHashMismatch], while the other
    block would be revealed. *)
Theorem submit_race_splits_bid_and_payload :
  rtc (pool_step sample_handler) race_start race_end /\
  fst race_end = [Ret (ReqSubmit bid_a, RespDone (Ok tt)); Ret (ReqSubmit bid_b, RespDone (Ok tt))] /\
  race_end_header = Done (Ok (signed_header_of sample_signer bid_b)) /\
  race_end_unblind bid_b = Done (Err BlockHashMismatch) /\
  race_end_unblind bid_a = Done (Ok (to_blinded_block_response bid_a)).
Proof.
  split; [exact race_end_reachable|].
  split; [vm_cast_no_check (eq_refl (fst race_end))|].
  split; [vm_cast_no_check (eq_refl race_end_header)|].
  split; [vm_cast_no_check (eq_refl (race_end_unblind bid_b))|].
  vm_cast_no_check (eq_refl (race_end_unblind bid_a)).
Qed.

(** ** The theorems at the concrete relay *)

Lemma interleavings_keep_bids_admitted_witness :
  let src := fun bid => bid ∈ [bid_a; bid_b] in
  (sb_fork_datas (r_submit sample_relay) = sample_fds /\
   Forall (submits src) [ReqSubmit bid_a; ReqSubmit bid_b] /\
   relay_invariant sample_fds sample_whitelist src sample_clock sample_world /\
   rtc (pool_step sample_handler) race_start (fst race_end, snd race_end)) /\
  relay_invariant sample_fds sample_whitelist src sample_clock (snd race_end).
Proof.
  intros src. assert (Hr : rtc (pool_step sample_handler) race_start (fst race_end, snd race_end))
    by (rewrite <- surjective_pairing; exact race_end_reachable).
  assert (Hsrc : Forall (submits src) [ReqSubmit bid_a; ReqSubmit bid_b]).
  { constructor; [apply list_elem_of_here|]. constructor; [|constructor].
    apply list_elem_of_further, list_elem_of_here. }
  split; [exact (conj eq_refl (conj Hsrc (conj (sample_world_invariant src) Hr)))|].
  exact (proj1 (interleavings_keep_bids_admitted sample_fds sample_whitelist src sample_clock
    sample_clock_monotone Debug sample_relay [ReqSubmit bid_a; ReqSubmit bid_b]
    sample_world (snd race_end) (fst race_end) eq_refl Hsrc (sample_world_invariant src) Hr)).
Defined.

(** A world with one live bid, which a task may read. *)
Definition sample_world_bid : SampleWorld :=
  mkWorld sample_storage
    (snd (compare_and_bid 0 10 (mkArc 0 bid_a) (MemoryAuctioneer_new 60))) 1.

(** While it is live a higher bid is accepted and the same bid, submitted again, refused. *)
Definition competing_start : pool (request * response) :=
  (map (serve Debug sample_relay) [ReqSubmit bid_b; ReqSubmit bid_a], sample_world_bid).

Definition competing_end : pool (request * response) :=
  run_task sample_handler 10 1 (run_task sample_handler 10 0 competing_start).

Lemma competing_answers :
  fst competing_end =
    [Ret (ReqSubmit bid_b, RespDone (Ok tt));
     Ret (ReqSubmit bid_a, RespDone (Err (AuctioneerErr (BidValueNotHighEnough "100" "150"))))].
Proof. vm_cast_no_check (eq_refl (fst competing_end)). Qed.

Lemma competing_reachable : rtc (pool_step sample_handler) competing_start competing_end.
Proof. etrans; apply run_task_steps. Qed.

Lemma best_value_never_falls_witness :
  let w := sample_world_bid in
  let w' := snd competing_end in
  let b := mkArc 0%N bid_a in
  (best 30 10 (w_auctioneer w) = Some b /\ now sample_clock w' <= 30 /\
   30 < now sample_clock w + lifetime (w_auctioneer w) /\
   rtc (pool_step sample_handler) (fst competing_start, w) (fst competing_end, w')) /\
  worth 30 10 (U256_0 (bid_value b)) (w_auctioneer w').
Proof.
  intros w w' b.
  assert (H1 : best 30 10 (w_auctioneer w) = Some b) by (vm_cast_no_check (eq_refl (Some b))).
  assert (H2 : now sample_clock w' <= 30)
    by (apply Z.leb_le; vm_cast_no_check (eq_refl true)).
  assert (H3 : 30 < now sample_clock w + lifetime (w_auctioneer w)) by reflexivity.
  assert (H4 : rtc (pool_step sample_handler) (fst competing_start, w) (fst competing_end, w'))
    by (unfold w'; rewrite <- surjective_pairing; exact competing_reachable).
  split; [exact (conj H1 (conj H2 (conj H3 H4)))|].
  exact (best_value_never_falls sample_clock sample_clock_monotone (fst competing_start)
    (fst competing_end) w w' 30 10 b H1 H2 H3 H4).
Defined.

Lemma pair_with_fst {X Y} (p : X * Y) x : fst p = x -> p = (x, snd p).
Proof. destruct p as [x' y]; simpl; intros ->. reflexivity. Qed.

Definition sample_world_b : SampleWorld :=
  snd (relay_run sample_clock (SubmitBidUseCase_execute Debug (r_submit sample_relay) bid_b)
         sample_world).

Lemma sample_submit_b :
  relay_run sample_clock (SubmitBidUseCase_execute Debug (r_submit sample_relay) bid_b)
    sample_world = (Done (Ok tt), sample_world_b).
Proof.
  unfold sample_world_b. apply pair_with_fst. vm_compute. reflexivity.
Qed.

Definition sample_header_b : Versioned SignedHeader := signed_header_of sample_signer bid_b.

Abbreviation sample_get_header_run :=
  (relay_run sample_clock
    (GetHeaderUseCase_execute Debug (r_header sample_relay) (bt_slot (message bid_b))
       B256_default sample_proposer)
    sample_world_b).

Lemma sample_get_header_b :
  sample_get_header_run = (Done (Ok sample_header_b), snd sample_get_header_run).
Proof. apply pair_with_fst. vm_cast_no_check (eq_refl (fst sample_get_header_run)). Qed.

Lemma sample_world_head : HeadSlot_0 (v_head (view sample_world)) < u64_max.
Proof. reflexivity. Qed.

(** The proposer signed the header of the first bid; the second one was accepted. *)
Lemma later_bid_blocks_unblinding_witness :
  let block_hash := ep_block_hash (bid_payload bid_a) in
  let duty := {| pd_pubkey := sample_proposer; pd_validator_index := 7; pd_slot := 10 |} in
  (HeadSlot_0 (v_head (view sample_world)) < u64_max /\ arcs_old sample_clock sample_world /\
   block_hash <> ep_block_hash (bid_payload bid_b) /\
   is_duty_of (v_duties (view sample_world)) 10 duty) /\
  fst (relay_run sample_clock (UnblindBlockUseCase_execute (r_unblind sample_relay)
      (bt_slot (message bid_b)) 7 block_hash (sample_block_signature block_hash)) sample_world_b) =
    Done (Err BlockHashMismatch).
Proof.
  intros block_hash duty.
  assert (Hne : block_hash <> ep_block_hash (bid_payload bid_b)) by discriminate.
  assert (Hd : is_duty_of (v_duties (view sample_world)) 10 duty)
    by (apply find_duty_spec; vm_cast_no_check (eq_refl (Some duty))).
  assert (Hr : is_some (v_regs (view sample_world) !! sample_proposer) = true)
    by (vm_cast_no_check (eq_refl true)).
  assert (Hs : BlsSignature_verify (sample_block_signature block_hash) sample_proposer
    (blinded_block_signing_root 10 7 block_hash
       (compute_proposer_domain (ub_fork_datas (r_unblind sample_relay)))) = true)
    by (vm_cast_no_check (eq_refl true)).
  split; [exact (conj sample_world_head (conj sample_world_old (conj Hne Hd)))|].
  exact (proj2 (later_bid_blocks_unblinding sample_clock sample_clock_monotone Debug sample_relay
    bid_b sample_world sample_world_b 7 block_hash (sample_block_signature block_hash)
    sample_world_head sample_world_old sample_submit_b) Hne duty Hd eq_refl Hr Hs).
Defined.

Lemma header_then_unblind_reveals_witness :
  let h := sh_message (data sample_header_b) in
  let block_hash := eph_block_hash h in
  let revealed := to_blinded_block_response bid_b in
  let w2 := snd sample_get_header_run in
  sample_get_header_run = (Done (Ok sample_header_b), w2) /\
  tree_hash_root h = tree_hash_root (bbr_execution_payload revealed) /\
  (fst (relay_run sample_clock (UnblindBlockUseCase_execute (r_unblind sample_relay)
          (bt_slot (message bid_b)) 7 block_hash (sample_block_signature block_hash)) w2) =
     Done (Ok revealed) <->
   (exists duty, is_duty_of (v_duties (view sample_world)) (bt_slot (message bid_b)) duty /\
                 pd_validator_index duty = 7) /\
   BlsSignature_verify (sample_block_signature block_hash) sample_proposer
     (blinded_block_signing_root (bt_slot (message bid_b)) 7 block_hash
        (compute_proposer_domain (ub_fork_datas (r_unblind sample_relay)))) = true).
Proof.
  intros h block_hash revealed w2. split; [exact sample_get_header_b|].
  exact (header_then_unblind_reveals sample_clock sample_clock_monotone Debug sample_relay bid_b
    sample_world sample_world_b w2 B256_default sample_proposer sample_header_b 7
    (sample_block_signature block_hash) sample_world_head sample_world_old sample_submit_b
    sample_get_header_b).
Defined.

(** ** Coalesced calls

    Two submissions that call [compare_and_bid] at the same time: the lower bid is
    inserted, and the call of the higher one is answered with it.  The builder of the
    higher bid is told that its value is not high enough. *)

Section coalesced_calls.

#[local] Existing Instances Contended_Auctioneer Contended_view Contended_shared.

Abbreviation contended_world :=
  (World MemoryStorage (Contended (MemoryAuctioneer (C := ToyCache (Arc BidSubmission))))).

Definition contended_handler : handler relayE contended_world :=
  relay_handler storage_handler sample_clock.

Definition coalesced_start : pool (request * response) :=
  (map (serve Debug sample_relay) [ReqSubmit bid_a; ReqSubmit bid_b],
   mkWorld (w_storage sample_world) (mkContended (w_auctioneer sample_world) [false; true])
     (w_ops sample_world) : contended_world).

(** Each of the two tasks is about to call [compare_and_bid] when the first one does. *)
Definition coalesced_schedule : list nat :=
  repeat 0%nat 5 ++ repeat 1%nat 5 ++ [0%nat; 1%nat; 0%nat].

Definition coalesced_end : pool (request * response) :=
  default coalesced_start (run_schedule contended_handler coalesced_schedule coalesced_start).

Lemma coalesced_higher_bid_refused :
  rtc (pool_step contended_handler) coalesced_start coalesced_end /\
  fst coalesced_end =
    [Ret (ReqSubmit bid_a, RespDone (Ok tt));
     Ret (ReqSubmit bid_b, RespDone (Err (AuctioneerErr (BidValueNotHighEnough "150" "100"))))].
Proof.
  split; [|vm_cast_no_check (eq_refl (fst coalesced_end))].
  unfold coalesced_end.
  destruct (run_schedule contended_handler coalesced_schedule coalesced_start) as [c|] eqn:E;
    [by eapply run_schedule_steps|constructor].
Qed.

(** What every interleaving guarantees holds of them too. *)
Lemma coalesced_bids_admitted src :
  Forall (submits src) [ReqSubmit bid_a; ReqSubmit bid_b] ->
  relay_invariant sample_fds sample_whitelist src sample_clock (snd coalesced_start) ->
  relay_invariant sample_fds sample_whitelist src sample_clock (snd coalesced_end).
Proof.
  intros Hsrc HI.
  refine (proj1 (interleavings_invariant sample_fds sample_whitelist src sample_clock
    sample_clock_monotone Debug sample_relay [ReqSubmit bid_a; ReqSubmit bid_b] _ _
    (fst coalesced_end) eq_refl Hsrc HI _)).
  rewrite <- surjective_pairing. exact (proj1 coalesced_higher_bid_refused).
Qed.

End coalesced_calls.
