(* ===== verification/Conversion.v ===== *)
(** * Conversions of the [api] crate

    The messages of the gRPC interface ([proto/relay.rs]) and their checked
    conversion into the domain types ([conversion.rs]).  A conversion either
    succeeds, reports a [ConversionError], or, where the source calls a function
    that panics, panics. *)

From S2P Require Import Prelude Effects External Concrete Crypto Entity.

(** ** [proto/relay.rs] *)

Record proto_BidTrace : Type := {
  pt_slot : Z;
  pt_parent_hash : list byte;
  pt_block_hash : list byte;
  pt_builder_pubkey : list byte;
  pt_proposer_pubkey : list byte;
  pt_proposer_fee_recipient : list byte;
  pt_gas_limit : Z;
  pt_gas_used : Z;
  pt_value : string;
}.

Record proto_Withdrawal : Type := {
  pw_index : Z;
  pw_validator_index : Z;
  pw_address : list byte;
  pw_amount : Z;
}.

Record proto_ExecutionPayload : Type := {
  pp_parent_hash : list byte;
  pp_state_root : list byte;
  pp_receipts_root : list byte;
  pp_logs_bloom : list byte;
  pp_prev_randao : list byte;
  pp_extra_data : list byte;
  pp_base_fee_per_gas : list byte;
  pp_fee_recipient : list byte;
  pp_block_hash : list byte;
  pp_transactions : list (list byte);
  pp_withdrawals : list proto_Withdrawal;
  pp_block_number : Z;
  pp_gas_limit : Z;
  pp_timestamp : Z;
  pp_gas_used : Z;
  pp_blob_gas_used : Z;
  pp_excess_blob_gas : Z;
}.

Record proto_BlobsBundle : Type := {
  pb_commitments : list (list byte);
  pb_proofs : list (list byte);
  pb_blobs : list (list byte);
}.

Definition proto_BlobsBundle_default : proto_BlobsBundle :=
  {| pb_commitments := []; pb_proofs := []; pb_blobs := [] |}.

Record proto_BidRequest : Type := {
  pr_bid_trace : option proto_BidTrace;
  pr_execution_payload : option proto_ExecutionPayload;
  pr_signature : list byte;
  pr_blobs_bundle : option proto_BlobsBundle;
}.

Record proto_BidResponse : Type := { brs_code : Z; brs_message : string }.

Record proto_RetrieveRequest : Type := {
  rr_slot : Z;
  rr_parent_hash : list byte;
  rr_proposer_pubkey : list byte;
}.

Record proto_RetrieveResponse : Type := {
  rrs_signed_header : list byte;
  rrs_execution_payload : list byte;
  rrs_blobs_bundle : list byte;
}.

Record proto_SubmitBlindedBlockRequest : Type := {
  sbb_slot : Z;
  sbb_proposer_index : Z;
  sbb_block_hash : list byte;
  sbb_signature : list byte;
}.

Record proto_BlindedBlockResponse : Type := {
  pbb_execution_payload : list byte;
  pbb_blobs_bundle : list byte;
  pbb_block_hash : list byte;
}.

Record proto_ValidatorRegistrationMessage : Type := {
  pvr_fee_recipient : list byte;
  pvr_gas_limit : Z;
  pvr_timestamp : Z;
  pvr_pubkey : list byte;
}.

Record proto_SignedValidatorRegistration : Type := {
  psv_message : option proto_ValidatorRegistrationMessage;
  psv_signature : list byte;
}.

Record proto_RegisterValidatorRequest : Type := {
  rvr_registration : option proto_SignedValidatorRegistration;
}.

Record proto_RegisterValidatorResponse : Type := { rvs_code : Z; rvs_message : string }.

(** ** [conversion.rs] *)

Inductive ConversionError : Type :=
| CE_Hash (s : string)
| CE_Address (s : string)
| CE_BlsPublicKey (s : string)
| CE_BlsSignature (s : string)
| CE_U256 (s : string)
| CE_FixedVector (s : string)
| CE_VariableList (s : string)
| CE_MissingField (s : string)
| CE_Bytes48 (s : string)
| CE_Blob (s : string).

(** The [Display] of the error. *)
Definition ConversionError_to_string (e : ConversionError) : string :=
  match e with
  | CE_Hash s => "invalid hash: " +:+ s
  | CE_Address s => "invalid address: " +:+ s
  | CE_BlsPublicKey s => "invalid BLS public key: " +:+ s
  | CE_BlsSignature s => "invalid BLS signature: " +:+ s
  | CE_U256 s => "invalid U256: " +:+ s
  | CE_FixedVector s => "invalid fixed vector: " +:+ s
  | CE_VariableList s => "invalid variable list: " +:+ s
  | CE_MissingField s => "missing required field: " +:+ s
  | CE_Bytes48 s => "invalid bytes length for Bytes48: " +:+ s
  | CE_Blob s => "invalid bytes length for Blob: " +:+ s
  end.

Definition expected_got (n : Z) (bytes : list byte) : string :=
  "expected " +:+ u64_to_string n +:+ " bytes, got " +:+
  u64_to_string (Z.of_nat (length bytes)).

Definition bytes_to_b256 (bytes : list byte) : result B256 ConversionError :=
  let* arr := ok_or (CE_Hash (expected_got 32 bytes)) (array_try_from 32 bytes) in
  Ok (mkB256 arr).

Definition bytes_to_address (bytes : list byte) : result Address ConversionError :=
  let* arr := ok_or (CE_Address (expected_got 20 bytes)) (array_try_from 20 bytes) in
  Ok (mkAddress arr).

(** The [unwrap] after the length test cannot fail; its failure would be a panic,
    so the result is that of the guarded [try_into]. *)
Definition bytes_to_array (n : Z) (err : string -> ConversionError) (bytes : list byte) :
    outcome (result (FixedBytes n) ConversionError) :=
  if negb (Z.of_nat (length bytes) =? n) then Done (Err (err (expected_got n bytes)))
  else match array_try_from n bytes with
       | Some arr => Done (Ok arr)
       | None => Panicked "called `Result::unwrap()` on an `Err` value"
       end.

Definition bytes_to_bytes48 : list byte -> outcome (result Bytes48 ConversionError) :=
  bytes_to_array 48 CE_Bytes48.

Definition bytes_to_blob : list byte -> outcome (result Blob ConversionError) :=
  bytes_to_array 131072 CE_Blob.

(** [into_iter().map(f).collect::<Result<Vec<_>, _>>()] of an [f] that may panic. *)
Fixpoint collect_outcomes {A B E} (f : A -> outcome (result B E)) (l : list A) :
    outcome (result (list B) E) :=
  match l with
  | [] => Done (Ok [])
  | a :: l' =>
      let? b := f a in
      let? bs := collect_outcomes f l' in
      Done (Ok (b :: bs))
  end.

Section conversion.
Context `{Blst, Alloy, SszTypes}.

Definition BidTrace_try_from (t : proto_BidTrace) : result BidTrace ConversionError :=
  let* parent_hash := bytes_to_b256 (pt_parent_hash t) in
  let* block_hash := bytes_to_b256 (pt_block_hash t) in
  let* builder_pubkey :=
    map_err CE_BlsPublicKey (BlsPublicKey_deserialize (pt_builder_pubkey t)) in
  let* proposer_pubkey :=
    map_err CE_BlsPublicKey (BlsPublicKey_deserialize (pt_proposer_pubkey t)) in
  let* proposer_fee_recipient := bytes_to_address (pt_proposer_fee_recipient t) in
  let* value := map_err CE_U256 (U256_from_str (pt_value t)) in
  Ok {|
    bt_slot := pt_slot t;
    bt_parent_hash := parent_hash;
    bt_block_hash := block_hash;
    bt_builder_pubkey := builder_pubkey;
    bt_proposer_pubkey := proposer_pubkey;
    bt_proposer_fee_recipient := proposer_fee_recipient;
    bt_gas_limit := pt_gas_limit t;
    bt_gas_used := pt_gas_used t;
    bt_value := value;
  |}.

Definition Withdrawal_try_from (w : proto_Withdrawal) : result Withdrawal ConversionError :=
  let* address := bytes_to_address (pw_address w) in
  Ok {|
    w_index := pw_index w;
    w_validator_index := pw_validator_index w;
    w_address := address;
    w_amount := pw_amount w;
  |}.

Definition transactions_try_from (txs : list (list byte)) :
    result (list (list byte)) ConversionError :=
  let* inner := collect_results
    (fun tx => map_err CE_VariableList (variable_list_new 1073741824 tx)) txs in
  map_err CE_VariableList (variable_list_new 1048576 inner).

Definition withdrawals_try_from (ws : list proto_Withdrawal) :
    result (list Withdrawal) ConversionError :=
  let* inner := collect_results Withdrawal_try_from ws in
  map_err CE_VariableList (variable_list_new 16 inner).

Definition ExecutionPayload_try_from (p : proto_ExecutionPayload) :
    outcome (result ExecutionPayload ConversionError) :=
  let? parent_hash := Done (bytes_to_b256 (pp_parent_hash p)) in
  let? fee_recipient := Done (bytes_to_address (pp_fee_recipient p)) in
  let? state_root := Done (bytes_to_b256 (pp_state_root p)) in
  let? receipts_root := Done (bytes_to_b256 (pp_receipts_root p)) in
  let? logs_bloom := Done (map_err CE_FixedVector (fixed_vector_new 256 (pp_logs_bloom p))) in
  let? prev_randao := Done (bytes_to_b256 (pp_prev_randao p)) in
  let? extra_data := Done (map_err CE_VariableList (variable_list_new 32 (pp_extra_data p))) in
  let! base_fee_per_gas := u256_from_be_slice (pp_base_fee_per_gas p) in
  let? block_hash := Done (bytes_to_b256 (pp_block_hash p)) in
  let? transactions := Done (transactions_try_from (pp_transactions p)) in
  let? withdrawals := Done (withdrawals_try_from (pp_withdrawals p)) in
  Done (Ok {|
    ep_parent_hash := parent_hash;
    ep_fee_recipient := fee_recipient;
    ep_state_root := state_root;
    ep_receipts_root := receipts_root;
    ep_logs_bloom := logs_bloom;
    ep_prev_randao := prev_randao;
    ep_block_number := pp_block_number p;
    ep_gas_limit := pp_gas_limit p;
    ep_gas_used := pp_gas_used p;
    ep_timestamp := pp_timestamp p;
    ep_extra_data := extra_data;
    ep_base_fee_per_gas := mkU256 base_fee_per_gas;
    ep_block_hash := block_hash;
    ep_transactions := transactions;
    ep_withdrawals := withdrawals;
    ep_blob_gas_used := pp_blob_gas_used p;
    ep_excess_blob_gas := pp_excess_blob_gas p;
  |}).

Definition BlobsBundle_try_from (b : proto_BlobsBundle) :
    outcome (result BlobsBundle ConversionError) :=
  let? commitments := collect_outcomes bytes_to_bytes48 (pb_commitments b) in
  let? proofs := collect_outcomes bytes_to_bytes48 (pb_proofs b) in
  let? blobs := collect_outcomes bytes_to_blob (pb_blobs b) in
  Done (Ok {| bb_commitments := commitments; bb_proofs := proofs; bb_blobs := blobs |}).

Definition BidSubmission_try_from (req : proto_BidRequest) :
    outcome (result BidSubmission ConversionError) :=
  let? trace := Done (ok_or (CE_MissingField "bid_trace") (pr_bid_trace req)) in
  let? payload := Done (ok_or (CE_MissingField "execution_payload")
                          (pr_execution_payload req)) in
  let blobs := default proto_BlobsBundle_default (pr_blobs_bundle req) in
  let? trace := Done (BidTrace_try_from trace) in
  let? payload := ExecutionPayload_try_from payload in
  let? blobs := BlobsBundle_try_from blobs in
  let? signature := Done (map_err CE_BlsSignature (BlsSignature_deserialize (pr_signature req))) in
  Done (Ok (BidSubmission_new trace payload blobs signature)).

Definition SignedValidatorRegistration_try_from (s : proto_SignedValidatorRegistration) :
    result SignedValidatorRegistration ConversionError :=
  let* msg := ok_or (CE_MissingField "message") (psv_message s) in
  let* fee_recipient := bytes_to_address (pvr_fee_recipient msg) in
  let* pubkey := map_err CE_BlsPublicKey (BlsPublicKey_deserialize (pvr_pubkey msg)) in
  let* signature := map_err CE_BlsSignature (BlsSignature_deserialize (psv_signature s)) in
  Ok {|
    svr_message := {|
      vr_fee_recipient := fee_recipient;
      vr_gas_limit := pvr_gas_limit msg;
      vr_timestamp := pvr_timestamp msg;
      vr_pubkey := pubkey;
    |};
    svr_signature := signature;
  |}.

End conversion.

(** ** What a conversion guarantees

    A converted message carries the bytes of the request, each field at its
    length, and nothing else. *)

Definition hash_of (bytes : list byte) (h : B256) : Prop := fb_bytes (B256_0 h) = bytes.
Definition address_of (bytes : list byte) (a : Address) : Prop := fb_bytes (Address_0 a) = bytes.

Record withdrawal_matches (p : proto_Withdrawal) (w : Withdrawal) : Prop := {
  wm_index : w_index w = pw_index p;
  wm_validator : w_validator_index w = pw_validator_index p;
  wm_address : address_of (pw_address p) (w_address w);
  wm_amount : w_amount w = pw_amount p;
}.

Record payload_matches (p : proto_ExecutionPayload) (e : ExecutionPayload) : Prop := {
  pm_parent_hash : hash_of (pp_parent_hash p) (ep_parent_hash e);
  pm_fee_recipient : address_of (pp_fee_recipient p) (ep_fee_recipient e);
  pm_state_root : hash_of (pp_state_root p) (ep_state_root e);
  pm_receipts_root : hash_of (pp_receipts_root p) (ep_receipts_root e);
  pm_logs_bloom : ep_logs_bloom e = pp_logs_bloom p /\ Z.of_nat (length (pp_logs_bloom p)) = 256;
  pm_prev_randao : hash_of (pp_prev_randao p) (ep_prev_randao e);
  pm_extra_data : ep_extra_data e = pp_extra_data p /\ Z.of_nat (length (pp_extra_data p)) <= 32;
  pm_base_fee : U256_0 (ep_base_fee_per_gas e) = from_le_bytes (rev (pp_base_fee_per_gas p)) /\
    (length (pp_base_fee_per_gas p) <= 32)%nat;
  pm_block_hash : hash_of (pp_block_hash p) (ep_block_hash e);
  pm_transactions : ep_transactions e = pp_transactions p /\
    Z.of_nat (length (pp_transactions p)) <= 1048576 /\
    Forall (fun tx => Z.of_nat (length tx) <= 1073741824) (pp_transactions p);
  pm_withdrawals : Forall2 withdrawal_matches (pp_withdrawals p) (ep_withdrawals e) /\
    Z.of_nat (length (pp_withdrawals p)) <= 16;
  pm_numbers : ep_block_number e = pp_block_number p /\ ep_gas_limit e = pp_gas_limit p /\
    ep_gas_used e = pp_gas_used p /\ ep_timestamp e = pp_timestamp p /\
    ep_blob_gas_used e = pp_blob_gas_used p /\ ep_excess_blob_gas e = pp_excess_blob_gas p;
}.

Record trace_matches `{Blst, Alloy} (t : proto_BidTrace) (b : BidTrace) : Prop := {
  tm_slot : bt_slot b = pt_slot t;
  tm_parent_hash : hash_of (pt_parent_hash t) (bt_parent_hash b);
  tm_block_hash : hash_of (pt_block_hash t) (bt_block_hash b);
  tm_builder : BlsPublicKey_deserialize (pt_builder_pubkey t) = Ok (bt_builder_pubkey b);
  tm_proposer : BlsPublicKey_deserialize (pt_proposer_pubkey t) = Ok (bt_proposer_pubkey b);
  tm_fee_recipient : address_of (pt_proposer_fee_recipient t) (bt_proposer_fee_recipient b);
  tm_gas_limit : bt_gas_limit b = pt_gas_limit t;
  tm_gas_used : bt_gas_used b = pt_gas_used t;
  tm_value : U256_from_str (pt_value t) = Ok (bt_value b);
}.

Record blobs_match (p : proto_BlobsBundle) (b : BlobsBundle) : Prop := {
  bm_commitments : map fb_bytes (bb_commitments b) = pb_commitments p;
  bm_proofs : map fb_bytes (bb_proofs b) = pb_proofs p;
  bm_blobs : map fb_bytes (bb_blobs b) = pb_blobs p;
}.

(** ** Well-typed values

    Integers are [Z] here; [prost] decodes every integer field to a [u64], and the
    types of [alloy] and [ssz_types] bound the rest. *)

Definition proto_trace_typed (t : proto_BidTrace) : Prop :=
  u64_range (pt_slot t) /\ u64_range (pt_gas_limit t) /\ u64_range (pt_gas_used t).

Definition proto_withdrawal_typed (w : proto_Withdrawal) : Prop :=
  u64_range (pw_index w) /\ u64_range (pw_validator_index w) /\ u64_range (pw_amount w).

Definition proto_payload_typed (p : proto_ExecutionPayload) : Prop :=
  Forall u64_range [pp_block_number p; pp_gas_limit p; pp_timestamp p; pp_gas_used p;
                    pp_blob_gas_used p; pp_excess_blob_gas p] /\
  Forall proto_withdrawal_typed (pp_withdrawals p).

(** A decoded message. *)
Definition proto_bid_typed (req : proto_BidRequest) : Prop :=
  (forall t, pr_bid_trace req = Some t -> proto_trace_typed t) /\
  (forall p, pr_execution_payload req = Some p -> proto_payload_typed p).

Definition withdrawal_typed (w : Withdrawal) : Prop :=
  u64_range (w_index w) /\ u64_range (w_validator_index w) /\ u64_range (w_amount w).

(** A payload within its types: [FixedVector<u8, U256>] for the bloom,
    [VariableList<u8, U32>], [VariableList<VariableList<u8, U1073741824>, U1048576>]
    and [VariableList<Withdrawal, U16>] for the lists, [u64] and [U256] numbers. *)
Record payload_typed (p : ExecutionPayload) : Prop := {
  pt_bloom : Z.of_nat (length (ep_logs_bloom p)) = 256;
  pt_extra : Z.of_nat (length (ep_extra_data p)) <= 32;
  pt_base_fee : u256_range (U256_0 (ep_base_fee_per_gas p));
  pt_tx_count : Z.of_nat (length (ep_transactions p)) <= 1048576;
  pt_txs : Forall (fun tx => Z.of_nat (length tx) <= 1073741824) (ep_transactions p);
  pt_withdrawal_count : Z.of_nat (length (ep_withdrawals p)) <= 16;
  pt_withdrawals : Forall withdrawal_typed (ep_withdrawals p);
  pt_numbers : Forall u64_range [ep_block_number p; ep_gas_limit p; ep_gas_used p;
                                 ep_timestamp p; ep_blob_gas_used p; ep_excess_blob_gas p];
}.

Definition submission_typed `{Blst} (bid : BidSubmission) : Prop :=
  BidTrace_in_range (message bid) /\ payload_typed (bid_payload bid).

(** ** Lemmas *)

Lemma try_done_Ok {A B E} (r : result A E) (k : A -> outcome (result B E)) b :
  try_bind (Done r) k = Done (Ok b) <-> exists a, r = Ok a /\ k a = Done (Ok b).
Proof. destruct r; simpl; split; intros; destruct_ex; simplify_eq; eauto. Qed.

Lemma try_outcome_Ok {A B E} (m : outcome (result A E)) (k : A -> outcome (result B E)) b :
  try_bind m k = Done (Ok b) <-> exists a, m = Done (Ok a) /\ k a = Done (Ok b).
Proof. destruct m as [[a|e]|msg]; simpl; split; intros; destruct_ex; simplify_eq; eauto. Qed.

Lemma bytes_to_b256_Ok bytes h : bytes_to_b256 bytes = Ok h <-> hash_of bytes h.
Proof.
  unfold bytes_to_b256, hash_of. rewrite and_then_Ok. setoid_rewrite ok_or_Ok.
  setoid_rewrite array_try_from_Some. split.
  - by intros (a & <- & [= <-]).
  - intros <-. exists (B256_0 h). by destruct h.
Qed.

Lemma bytes_to_address_Ok bytes a : bytes_to_address bytes = Ok a <-> address_of bytes a.
Proof.
  unfold bytes_to_address, address_of. rewrite and_then_Ok. setoid_rewrite ok_or_Ok.
  setoid_rewrite array_try_from_Some. split.
  - by intros (x & <- & [= <-]).
  - intros <-. exists (Address_0 a). by destruct a.
Qed.

(** The [unwrap] never fails. *)
Lemma bytes_to_array_spec n err bytes :
  bytes_to_array n err bytes = Done (ok_or (err (expected_got n bytes)) (array_try_from n bytes)).
Proof.
  unfold bytes_to_array. destruct (array_try_from n bytes) as [a|] eqn:E.
  - apply array_try_from_Some in E as <-. by rewrite fb_len, Z.eqb_refl.
  - apply array_try_from_None in E. apply Z.eqb_neq in E. by rewrite E.
Qed.

Lemma collect_arrays_Ok n err l l' :
  collect_outcomes (bytes_to_array n err) l = Done (Ok l') <-> map fb_bytes l' = l.
Proof.
  revert l'. induction l as [|bytes l IH]; intros l'; simpl.
  - split; [by intros [= <-]|]. by destruct l'.
  - rewrite bytes_to_array_spec, try_done_Ok. setoid_rewrite ok_or_Ok.
    setoid_rewrite array_try_from_Some. setoid_rewrite try_outcome_Ok. setoid_rewrite IH. split.
    + by intros (a & <- & bs & <- & [= <-]).
    + destruct l' as [|a l']; simpl; [done|]. intros [= <- <-]. eauto 10.
Qed.

(** Neither the length tests nor the collections panic. *)
Lemma collect_arrays_total n err l msg :
  collect_outcomes (bytes_to_array n err) l <> Panicked msg.
Proof.
  induction l as [|bytes l IH]; simpl; [done|]. rewrite bytes_to_array_spec.
  destruct (array_try_from n bytes); simpl; [|done].
  destruct (collect_outcomes _ l) as [[bs|e]|]; simpl; done.
Qed.

Section conversion_lemmas.
Context `{Blst, AlloyLaws, SszLaws}.

Lemma Withdrawal_try_from_Ok p w : Withdrawal_try_from p = Ok w <-> withdrawal_matches p w.
Proof.
  unfold Withdrawal_try_from. rewrite and_then_Ok. setoid_rewrite bytes_to_address_Ok. split.
  - by intros (a & Ha & [= <-]).
  - intros [Hi Hv Ha Hm]. exists (w_address w). split; [done|]. destruct w; simpl in *. congruence.
Qed.

Lemma BidTrace_try_from_Ok t b : BidTrace_try_from t = Ok b <-> trace_matches t b.
Proof.
  unfold BidTrace_try_from. rewrite !and_then_Ok. split.
  - intros (ph & Hph & Hrest). apply bytes_to_b256_Ok in Hph.
    apply and_then_Ok in Hrest as (bh & Hbh%bytes_to_b256_Ok & Hrest).
    apply and_then_Ok in Hrest as (bk & Hbk%map_err_Ok & Hrest).
    apply and_then_Ok in Hrest as (pk & Hpk%map_err_Ok & Hrest).
    apply and_then_Ok in Hrest as (fr & Hfr%bytes_to_address_Ok & Hrest).
    apply and_then_Ok in Hrest as (v & Hv%map_err_Ok & [= <-]). by constructor.
  - intros [Hs Hph Hbh Hbk Hpk Hfr Hgl Hgu Hv].
    exists (bt_parent_hash b). split; [by apply bytes_to_b256_Ok|].
    rewrite (proj2 (bytes_to_b256_Ok _ _) Hbh), Hbk, Hpk,
      (proj2 (bytes_to_address_Ok _ _) Hfr), Hv. simpl.
    destruct b; simpl in *. congruence.
Qed.

Lemma transactions_try_from_Ok txs txs' :
  transactions_try_from txs = Ok txs' <->
  txs' = txs /\ Z.of_nat (length txs) <= 1048576 /\
  Forall (fun tx => Z.of_nat (length tx) <= 1073741824) txs.
Proof.
  unfold transactions_try_from. rewrite and_then_Ok. setoid_rewrite map_err_Ok.
  setoid_rewrite variable_list_new_Ok.
  setoid_rewrite (collect_results_iff _
    (fun a b => b = a /\ Z.of_nat (length a) <= 1073741824));
    [|intros; rewrite map_err_Ok; apply variable_list_new_Ok].
  assert (Hf : forall l l' : list (list byte),
    Forall2 (fun a b => b = a /\ Z.of_nat (length a) <= 1073741824) l l' <->
    l' = l /\ Forall (fun tx => Z.of_nat (length tx) <= 1073741824) l).
  { intros l. induction l as [|a l IH]; intros l'.
    - split; [by inversion 1|]. intros [-> _]. constructor.
    - split.
      + inversion 1 as [|? b ? l'' [-> Ha] Hl]; subst. apply IH in Hl as [-> Hl].
        split; [done|by constructor].
      + intros [-> Hl]. inversion Hl; subst. constructor; [done|]. by apply IH. }
  setoid_rewrite Hf. split.
  - intros (inner & [-> Hall] & -> & Hlen). done.
  - intros (-> & Hlen & Hall). eauto.
Qed.

Lemma withdrawals_try_from_Ok ws ws' :
  withdrawals_try_from ws = Ok ws' <->
  Forall2 withdrawal_matches ws ws' /\ Z.of_nat (length ws) <= 16.
Proof.
  unfold withdrawals_try_from. rewrite and_then_Ok. setoid_rewrite map_err_Ok.
  setoid_rewrite variable_list_new_Ok.
  setoid_rewrite (collect_results_iff _ withdrawal_matches); [|apply Withdrawal_try_from_Ok].
  split.
  - intros (inner & Hall & -> & Hlen). by rewrite (Forall2_length _ _ _ Hall).
  - intros [Hall Hlen]. exists ws'. by rewrite <- (Forall2_length _ _ _ Hall).
Qed.

Lemma base_fee_Done bytes v :
  u256_from_be_slice bytes = Done v <-> v = from_le_bytes (rev bytes) /\ (length bytes <= 32)%nat.
Proof.
  destruct (decide (length bytes <= 32)%nat) as [Hl|Hl].
  - rewrite u256_from_be_slice_value by done. split; [by intros [= <-]|by intros [-> _]].
  - destruct (u256_from_be_slice_panics bytes) as [msg ->]; [lia|]. split; [done|].
    intros [_ ?]. lia.
Qed.

Lemma bind_Done {X Y} (m : outcome X) (k : X -> outcome Y) y :
  (m ≫= k) = Done y <-> exists x, m = Done x /\ k x = Done y.
Proof.
  destruct m as [x|msg]; simpl; split; intros Hm; destruct_ex; simplify_eq/=; try done; eauto.
Qed.

Lemma ExecutionPayload_try_from_Ok p e :
  ExecutionPayload_try_from p = Done (Ok e) <-> payload_matches p e.
Proof.
  unfold ExecutionPayload_try_from. split.
  - intros Hp. apply try_done_Ok in Hp as (ph & Hph%bytes_to_b256_Ok & Hp).
    apply try_done_Ok in Hp as (fr & Hfr%bytes_to_address_Ok & Hp).
    apply try_done_Ok in Hp as (sr & Hsr%bytes_to_b256_Ok & Hp).
    apply try_done_Ok in Hp as (rr & Hrr%bytes_to_b256_Ok & Hp).
    apply try_done_Ok in Hp as (lb & Hlb%map_err_Ok%fixed_vector_new_Ok & Hp).
    apply try_done_Ok in Hp as (pr & Hpr%bytes_to_b256_Ok & Hp).
    apply try_done_Ok in Hp as (ed & Hed%map_err_Ok%variable_list_new_Ok & Hp).
    apply bind_Done in Hp as (bf & Hbf%base_fee_Done & Hp).
    apply try_done_Ok in Hp as (bh & Hbh%bytes_to_b256_Ok & Hp).
    apply try_done_Ok in Hp as (txs & Htxs%transactions_try_from_Ok & Hp).
    apply try_done_Ok in Hp as (ws & Hws%withdrawals_try_from_Ok & [= <-]).
    constructor; simpl; done.
  - intros [Hph Hfr Hsr Hrr [Hlb Hlb'] Hpr [Hed Hed'] [Hbf Hbf'] Hbh Htxs Hws Hn].
    rewrite (proj2 (bytes_to_b256_Ok _ _) Hph), (proj2 (bytes_to_address_Ok _ _) Hfr),
      (proj2 (bytes_to_b256_Ok _ _) Hsr), (proj2 (bytes_to_b256_Ok _ _) Hrr),
      (proj2 (fixed_vector_new_Ok _ 256 (pp_logs_bloom p) _) (conj Hlb Hlb')),
      (proj2 (bytes_to_b256_Ok _ _) Hpr),
      (proj2 (variable_list_new_Ok _ 32 (pp_extra_data p) _) (conj Hed Hed')),
      (proj2 (base_fee_Done _ _) (conj eq_refl Hbf')), (proj2 (bytes_to_b256_Ok _ _) Hbh),
      (proj2 (transactions_try_from_Ok _ _) Htxs), (proj2 (withdrawals_try_from_Ok _ _) Hws).
    simpl. destruct e as [? ? ? ? ? ? ? ? ? ? ? [] ? ? ? ? ?]; simpl in *.
    destruct Hn as (-> & -> & -> & -> & -> & ->). by subst.
Qed.

Lemma BlobsBundle_try_from_Ok p b : BlobsBundle_try_from p = Done (Ok b) <-> blobs_match p b.
Proof.
  unfold BlobsBundle_try_from, bytes_to_bytes48, bytes_to_blob. rewrite try_outcome_Ok. split.
  - intros (c & Hc%collect_arrays_Ok & Hb).
    apply try_outcome_Ok in Hb as (q & Hq%collect_arrays_Ok & Hb).
    apply try_outcome_Ok in Hb as (d & Hd%collect_arrays_Ok & [= <-]). by constructor.
  - intros [Hc Hq Hd]. exists (bb_commitments b). split; [by apply collect_arrays_Ok|].
    rewrite (proj2 (collect_arrays_Ok _ _ _ _) Hq), (proj2 (collect_arrays_Ok _ _ _ _) Hd).
    simpl. by destruct b.
Qed.

Lemma BlobsBundle_try_from_total p msg : BlobsBundle_try_from p <> Panicked msg.
Proof.
  unfold BlobsBundle_try_from, bytes_to_bytes48, bytes_to_blob.
  destruct (collect_outcomes _ (pb_commitments p)) as [[c|e]|m] eqn:Ec; simpl; try done;
    [|by apply collect_arrays_total in Ec].
  destruct (collect_outcomes _ (pb_proofs p)) as [[q|e]|m] eqn:Eq; simpl; try done;
    [|by apply collect_arrays_total in Eq].
  destruct (collect_outcomes _ (pb_blobs p)) as [[d|e]|m] eqn:Ed; simpl; try done.
  by apply collect_arrays_total in Ed.
Qed.

(** The fields of the payload that are converted before the base fee. *)
Definition payload_prefix_ok (p : proto_ExecutionPayload) : bool :=
  is_ok (bytes_to_b256 (pp_parent_hash p)) && is_ok (bytes_to_address (pp_fee_recipient p)) &&
  is_ok (bytes_to_b256 (pp_state_root p)) && is_ok (bytes_to_b256 (pp_receipts_root p)) &&
  is_ok (fixed_vector_new 256 (pp_logs_bloom p)) && is_ok (bytes_to_b256 (pp_prev_randao p)) &&
  is_ok (variable_list_new 32 (pp_extra_data p)).

Lemma is_ok_map_err {X E F} (f : E -> F) (r : result X E) : is_ok (map_err f r) = is_ok r.
Proof. by destruct r. Qed.

Lemma try_done_panics {X Y E} (r : result X E) (k : X -> outcome (result Y E)) msg :
  try_bind (Done r) k = Panicked msg <-> exists x, r = Ok x /\ k x = Panicked msg.
Proof. destruct r; simpl; split; intros; destruct_ex; simplify_eq; eauto. Qed.

Lemma ExecutionPayload_try_from_panics p :
  (exists msg, ExecutionPayload_try_from p = Panicked msg) <->
  payload_prefix_ok p = true /\ (32 < length (pp_base_fee_per_gas p))%nat.
Proof.
  unfold ExecutionPayload_try_from, payload_prefix_ok.
  destruct (bytes_to_b256 (pp_parent_hash p)); simpl; [|by split; [intros []|intros []]].
  destruct (bytes_to_address (pp_fee_recipient p)); simpl; [|by split; [intros []|intros []]].
  destruct (bytes_to_b256 (pp_state_root p)); simpl; [|by split; [intros []|intros []]].
  destruct (bytes_to_b256 (pp_receipts_root p)); simpl; [|by split; [intros []|intros []]].
  destruct (fixed_vector_new 256 (pp_logs_bloom p)); simpl; [|by split; [intros []|intros []]].
  destruct (bytes_to_b256 (pp_prev_randao p)); simpl; [|by split; [intros []|intros []]].
  destruct (variable_list_new 32 (pp_extra_data p)); simpl; [|by split; [intros []|intros []]].
  destruct (decide (length (pp_base_fee_per_gas p) <= 32)%nat) as [Hl|Hl].
  - rewrite u256_from_be_slice_value by done. simpl. split; [|intros [_ ?]; lia].
    intros [msg Hmsg]. destruct (bytes_to_b256 (pp_block_hash p)); simpl in Hmsg; [|done].
    destruct (transactions_try_from _); simpl in Hmsg; [|done].
    by destruct (withdrawals_try_from _).
  - destruct (u256_from_be_slice_panics (pp_base_fee_per_gas p)) as [msg ->]; [lia|].
    simpl. split; [intros _; split; [done|lia]|eauto].
Qed.

(** ** Properties *)

(** C11: a bid request converts exactly to the submission that carries its bytes:
    hashes of 32 bytes, addresses of 20, a bloom of 256, at most 32 bytes of extra
    data, 2^20 transactions of at most 2^30 bytes, 16 withdrawals and 32 bytes of
    base fee, commitments and proofs of 48 bytes and blobs of 131072, keys and a
    signature that parse; only the blobs may be missing, and are empty then. *)
Theorem bid_conversion_faithful (req : proto_BidRequest) (b : BidSubmission) :
  BidSubmission_try_from req = Done (Ok b) <->
  exists t p,
    pr_bid_trace req = Some t /\ trace_matches t (message b) /\
    pr_execution_payload req = Some p /\ payload_matches p (bid_payload b) /\
    blobs_match (default proto_BlobsBundle_default (pr_blobs_bundle req)) (bid_blobs b) /\
    BlsSignature_deserialize (pr_signature req) = Ok (bid_signature b).
Proof.
  unfold BidSubmission_try_from. split.
  - intros Hb. apply try_done_Ok in Hb as (t & Ht%ok_or_Ok & Hb).
    apply try_done_Ok in Hb as (p & Hp%ok_or_Ok & Hb).
    apply try_done_Ok in Hb as (t' & Ht'%BidTrace_try_from_Ok & Hb).
    apply try_outcome_Ok in Hb as (p' & Hp'%ExecutionPayload_try_from_Ok & Hb).
    apply try_outcome_Ok in Hb as (bl & Hbl%BlobsBundle_try_from_Ok & Hb).
    apply try_done_Ok in Hb as (sig & Hsig%map_err_Ok & [= <-]). by exists t, p.
  - intros (t & p & -> & Ht & -> & Hp & Hbl & Hsig).
    apply try_done_Ok. exists t. split; [done|]. apply try_done_Ok. exists p. split; [done|].
    apply try_done_Ok. exists (message b). split; [by apply BidTrace_try_from_Ok|].
    apply try_outcome_Ok. exists (bid_payload b). split; [by apply ExecutionPayload_try_from_Ok|].
    apply try_outcome_Ok. exists (bid_blobs b). split; [by apply BlobsBundle_try_from_Ok|].
    apply try_done_Ok. exists (bid_signature b). split; [by rewrite Hsig|]. by destruct b.
Qed.

(** C26: the conversion of a request panics exactly when its base fee has more than
    32 bytes and everything converted before it is well formed; no other malformed
    input panics. *)
Theorem bid_conversion_panics_iff (req : proto_BidRequest) :
  (exists msg, BidSubmission_try_from req = Panicked msg) <->
  exists t p, pr_bid_trace req = Some t /\ is_ok (BidTrace_try_from t) = true /\
    pr_execution_payload req = Some p /\ payload_prefix_ok p = true /\
    (32 < length (pp_base_fee_per_gas p))%nat.
Proof.
  unfold BidSubmission_try_from.
  setoid_rewrite try_done_panics. setoid_rewrite ok_or_Ok. split.
  - intros (msg & t & Ht & Hb). apply try_done_panics in Hb as (p & Hp%ok_or_Ok & Hb).
    apply try_done_panics in Hb as (tr & Htr & Hb). exists t, p.
    rewrite Htr. split; [done|]. split; [done|]. split; [done|].
    apply ExecutionPayload_try_from_panics.
    destruct (ExecutionPayload_try_from p) as [[e|er]|m]; simpl in Hb; [|done|eauto].
    destruct (BlobsBundle_try_from _) as [[bl|er]|m] eqn:Eb; simpl in Hb; [|done|].
    + by destruct (BlsSignature_deserialize _).
    + by apply BlobsBundle_try_from_total in Eb.
  - intros (t & p & Ht & Htr & Hp & Hpanic). apply ExecutionPayload_try_from_panics in Hpanic.
    destruct Hpanic as [msg Hmsg]. exists msg, t. split; [done|]. rewrite Hp.
    apply try_done_panics. exists p. split; [done|]. apply try_done_panics.
    destruct (BidTrace_try_from t) as [tr|]; [|done]. exists tr. by rewrite Hmsg.
Qed.

(** A converted submission is well typed. *)

Lemma U256_from_str_typed s v : U256_from_str s = Ok v -> u256_range (U256_0 v).
Proof.
  unfold U256_from_str. intros Hv.
  destruct (u256_from_str s) as [z|e] eqn:Hz; simpl in Hv; [|done].
  injection Hv as <-. by apply (u256_from_str_range s).
Qed.

Lemma trace_matches_typed t b :
  proto_trace_typed t -> trace_matches t b -> BidTrace_in_range b.
Proof.
  intros (Hs & Hgl & Hgu) Hm. unfold BidTrace_in_range.
  rewrite (tm_slot _ _ Hm), (tm_gas_limit _ _ Hm), (tm_gas_used _ _ Hm).
  do 3 (split; [done|]). exact (U256_from_str_typed _ _ (tm_value _ _ Hm)).
Qed.

Lemma withdrawals_match_typed ws ws' :
  Forall proto_withdrawal_typed ws -> Forall2 withdrawal_matches ws ws' ->
  Forall withdrawal_typed ws'.
Proof.
  intros Hws Hm. induction Hm as [|w w' ws ws' [Hi Hv _ Ha] _ IH]; [constructor|].
  inversion Hws; subst. constructor; [|by apply IH].
  unfold withdrawal_typed. by rewrite Hi, Hv, Ha.
Qed.

Lemma payload_matches_typed p e :
  proto_payload_typed p -> payload_matches p e -> payload_typed e.
Proof.
  intros [Hn Hws] Hm.
  destruct (pm_logs_bloom _ _ Hm) as [Hlb Hlb'], (pm_extra_data _ _ Hm) as [Hed Hed'],
    (pm_base_fee _ _ Hm) as [Hbf Hbf'], (pm_transactions _ _ Hm) as (Htx & Hc & Hl),
    (pm_withdrawals _ _ Hm) as [Hw Hw'], (pm_numbers _ _ Hm) as (Hn1 & Hn2 & Hn3 & Hn4 & Hn5 & Hn6).
  constructor; rewrite ?Hlb, ?Hed, ?Htx; try done.
  - rewrite Hbf. unfold u256_range.
    pose proof (from_le_bytes_range (rev (pp_base_fee_per_gas p))) as Hr.
    rewrite length_rev in Hr. split; [lia|]. eapply Z.lt_le_trans; [apply Hr|].
    change (2 ^ 256) with (256 ^ 32). apply Z.pow_le_mono_r; lia.
  - by rewrite <- (Forall2_length _ _ _ Hw).
  - by eapply withdrawals_match_typed.
  - rewrite Hn1, Hn2, Hn3, Hn4, Hn5, Hn6. rewrite !Forall_cons in *. tauto.
Qed.

(** The parts of a converted submission. *)
Lemma bid_parts req bid t p :
  pr_bid_trace req = Some t -> pr_execution_payload req = Some p ->
  BidSubmission_try_from req = Done (Ok bid) ->
  trace_matches t (message bid) /\ payload_matches p (bid_payload bid) /\
  blobs_match (default proto_BlobsBundle_default (pr_blobs_bundle req)) (bid_blobs bid).
Proof.
  intros Ht Hp Hb. unfold BidSubmission_try_from in Hb. rewrite Ht, Hp in Hb.
  apply try_done_Ok in Hb as (t0 & [= <-] & Hb). apply try_done_Ok in Hb as (p0 & [= <-] & Hb).
  apply try_done_Ok in Hb as (t' & Ht'%BidTrace_try_from_Ok & Hb).
  apply try_outcome_Ok in Hb as (p' & Hp'%ExecutionPayload_try_from_Ok & Hb).
  apply try_outcome_Ok in Hb as (bl & Hbl%BlobsBundle_try_from_Ok & Hb).
  by apply try_done_Ok in Hb as (sig & _ & [= <-]).
Qed.

Lemma BidSubmission_try_from_typed req bid :
  proto_bid_typed req -> BidSubmission_try_from req = Done (Ok bid) -> submission_typed bid.
Proof.
  intros [Ht Hp] Hb. pose proof Hb as Hb'. unfold BidSubmission_try_from in Hb'.
  apply try_done_Ok in Hb' as (t & Et%ok_or_Ok & Hb').
  apply try_done_Ok in Hb' as (p & Ep%ok_or_Ok & _).
  destruct (bid_parts _ _ _ _ Et Ep Hb) as (Htm & Hpm & _).
  split; [by apply (trace_matches_typed t); [apply Ht|]|].
  by apply (payload_matches_typed p); [apply Hp|].
Qed.

End conversion_lemmas.

(** ** Concrete requests *)

Definition sample_proto_trace (slot : Z) (value : string) : proto_BidTrace := {|
  pt_slot := slot;
  pt_parent_hash := repeat x00 32;
  pt_block_hash := repeat x00 32;
  pt_builder_pubkey := fb_bytes (BlsPublicKey_serialize (BlsSecretKey_public_key sample_sk));
  pt_proposer_pubkey := fb_bytes (BlsPublicKey_serialize BlsPublicKey_default);
  pt_proposer_fee_recipient := repeat x00 20;
  pt_gas_limit := 30000000;
  pt_gas_used := 15000000;
  pt_value := value;
|}.

Definition sample_proto_payload (block_hash base_fee : list byte) : proto_ExecutionPayload := {|
  pp_parent_hash := repeat x00 32;
  pp_state_root := repeat x00 32;
  pp_receipts_root := repeat x00 32;
  pp_logs_bloom := repeat x00 256;
  pp_prev_randao := repeat x00 32;
  pp_extra_data := [];
  pp_base_fee_per_gas := base_fee;
  pp_fee_recipient := repeat x00 20;
  pp_block_hash := block_hash;
  pp_transactions := [[x01]; [x02; x03]];
  pp_withdrawals := [];
  pp_block_number := 1;
  pp_gas_limit := 30000000;
  pp_timestamp := 12;
  pp_gas_used := 15000000;
  pp_blob_gas_used := 0;
  pp_excess_blob_gas := 0;
|}.

(** Signed by the sample builder in the domain [domain]. *)
Definition sample_request (domain : Domain) (slot : Z) (value : string)
    (block_hash base_fee : list byte) : proto_BidRequest :=
  let trace := sample_proto_trace slot value in
  let sig := match BidTrace_try_from trace with
             | Ok t => BlsSecretKey_sign sample_sk (fb_bytes (signing_root t domain))
             | Err _ => BlsSecretKey_sign sample_sk []
             end in
  {| pr_bid_trace := Some trace;
     pr_execution_payload := Some (sample_proto_payload block_hash base_fee);
     pr_signature := fb_bytes (BlsSignature_serialize sig);
     pr_blobs_bundle := None |}.

Definition good_request : proto_BidRequest :=
  sample_request (array_default 32) 10 "100" (repeat x01 32) [x07].

Definition good_submission : BidSubmission :=
  match BidSubmission_try_from good_request with
  | Done (Ok b) => b
  | _ => sample_bid sample_sk (array_default 32) 0 0 B256_default
  end.

Lemma bid_conversion_faithful_witness :
  BidSubmission_try_from good_request = Done (Ok good_submission) /\
  exists t p,
    pr_bid_trace good_request = Some t /\ trace_matches t (message good_submission) /\
    pr_execution_payload good_request = Some p /\
    payload_matches p (bid_payload good_submission) /\
    blobs_match (default proto_BlobsBundle_default (pr_blobs_bundle good_request))
      (bid_blobs good_submission) /\
    BlsSignature_deserialize (pr_signature good_request) = Ok (bid_signature good_submission).
Proof.
  assert (Hok : BidSubmission_try_from good_request = Done (Ok good_submission))
    by (vm_cast_no_check (eq_refl (BidSubmission_try_from good_request))).
  exact (conj Hok (proj1 (bid_conversion_faithful good_request good_submission) Hok)).
Defined.

(** A base fee of 33 bytes. *)
Definition oversized_request : proto_BidRequest :=
  sample_request (array_default 32) 10 "100" (repeat x01 32) (repeat x00 33).

Lemma bid_conversion_panics_iff_witness :
  exists msg, BidSubmission_try_from oversized_request = Panicked msg.
Proof.
  apply (bid_conversion_panics_iff oversized_request).
  exists (sample_proto_trace 10 "100"), (sample_proto_payload (repeat x01 32) (repeat x00 33)).
  split; [exact eq_refl|]. split; [vm_compute; exact eq_refl|]. split; [exact eq_refl|].
  split; [vm_compute; exact eq_refl|]. simpl. lia.
Defined.
