(* ===== verification/Services.v ===== *)
(** * The gRPC services of the [api] crate

    The bidder's and the retriever's bidirectional streams ([bidder_service.rs],
    [retriever_service.rs]) and the unary calls ([retriever_service.rs],
    [validator_service.rs]).  A stream is served by a task that reads the client's
    messages in order and sends its answers on a channel: [in_stream] is what the
    client sends before it closes its half, and [Send] answers whether the client
    still receives. *)

From S2P Require Import Prelude Effects External Concrete Crypto Entity Storage Auctioneer.
From S2P Require Import UseCase UseCaseSpec Concurrency Conversion.

(** ** [tonic::Status] *)

Record Status : Type := { status_code : Z; status_message : string }.

Definition Status_invalid_argument (m : string) : Status :=
  {| status_code := 3; status_message := m |}.
Definition Status_internal (m : string) : Status :=
  {| status_code := 13; status_message := m |}.

Section services.
Context `{Blst, Alloy, TreeHashLib, SszTypes}.

(** The operations of a stream's task. *)
Inductive serviceE (Resp : Type) : Type -> Type :=
| Use {X} (e : relayE X) : serviceE Resp X
| Send (m : result Resp Status) : serviceE Resp bool.
#[global] Arguments Use {Resp X} e.
#[global] Arguments Send {Resp} m.

Definition call {Resp R} (p : task R) : prog (serviceE Resp) R :=
  prog_map (fun X => @Use Resp X) p.

Definition send {Resp} (m : result Resp Status) : prog (serviceE Resp) bool :=
  perform (Send m).

(** The shared state, and the messages the client has received. *)
Record ServiceWorld (S A Resp : Type) : Type := mkServiceWorld {
  sw_world : World S A;
  sw_sent : list (result Resp Status);
}.
#[global] Arguments mkServiceWorld {S A Resp} _ _.
#[global] Arguments sw_world {S A Resp} _.
#[global] Arguments sw_sent {S A Resp} _.

(** [connected n]: the client is still there to receive after [n] messages. *)
Definition service_handler {S A Resp} `{!Storage S, !Auctioneer A} (clock : N -> Z)
    (connected : nat -> bool) : handler (serviceE Resp) (ServiceWorld S A Resp) := fun X e w =>
  let 'mkServiceWorld rw out := w in
  match e in serviceE _ X return X * ServiceWorld S A Resp with
  | Use e =>
      let '(x, rw') := relay_handler storage_handler clock _ e rw in
      (x, mkServiceWorld rw' out)
  | Send m =>
      if connected (length out) then (true, mkServiceWorld rw (out ++ [m]))
      else (false, mkServiceWorld rw out)
  end.

(** ** [bidder_service.rs] *)

Record BidderServiceImpl : Type := { bs_usecase : SubmitBidUseCase }.

Definition BidderServiceImpl_new (usecase : SubmitBidUseCase) : BidderServiceImpl :=
  {| bs_usecase := usecase |}.

Fixpoint Bidder_handle_request (profile : build_profile) (usecase : SubmitBidUseCase)
    (in_stream : list (result proto_BidRequest Status)) :
    prog (serviceE proto_BidResponse) unit :=
  match in_stream with
  | [] => Ret tt
  | Err status :: _ =>
      let! _ := send (Err status) in Ret tt
  | Ok msg :: rest =>
      let! converted := lift_outcome (BidSubmission_try_from msg) in
      match converted with
      | Err e =>
          let response := {| brs_code := 1;
                             brs_message := "conversion error: " +:+ ConversionError_to_string e |} in
          let! sent := send (Ok response) in
          if sent : bool then Bidder_handle_request profile usecase rest else Ret tt
      | Ok submission =>
          let! result := call (SubmitBidUseCase_execute profile usecase submission) in
          match result with
          | Ok _ =>
              let! sent := send (Ok {| brs_code := 0; brs_message := "ok" |}) in
              if sent : bool then Bidder_handle_request profile usecase rest else Ret tt
          | Err err =>
              let! sent := send (Ok {| brs_code := 1;
                                       brs_message := UseCaseError_to_string err |}) in
              if sent : bool then Bidder_handle_request profile usecase rest else Ret tt
          end
      end
  end.

(** [bid]: the task that is spawned for a connection; the response stream is what
    it sends. *)
Definition Bidder_bid (profile : build_profile) (self : BidderServiceImpl)
    (in_stream : list (result proto_BidRequest Status)) :
    prog (serviceE proto_BidResponse) unit :=
  Bidder_handle_request profile (bs_usecase self) in_stream.

(** ** [retriever_service.rs] *)

Context `{!JsonSerialize (Versioned SignedHeader), !JsonSerialize ExecutionPayload,
          !JsonSerialize BlobsBundle}.

Record RetrieverServiceImpl : Type := {
  rs_get_header : GetHeaderUseCase;
  rs_unblind : UnblindBlockUseCase;
}.

Definition RetrieverServiceImpl_new (signer : BlsSigner) (fork_datas : ForkDatas) :
    RetrieverServiceImpl :=
  {| rs_get_header := GetHeaderUseCase_new signer;
     rs_unblind := UnblindBlockUseCase_new fork_datas |}.

(** [serde_json::to_vec(..).unwrap_or_default()] *)
Definition json_or_default {T} `{!JsonSerialize T} (t : T) : list byte :=
  default [] (ok (to_json t)).

Definition retrieve_response (versioned : Versioned SignedHeader)
    (bid : option (Arc BidSubmission)) : proto_RetrieveResponse := {|
  rrs_signed_header := json_or_default versioned;
  rrs_execution_payload :=
    default [] ((fun b => json_or_default (execution_payload (arc_val b))) <$> bid);
  rrs_blobs_bundle :=
    default [] ((fun b => json_or_default (bid_blobs (arc_val b))) <$> bid);
|}.

Fixpoint Retriever_handle_request (profile : build_profile) (get_header_uc : GetHeaderUseCase)
    (in_stream : list (result proto_RetrieveRequest Status)) :
    prog (serviceE proto_RetrieveResponse) unit :=
  match in_stream with
  | [] => Ret tt
  | Err status :: _ =>
      let! _ := send (Err status) in Ret tt
  | Ok msg :: rest =>
      let slot := rr_slot msg in
      let! parent_hash := lift_outcome (from_slice 32 (rr_parent_hash msg)) in
      match BlsPublicKey_deserialize (rr_proposer_pubkey msg) with
      | Err e =>
          let! _ := send (Err (Status_invalid_argument e)) in
          Retriever_handle_request profile get_header_uc rest
      | Ok proposer_pubkey =>
          let! got := call (GetHeaderUseCase_execute profile get_header_uc slot
                              (mkB256 parent_hash) proposer_pubkey) in
          match got with
          | Err err =>
              let! _ := send (Err (Status_internal (UseCaseError_to_string err))) in
              Retriever_handle_request profile get_header_uc rest
          | Ok versioned =>
              let! bid := call (perform (GetBestBid slot)) in
              let response := retrieve_response versioned (ok bid) in
              let! sent := send (Ok response) in
              if sent : bool then Retriever_handle_request profile get_header_uc rest else Ret tt
          end
      end
  end.

(** [retrieve]: the task that is spawned for a connection. *)
Definition Retriever_retrieve (profile : build_profile) (self : RetrieverServiceImpl)
    (in_stream : list (result proto_RetrieveRequest Status)) :
    prog (serviceE proto_RetrieveResponse) unit :=
  Retriever_handle_request profile (rs_get_header self) in_stream.

Definition Retriever_submit_blinded_block (self : RetrieverServiceImpl)
    (req : proto_SubmitBlindedBlockRequest) :
    task (result proto_BlindedBlockResponse Status) :=
  let! block_hash := lift_outcome (from_slice 32 (sbb_block_hash req)) in
  let? signature := Ret (map_err (fun e => Status_invalid_argument ("invalid signature: " +:+ e))
                           (BlsSignature_deserialize (sbb_signature req))) in
  let! resp := UnblindBlockUseCase_execute (rs_unblind self) (sbb_slot req)
                 (sbb_proposer_index req) (mkB256 block_hash) signature in
  let? resp := Ret (map_err (fun e => Status_internal (UseCaseError_to_string e)) resp) in
  let? payload := Ret (map_err (fun e => Status_internal ("serialization error: " +:+ e))
                         (to_json (bbr_execution_payload resp))) in
  Ret (Ok {|
    pbb_execution_payload := payload;
    pbb_blobs_bundle := default [] (json_or_default <$> bbr_blobs_bundle resp);
    pbb_block_hash := fb_bytes (B256_0 (ep_block_hash (bbr_execution_payload resp)));
  |}).

(** ** [validator_service.rs] *)

Record ValidatorServiceImpl : Type := { vs_usecase : RegisterValidatorUseCase }.

Definition ValidatorServiceImpl_new (usecase : RegisterValidatorUseCase) : ValidatorServiceImpl :=
  {| vs_usecase := usecase |}.

Definition Validator_register_validator (self : ValidatorServiceImpl)
    (req : proto_RegisterValidatorRequest) :
    task (result proto_RegisterValidatorResponse Status) :=
  match rvr_registration req with
  | None => throw (Status_invalid_argument "missing registration")
  | Some proto_reg =>
      match SignedValidatorRegistration_try_from proto_reg with
      | Err e =>
          throw (Status_invalid_argument
                   ("invalid registration: " +:+ ConversionError_to_string e))
      | Ok registration =>
          let! done := RegisterValidatorUseCase_execute (vs_usecase self) registration in
          match done with
          | Ok _ => Ret (Ok {| rvs_code := 0; rvs_message := "ok" |})
          | Err e => throw (Status_internal (UseCaseError_to_string e))
          end
      end
  end.

End services.

(** ** Lemmas *)

Section streams.
Context `{Blst, Alloy, TreeHashLib, SszTypes}.
Context {S A : Type} `{!Storage S, !StorageLaws S, !Auctioneer A, !AuctioneerLaws A}.
Variable clock : N -> Z.
Variable connected : nat -> bool.

Definition service_run {Resp R} (p : prog (serviceE Resp) R) (w : ServiceWorld S A Resp) :
    outcome R * ServiceWorld S A Resp :=
  run (service_handler clock connected) p w.

Lemma service_call {Resp R T} (p : task R) (k : R -> prog (serviceE Resp) T) rw out :
  service_run (call p ≫= k) (mkServiceWorld rw out) =
  match relay_run clock p rw with
  | (Done r, rw') => service_run (k r) (mkServiceWorld rw' out)
  | (Panicked msg, rw') => (Panicked msg, mkServiceWorld rw' out)
  end.
Proof.
  unfold service_run, relay_run.
  change (call p ≫= k) with (prog_bind (call p) k). rewrite run_bind. unfold call.
  rewrite (run_map (relay_handler storage_handler clock) (service_handler clock connected)
    (fun X e => Use e) sw_world (fun w v => mkServiceWorld w (sw_sent v))); simpl.
  - by destruct (run _ p rw) as [[r|msg] rw'].
  - done.
  - done.
  - by intros [].
  - intros X e [w o]; simpl. by destruct (relay_handler _ _ _ _ _).
Qed.

Lemma service_send {Resp T} (m : result Resp Status) (k : bool -> prog (serviceE Resp) T) rw out :
  service_run (send m ≫= k) (mkServiceWorld (S := S) (A := A) rw out) =
  if connected (length out) then service_run (k true) (mkServiceWorld rw (out ++ [m]))
  else service_run (k false) (mkServiceWorld rw out).
Proof. unfold service_run. simpl. by destruct (connected (length out)). Qed.

Lemma service_lift {Resp X T} (o : outcome X) (k : X -> prog (serviceE Resp) T)
    (w : ServiceWorld S A Resp) :
  service_run (lift_outcome o ≫= k) w =
  match o with Done x => service_run (k x) w | Panicked msg => (Panicked msg, w) end.
Proof. by destruct o. Qed.

End streams.

(** ** Sessions of a bidder *)

Section bidder.
Context `{Blst, Alloy, TreeHashLib, SszTypes}.
Context {S A : Type} `{!Storage S, !StorageLaws S, !Auctioneer A, !AuctioneerLaws A}.
Variable clock : N -> Z.
Variable profile : build_profile.
Variable uc : SubmitBidUseCase.

(** The answer to one request, and the state it leaves. *)
Inductive bid_answered (w : World S A) (msg : proto_BidRequest) :
    proto_BidResponse -> World S A -> Prop :=
| answered_malformed e :
    BidSubmission_try_from msg = Done (Err e) ->
    bid_answered w msg
      {| brs_code := 1; brs_message := "conversion error: " +:+ ConversionError_to_string e |} w
| answered_accepted bid w' :
    BidSubmission_try_from msg = Done (Ok bid) ->
    relay_run clock (SubmitBidUseCase_execute profile uc bid) w = (Done (Ok tt), w') ->
    bid_answered w msg {| brs_code := 0; brs_message := "ok" |} w'
| answered_rejected bid e w' :
    BidSubmission_try_from msg = Done (Ok bid) ->
    relay_run clock (SubmitBidUseCase_execute profile uc bid) w = (Done (Err e), w') ->
    bid_answered w msg {| brs_code := 1; brs_message := UseCaseError_to_string e |} w'.

(** The answers to the requests of a session, in order. *)
Inductive bid_session : World S A -> list proto_BidRequest -> list proto_BidResponse ->
    World S A -> Prop :=
| session_nil w : bid_session w [] [] w
| session_cons w msg resp w1 msgs resps w2 :
    bid_answered w msg resp w1 -> bid_session w1 msgs resps w2 ->
    bid_session w (msg :: msgs) (resp :: resps) w2.

(** A request whose handling panics: its conversion does, or the use case. *)
Inductive bid_panics (w : World S A) (msg : proto_BidRequest) :
    string -> World S A -> Prop :=
| panics_converting err :
    BidSubmission_try_from msg = Panicked err -> bid_panics w msg err w
| panics_submitting bid err w' :
    BidSubmission_try_from msg = Done (Ok bid) ->
    relay_run clock (SubmitBidUseCase_execute profile uc bid) w = (Panicked err, w') ->
    bid_panics w msg err w'.

(** How a session ends after its last answered request: with the stream, with an error
    of the stream, which is passed on, or with a panic, which is not answered. *)
Inductive session_end (w : World S A) : list (result proto_BidRequest Status) ->
    outcome unit -> list (result proto_BidResponse Status) -> World S A -> Prop :=
| end_closed : session_end w [] (Done tt) [] w
| end_failed status rest : session_end w (Err status :: rest) (Done tt) [Err status] w
| end_panicked msg rest err w' :
    bid_panics w msg err w' -> session_end w (Ok msg :: rest) (Panicked err) [] w'.

Abbreviation bidder_run := (service_run (S := S) (A := A) clock (fun _ => true)).

(** A request whose answer the client receives. *)
Lemma bidder_step msg rest (w : World S A) out :
  (exists resp w', bid_answered w msg resp w' /\
     bidder_run (Bidder_handle_request profile uc (Ok msg :: rest)) (mkServiceWorld w out) =
     bidder_run (Bidder_handle_request profile uc rest) (mkServiceWorld w' (out ++ [Ok resp]))) \/
  (exists err w', bid_panics w msg err w' /\
     bidder_run (Bidder_handle_request profile uc (Ok msg :: rest))
     (mkServiceWorld w out) = (Panicked err, mkServiceWorld w' out)).
Proof.
  cbn [Bidder_handle_request]. rewrite service_lift.
  destruct (BidSubmission_try_from msg) as [[bid|e]|err] eqn:Hc;
    [| |by right; eauto using bid_panics].
  - rewrite service_call.
    destruct (relay_run clock _ w) as [[[[]|e]|err] w'] eqn:Hrun;
      [| |by right; eauto using bid_panics]; left; rewrite service_send; eauto using bid_answered.
  - left. rewrite service_send. eauto using bid_answered.
Qed.

Lemma bid_session_app w msgs resps w1 msg resp w2 :
  bid_session w msgs resps w1 -> bid_answered w1 msg resp w2 ->
  bid_session w (msgs ++ [msg]) (resps ++ [resp]) w2.
Proof. induction 1; simpl; eauto using bid_session. Qed.

Lemma bidder_session_run msgs resps (w w' : World S A) out rest :
  bid_session w msgs resps w' ->
  bidder_run (Bidder_handle_request profile uc (map Ok msgs ++ rest)) (mkServiceWorld w out) =
  bidder_run (Bidder_handle_request profile uc rest) (mkServiceWorld w' (out ++ map Ok resps)).
Proof.
  intros Hs. revert out. induction Hs as [w|w msg resp w1 msgs resps w2 Ha Hs IH]; intros out.
  - simpl. by rewrite app_nil_r.
  - cbn [map app]. cbn [Bidder_handle_request]. rewrite service_lift.
    destruct Ha as [e Hc|bid w' Hc Hrun|bid e w' Hc Hrun]; rewrite Hc.
    + rewrite service_send, IH. by rewrite <- app_assoc.
    + rewrite service_call, Hrun, service_send, IH. by rewrite <- app_assoc.
    + rewrite service_call, Hrun, service_send, IH. by rewrite <- app_assoc.
Qed.

(** C14: what a bidder that reads its answers gets, for every stream of requests: one
    answer per request, in the order of the requests, from the state the earlier ones
    left - code 0 exactly when [submit_bid] accepted the converted bid, code 1 with the
    message of the conversion or of the use case otherwise - up to the first request
    whose conversion or use case panics, or the first error of the stream.  The panic
    ends the session without an answer, the error is passed on as the last one, and
    nothing behind them is answered or submitted. *)
Theorem bidder_answers_in_order stream (w : World S A) out :
  exists msgs resps rest w1 o last w2,
    stream = map Ok msgs ++ rest /\ bid_session w msgs resps w1 /\
    session_end w1 rest o last w2 /\
    bidder_run (Bidder_handle_request profile uc stream) (mkServiceWorld w out) =
      (o, mkServiceWorld w2 (out ++ map Ok resps ++ last)).
Proof.
  revert w out. induction stream as [|[msg|status] stream IH]; intros w out.
  - exists [], [], [], w, (Done tt), [], w. cbn [map app]. rewrite app_nil_r.
    by repeat split; constructor.
  - destruct (bidder_step msg stream w out) as [(resp & w1 & Ha & Heq)|(err & w1 & Hp & Heq)].
    + destruct (IH w1 (out ++ [Ok resp])) as (msgs & resps & rest & w2 & o & last & w3 & -> & Hs & He & Hrun).
      exists (msg :: msgs), (resp :: resps), rest, w2, o, last, w3.
      rewrite Heq, Hrun, <- app_assoc. eauto using bid_session.
    + exists [], [], (Ok msg :: stream), w, (Panicked err), [], w1.
      cbn [map app]. rewrite Heq, app_nil_r. by repeat split; constructor.
  - exists [], [], (Err status :: stream), w, (Done tt), [Err status], w.
    cbn [Bidder_handle_request]. rewrite service_send. by repeat split; constructor.
Qed.

(** One request with a base fee of more than 32 bytes, well formed before it,
    ends the session: the task panics, and none of the requests behind it is
    answered or submitted. *)
Theorem oversized_base_fee_ends_session `{!AlloyLaws, !SszLaws} msgs resps bad t p rest
    (w w' : World S A) out :
  bid_session w msgs resps w' ->
  pr_bid_trace bad = Some t -> is_ok (BidTrace_try_from t) = true ->
  pr_execution_payload bad = Some p -> payload_prefix_ok p = true ->
  (32 < length (pp_base_fee_per_gas p))%nat ->
  exists msg,
    bidder_run (Bidder_handle_request profile uc (map Ok msgs ++ Ok bad :: rest))
      (mkServiceWorld w out) =
    (Panicked msg, mkServiceWorld w' (out ++ map Ok resps)).
Proof.
  intros Hs Ht Hok Hp Hprefix Hlen. rewrite (bidder_session_run _ _ _ _ _ _ Hs).
  cbn [Bidder_handle_request]. rewrite service_lift.
  destruct (ExecutionPayload_try_from_panics p) as [_ Hpanic].
  destruct (Hpanic (conj Hprefix Hlen)) as [msg Hmsg]. exists msg.
  unfold BidSubmission_try_from. rewrite Ht, Hp.
  destruct (BidTrace_try_from t) as [tr|] eqn:Etr; [|done].
  change (try_bind (Done (ok_or (CE_MissingField "bid_trace") (Some t))) ?k) with (k t).
  change (try_bind (Done (ok_or (CE_MissingField "execution_payload") (Some p))) ?k) with (k p).
  cbv beta. rewrite Etr. change (try_bind (Done (Ok tr)) ?k) with (k tr). cbv beta.
  by rewrite Hmsg.
Qed.

End bidder.

(** ** Sessions of a proposer *)

Section retriever.
Context `{Blst, Alloy, TreeHashLib}.
Context {S A : Type} `{!Storage S, !StorageLaws S, !Auctioneer A, !AuctioneerLaws A}.
Context `{!JsonSerialize (Versioned SignedHeader), !JsonSerialize ExecutionPayload,
          !JsonSerialize BlobsBundle}.
Variable clock : N -> Z.
Hypothesis clock_mono : clock_monotone clock.

Lemma relay_get_best slot (s : S) (a : A) n :
  relay_run clock (perform (GetBestBid slot)) (mkWorld s a n) =
  (Done (fst (get_best_bid (clock n) slot a)),
   mkWorld s (snd (get_best_bid (clock n) slot a)) (n + 1)).
Proof. unfold relay_run. simpl. by destruct (get_best_bid (clock n) slot a). Qed.

(** A retrieve request whose parent hash has not 32 bytes ends the session:
    the task panics before it answers, and the requests behind it are lost. *)
Theorem bad_parent_hash_ends_session profile uc connected msg rest
    (w : ServiceWorld S A proto_RetrieveResponse) :
  Z.of_nat (length (rr_parent_hash msg)) <> 32 ->
  exists err, service_run clock connected
    (Retriever_handle_request profile uc (Ok msg :: rest)) w = (Panicked err, w).
Proof.
  intros Hlen. cbn [Retriever_handle_request]. rewrite service_lift. unfold from_slice.
  rewrite (proj2 (array_try_from_None _ _) Hlen). eauto.
Qed.

(** A request that [get_header] accepts is answered, when no other task
    interferes, with the JSON of the signed header and, in the same message, the
    JSON of the full payload and blobs of the bid the header hides (or with no
    payload, if the bid expired in between): the proposer sees the transactions
    before it signs. *)
Theorem retrieve_reveals_payload profile uc connected msg rest (w : World S A) out
    parent_hash proposer header w1 :
  HeadSlot_0 (v_head (view w)) < u64_max ->
  fb_bytes (B256_0 parent_hash) = rr_parent_hash msg ->
  BlsPublicKey_deserialize (rr_proposer_pubkey msg) = Ok proposer ->
  relay_run clock (GetHeaderUseCase_execute profile uc (rr_slot msg) parent_hash proposer) w =
    (Done (Ok header), w1) ->
  connected (length out) = true ->
  exists bid w2 current,
    header = signed_header_of (gh_signer uc) bid /\
    (current = None \/ exists arc, current = Some arc /\ arc_val arc = bid) /\
    service_run clock connected (Retriever_handle_request profile uc (Ok msg :: rest))
      (mkServiceWorld w out) =
    service_run clock connected (Retriever_handle_request profile uc rest)
      (mkServiceWorld w2 (out ++ [Ok (retrieve_response header current)])).
Proof.
  intros Hhead Hph Hpk Hrun Hconn.
  destruct (get_header_Ok clock profile uc _ _ _ _ _ _ Hhead Hrun)
    as (_ & Hkept & Hops & b & _ & Hbest & Hheader & _).
  destruct w1 as [s1 a1 n1]. simpl in Hkept, Hops.
  exists (arc_val b), (mkWorld s1 (snd (get_best_bid (clock n1) (rr_slot msg) a1)) (n1 + 1)%N),
    (best (clock n1) (rr_slot msg) a1).
  split; [done|]. split.
  - destruct (best (clock n1) (rr_slot msg) a1) as [b'|] eqn:Hb'; [right|by left].
    exists b'. split; [done|]. apply Hkept in Hb'; [|apply clock_mono; lia]. congruence.
  - cbn [Retriever_handle_request]. rewrite service_lift.
    rewrite <- Hph, from_slice_bytes, Hpk. cbv iota. rewrite service_call.
    rewrite B256_eta, Hrun, service_call, relay_get_best, service_send, Hconn, get_best_bid_value.
    by destruct (best (clock n1) (rr_slot msg) a1).
Qed.

(** [submit_blinded_block] panics on a block hash that has not 32 bytes;
    otherwise a successful answer carries the JSON of the payload that
    [unblind_block] revealed for the request, and the requested block hash. *)
Theorem submit_blinded_block_spec (self : RetrieverServiceImpl)
    (req : proto_SubmitBlindedBlockRequest) (w : World S A) :
  match fst (relay_run clock (Retriever_submit_blinded_block self req) w) with
  | Panicked _ => Z.of_nat (length (sbb_block_hash req)) <> 32
  | Done (Err _) => Z.of_nat (length (sbb_block_hash req)) = 32
  | Done (Ok resp) =>
      pbb_block_hash resp = sbb_block_hash req /\
      exists block_hash signature duty revealed,
        fb_bytes (B256_0 block_hash) = sbb_block_hash req /\
        BlsSignature_deserialize (sbb_signature req) = Ok signature /\
        unblind_allowed (ub_fork_datas (rs_unblind self)) (view w) (sbb_slot req)
          (sbb_proposer_index req) block_hash signature duty revealed /\
        to_json (bbr_execution_payload revealed) = Ok (pbb_execution_payload resp)
  end.
Proof.
  unfold Retriever_submit_blinded_block.
  destruct (array_try_from 32 (sbb_block_hash req)) as [h|] eqn:Eh.
  2: { unfold from_slice. rewrite Eh. simpl. by apply array_try_from_None. }
  apply array_try_from_Some in Eh. rewrite <- Eh, from_slice_bytes.
  change (lift_outcome (Done h) ≫= ?k) with (k h). cbv beta.
  pose proof (fb_len h) as Hlen.
  rewrite relay_try_ret.
  destruct (BlsSignature_deserialize (sbb_signature req)) as [sig|e] eqn:Es; cbn [map_err];
    [|done].
  rewrite relay_run_bind.
  destruct (relay_run clock (UnblindBlockUseCase_execute _ _ _ _ _) w)
    as [[[r|e]|m] w'] eqn:Er; [| |by apply unblind_block_total in Er];
    rewrite relay_try_ret; cbn [map_err]; [|done].
  destruct (unblind_block_Ok clock _ _ _ _ _ _ _ _ Er) as [duty Hall]. rewrite relay_try_ret.
  destruct (to_json (bbr_execution_payload r)) as [js|e] eqn:Ej; cbn [map_err]; [|done].
  simpl. rewrite (ub_hash _ _ _ _ _ _ _ _ Hall). split; [done|].
  by exists (mkB256 h), sig, duty, r.
Qed.

End retriever.

(** ** Registrations *)

Section validator.
Context `{Blst, Alloy, TreeHashLib}.
Context {S A : Type} `{!Storage S, !StorageLaws S, !Auctioneer A, !AuctioneerLaws A}.
Variable clock : N -> Z.

(** C39: A registration call succeeds exactly when the registration is present,
    converts, and carries the validator's signature in the builder domain, and then
    stores the converted registration under its key; any other call is answered
    with an error status and changes nothing. *)
Theorem register_validator_call (self : ValidatorServiceImpl)
    (req : proto_RegisterValidatorRequest) (w : World S A) :
  let '(r, w') := relay_run clock (Validator_register_validator self req) w in
  (exists p reg,
     rvr_registration req = Some p /\ SignedValidatorRegistration_try_from p = Ok reg /\
     SignedValidatorRegistration_verify_signature reg
       (compute_builder_domain (rv_fork_datas (vs_usecase self))) = true /\
     r = Done (Ok {| rvs_code := 0; rvs_message := "ok" |}) /\
     v_regs (view w') = <[vr_pubkey (svr_message reg) := svr_message reg]> (v_regs (view w))) \/
  ((forall p reg,
      rvr_registration req = Some p -> SignedValidatorRegistration_try_from p = Ok reg ->
      SignedValidatorRegistration_verify_signature reg
        (compute_builder_domain (rv_fork_datas (vs_usecase self))) = false) /\
   (exists status, r = Done (Err status)) /\ view w' = view w).
Proof.
  unfold Validator_register_validator.
  destruct (rvr_registration req) as [p|]; [|right; split; [done|]; simpl; eauto].
  destruct (SignedValidatorRegistration_try_from p) as [reg|e] eqn:Ec;
    [|right; split; [intros ? ? [= <-]; congruence|]; simpl; eauto].
  rewrite relay_run_bind.
  pose proof (register_validator_impl clock (vs_usecase self) reg w) as Hreg.
  destruct (relay_run clock (RegisterValidatorUseCase_execute _ reg) w) as [r w'].
  destruct (SignedValidatorRegistration_verify_signature _ _) eqn:Ev.
  - destruct Hreg as [-> Hregs]. left. exists p, reg. eauto.
  - destruct Hreg as [-> Hv]. right. split; [|simpl; eauto].
    intros ? ? [= <-] Hc. congruence.
Qed.

End validator.

(** ** The theorems at the concrete relay *)

#[local] Instance sample_json {T} : JsonSerialize T := fun _ => Ok [x7b; x7d].

Lemma oversized_base_fee_ends_session_witness :
  let t := sample_proto_trace 10 "100" in
  let p := sample_proto_payload (repeat x01 32) (repeat x00 33) in
  (pr_bid_trace oversized_request = Some t /\ is_ok (BidTrace_try_from t) = true /\
   pr_execution_payload oversized_request = Some p /\ payload_prefix_ok p = true /\
   (32 < length (pp_base_fee_per_gas p))%nat) /\
  exists msg,
    service_run sample_clock (fun _ => true)
      (Bidder_handle_request Debug sample_submit_uc
         (map Ok [] ++ Ok oversized_request :: [Ok good_request]))
      (mkServiceWorld sample_world []) =
    (Panicked msg, mkServiceWorld sample_world ([] ++ map Ok [])).
Proof.
  intros t p.
  assert (H1 : pr_bid_trace oversized_request = Some t) by exact eq_refl.
  assert (H2 : is_ok (BidTrace_try_from t) = true) by (vm_compute; exact eq_refl).
  assert (H3 : pr_execution_payload oversized_request = Some p) by exact eq_refl.
  assert (H4 : payload_prefix_ok p = true) by (vm_compute; exact eq_refl).
  assert (H5 : (32 < length (pp_base_fee_per_gas p))%nat) by (simpl; lia).
  split; [exact (conj H1 (conj H2 (conj H3 (conj H4 H5))))|].
  exact (oversized_base_fee_ends_session sample_clock Debug sample_submit_uc [] []
    oversized_request t p [Ok good_request] sample_world sample_world []
    (session_nil _ _ _ _) H1 H2 H3 H4 H5).
Defined.

Definition sample_retrieve (parent_hash : list byte) : proto_RetrieveRequest := {|
  rr_slot := bt_slot (message bid_b);
  rr_parent_hash := parent_hash;
  rr_proposer_pubkey := fb_bytes (BlsPublicKey_serialize sample_proposer);
|}.

Lemma bad_parent_hash_ends_session_witness :
  let msg := sample_retrieve [x01; x02] in
  Z.of_nat (length (rr_parent_hash msg)) <> 32 /\
  exists err, service_run sample_clock (fun _ => true)
    (Retriever_handle_request Debug (r_header sample_relay) (Ok msg :: []))
    (mkServiceWorld sample_world_b []) =
    (Panicked err, mkServiceWorld sample_world_b []).
Proof.
  intros msg.
  assert (Hlen : Z.of_nat (length (rr_parent_hash msg)) <> 32) by (simpl; lia).
  exact (conj Hlen (bad_parent_hash_ends_session sample_clock Debug (r_header sample_relay)
    (fun _ => true) msg [] (mkServiceWorld sample_world_b []) Hlen)).
Defined.

Lemma sample_proposer_parses :
  BlsPublicKey_deserialize (fb_bytes (BlsPublicKey_serialize sample_proposer)) = Ok sample_proposer.
Proof.
  vm_cast_no_check (eq_refl (BlsPublicKey_deserialize
    (fb_bytes (BlsPublicKey_serialize sample_proposer)))).
Qed.

Lemma sample_world_b_head : HeadSlot_0 (v_head (view sample_world_b)) < u64_max.
Proof. vm_compute. reflexivity. Qed.

Lemma retrieve_reveals_payload_witness :
  let msg := sample_retrieve (fb_bytes (B256_0 B256_default)) in
  HeadSlot_0 (v_head (view sample_world_b)) < u64_max /\
  exists bid w2 current,
    sample_header_b = signed_header_of (gh_signer (r_header sample_relay)) bid /\
    (current = None \/ exists arc, current = Some arc /\ arc_val arc = bid) /\
    service_run sample_clock (fun _ => true)
      (Retriever_handle_request Debug (r_header sample_relay) (Ok msg :: []))
      (mkServiceWorld sample_world_b []) =
    service_run sample_clock (fun _ => true)
      (Retriever_handle_request Debug (r_header sample_relay) [])
      (mkServiceWorld w2 ([] ++ [Ok (retrieve_response sample_header_b current)])).
Proof.
  intros msg. split; [exact sample_world_b_head|].
  exact (retrieve_reveals_payload sample_clock sample_clock_monotone Debug
    (r_header sample_relay) (fun _ => true) msg [] sample_world_b [] B256_default sample_proposer
    sample_header_b (snd sample_get_header_run) sample_world_b_head eq_refl
    sample_proposer_parses sample_get_header_b eq_refl).
Defined.
