(* ===== verification/ApiTests.v ===== *)
(** * The unit tests of the [api] crate

    The test modules of [conversion.rs], [bidder_service.rs] and [retriever_service.rs],
    in the form of [UseCaseTests.v]: a session is run on what its test sends before it
    drops its sender, and the answers are what the test receives. *)

From S2P Require Import Prelude Effects External Concrete Crypto Entity Storage Auctioneer.
From S2P Require Import UseCase UseCaseSpec UseCaseTests Concurrency Conversion Services.

Section api_tests.
Context `{Blst, Alloy, TreeHashLib, HexLib, SszTypes}.

(** ** [conversion.rs] *)

(** [ikm] is what [BlsSecretKey::random] draws. *)
Definition valid_pubkey_bytes (ikm : FixedBytes 32) : outcome (list byte) :=
  let! sk := BlsSecretKey_random ikm in
  Done (fb_bytes (BlsPublicKey_serialize (BlsSecretKey_public_key sk))).

Definition valid_signature_bytes (ikm : FixedBytes 32) : outcome (list byte) :=
  let! sk := BlsSecretKey_random ikm in
  Done (fb_bytes (BlsSignature_serialize
    (BlsSecretKey_sign sk (String.list_byte_of_string "test")))).

Definition make_test_bid_trace (ikm : FixedBytes 32) : outcome proto_BidTrace :=
  let! pk := valid_pubkey_bytes ikm in
  Done {|
    pt_slot := 1;
    pt_parent_hash := repeat x00 32;
    pt_block_hash := repeat x01 32;
    pt_builder_pubkey := pk;
    pt_proposer_pubkey := pk;
    pt_proposer_fee_recipient := repeat x04 20;
    pt_gas_limit := 30000000;
    pt_gas_used := 15000000;
    pt_value := "1000000000000000000";
  |}.

Definition make_test_execution_payload : proto_ExecutionPayload := {|
  pp_parent_hash := repeat x00 32;
  pp_state_root := repeat x01 32;
  pp_receipts_root := repeat x02 32;
  pp_logs_bloom := repeat x00 256;
  pp_prev_randao := repeat x03 32;
  pp_extra_data := [];
  pp_base_fee_per_gas := repeat x00 32;
  pp_fee_recipient := repeat x05 20;
  pp_block_hash := repeat x06 32;
  pp_transactions := [];
  pp_withdrawals := [];
  pp_block_number := 42;
  pp_gas_limit := 30000000;
  pp_gas_used := 15000000;
  pp_timestamp := 1234567890;
  pp_blob_gas_used := 0;
  pp_excess_blob_gas := 0;
|}.

Definition make_test_blobs_bundle : proto_BlobsBundle :=
  {| pb_commitments := []; pb_proofs := []; pb_blobs := [] |}.

Definition zero_b256 : B256 := mkB256 (array_repeat 32 x00).

Definition test_bid_trace_conversion (ikm : FixedBytes 32) : outcome bool :=
  let! proto := make_test_bid_trace ikm in
  let! entity := unwrap (BidTrace_try_from proto) in
  Done ((bt_slot entity =? 1) && bool_decide (bt_parent_hash entity = zero_b256) &&
        String.eqb (U256_to_string (bt_value entity)) "1000000000000000000").

(** The trace of the tests with one field replaced. *)
Definition test_bid_trace_invalid (ikm : FixedBytes 32)
    (edit : proto_BidTrace -> proto_BidTrace) : outcome bool :=
  let! proto := make_test_bid_trace ikm in
  Done (negb (is_ok (BidTrace_try_from (edit proto)))).

Definition test_bid_trace_invalid_hash_length (ikm : FixedBytes 32) : outcome bool :=
  test_bid_trace_invalid ikm (fun t => {|
    pt_slot := pt_slot t; pt_parent_hash := repeat x00 16; pt_block_hash := pt_block_hash t;
    pt_builder_pubkey := pt_builder_pubkey t; pt_proposer_pubkey := pt_proposer_pubkey t;
    pt_proposer_fee_recipient := pt_proposer_fee_recipient t; pt_gas_limit := pt_gas_limit t;
    pt_gas_used := pt_gas_used t; pt_value := pt_value t |}).

Definition test_bid_trace_invalid_pubkey_length (ikm : FixedBytes 32) : outcome bool :=
  test_bid_trace_invalid ikm (fun t => {|
    pt_slot := pt_slot t; pt_parent_hash := pt_parent_hash t; pt_block_hash := pt_block_hash t;
    pt_builder_pubkey := repeat x00 16; pt_proposer_pubkey := pt_proposer_pubkey t;
    pt_proposer_fee_recipient := pt_proposer_fee_recipient t; pt_gas_limit := pt_gas_limit t;
    pt_gas_used := pt_gas_used t; pt_value := pt_value t |}).

Definition test_bid_trace_invalid_address_length (ikm : FixedBytes 32) : outcome bool :=
  test_bid_trace_invalid ikm (fun t => {|
    pt_slot := pt_slot t; pt_parent_hash := pt_parent_hash t; pt_block_hash := pt_block_hash t;
    pt_builder_pubkey := pt_builder_pubkey t; pt_proposer_pubkey := pt_proposer_pubkey t;
    pt_proposer_fee_recipient := repeat x00 16; pt_gas_limit := pt_gas_limit t;
    pt_gas_used := pt_gas_used t; pt_value := pt_value t |}).

Definition with_value (value : string) (t : proto_BidTrace) : proto_BidTrace := {|
  pt_slot := pt_slot t; pt_parent_hash := pt_parent_hash t; pt_block_hash := pt_block_hash t;
  pt_builder_pubkey := pt_builder_pubkey t; pt_proposer_pubkey := pt_proposer_pubkey t;
  pt_proposer_fee_recipient := pt_proposer_fee_recipient t; pt_gas_limit := pt_gas_limit t;
  pt_gas_used := pt_gas_used t; pt_value := value |}.

Definition test_bid_trace_invalid_value (ikm : FixedBytes 32) : outcome bool :=
  test_bid_trace_invalid ikm (with_value "not-a-number").

Definition test_execution_payload_conversion : outcome bool :=
  let! entity := ExecutionPayload_try_from make_test_execution_payload in
  let! entity := unwrap entity in
  Done ((ep_block_number entity =? 42) && bool_decide (ep_parent_hash entity = zero_b256)).

Definition test_execution_payload_invalid_logs_bloom : outcome bool :=
  let p := make_test_execution_payload in
  let! result := ExecutionPayload_try_from {|
    pp_parent_hash := pp_parent_hash p; pp_state_root := pp_state_root p;
    pp_receipts_root := pp_receipts_root p; pp_logs_bloom := repeat x00 128;
    pp_prev_randao := pp_prev_randao p; pp_extra_data := pp_extra_data p;
    pp_base_fee_per_gas := pp_base_fee_per_gas p; pp_fee_recipient := pp_fee_recipient p;
    pp_block_hash := pp_block_hash p; pp_transactions := pp_transactions p;
    pp_withdrawals := pp_withdrawals p; pp_block_number := pp_block_number p;
    pp_gas_limit := pp_gas_limit p; pp_gas_used := pp_gas_used p;
    pp_timestamp := pp_timestamp p; pp_blob_gas_used := pp_blob_gas_used p;
    pp_excess_blob_gas := pp_excess_blob_gas p |} in
  Done (negb (is_ok result)).

Definition test_withdrawal_conversion : outcome bool :=
  let! entity := unwrap (Withdrawal_try_from {|
    pw_index := 1; pw_validator_index := 2; pw_address := repeat x03 20; pw_amount := 4 |}) in
  Done ((w_index entity =? 1) && (w_validator_index entity =? 2) && (w_amount entity =? 4)).

Definition test_withdrawal_invalid_address : outcome bool :=
  Done (negb (is_ok (Withdrawal_try_from {|
    pw_index := 1; pw_validator_index := 2; pw_address := repeat x03 19; pw_amount := 4 |}))).

Definition is_empty {T} (l : list T) : bool := match l with [] => true | _ => false end.

Definition test_blobs_bundle_conversion : outcome bool :=
  let! entity := BlobsBundle_try_from make_test_blobs_bundle in
  let! entity := unwrap entity in
  Done (is_empty (bb_commitments entity) && is_empty (bb_proofs entity) &&
        is_empty (bb_blobs entity)).

Definition test_bid_request_conversion (ikm : FixedBytes 32) : outcome bool :=
  let! trace := make_test_bid_trace ikm in
  let! signature := valid_signature_bytes ikm in
  let! entity := BidSubmission_try_from {|
    pr_bid_trace := Some trace; pr_execution_payload := Some make_test_execution_payload;
    pr_signature := signature; pr_blobs_bundle := Some make_test_blobs_bundle |} in
  let! entity := unwrap entity in
  Done (bt_slot (message entity) =? 1).

(** A request with no field. *)
Definition no_fields : proto_BidRequest := {|
  pr_bid_trace := None; pr_execution_payload := None; pr_signature := [];
  pr_blobs_bundle := None |}.

Definition test_bid_request_missing_fields : outcome bool :=
  let! result := BidSubmission_try_from no_fields in Done (negb (is_ok result)).

Definition test_bid_request_invalid_signature (ikm : FixedBytes 32) : outcome bool :=
  let! trace := make_test_bid_trace ikm in
  let! result := BidSubmission_try_from {|
    pr_bid_trace := Some trace; pr_execution_payload := Some make_test_execution_payload;
    pr_signature := repeat x00 10; pr_blobs_bundle := Some make_test_blobs_bundle |} in
  Done (negb (is_ok result)).

Definition conversion_tests (ikm : FixedBytes 32) : list (outcome bool) :=
  [test_bid_trace_conversion ikm; test_bid_trace_invalid_hash_length ikm;
   test_bid_trace_invalid_pubkey_length ikm; test_bid_trace_invalid_address_length ikm;
   test_bid_trace_invalid_value ikm; test_execution_payload_conversion;
   test_execution_payload_invalid_logs_bloom; test_withdrawal_conversion;
   test_withdrawal_invalid_address; test_blobs_bundle_conversion;
   test_bid_request_conversion ikm; test_bid_request_missing_fields;
   test_bid_request_invalid_signature ikm].

(** ** [bidder_service.rs] *)

Record BidderMockStorage : Type := {
  bms_head_slot : HeadSlot;
  bms_payload_attributes : PayloadAttributes;
  bms_whitelist : list BlsPublicKey;
  bms_duties : list ProposerDuty;
}.

Definition BidderMockStorage_new (head_slot : Z) (prev_randao : B256)
    (whitelist : list BlsPublicKey) (duties : list ProposerDuty) : BidderMockStorage := {|
  bms_head_slot := mkHeadSlot head_slot;
  bms_payload_attributes := {|
    pa_timestamp := 0; pa_prev_randao := B256_0 prev_randao;
    pa_suggested_fee_recipient := Address_default |};
  bms_whitelist := whitelist;
  bms_duties := duties;
|}.

#[local] Instance BidderMockStorage_Storage : Storage BidderMockStorage := {
  is_whitelisted_builder key s := bool_decide (key ∈ bms_whitelist s);
  read_head_slot s := bms_head_slot s;
  read_payload_attributes s := bms_payload_attributes s;
  find_duty_by_slot slot s := List.find (fun d => pd_slot d =? slot) (bms_duties s);
  set_head_slot _ s := s;
  set_payload_attributes _ s := s;
  set_validator_registration _ _ s := s;
  set_validator_registrations _ s := s;
  read_validator_registration _ _ := None;
  empty_validator_regs _ := true;
  set_proposer_duties _ s := s;
  read_proposer_duties s := bms_duties s;
  set_blinded_block_response _ _ s := s;
  read_blinded_block_response _ _ := None;
  set_delivered_blocks _ s := s;
}.

Record BidderMockAuctioneer : Type := mkBidderMockAuctioneer {}.

#[local] Instance BidderMockAuctioneer_Auctioneer : Auctioneer BidderMockAuctioneer := {
  compare_and_bid _ _ _ a := (Ok tt, a);
  get_best_bid _ _ a := (Err (BidNotFound 0), a);
}.

Definition deterministic_key (ikm : byte) : outcome (SecretKey * BlsPublicKey) :=
  let! sk := key_gen ikm in
  let! pk := public_key_of sk in
  Done (sk, pk).

Definition create_signed_bid_request (slot value : Z) (prev_randao : list byte)
    (builder_pk proposer_pk : BlsPublicKey) (signing_sk : SecretKey) : outcome proto_BidRequest :=
  let entity_trace := {|
    bt_slot := slot;
    bt_parent_hash := B256_default;
    bt_block_hash := B256_default;
    bt_builder_pubkey := builder_pk;
    bt_proposer_pubkey := proposer_pk;
    bt_proposer_fee_recipient := Address_default;
    bt_gas_limit := 30000000;
    bt_gas_used := 15000000;
    bt_value := mkU256 value;
  |} in
  let! fds := ForkDatas_default in
  let signing_root := signing_root entity_trace (compute_builder_domain fds) in
  let sig_bytes := sig_compress (sk_sign signing_sk (fb_bytes signing_root) DST []) in
  Done {|
    pr_bid_trace := Some {|
      pt_slot := slot;
      pt_parent_hash := repeat x00 32;
      pt_block_hash := repeat x00 32;
      pt_builder_pubkey := fb_bytes (BlsPublicKey_serialize builder_pk);
      pt_proposer_pubkey := fb_bytes (BlsPublicKey_serialize proposer_pk);
      pt_proposer_fee_recipient := repeat x00 20;
      pt_gas_limit := 30000000;
      pt_gas_used := 15000000;
      pt_value := u256_to_string value;
    |};
    pr_execution_payload := Some {|
      pp_parent_hash := repeat x00 32;
      pp_state_root := repeat x00 32;
      pp_receipts_root := repeat x00 32;
      pp_logs_bloom := repeat x00 256;
      pp_prev_randao := prev_randao;
      pp_extra_data := [];
      pp_base_fee_per_gas := repeat x00 32;
      pp_fee_recipient := repeat x00 20;
      pp_block_hash := repeat x00 32;
      pp_transactions := [];
      pp_withdrawals := [];
      pp_block_number := slot;
      pp_gas_limit := 30000000;
      pp_gas_used := 15000000;
      pp_timestamp := 0;
      pp_blob_gas_used := 0;
      pp_excess_blob_gas := 0;
    |};
    pr_signature := fb_bytes sig_bytes;
    pr_blobs_bundle := Some make_test_blobs_bundle;
  |}.

(** What [setup] returns: the storage behind the use case, the use case, the builder's
    keys and the proposer's public key. *)
Definition bidder_setup :
    outcome (BidderMockStorage * SubmitBidUseCase * SecretKey * BlsPublicKey * BlsPublicKey) :=
  let! builder := deterministic_key x2a in
  let! proposer := deterministic_key x2b in
  let '(builder_sk, builder_pk) := builder in
  let '(_, proposer_pk) := proposer in
  let storage := BidderMockStorage_new 0 B256_default [builder_pk]
    [{| pd_pubkey := proposer_pk; pd_validator_index := 0; pd_slot := 1 |}] in
  let! fds := ForkDatas_default in
  Done (storage, SubmitBidUseCase_new fds, builder_sk, builder_pk, proposer_pk).

(** What the client receives in the session that sends [msgs] and closes. *)
Definition session_responses {S A Req Resp} `{!Storage S, !Auctioneer A} (storage : S)
    (auctioneer : A) (session : list (result Req Status) -> prog (serviceE Resp) unit)
    (msgs : list Req) : outcome (list (result Resp Status)) :=
  let '(returned, w) := run (service_handler Z.of_N (fun _ => true)) (session (map Ok msgs))
    (mkServiceWorld (mkWorld storage auctioneer 0) []) in
  let! _ := returned in
  Done (sw_sent w).

(** [out_rx.recv().await.unwrap()], with the messages that remain *)
Definition recv_unwrap {Resp} (received : list (result Resp Status)) :
    outcome (result Resp Status * list (result Resp Status)) :=
  match received with
  | resp :: rest => Done (resp, rest)
  | [] => Panicked "called `Option::unwrap()` on a `None` value"
  end.

Definition bidder_response (storage : BidderMockStorage) (usecase : SubmitBidUseCase)
    (req : proto_BidRequest) : outcome proto_BidResponse :=
  let! received := session_responses storage mkBidderMockAuctioneer
    (Bidder_handle_request Debug usecase) [req] in
  let! resp := recv_unwrap received in
  unwrap (fst resp).

Definition test_handle_bid_success : outcome bool :=
  let! env := bidder_setup in
  let '(storage, usecase, sk, builder_pk, proposer_pk) := env in
  let! req := create_signed_bid_request 1 100 (repeat x00 32) builder_pk proposer_pk sk in
  let! resp := bidder_response storage usecase req in
  Done ((brs_code resp =? 0) && String.eqb (brs_message resp) "ok").

Definition test_handle_bid_zero_bid : outcome bool :=
  let! env := bidder_setup in
  let '(storage, usecase, sk, builder_pk, proposer_pk) := env in
  let! req := create_signed_bid_request 1 100 (repeat x00 32) builder_pk proposer_pk sk in
  let req := {| pr_bid_trace := with_value "0" <$> pr_bid_trace req;
                pr_execution_payload := pr_execution_payload req;
                pr_signature := pr_signature req; pr_blobs_bundle := pr_blobs_bundle req |} in
  let! resp := bidder_response storage usecase req in
  Done (brs_code resp =? 1).

Definition test_handle_bid_unauthorized_builder : outcome bool :=
  let! env := bidder_setup in
  let '(storage, usecase, _, _, proposer_pk) := env in
  let! other := deterministic_key x63 in
  let '(other_sk, other_pk) := other in
  let! req := create_signed_bid_request 1 100 (repeat x00 32) other_pk proposer_pk other_sk in
  let! resp := bidder_response storage usecase req in
  Done (brs_code resp =? 1).

Definition test_handle_bid_past_slot : outcome bool :=
  let! env := bidder_setup in
  let '(storage, usecase, sk, builder_pk, proposer_pk) := env in
  let! req := create_signed_bid_request 5 100 (repeat x00 32) builder_pk proposer_pk sk in
  let! resp := bidder_response storage usecase req in
  Done (brs_code resp =? 1).

Definition test_handle_bid_invalid_payload_attributes : outcome bool :=
  let! env := bidder_setup in
  let '(storage, usecase, sk, builder_pk, proposer_pk) := env in
  let! req := create_signed_bid_request 1 100 (repeat x03 32) builder_pk proposer_pk sk in
  let! resp := bidder_response storage usecase req in
  Done (brs_code resp =? 1).

Definition test_handle_bid_missing_fields : outcome bool :=
  let! env := bidder_setup in
  let '(storage, usecase, _, _, _) := env in
  let! resp := bidder_response storage usecase no_fields in
  Done (brs_code resp =? 1).

Definition test_handle_bid_invalid_signature : outcome bool :=
  let! env := bidder_setup in
  let '(storage, usecase, sk, builder_pk, proposer_pk) := env in
  let! req := create_signed_bid_request 1 100 (repeat x00 32) builder_pk proposer_pk sk in
  let req := {| pr_bid_trace := pr_bid_trace req;
                pr_execution_payload := pr_execution_payload req;
                pr_signature := repeat x00 10; pr_blobs_bundle := pr_blobs_bundle req |} in
  let! resp := bidder_response storage usecase req in
  Done (brs_code resp =? 1).

Definition bidder_service_tests : list (outcome bool) :=
  [test_handle_bid_success; test_handle_bid_zero_bid; test_handle_bid_unauthorized_builder;
   test_handle_bid_past_slot; test_handle_bid_invalid_payload_attributes;
   test_handle_bid_missing_fields; test_handle_bid_invalid_signature].

(** ** [retriever_service.rs] *)

Context {C : Type} `{!MokaCache Z (Arc BidSubmission) C}.
Context `{!JsonSerialize (Versioned SignedHeader), !JsonSerialize ExecutionPayload,
          !JsonSerialize BlobsBundle}.

Definition valid_pubkey : outcome BlsPublicKey :=
  let! sk := key_gen x2a in public_key_of sk.

Definition dummy_signer (ikm : FixedBytes 32) : outcome BlsSigner :=
  let! sk := BlsSecretKey_random ikm in
  let! fds := ForkDatas_default in
  Done (BlsSigner_new sk fds Deneb).

Definition dummy_execution_payload (prev_randao : B256) : ExecutionPayload :=
  test_payload 1 0 prev_randao B256_default.

Definition dummy_bid (slot : Z) (prev_randao : B256) : outcome (Arc BidSubmission) :=
  let! sk := key_gen x2a in
  let! sig := sign_bytes sk (String.list_byte_of_string "dummy") in
  let! pk := valid_pubkey in
  Done (mkArc 0 (BidSubmission_new {|
    bt_slot := slot;
    bt_parent_hash := B256_default;
    bt_block_hash := B256_default;
    bt_builder_pubkey := pk;
    bt_proposer_pubkey := pk;
    bt_proposer_fee_recipient := Address_default;
    bt_gas_limit := 30000000;
    bt_gas_used := 15000000;
    bt_value := mkU256 100;
  |} (dummy_execution_payload prev_randao) BlobsBundle_default sig)).

(** What [setup] returns, with the storage the use case holds: the storage and the
    auctioneer are the real ones. *)
Definition retriever_setup (ikm : FixedBytes 32) :
    outcome (GetHeaderUseCase * MemoryStorage * MemoryAuctioneer (C := C)) :=
  let! pk := valid_pubkey in
  let storage := MemoryStorage_new [pk] in
  let storage := set_head_slot (mkHeadSlot 0) storage in
  let storage := set_payload_attributes zero_attributes storage in
  let storage := set_validator_registration pk {|
    vr_fee_recipient := Address_default; vr_gas_limit := 30000000;
    vr_timestamp := 1000; vr_pubkey := pk |} storage in
  let storage := set_proposer_duties
    [{| pd_pubkey := pk; pd_validator_index := 1; pd_slot := 1 |}] storage in
  let! bid := dummy_bid 1 B256_default in
  let '(accepted, auctioneer) := compare_and_bid 0 1 bid (MemoryAuctioneer_new 60) in
  let! _ := unwrap accepted in
  let! signer := dummy_signer ikm in
  Done (GetHeaderUseCase_new signer, storage, auctioneer).

Definition retriever_responses
    (env : GetHeaderUseCase * MemoryStorage * MemoryAuctioneer (C := C))
    (msgs : list proto_RetrieveRequest) :
    outcome (list (result proto_RetrieveResponse Status)) :=
  let '(get_header_uc, storage, auctioneer) := env in
  session_responses storage auctioneer (Retriever_handle_request Debug get_header_uc) msgs.

Definition retrieve_msg (proposer_pubkey : list byte) : proto_RetrieveRequest :=
  {| rr_slot := 1; rr_parent_hash := repeat x00 32; rr_proposer_pubkey := proposer_pubkey |}.

Definition test_retrieve_success (ikm : FixedBytes 32) : outcome bool :=
  let! env := retriever_setup ikm in
  let! proposer_pk := valid_pubkey in
  let! received := retriever_responses env
    [retrieve_msg (fb_bytes (BlsPublicKey_serialize proposer_pk))] in
  let! got := recv_unwrap received in
  let! resp := unwrap (fst got) in
  Done (negb (is_empty (rrs_signed_header resp)) &&
        negb (is_empty (rrs_execution_payload resp)) &&
        negb (is_empty (rrs_blobs_bundle resp))).

Definition test_retrieve_multiple_messages (ikm : FixedBytes 32) : outcome bool :=
  let! env := retriever_setup ikm in
  let! proposer_pk := valid_pubkey in
  let msg := retrieve_msg (fb_bytes (BlsPublicKey_serialize proposer_pk)) in
  let! received := retriever_responses env [msg; msg] in
  let! got1 := recv_unwrap received in
  let! resp1 := unwrap (fst got1) in
  let! got2 := recv_unwrap (snd got1) in
  let! resp2 := unwrap (fst got2) in
  Done (negb (is_empty (rrs_signed_header resp1)) &&
        negb (is_empty (rrs_signed_header resp2)) && is_empty (snd got2)).

Definition test_retrieve_error_on_invalid_pubkey (ikm : FixedBytes 32) : outcome bool :=
  let! env := retriever_setup ikm in
  let! received := retriever_responses env [retrieve_msg (repeat x00 16)] in
  let! got := recv_unwrap received in
  Done (negb (is_ok (fst got))).

Definition retriever_service_tests (ikm : FixedBytes 32) : list (outcome bool) :=
  [test_retrieve_success ikm; test_retrieve_multiple_messages ikm;
   test_retrieve_error_on_invalid_pubkey ikm].

End api_tests.

(** The tests on the concrete libraries; [serde_json] writes an object. *)
Section concrete_tests.
#[local] Instance header_object : JsonSerialize (Versioned SignedHeader) :=
  fun _ => Ok [x7b; x7d].
#[local] Instance payload_object : JsonSerialize ExecutionPayload := fun _ => Ok [x7b; x7d].
#[local] Instance blobs_object : JsonSerialize BlobsBundle := fun _ => Ok [x7b; x7d].

Definition api_tests_on_concrete : list (outcome bool) :=
  conversion_tests (array_repeat 32 x07) ++ bidder_service_tests ++
  retriever_service_tests (C := ToyCache (Arc BidSubmission)) (array_repeat 32 x07).
End concrete_tests.
