(* ===== verification/Grpc.v ===== *)
(** * The generated gRPC clients and servers

    [proto/relay.rs]: for each of the three services a client, whose methods send a
    request to the path of a remote procedure, a trait, and a server that dispatches a
    request on its path to a method of an implementation of the trait; and the router
    that [app/src/lib.rs] builds from the three servers.  [tonic] and [http] are
    parameters. *)

From S2P Require Import Prelude Effects Text External Concrete Crypto Entity Storage Auctioneer.
From S2P Require Import UseCase UseCaseSpec Concurrency Conversion Services.

Definition Status_unknown (m : string) : Status := {| status_code := 2; status_message := m |}.

(** What an endpoint answers: a stream of messages, or a status. *)
Abbreviation streaming Resp := (result (list (result Resp Status)) Status).

(** [prost::Message]: the bytes of a message, and the message of bytes. *)
Class ProstMessage (M : Type) : Type := {
  prost_encode : M -> list byte;
  prost_decode : list byte -> result M string;
}.

(** The limit of [tonic] on received messages. *)
Definition DEFAULT_MAX_RECV_MESSAGE_SIZE : Z := 4194304.

(** A message that arrives as it was sent: [prost] represents it (its integers are within
    their widths, its strings are UTF-8), and it is not longer than a receiver accepts. *)
Definition deliverable `{ProstMessage M} (m : M) : Prop :=
  prost_decode (prost_encode m) = Ok m /\
  Z.of_nat (length (prost_encode m)) <= DEFAULT_MAX_RECV_MESSAGE_SIZE.

(** A status that arrives as it was sent: it is an error, and its message is short enough
    for the trailers of a response and needs no escaping. *)
Definition printable (c : Ascii.ascii) : bool :=
  let n := N_of_ascii c in (32 <=? n)%N && (n <? 127)%N.

Definition status_carried (s : Status) : bool :=
  (1 <=? status_code s) && (status_code s <=? 16) &&
  forallb printable (String.list_ascii_of_string (status_message s)) &&
  (String.length (status_message s) <=? 1024)%nat.

Definition answer_deliverable `{ProstMessage M} (r : result M Status) : Prop :=
  match r with Ok m => deliverable m | Err s => status_carried s = true end.

(** The items of a stream up to its first error: a status ends a call, so nothing that
    follows it is sent. *)
Fixpoint until_err {T Er} (items : list (result T Er)) : list (result T Er) :=
  match items with
  | [] => []
  | Ok m :: items' => Ok m :: until_err items'
  | Err e :: _ => [Err e]
  end.

Definition stream_deliverable `{ProstMessage M} (r : streaming M) : Prop :=
  match r with
  | Ok items => Forall answer_deliverable (until_err items)
  | Err s => status_carried s = true
  end.

(** [tonic] and [http].  [ClientGrpc T] is [tonic::client::Grpc<T>] over a service [T],
    [ServerGrpc] is [tonic::server::Grpc], [InterceptedService T] a service behind an
    interceptor; [client_request] is the HTTP request that a
    client sends for the messages it is given, [client_streaming] and [client_unary]
    decode the response; [server_streaming] and [server_unary] decode the request, call a
    method and make a response of its answer, [response_streaming] or [response_unary];
    [routes_call] dispatches a request among services by
    their names. *)
Class Tonic : Type := {
  HttpRequest : Type;
  HttpResponse : Type;
  Uri : Type;
  uri_path : HttpRequest -> string;
  response_with_headers : list (string * string) -> HttpResponse;
  CompressionEncoding : Type;
  EnabledCompressionEncodings : Type;
  encodings_default : EnabledCompressionEncodings;
  encodings_enable : EnabledCompressionEncodings -> CompressionEncoding ->
    EnabledCompressionEncodings;
  Interceptor : Type;
  InterceptedService : Type -> Type;
  InterceptedService_new : forall {T}, T -> Interceptor -> InterceptedService T;
  Endpoint : Type;
  Channel : Type;
  Endpoint_new : string -> result Endpoint string;
  Endpoint_connect : forall {E}, Endpoint -> prog E (result Channel string);
  ClientGrpc : Type -> Type;
  Grpc_new : forall {T}, T -> ClientGrpc T;
  Grpc_with_origin : forall {T}, T -> Uri -> ClientGrpc T;
  Grpc_send_compressed : forall {T}, ClientGrpc T -> CompressionEncoding -> ClientGrpc T;
  Grpc_accept_compressed : forall {T}, ClientGrpc T -> CompressionEncoding -> ClientGrpc T;
  Grpc_max_decoding_message_size : forall {T}, ClientGrpc T -> Z -> ClientGrpc T;
  Grpc_max_encoding_message_size : forall {T}, ClientGrpc T -> Z -> ClientGrpc T;
  Grpc_service : forall {T}, ClientGrpc T -> T;
  client_request : forall {T Req} `{ProstMessage Req}, ClientGrpc T -> string -> list Req -> HttpRequest;
  client_streaming : forall {T Resp} `{ProstMessage Resp}, ClientGrpc T -> HttpResponse -> streaming Resp;
  client_unary : forall {T Resp} `{ProstMessage Resp}, ClientGrpc T -> HttpResponse -> result Resp Status;
  ServerGrpc : Type;
  ServerGrpc_new : ServerGrpc;
  apply_compression_config : ServerGrpc -> EnabledCompressionEncodings ->
    EnabledCompressionEncodings -> ServerGrpc;
  apply_max_message_size_config : ServerGrpc -> option Z -> option Z -> ServerGrpc;
  response_streaming : forall {Resp} `{ProstMessage Resp}, streaming Resp -> HttpResponse;
  response_unary : forall {Resp} `{ProstMessage Resp}, result Resp Status -> HttpResponse;
  server_streaming : forall {E Req Resp} `{ProstMessage Req, ProstMessage Resp}, ServerGrpc ->
    (list (result Req Status) -> prog E (streaming Resp)) -> HttpRequest -> prog E HttpResponse;
  server_unary : forall {E Req Resp} `{ProstMessage Req, ProstMessage Resp}, ServerGrpc ->
    (Req -> prog E (result Resp Status)) -> HttpRequest -> prog E HttpResponse;
  routes_call : forall {E}, list (string * (HttpRequest -> prog E HttpResponse)) ->
    HttpRequest -> prog E HttpResponse;
}.

(** The headers of the answer to a procedure that does not exist: [Code::Unimplemented]. *)
Definition unimplemented `{Tonic} : HttpResponse :=
  response_with_headers [("grpc-status", "12"); ("content-type", "application/grpc")].

(** The letters, the digits and the full stop, of which the names of services are made;
    their paths have slashes besides.  Neither a query nor a route's parameter can be
    written with them. *)
Definition name_char (c : Ascii.ascii) : bool :=
  let n := N_of_ascii c in
  ((48 <=? n)%N && (n <=? 57)%N) || ((65 <=? n)%N && (n <=? 90)%N) ||
  ((97 <=? n)%N && (n <=? 122)%N) || Ascii.eqb c ".".

Definition plain_name (s : string) : bool :=
  negb (String.eqb s "") && forallb name_char (String.list_ascii_of_string s).

Definition plain_path (s : string) : bool :=
  starts_with "/" s &&
  forallb (fun c => name_char c || Ascii.eqb c "/") (String.list_ascii_of_string s).

(** The paths of the service [name] are those that start with its name and go on: the
    router's wildcard stands for one character at least. *)
Definition service_prefix (name : string) : string := "/" +:+ name +:+ "/".

Definition service_path (name path : string) : bool :=
  match strip_prefix (service_prefix name) path with
  | Some rest => negb (String.eqb rest "")
  | None => false
  end.

(** The configuration of a server, beside its implementation, and the
    [tonic::server::Grpc] that a server makes of it for a call. *)
Record ServerConfig `{Tonic} : Type := {
  accept_compression_encodings : EnabledCompressionEncodings;
  send_compression_encodings : EnabledCompressionEncodings;
  max_decoding_message_size : option Z;
  max_encoding_message_size : option Z;
}.

Definition ServerConfig_default `{Tonic} : ServerConfig := {|
  accept_compression_encodings := encodings_default;
  send_compression_encodings := encodings_default;
  max_decoding_message_size := None;
  max_encoding_message_size := None;
|}.

(** The methods that change one setting. *)
Definition config_accept_compressed `{Tonic} (c : ServerConfig) encoding : ServerConfig := {|
  accept_compression_encodings := encodings_enable (accept_compression_encodings c) encoding;
  send_compression_encodings := send_compression_encodings c;
  max_decoding_message_size := max_decoding_message_size c;
  max_encoding_message_size := max_encoding_message_size c;
|}.
Definition config_send_compressed `{Tonic} (c : ServerConfig) encoding : ServerConfig := {|
  accept_compression_encodings := accept_compression_encodings c;
  send_compression_encodings := encodings_enable (send_compression_encodings c) encoding;
  max_decoding_message_size := max_decoding_message_size c;
  max_encoding_message_size := max_encoding_message_size c;
|}.
Definition config_max_decoding `{Tonic} (c : ServerConfig) (limit : Z) : ServerConfig := {|
  accept_compression_encodings := accept_compression_encodings c;
  send_compression_encodings := send_compression_encodings c;
  max_decoding_message_size := Some limit;
  max_encoding_message_size := max_encoding_message_size c;
|}.
Definition config_max_encoding `{Tonic} (c : ServerConfig) (limit : Z) : ServerConfig := {|
  accept_compression_encodings := accept_compression_encodings c;
  send_compression_encodings := send_compression_encodings c;
  max_decoding_message_size := max_decoding_message_size c;
  max_encoding_message_size := Some limit;
|}.

Definition server_grpc `{Tonic} (c : ServerConfig) : ServerGrpc :=
  apply_max_message_size_config
    (apply_compression_config ServerGrpc_new (accept_compression_encodings c)
       (send_compression_encodings c))
    (max_decoding_message_size c) (max_encoding_message_size c).

Definition default_server `{Tonic} : ServerGrpc := server_grpc ServerConfig_default.

(** A client without an origin sends its requests to the path it is given; a router sends
    a request to the service whose name starts its path, and answers that it is
    unimplemented when there is none.  With the default configurations a request and its
    response carry the messages and statuses that are deliverable, a stream up to its
    first error. *)
Class TonicLaws `{Tonic} : Prop := {
  client_request_path T `{ProstMessage Req} (t : T) path (ms : list Req) :
    plain_path path = true -> uri_path (client_request (Grpc_new t) path ms) = path;
  Grpc_service_new T (t : T) : Grpc_service (Grpc_new t) = t;
  routes_call_served E services name (f : HttpRequest -> prog E HttpResponse) req :
    List.NoDup (map fst services) -> Forall (fun s => plain_name (fst s) = true) services ->
    (name, f) ∈ services -> service_path name (uri_path req) = true ->
    routes_call services req = f req;
  routes_call_unserved E services (req : HttpRequest) :
    List.NoDup (map fst services) -> Forall (fun s => plain_name (fst s) = true) services ->
    Forall (fun s : string * (HttpRequest -> prog E HttpResponse) =>
      service_path (fst s) (uri_path req) = false) services ->
    routes_call services req = Ret unimplemented;
  server_streaming_of E T `{ProstMessage Req, ProstMessage Resp} (t : T) path (ms : list Req)
      (f : list (result Req Status) -> prog E (streaming Resp)) :
    Forall deliverable ms ->
    server_streaming default_server f (client_request (Grpc_new t) path ms) =
    let! r := f (map Ok ms) in Ret (response_streaming r);
  server_unary_of E T `{ProstMessage Req, ProstMessage Resp} (t : T) path (m : Req)
      (f : Req -> prog E (result Resp Status)) :
    deliverable m ->
    server_unary default_server f (client_request (Grpc_new t) path [m]) =
    let! r := f m in Ret (response_unary r);
  client_streaming_of T `{ProstMessage Resp} (t : T) (r : streaming Resp) :
    stream_deliverable r ->
    client_streaming (Grpc_new t) (response_streaming r) = map_ok until_err r;
  client_unary_of T `{ProstMessage Resp} (t : T) (r : result Resp Status) :
    answer_deliverable r -> client_unary (Grpc_new t) (response_unary r) = r;
}.

Section grpc.
Context `{Tonic} {E : Type -> Type}.
Context `{!ProstMessage proto_BidRequest, !ProstMessage proto_BidResponse}.
Context `{!ProstMessage proto_RetrieveRequest, !ProstMessage proto_RetrieveResponse}.
Context `{!ProstMessage proto_SubmitBlindedBlockRequest, !ProstMessage proto_BlindedBlockResponse}.
Context `{!ProstMessage proto_RegisterValidatorRequest,
          !ProstMessage proto_RegisterValidatorResponse}.

(** [tonic::client::GrpcService]: what a client sends its requests through. *)
Class GrpcService (T : Type) : Type := {
  transport_ready : T -> prog E (result unit string);
  transport_call : T -> HttpRequest -> prog E (result HttpResponse Status);
}.

(** The body of every method of a client: wait for the service, and send. *)
Definition client_call {T} `{!GrpcService T} `{ProstMessage Req} {A} (inner : ClientGrpc T) (path : string)
    (ms : list Req) (decode : HttpResponse -> result A Status) : prog E (result A Status) :=
  let! ready := transport_ready (Grpc_service inner) in
  let? _ := Ret (map_err (fun e => Status_unknown ("Service was not ready: " +:+ e)) ready) in
  let? response := transport_call (Grpc_service inner) (client_request inner path ms) in
  Ret (decode response).

(** [connect(dst)]: the endpoint is parsed and connected to. *)
Definition connect_channel {Client : Type} (new : Channel -> Client) (dst : string) :
    prog E (result Client string) :=
  let? endpoint := Ret (Endpoint_new dst) in
  let? conn := Endpoint_connect endpoint in
  Ret (Ok (new conn)).

(** ** [BidderService] *)

Record BidderServiceClient (T : Type) : Type := mkBidderServiceClient { bsc_inner : ClientGrpc T }.
#[global] Arguments mkBidderServiceClient {T} _.
#[global] Arguments bsc_inner {T} _.

Definition BidderServiceClient_new {T} (inner : T) : BidderServiceClient T :=
  mkBidderServiceClient (Grpc_new inner).
Definition BidderServiceClient_with_origin {T} (inner : T) (origin : Uri) : BidderServiceClient T :=
  mkBidderServiceClient (Grpc_with_origin inner origin).
Definition BidderServiceClient_with_interceptor {T} (inner : T) (interceptor : Interceptor) :
    BidderServiceClient (InterceptedService T) :=
  BidderServiceClient_new (InterceptedService_new inner interceptor).
Definition BidderServiceClient_connect (dst : string) :
    prog E (result (BidderServiceClient Channel) string) :=
  connect_channel BidderServiceClient_new dst.
Definition BidderServiceClient_send_compressed {T} (c : BidderServiceClient T) encoding :=
  mkBidderServiceClient (Grpc_send_compressed (bsc_inner c) encoding).
Definition BidderServiceClient_accept_compressed {T} (c : BidderServiceClient T) encoding :=
  mkBidderServiceClient (Grpc_accept_compressed (bsc_inner c) encoding).
Definition BidderServiceClient_max_decoding_message_size {T} (c : BidderServiceClient T) limit :=
  mkBidderServiceClient (Grpc_max_decoding_message_size (bsc_inner c) limit).
Definition BidderServiceClient_max_encoding_message_size {T} (c : BidderServiceClient T) limit :=
  mkBidderServiceClient (Grpc_max_encoding_message_size (bsc_inner c) limit).

Definition BidderServiceClient_bid {T} `{!GrpcService T} (self : BidderServiceClient T)
    (request : list proto_BidRequest) : prog E (streaming proto_BidResponse) :=
  client_call (bsc_inner self) "/relay.BidderService/Bid" request (client_streaming (bsc_inner self)).

Class BidderService (T : Type) : Type := {
  bidder_bid : T -> list (result proto_BidRequest Status) -> prog E (streaming proto_BidResponse);
}.

Record BidderServiceServer (T : Type) : Type := mkBidderServiceServer {
  bss_inner : T; bss_config : ServerConfig;
}.
#[global] Arguments mkBidderServiceServer {T} _ _.
#[global] Arguments bss_inner {T} _.
#[global] Arguments bss_config {T} _.

Definition BidderServiceServer_from_arc {T} (inner : T) : BidderServiceServer T :=
  mkBidderServiceServer inner ServerConfig_default.
Definition BidderServiceServer_new {T} (inner : T) : BidderServiceServer T :=
  BidderServiceServer_from_arc inner.

Definition BidderServiceServer_with_interceptor {T} (inner : T) (interceptor : Interceptor) :
    InterceptedService (BidderServiceServer T) :=
  InterceptedService_new (BidderServiceServer_new inner) interceptor.
Definition BidderServiceServer_accept_compressed {T} (s : BidderServiceServer T) encoding :=
  mkBidderServiceServer (bss_inner s) (config_accept_compressed (bss_config s) encoding).
Definition BidderServiceServer_send_compressed {T} (s : BidderServiceServer T) encoding :=
  mkBidderServiceServer (bss_inner s) (config_send_compressed (bss_config s) encoding).
Definition BidderServiceServer_max_decoding_message_size {T} (s : BidderServiceServer T) limit :=
  mkBidderServiceServer (bss_inner s) (config_max_decoding (bss_config s) limit).
Definition BidderServiceServer_max_encoding_message_size {T} (s : BidderServiceServer T) limit :=
  mkBidderServiceServer (bss_inner s) (config_max_encoding (bss_config s) limit).

Definition BidderServiceServer_call {T} `{!BidderService T} (self : BidderServiceServer T)
    (req : HttpRequest) : prog E HttpResponse :=
  if String.eqb (uri_path req) "/relay.BidderService/Bid" then
    server_streaming (server_grpc (bss_config self)) (bidder_bid (bss_inner self)) req
  else Ret unimplemented.

Definition BidderService_SERVICE_NAME : string := "relay.BidderService".

(** ** [RetrieverService] *)

Record RetrieverServiceClient (T : Type) : Type := mkRetrieverServiceClient {
  rsc_inner : ClientGrpc T;
}.
#[global] Arguments mkRetrieverServiceClient {T} _.
#[global] Arguments rsc_inner {T} _.

Definition RetrieverServiceClient_new {T} (inner : T) : RetrieverServiceClient T :=
  mkRetrieverServiceClient (Grpc_new inner).
Definition RetrieverServiceClient_with_origin {T} (inner : T) (origin : Uri) :
    RetrieverServiceClient T :=
  mkRetrieverServiceClient (Grpc_with_origin inner origin).
Definition RetrieverServiceClient_with_interceptor {T} (inner : T) (interceptor : Interceptor) :
    RetrieverServiceClient (InterceptedService T) :=
  RetrieverServiceClient_new (InterceptedService_new inner interceptor).
Definition RetrieverServiceClient_connect (dst : string) :
    prog E (result (RetrieverServiceClient Channel) string) :=
  connect_channel RetrieverServiceClient_new dst.
Definition RetrieverServiceClient_send_compressed {T} (c : RetrieverServiceClient T) encoding :=
  mkRetrieverServiceClient (Grpc_send_compressed (rsc_inner c) encoding).
Definition RetrieverServiceClient_accept_compressed {T} (c : RetrieverServiceClient T) encoding :=
  mkRetrieverServiceClient (Grpc_accept_compressed (rsc_inner c) encoding).
Definition RetrieverServiceClient_max_decoding_message_size {T} (c : RetrieverServiceClient T) limit :=
  mkRetrieverServiceClient (Grpc_max_decoding_message_size (rsc_inner c) limit).
Definition RetrieverServiceClient_max_encoding_message_size {T} (c : RetrieverServiceClient T) limit :=
  mkRetrieverServiceClient (Grpc_max_encoding_message_size (rsc_inner c) limit).

Definition RetrieverServiceClient_retrieve {T} `{!GrpcService T} (self : RetrieverServiceClient T)
    (request : list proto_RetrieveRequest) : prog E (streaming proto_RetrieveResponse) :=
  client_call (rsc_inner self) "/relay.RetrieverService/Retrieve" request
    (client_streaming (rsc_inner self)).

Definition RetrieverServiceClient_submit_blinded_block {T} `{!GrpcService T}
    (self : RetrieverServiceClient T) (request : proto_SubmitBlindedBlockRequest) :
    prog E (result proto_BlindedBlockResponse Status) :=
  client_call (rsc_inner self) "/relay.RetrieverService/SubmitBlindedBlock" [request]
    (client_unary (rsc_inner self)).

Class RetrieverService (T : Type) : Type := {
  retriever_retrieve : T -> list (result proto_RetrieveRequest Status) ->
    prog E (streaming proto_RetrieveResponse);
  retriever_submit_blinded_block : T -> proto_SubmitBlindedBlockRequest ->
    prog E (result proto_BlindedBlockResponse Status);
}.

Record RetrieverServiceServer (T : Type) : Type := mkRetrieverServiceServer {
  rss_inner : T; rss_config : ServerConfig;
}.
#[global] Arguments mkRetrieverServiceServer {T} _ _.
#[global] Arguments rss_inner {T} _.
#[global] Arguments rss_config {T} _.

Definition RetrieverServiceServer_from_arc {T} (inner : T) : RetrieverServiceServer T :=
  mkRetrieverServiceServer inner ServerConfig_default.
Definition RetrieverServiceServer_new {T} (inner : T) : RetrieverServiceServer T :=
  RetrieverServiceServer_from_arc inner.

Definition RetrieverServiceServer_with_interceptor {T} (inner : T) (interceptor : Interceptor) :
    InterceptedService (RetrieverServiceServer T) :=
  InterceptedService_new (RetrieverServiceServer_new inner) interceptor.
Definition RetrieverServiceServer_accept_compressed {T} (s : RetrieverServiceServer T) encoding :=
  mkRetrieverServiceServer (rss_inner s) (config_accept_compressed (rss_config s) encoding).
Definition RetrieverServiceServer_send_compressed {T} (s : RetrieverServiceServer T) encoding :=
  mkRetrieverServiceServer (rss_inner s) (config_send_compressed (rss_config s) encoding).
Definition RetrieverServiceServer_max_decoding_message_size {T} (s : RetrieverServiceServer T) limit :=
  mkRetrieverServiceServer (rss_inner s) (config_max_decoding (rss_config s) limit).
Definition RetrieverServiceServer_max_encoding_message_size {T} (s : RetrieverServiceServer T) limit :=
  mkRetrieverServiceServer (rss_inner s) (config_max_encoding (rss_config s) limit).

Definition RetrieverServiceServer_call {T} `{!RetrieverService T} (self : RetrieverServiceServer T)
    (req : HttpRequest) : prog E HttpResponse :=
  if String.eqb (uri_path req) "/relay.RetrieverService/Retrieve" then
    server_streaming (server_grpc (rss_config self)) (retriever_retrieve (rss_inner self)) req
  else if String.eqb (uri_path req) "/relay.RetrieverService/SubmitBlindedBlock" then
    server_unary (server_grpc (rss_config self)) (retriever_submit_blinded_block (rss_inner self)) req
  else Ret unimplemented.

Definition RetrieverService_SERVICE_NAME : string := "relay.RetrieverService".

(** ** [ValidatorService] *)

Record ValidatorServiceClient (T : Type) : Type := mkValidatorServiceClient {
  vsc_inner : ClientGrpc T;
}.
#[global] Arguments mkValidatorServiceClient {T} _.
#[global] Arguments vsc_inner {T} _.

Definition ValidatorServiceClient_new {T} (inner : T) : ValidatorServiceClient T :=
  mkValidatorServiceClient (Grpc_new inner).
Definition ValidatorServiceClient_with_origin {T} (inner : T) (origin : Uri) :
    ValidatorServiceClient T :=
  mkValidatorServiceClient (Grpc_with_origin inner origin).
Definition ValidatorServiceClient_with_interceptor {T} (inner : T) (interceptor : Interceptor) :
    ValidatorServiceClient (InterceptedService T) :=
  ValidatorServiceClient_new (InterceptedService_new inner interceptor).
Definition ValidatorServiceClient_connect (dst : string) :
    prog E (result (ValidatorServiceClient Channel) string) :=
  connect_channel ValidatorServiceClient_new dst.
Definition ValidatorServiceClient_send_compressed {T} (c : ValidatorServiceClient T) encoding :=
  mkValidatorServiceClient (Grpc_send_compressed (vsc_inner c) encoding).
Definition ValidatorServiceClient_accept_compressed {T} (c : ValidatorServiceClient T) encoding :=
  mkValidatorServiceClient (Grpc_accept_compressed (vsc_inner c) encoding).
Definition ValidatorServiceClient_max_decoding_message_size {T} (c : ValidatorServiceClient T) limit :=
  mkValidatorServiceClient (Grpc_max_decoding_message_size (vsc_inner c) limit).
Definition ValidatorServiceClient_max_encoding_message_size {T} (c : ValidatorServiceClient T) limit :=
  mkValidatorServiceClient (Grpc_max_encoding_message_size (vsc_inner c) limit).

Definition ValidatorServiceClient_register_validator {T} `{!GrpcService T}
    (self : ValidatorServiceClient T) (request : proto_RegisterValidatorRequest) :
    prog E (result proto_RegisterValidatorResponse Status) :=
  client_call (vsc_inner self) "/relay.ValidatorService/RegisterValidator" [request]
    (client_unary (vsc_inner self)).

Class ValidatorService (T : Type) : Type := {
  validator_register_validator : T -> proto_RegisterValidatorRequest ->
    prog E (result proto_RegisterValidatorResponse Status);
}.

Record ValidatorServiceServer (T : Type) : Type := mkValidatorServiceServer {
  vss_inner : T; vss_config : ServerConfig;
}.
#[global] Arguments mkValidatorServiceServer {T} _ _.
#[global] Arguments vss_inner {T} _.
#[global] Arguments vss_config {T} _.

Definition ValidatorServiceServer_from_arc {T} (inner : T) : ValidatorServiceServer T :=
  mkValidatorServiceServer inner ServerConfig_default.
Definition ValidatorServiceServer_new {T} (inner : T) : ValidatorServiceServer T :=
  ValidatorServiceServer_from_arc inner.

Definition ValidatorServiceServer_with_interceptor {T} (inner : T) (interceptor : Interceptor) :
    InterceptedService (ValidatorServiceServer T) :=
  InterceptedService_new (ValidatorServiceServer_new inner) interceptor.
Definition ValidatorServiceServer_accept_compressed {T} (s : ValidatorServiceServer T) encoding :=
  mkValidatorServiceServer (vss_inner s) (config_accept_compressed (vss_config s) encoding).
Definition ValidatorServiceServer_send_compressed {T} (s : ValidatorServiceServer T) encoding :=
  mkValidatorServiceServer (vss_inner s) (config_send_compressed (vss_config s) encoding).
Definition ValidatorServiceServer_max_decoding_message_size {T} (s : ValidatorServiceServer T) limit :=
  mkValidatorServiceServer (vss_inner s) (config_max_decoding (vss_config s) limit).
Definition ValidatorServiceServer_max_encoding_message_size {T} (s : ValidatorServiceServer T) limit :=
  mkValidatorServiceServer (vss_inner s) (config_max_encoding (vss_config s) limit).

Definition ValidatorServiceServer_call {T} `{!ValidatorService T} (self : ValidatorServiceServer T)
    (req : HttpRequest) : prog E HttpResponse :=
  if String.eqb (uri_path req) "/relay.ValidatorService/RegisterValidator" then
    server_unary (server_grpc (vss_config self)) (validator_register_validator (vss_inner self)) req
  else Ret unimplemented.

Definition ValidatorService_SERVICE_NAME : string := "relay.ValidatorService".

(** ** The router of the relay *)

(** [Server::builder().add_service(..)], three times. *)
Definition relay_routes {B R V} `{!BidderService B, !RetrieverService R, !ValidatorService V}
    (bidder : B) (retriever : R) (validator : V) :
    list (string * (HttpRequest -> prog E HttpResponse)) :=
  [(BidderService_SERVICE_NAME, BidderServiceServer_call (BidderServiceServer_new bidder));
   (RetrieverService_SERVICE_NAME,
    RetrieverServiceServer_call (RetrieverServiceServer_new retriever));
   (ValidatorService_SERVICE_NAME,
    ValidatorServiceServer_call (ValidatorServiceServer_new validator))].

(** A client connected to a router. *)
Record Connected : Type := { connected_routes : list (string * (HttpRequest -> prog E HttpResponse)) }.

#[export] Instance Connected_service : GrpcService Connected := {
  transport_ready _ := Ret (Ok tt);
  transport_call c req := let! response := routes_call (connected_routes c) req in Ret (Ok response);
}.

End grpc.

Arguments Connected {_} E.

(** ** Dispatch *)

Section dispatch.
Context `{TonicLaws} {E : Type -> Type}.
Context `{!ProstMessage proto_BidRequest, !ProstMessage proto_BidResponse}.
Context `{!ProstMessage proto_RetrieveRequest, !ProstMessage proto_RetrieveResponse}.
Context `{!ProstMessage proto_SubmitBlindedBlockRequest, !ProstMessage proto_BlindedBlockResponse}.
Context `{!ProstMessage proto_RegisterValidatorRequest,
          !ProstMessage proto_RegisterValidatorResponse}.
Context {B R V : Type}.
Context `{!BidderService (E := E) B, !RetrieverService (E := E) R, !ValidatorService (E := E) V}.
Variables (bidder : B) (retriever : R) (validator : V).

Abbreviation routes := (relay_routes (E := E) bidder retriever validator).

(** The method that a path names. *)
Definition dispatched (req : HttpRequest) : prog E HttpResponse :=
  let path := uri_path req in
  if String.eqb path "/relay.BidderService/Bid" then
    server_streaming default_server (bidder_bid bidder) req
  else if String.eqb path "/relay.RetrieverService/Retrieve" then
    server_streaming default_server (retriever_retrieve retriever) req
  else if String.eqb path "/relay.RetrieverService/SubmitBlindedBlock" then
    server_unary default_server (retriever_submit_blinded_block retriever) req
  else if String.eqb path "/relay.ValidatorService/RegisterValidator" then
    server_unary default_server (validator_register_validator validator) req
  else Ret unimplemented.

Lemma routes_plain :
  List.NoDup (map fst routes) /\ Forall (fun s => plain_name (fst s) = true) routes.
Proof.
  split; simpl; [repeat (constructor; [simpl; intuition discriminate|]); constructor|].
  repeat (constructor; [reflexivity|]). constructor.
Qed.

Lemma routes_served name f req :
  (name, f) ∈ routes -> service_path name (uri_path req) = true ->
  routes_call routes req = f req.
Proof. by apply routes_call_served; apply routes_plain. Qed.

(** A path is not a known one when a service has one of them and not the other. *)
Lemma path_differs name path known :
  service_path name path <> service_path name known -> String.eqb path known = false.
Proof. intros Hp. apply String.eqb_neq. by intros ->. Qed.

(** C21: the router that the relay builds sends each of the four paths of the interface to
    the method it names, through a server with the default limits, and answers any other
    path, under a service's name or not, that it is unimplemented. *)
Theorem routes_dispatch req : routes_call routes req = dispatched req.
Proof.
  unfold dispatched.
  destruct (service_path BidderService_SERVICE_NAME (uri_path req)) eqn:Hb.
  { rewrite (routes_served _ _ req (list_elem_of_here _ _) Hb).
    unfold BidderServiceServer_call. destruct (String.eqb _ _); [done|].
    do 3 rewrite (path_differs BidderService_SERVICE_NAME) by (rewrite Hb; done).
    done. }
  rewrite (path_differs BidderService_SERVICE_NAME _ "/relay.BidderService/Bid")
    by (rewrite Hb; done).
  destruct (service_path RetrieverService_SERVICE_NAME (uri_path req)) eqn:Hr.
  { erewrite (routes_served RetrieverService_SERVICE_NAME _ req); [|do 1 right; left|exact Hr].
    unfold RetrieverServiceServer_call.
    destruct (String.eqb _ _); [done|]. destruct (String.eqb _ _); [done|].
    by rewrite (path_differs RetrieverService_SERVICE_NAME) by (rewrite Hr; done). }
  do 2 rewrite (path_differs RetrieverService_SERVICE_NAME) by (rewrite Hr; done).
  destruct (service_path ValidatorService_SERVICE_NAME (uri_path req)) eqn:Hv.
  { erewrite (routes_served ValidatorService_SERVICE_NAME _ req); [|do 2 right; left|exact Hv].
    done. }
  rewrite (path_differs ValidatorService_SERVICE_NAME) by (rewrite Hv; done).
  apply routes_call_unserved; [apply routes_plain..|].
  repeat (constructor; [assumption|]). constructor.
Qed.

(** ** Calls *)

Context {W : Type} (h : handler E W).

(** A client connected to the relay's router. *)
Abbreviation to_relay := ({| connected_routes := routes |} : Connected E).

Lemma connected_call_run {Req} `{!ProstMessage Req} {T} path (ms : list Req)
    (decode : HttpResponse -> result T Status) w :
  run h (client_call (Grpc_new to_relay) path ms decode) w =
  match run h (dispatched (client_request (Grpc_new to_relay) path ms)) w with
  | (Done response, w') => (Done (decode response), w')
  | (Panicked msg, w') => (Panicked msg, w')
  end.
Proof.
  unfold client_call. rewrite Grpc_service_new.
  change (transport_ready to_relay) with (Ret (E := E) (Ok tt : result unit string)).
  change (Ret (Ok tt) ≫= ?k) with (k (Ok tt : result unit string)). cbv beta.
  change (try_bind (Ret (map_err ?f (Ok tt))) ?k) with (k tt). cbv beta.
  unfold try_bind. cbn [transport_call Connected_service].
  rewrite run_bind_mbind, run_bind_mbind, routes_dispatch.
  by destruct (run h (dispatched _) w) as [[response|msg] w'].
Qed.

Lemma unary_call_run {Req Resp} `{!ProstMessage Req, !ProstMessage Resp} path (m : Req)
    (f : Req -> prog E (result Resp Status)) w r w' :
  dispatched (client_request (Grpc_new to_relay) path [m]) =
    server_unary default_server f (client_request (Grpc_new to_relay) path [m]) ->
  deliverable m -> run h (f m) w = (Done r, w') -> answer_deliverable r ->
  run h (client_call (Grpc_new to_relay) path [m] (client_unary (Grpc_new to_relay))) w =
    (Done r, w').
Proof.
  intros Hd Hm Hf Hr. rewrite connected_call_run, Hd, server_unary_of, run_bind_mbind, Hf by done.
  cbn [run]. by rewrite client_unary_of.
Qed.

Lemma streaming_call_run {Req Resp} `{!ProstMessage Req, !ProstMessage Resp} path (ms : list Req)
    (f : list (result Req Status) -> prog E (streaming Resp)) w r w' :
  dispatched (client_request (Grpc_new to_relay) path ms) =
    server_streaming default_server f (client_request (Grpc_new to_relay) path ms) ->
  Forall deliverable ms -> run h (f (map Ok ms)) w = (Done r, w') -> stream_deliverable r ->
  run h (client_call (Grpc_new to_relay) path ms (client_streaming (Grpc_new to_relay))) w =
    (Done (map_ok until_err r), w').
Proof.
  intros Hd Hm Hf Hr. rewrite connected_call_run, Hd, server_streaming_of, run_bind_mbind, Hf by done.
  cbn [run]. by rewrite client_streaming_of.
Qed.

(** C10: a call of a generated client arrives at the method of its name and brings back its
    answer: for each of the four procedures, what a client that is connected to the relay
    receives is what the method answers on the messages that were sent, for messages and
    answers that can be delivered; of a stream it receives the items up to the first
    error, which ends the call. *)
Theorem client_calls_methods w w' :
  (forall ms r, Forall deliverable ms -> stream_deliverable r ->
     run h (bidder_bid bidder (map Ok ms)) w = (Done r, w') ->
     run h (BidderServiceClient_bid (BidderServiceClient_new to_relay) ms) w =
       (Done (map_ok until_err r), w')) /\
  (forall ms r, Forall deliverable ms -> stream_deliverable r ->
     run h (retriever_retrieve retriever (map Ok ms)) w = (Done r, w') ->
     run h (RetrieverServiceClient_retrieve (RetrieverServiceClient_new to_relay) ms) w =
       (Done (map_ok until_err r), w')) /\
  (forall m r, deliverable m -> answer_deliverable r ->
     run h (retriever_submit_blinded_block retriever m) w = (Done r, w') ->
     run h (RetrieverServiceClient_submit_blinded_block (RetrieverServiceClient_new to_relay) m)
       w = (Done r, w')) /\
  (forall m r, deliverable m -> answer_deliverable r ->
     run h (validator_register_validator validator m) w = (Done r, w') ->
     run h (ValidatorServiceClient_register_validator (ValidatorServiceClient_new to_relay) m) w =
       (Done r, w')).
Proof.
  split; [|split; [|split]]; intros ms r Hm Hr Hrun.
  - apply (streaming_call_run _ ms (bidder_bid bidder)); try done.
    unfold dispatched. by rewrite client_request_path.
  - apply (streaming_call_run _ ms (retriever_retrieve retriever)); try done.
    unfold dispatched. by rewrite client_request_path.
  - apply (unary_call_run _ ms (retriever_submit_blinded_block retriever)); try done.
    unfold dispatched. by rewrite client_request_path.
  - apply (unary_call_run _ ms (validator_register_validator validator)); try done.
    unfold dispatched. by rewrite client_request_path.
Qed.

End dispatch.

(** ** The services of the relay *)

(** The stream of a spawned task whose client reads it to its end: what the task sends
    until it returns, or panics, or sends an error.  After the error the stream is
    dropped, while the task may still run: [late n] tells whether its [n]-th send
    after that is accepted by the channel, where nobody reads it. *)
Fixpoint collect `{Blst} {Resp R} (late : nat -> bool) (over : option nat)
    (p : prog (serviceE Resp) R) : prog relayE (list (result Resp Status)) :=
  match p with
  | Ret _ | Panic _ => Ret []
  | Vis e k =>
      match e in serviceE _ X return (X -> prog (serviceE Resp) R) ->
          prog relayE (list (result Resp Status)) with
      | Use e => fun k => Vis e (fun x => collect late over (k x))
      | Send m => fun k =>
          match over with
          | Some n => collect late (Some (Datatypes.S n)) (k (late n))
          | None =>
              let! rest := collect late (if is_ok m then None else Some O) (k true) in
              Ret (m :: rest)
          end
      end k
  end.

Section implementations.
Context `{Blst, Alloy, TreeHashLib, SszTypes}.
Context `{!JsonSerialize (Versioned SignedHeader), !JsonSerialize ExecutionPayload,
          !JsonSerialize BlobsBundle}.
Variable profile : build_profile.

Section collected.
Context {S A : Type} `{!Storage S, !Auctioneer A} (clock : N -> Z).

Abbreviation session := (service_run (S := S) (A := A) clock (fun _ => true)).
Abbreviation collecting over p := (collect (fun _ => true) over p).

(** After the error nothing is collected. *)
Lemma collect_over {Resp R} (p : prog (serviceE Resp) R) n (w : World S A) out :
  relay_run clock (collecting (Some n) p) w =
  (Done [], sw_world (snd (session p (mkServiceWorld w out)))).
Proof.
  unfold service_run, relay_run. revert n w out.
  induction p as [r|msg|X e k IH]; intros n w out; [done..|]. destruct e as [X e|m]; cbn [run collect].
  - cbn [service_handler]. destruct (relay_handler storage_handler clock X e w) as [x rw']. apply IH.
  - cbn [service_handler]. apply IH.
Qed.

(** With a channel that accepts every message, what is collected is what the session
    sends, up to its first error. *)
Lemma collect_run {Resp R} (p : prog (serviceE Resp) R) (w : World S A) out :
  let w' := snd (session p (mkServiceWorld w out)) in
  exists msgs, sw_sent w' = out ++ msgs /\
    relay_run clock (collecting None p) w = (Done (until_err msgs), sw_world w').
Proof.
  revert w out. induction p as [r|msg|X e k IH]; intros w out; cbn zeta.
  - exists []. by rewrite app_nil_r.
  - exists []. by rewrite app_nil_r.
  - destruct e as [X e|m]; unfold service_run, relay_run in *; cbn [run collect].
    + cbn [service_handler]. destruct (relay_handler storage_handler clock X e w) as [x rw']. apply IH.
    + cbn [service_handler]. destruct (IH true w (out ++ [m])) as (msgs & Hs & Hr).
      exists (m :: msgs). rewrite Hs, <- app_assoc. split; [done|]. rewrite run_bind_mbind.
      destruct m as [m|e]; cbn [is_ok until_err]; [by rewrite Hr|].
      pose proof (collect_over (k true) 0 w (out ++ [Err e])) as Hover.
      unfold relay_run, service_run in Hover. by rewrite Hover.
Qed.

End collected.

Variable late : nat -> bool.

#[export] Instance BidderServiceImpl_service : BidderService (E := relayE) BidderServiceImpl := {
  bidder_bid self in_stream :=
    let! items := collect late None (Bidder_bid profile self in_stream) in Ret (Ok items);
}.

#[export] Instance RetrieverServiceImpl_service :
    RetrieverService (E := relayE) RetrieverServiceImpl := {
  retriever_retrieve self in_stream :=
    let! items := collect late None (Retriever_retrieve profile self in_stream) in Ret (Ok items);
  retriever_submit_blinded_block self req := Retriever_submit_blinded_block self req;
}.

#[export] Instance ValidatorServiceImpl_service :
    ValidatorService (E := relayE) ValidatorServiceImpl := {
  validator_register_validator self req := Validator_register_validator self req;
}.

End implementations.

(** ** A concrete [tonic] *)

Section toy.

Definition toy_decoded `{ProstMessage M} (item : result (list byte) Status) : result M Status :=
  match item with
  | Ok bytes => map_err (fun e => Status_internal e) (prost_decode bytes)
  | Err s => Err s
  end.

Fixpoint toy_route {F} (services : list (string * F)) (path : string) : option F :=
  match services with
  | [] => None
  | (name, f) :: services' =>
      if service_path name path then Some f else toy_route services' path
  end.

#[local] Instance toy_tonic : Tonic := {
  HttpRequest := string * list (list byte);
  HttpResponse := list (string * string) * result (list (result (list byte) Status)) Status;
  Uri := string;
  uri_path := fst;
  response_with_headers headers := (headers, Ok []);
  CompressionEncoding := unit;
  EnabledCompressionEncodings := bool;
  encodings_default := false;
  encodings_enable _ _ := true;
  Interceptor := unit;
  InterceptedService T := T;
  InterceptedService_new T t _ := t;
  Endpoint := string;
  Channel := string;
  Endpoint_new s := Ok s;
  Endpoint_connect E dst := Ret (Ok dst);
  ClientGrpc T := T;
  Grpc_new T t := t;
  Grpc_with_origin T t _ := t;
  Grpc_send_compressed T c _ := c;
  Grpc_accept_compressed T c _ := c;
  Grpc_max_decoding_message_size T c _ := c;
  Grpc_max_encoding_message_size T c _ := c;
  Grpc_service T c := c;
  client_request T Req _ c path ms := (path, map prost_encode ms);
  client_streaming T Resp _ c response :=
    map_ok (fun items => until_err (map toy_decoded items)) (snd response);
  client_unary T Resp _ c response :=
    match snd response with
    | Ok [item] => toy_decoded item
    | Ok _ => Err (Status_internal "Missing response message.")
    | Err s => Err s
    end;
  ServerGrpc := unit;
  ServerGrpc_new := tt;
  apply_compression_config _ _ _ := tt;
  apply_max_message_size_config _ _ _ := tt;
  response_streaming Resp _ r := ([], map_ok (map (map_ok prost_encode)) r);
  response_unary Resp _ r := ([], map_ok (fun m => [Ok (prost_encode m)]) r);
  server_streaming E Req Resp _ _ _ f req :=
    let! r := f (map (fun b => toy_decoded (Ok b)) (snd req)) in
    Ret ([], map_ok (map (map_ok prost_encode)) r);
  server_unary E Req Resp _ _ _ f req :=
    match snd req with
    | [b] =>
        match toy_decoded (Ok b) with
        | Ok m => let! r := f m in Ret ([], map_ok (fun m => [Ok (prost_encode m)]) r)
        | Err s => Ret ([], Err s)
        end
    | _ => Ret ([], Err (Status_internal "Missing request message."))
    end;
  routes_call E services req :=
    match toy_route services (fst req) with
    | Some f => f req
    | None => Ret ([("grpc-status", "12"); ("content-type", "application/grpc")], Ok [])
    end;
}.

Lemma starts_with_cons c p d s :
  starts_with (String c p) (String d s) = Ascii.eqb c d && starts_with p s.
Proof. unfold starts_with. cbn [strip_prefix]. by destruct (Ascii.eqb c d). Qed.

Fixpoint slash_free (s : string) : bool :=
  match s with
  | EmptyString => true
  | String c s' => negb (Ascii.eqb c "/") && slash_free s'
  end.

Lemma plain_slash_free n : plain_name n = true -> slash_free n = true.
Proof.
  unfold plain_name. intros [_ Hn]%andb_prop. induction n as [|c n IH]; [done|].
  cbn in Hn. apply andb_prop in Hn as [Hc Hn]. cbn [slash_free]. rewrite IH by done.
  destruct (Ascii.eqb_spec c "/") as [->|_]; [discriminate Hc|done].
Qed.

Lemma segments_equal n1 n2 path :
  slash_free n1 = true -> slash_free n2 = true ->
  starts_with (n1 +:+ "/") path = true -> starts_with (n2 +:+ "/") path = true -> n1 = n2.
Proof.
  revert n2 path. induction n1 as [|c n1 IH]; intros [|d n2] [|e path]; try done.
  - intros _ Hd Hp1 Hp2. change ("" +:+ "/") with (String "/" "") in Hp1.
    change (String d n2 +:+ "/") with (String d (n2 +:+ "/")) in Hp2. rewrite starts_with_cons in *.
    apply andb_prop in Hp1 as [He _], Hp2 as [Hde _], Hd as [Hd _].
    apply Ascii.eqb_eq in He, Hde. by subst.
  - intros Hc _ Hp1 Hp2. change ("" +:+ "/") with (String "/" "") in Hp2.
    change (String c n1 +:+ "/") with (String c (n1 +:+ "/")) in Hp1. rewrite starts_with_cons in *.
    apply andb_prop in Hp1 as [Hce _], Hp2 as [He _], Hc as [Hc _].
    apply Ascii.eqb_eq in He, Hce. by subst.
  - intros [_ Hc]%andb_prop [_ Hd]%andb_prop Hp1 Hp2.
    change (String c n1 +:+ "/") with (String c (n1 +:+ "/")) in Hp1.
    change (String d n2 +:+ "/") with (String d (n2 +:+ "/")) in Hp2. rewrite starts_with_cons in *.
    apply andb_prop in Hp1 as [Hce Hp1], Hp2 as [Hde Hp2]. apply Ascii.eqb_eq in Hce, Hde. subst.
    f_equal. by apply (IH n2 path).
Qed.

Lemma prefix_tail n path :
  starts_with (service_prefix n) path = true ->
  exists path', path = String "/" path' /\ starts_with (n +:+ "/") path' = true.
Proof.
  unfold service_prefix. change ("/" +:+ n +:+ "/") with (String "/" (n +:+ "/")).
  destruct path as [|c path]; [done|]. rewrite starts_with_cons.
  intros [Hc Hp]%andb_prop. apply Ascii.eqb_eq in Hc as <-. eauto.
Qed.

Lemma service_path_prefix n path :
  service_path n path = true -> starts_with (service_prefix n) path = true.
Proof. unfold service_path, starts_with. by destruct (strip_prefix _ path). Qed.

Lemma toy_route_served {F} (services : list (string * F)) name f path :
  List.NoDup (map fst services) -> Forall (fun s => plain_name (fst s) = true) services ->
  (name, f) ∈ services -> service_path name path = true ->
  toy_route services path = Some f.
Proof.
  induction services as [|[n g] services IH]; intros Hnd Hsf Hin Hp;
    [by apply not_elem_of_nil in Hin|].
  apply Forall_cons in Hsf as [Hn Hsf]. inversion Hnd as [|? ? Hnin Hnd']; subst. simpl.
  apply elem_of_cons in Hin as [[= -> ->]|Hin]; [by rewrite Hp|].
  destruct (service_path n path) eqn:Hp'; [|by apply IH].
  exfalso. apply Hnin, List.in_map_iff. exists (name, f). split; [|by apply list_elem_of_In].
  apply service_path_prefix, prefix_tail in Hp as (p & -> & Hp).
  apply service_path_prefix, prefix_tail in Hp' as (p' & [= <-] & Hp').
  rewrite Forall_forall in Hsf. specialize (Hsf (name, f) Hin).
  by apply (segments_equal _ _ p); [apply plain_slash_free..| |].
Qed.

Lemma toy_route_unserved {F} (services : list (string * F)) path :
  Forall (fun s => service_path (fst s) path = false) services ->
  toy_route services path = None.
Proof. induction 1 as [|[n g] services Hn _ IH]; [done|]. simpl in *. by rewrite Hn. Qed.

Lemma toy_decode_all `{ProstMessage M} (ms : list M) :
  Forall deliverable ms -> map (fun b => toy_decoded (Ok b)) (map prost_encode ms) = map Ok ms.
Proof.
  induction 1 as [|m ms [Hm _] _ IH]; [done|]. cbn [map]. rewrite IH. simpl. by rewrite Hm.
Qed.

#[local] Instance toy_tonic_laws : TonicLaws.
Proof.
  constructor.
  - done.
  - done.
  - intros E services name f req Hnd Hsf Hin Hp. cbn [routes_call toy_tonic].
    by rewrite (toy_route_served services name f).
  - intros E services req _ _ Hnone. cbn [routes_call toy_tonic]. by rewrite toy_route_unserved.
  - intros E T Req PReq Resp PResp t path ms f Hms.
    cbn [server_streaming client_request response_streaming toy_tonic snd]. by rewrite toy_decode_all.
  - intros E T Req PReq Resp PResp t path m f [Hm _]. cbn. by rewrite Hm.
  - intros T Resp PResp t [items|s] Hr; [|done]. cbn in *. f_equal.
    induction items as [|[m|s] items IH]; [done| |done]. cbn in *.
    apply Forall_cons in Hr as [[Hm _] Hr]. rewrite Hm. cbn. by rewrite IH.
  - intros T Resp PResp t [m|s] Hr; [|done]. cbn. destruct Hr as [-> _]. done.
Qed.

End toy.
