(* ===== verification/Beacon.v ===== *)
(** * The beacon node: HTTP API and command service

    The errors and the HTTP client of the [gateway] crate ([beacon/error.rs],
    [beacon/api.rs]) and the service that runs its calls on behalf of the rest of
    the program ([beacon/service/mod.rs], [beacon/service/handle.rs]).  The answers
    of the beacon node are the responses of the operations [HttpGet] and
    [HttpPost]; [Sleep] is [tokio::time::sleep]. *)

From S2P Require Import Prelude Effects Text External Concrete Crypto Entity.

(** ** [error.rs] *)

(** A [reqwest::Error] is kept rendered. *)
Inductive BeaconError : Type :=
| BE_Http (e : string)
| BE_Api (status : Z) (body : string)
| BE_Deserialize (e : string)
| BE_Sse (e : string)
| BE_Channel (e : string).

(** The [Display] of the error. *)
Definition BeaconError_to_string (e : BeaconError) : string :=
  match e with
  | BE_Http e => "HTTP error: " +:+ e
  | BE_Api status body => "API error: status=" +:+ u64_to_string status +:+ ", body=" +:+ body
  | BE_Deserialize e => "Deserialization error: " +:+ e
  | BE_Sse e => "SSE error: " +:+ e
  | BE_Channel e => "Channel error: " +:+ e
  end.

(** ** The HTTP client *)

(** What one poll of a stream answers. *)
Inductive poll (T : Type) : Type := Ready (x : T) | Pending.
#[global] Arguments Ready {T} x.
#[global] Arguments Pending {T}.

(** A response: its status, its text, its bytes, and the chunks in which its bytes
    arrive. *)
Record Response : Type := {
  status : Z;
  text : result string string;
  body_bytes : list byte;
  bytes_stream : list (poll (option (result (list byte) string)));
}.

(** [resp.status().is_success()] *)
Definition is_success (resp : Response) : bool := (200 <=? status resp) && (status resp <? 300).

Inductive httpE : Type -> Type :=
| HttpGet (url : string) : httpE (result Response string)
| HttpPost (url content_type : string) (body : json) : httpE (result Response string)
| Sleep (secs : Z) : httpE unit.

(** [Err(BeaconError::Api { .. })] of a response without success. *)
Definition api_error (resp : Response) : BeaconError :=
  BE_Api (status resp) (default "" (ok (text resp))).

(** [client.get(url).send()], failing on a status that is no success. *)
Definition checked_get (url : string) : prog httpE (result Response BeaconError) :=
  let! sent := perform (HttpGet url) in
  let? resp := Ret (map_err BE_Http sent) in
  let? _ := reject_if (negb (is_success resp)) (api_error resp) in
  Ret (Ok resp).

Definition get_json {T} `{!JsonBody T} (url : string) : prog httpE (result T BeaconError) :=
  let? resp := checked_get url in
  Ret (map_err BE_Deserialize (json_of_body (body_bytes resp))).

(** ** [serde_json::Value] *)

(** [value[key]]: [Null] when there is no such field. *)
Definition json_index (key : string) (v : json) : json :=
  match v with
  | JObject fields =>
      match List.find (fun f => String.eqb (fst f) key) fields with
      | Some f => snd f
      | None => JNull
      end
  | _ => JNull
  end.

Definition json_as_str (v : json) : option string :=
  match v with JString s => Some s | _ => None end.

(** ** [api.rs]: data *)

Record BeaconBlockBody : Type := {
  bbb_execution_payload : ExecutionPayload;
  bbb_blobs : list (list byte);
}.

Record SignedBeaconBlockContent : Type := {
  sbc_slot : Z;
  sbc_proposer_index : Z;
  sbc_parent_root : FixedBytes 32;
  sbc_state_root : FixedBytes 32;
  sbc_body : BeaconBlockBody;
}.

Inductive SubmissionType : Type := Submission_Json | Submission_Ssz.

Record KnownValidator : Type := {
  kv_index : Z;
  kv_balance : Z;
  kv_status : string;
}.

Record BeaconNodeApi : Type := { api_url : string }.

Definition BeaconNodeApi_new (url : string) : BeaconNodeApi := {| api_url := url |}.

Record SyncStatusResponse : Type := { ssr_data : SyncStatus }.

Record CurrentFork : Type := { cf_current_version : string }.

Record ForkDataResp : Type := {
  fdr_genesis_validators_root : string;
  fdr_fork : CurrentFork;
}.

Record GetForkResponse : Type := { gfr_data : ForkDataResp }.

Record ValidatorInner : Type := {
  vi_pubkey : string;
  vi_withdrawal_credentials : string;
  vi_effective_balance : string;
  vi_slashed : bool;
  vi_activation_eligibility_epoch : string;
  vi_activation_epoch : string;
  vi_exit_epoch : string;
  vi_withdrawable_epoch : string;
}.

Record ValidatorData : Type := {
  vd_index : string;
  vd_balance : string;
  vd_status : string;
  vd_validator : ValidatorInner;
}.

Record ValidatorResponse : Type := { vresp_data : ValidatorData }.

Section duty_data.
Context `{Blst}.

Record ProposerDutyData : Type := {
  pdd_slot : Z;
  pdd_pubkey : BlsPublicKey;
  pdd_validator_index : Z;
}.

Record ProposerDutiesResponse : Type := { pdr_data : list ProposerDutyData }.

Definition ProposerDuty_from (d : ProposerDutyData) : ProposerDuty :=
  {| pd_pubkey := pdd_pubkey d; pd_validator_index := pdd_validator_index d;
     pd_slot := pdd_slot d |}.

End duty_data.

(** ** [api.rs]: calls *)

Section api.
Context `{Blst, HexLib}.
Context `{!JsonBody SyncStatusResponse, !JsonBody ProposerDutiesResponse,
          !JsonBody GetForkResponse, !JsonBody ValidatorResponse, !JsonBody json,
          !JsonValue ExecutionPayload}.

Abbreviation http_call T := (prog httpE (result T BeaconError)).

Definition hex_array (n : Z) (s : string) : result (FixedBytes n) BeaconError :=
  let* bytes := map_err (fun e => BE_Sse ("hex decode: " +:+ e))
                  (hex_decode (trim_start_matches "0x" s)) in
  ok_or (BE_Sse ("expected " +:+ u64_to_string n +:+ " bytes, got " +:+
                 u64_to_string (Z.of_nat (length bytes))))
    (array_try_from n bytes).

Definition fetch_head_slot (self : BeaconNodeApi) : http_call Z :=
  let? resp := checked_get (api_url self +:+ "eth/v1/beacon/headers/head") in
  let? body := Ret (map_err BE_Deserialize (json_of_body (body_bytes resp))) in
  let slot := json_index "slot" (json_index "message" (json_index "header"
                (json_index "data" body))) in
  let? s := Ret (ok_or (BE_Sse "no slot in head response") (json_as_str slot)) in
  let? slot := Ret (map_err (fun e => BE_Sse ("slot parse failed: " +:+ e)) (parse_u64 s)) in
  Ret (Ok slot).

Definition subscribe_events (self : BeaconNodeApi) : http_call Response :=
  checked_get (api_url self +:+ "eth/v1/events?topics=head,payload_attributes").

Definition api_sync_status (self : BeaconNodeApi) : http_call SyncStatus :=
  let? resp := get_json (T := SyncStatusResponse) (api_url self +:+ "eth/v1/node/syncing") in
  Ret (Ok (ssr_data resp)).

Definition api_proposer_duties (self : BeaconNodeApi) (epoch : Z) :
    http_call (list ProposerDuty) :=
  let? resp := get_json (T := ProposerDutiesResponse)
    (api_url self +:+ "eth/v1/validator/duties/proposer/" +:+ u64_to_string epoch) in
  Ret (Ok (map ProposerDuty_from (pdr_data resp))).

Definition fork_data_of (data : ForkDataResp) : result ForkDatas BeaconError :=
  let* gvr_bytes := map_err (fun e => BE_Sse ("hex decode genesis_validators_root: " +:+ e))
    (hex_decode (trim_start_matches "0x" (fdr_genesis_validators_root data))) in
  let* gvr := ok_or (BE_Sse ("genesis_validators_root length mismatch: expected 32 bytes, got "
                             +:+ u64_to_string (Z.of_nat (length gvr_bytes))))
                (array_try_from 32 gvr_bytes) in
  let* cv := hex_array 4 (cf_current_version (fdr_fork data)) in
  Ok (ForkDatas_new
        {| fd_current_version := cv; fd_genesis_validators_root := gvr |}
        {| fd_current_version := cv; fd_genesis_validators_root := gvr |}).

Definition api_get_fork_data (self : BeaconNodeApi) : http_call ForkDatas :=
  let? resp := get_json (T := GetForkResponse)
    (api_url self +:+ "eth/v2/debug/beacon/states/head") in
  Ret (fork_data_of (gfr_data resp)).

Definition known_validator_of (d : ValidatorData) : result KnownValidator BeaconError :=
  let* index := map_err (fun e => BE_Sse ("invalid validator index '" +:+ vd_index d +:+
                                          "': " +:+ e)) (parse_u64 (vd_index d)) in
  let* balance := map_err (fun e => BE_Sse ("invalid balance '" +:+ vd_balance d +:+
                                            "': " +:+ e)) (parse_u64 (vd_balance d)) in
  Ok {| kv_index := index; kv_balance := balance; kv_status := vd_status d |}.

Definition api_get_known_validator (self : BeaconNodeApi) (pubkey : BlsPublicKey) :
    http_call KnownValidator :=
  let pk_hex := hex_encode (fb_bytes (BlsPublicKey_serialize pubkey)) in
  let? resp := get_json (T := ValidatorResponse)
    (api_url self +:+ "eth/v1/beacon/states/head/validators/0x" +:+ pk_hex) in
  Ret (known_validator_of (vresp_data resp)).

Fixpoint zeros (n : nat) : string :=
  match n with O => "" | S n' => String "0" (zeros n') end.

(** The body of the request; the signature is all zeros. *)
Definition publish_body (block : SignedBeaconBlockContent) (payload : json) : json :=
  JObject [
    ("message", JObject [
      ("slot", JString (u64_to_string (sbc_slot block)));
      ("proposer_index", JString (u64_to_string (sbc_proposer_index block)));
      ("parent_root", JString ("0x" +:+ hex_encode (fb_bytes (sbc_parent_root block))));
      ("state_root", JString ("0x" +:+ hex_encode (fb_bytes (sbc_state_root block))));
      ("body", JObject [("execution_payload", payload)])]);
    ("signature", JString ("0x" +:+ zeros 192))].

Definition content_type (submission_type : SubmissionType) : string :=
  match submission_type with
  | Submission_Json => "application/json"
  | Submission_Ssz => "application/octet-stream"
  end.

(** [resp_body["data"]] as the bytes of a prefixed hex string. *)
Definition block_root_bytes (resp_body : json) : option (list byte) :=
  s ← json_as_str (json_index "data" resp_body);
  s ← strip_prefix "0x" s;
  ok (hex_decode s).

(** [arr.copy_from_slice(&bytes)] panics when the lengths differ. *)
Definition copy_from_slice (n : Z) (bytes : list byte) : outcome (FixedBytes n) :=
  match array_try_from n bytes with
  | Some a => Done a
  | None => Panicked "copy_from_slice: source slice length does not match destination slice length"
  end.

Definition api_publish_block (self : BeaconNodeApi) (block : SignedBeaconBlockContent)
    (submission_type : SubmissionType) : http_call (FixedBytes 32) :=
  let? payload := Ret (map_err (fun e => BE_Sse ("serialization error: " +:+ e))
                         (to_value (bbb_execution_payload (sbc_body block)))) in
  let body := publish_body block payload in
  let! sent := perform (HttpPost (api_url self +:+ "eth/v1/builder/blocks")
                          (content_type submission_type) body) in
  let? resp := Ret (map_err BE_Http sent) in
  let? _ := reject_if (negb (is_success resp)) (api_error resp) in
  let? resp_body := Ret (map_err BE_Deserialize (json_of_body (body_bytes resp))) in
  let? bytes := Ret (ok_or (BE_Sse "no block_root in response") (block_root_bytes resp_body)) in
  let! arr := lift_outcome (copy_from_slice 32 bytes) in
  Ret (Ok arr).

End api.

(** ** Lemmas *)

Section http_run.
Context {W : Type} (h : handler httpE W).

Lemma http_try_ret {X Y Er} (r : result X Er) (k : X -> prog httpE (result Y Er)) w :
  run h (try_bind (Ret r) k) w =
  match r with Ok a => run h (k a) w | Err e => (Done (Err e), w) end.
Proof. by destruct r. Qed.

Lemma http_try_bind {X Y Er} (p : prog httpE (result X Er)) (k : X -> prog httpE (result Y Er)) w :
  run h (try_bind p k) w =
  match run h p w with
  | (Done (Ok a), w') => run h (k a) w'
  | (Done (Err e), w') => (Done (Err e), w')
  | (Panicked msg, w') => (Panicked msg, w')
  end.
Proof.
  unfold try_bind. change (p ≫= ?f) with (prog_bind p f). rewrite run_bind.
  by destruct (run h p w) as [[[a|e]|msg] w'].
Qed.

Lemma http_reject {Y Er} (b : bool) (e : Er) (k : unit -> prog httpE (result Y Er)) w :
  run h (try_bind (reject_if b e) k) w =
  if b then (Done (Err e), w) else run h (k tt) w.
Proof. by destruct b. Qed.

(** A checked request answers the response exactly when it was sent and succeeded. *)
Lemma checked_get_run url w :
  run h (checked_get url) w =
  (Done (match fst (h _ (HttpGet url) w) with
         | Err e => Err (BE_Http e)
         | Ok resp => if is_success resp then Ok resp else Err (api_error resp)
         end), snd (h _ (HttpGet url) w)).
Proof.
  unfold checked_get. cbn [mbind prog_mbind prog_bind perform run].
  destruct (h _ (HttpGet url) w) as [[resp|e] w']; [|done]. cbn [fst snd].
  rewrite http_try_ret. cbn [map_err]. rewrite http_reject. by destruct (is_success resp).
Qed.

End http_run.

Lemma copy_from_slice_panics n bytes :
  (exists msg, copy_from_slice n bytes = Panicked msg) <-> Z.of_nat (length bytes) <> n.
Proof.
  unfold copy_from_slice. destruct (array_try_from n bytes) as [a|] eqn:Ha.
  - apply array_try_from_Some in Ha. subst bytes. rewrite fb_len.
    split; [by intros [msg ?]|done].
  - apply array_try_from_None in Ha. split; [done|eauto].
Qed.

Lemma hex_array_length `{HexLib} n s a :
  hex_array n s = Ok a -> hex_decode (trim_start_matches "0x" s) = Ok (fb_bytes a).
Proof.
  unfold hex_array. rewrite and_then_Ok. intros (bytes & Hd & Ha).
  apply map_err_Ok in Hd. apply ok_or_Ok, array_try_from_Some in Ha. by subst bytes.
Qed.

(** ** Properties *)

Section api_properties.
Context `{HexLib}.

(** C34: the fork data fetched from the beacon node carry the head's fork version
    and the genesis validators root in both of their parts, so they are the fork
    data that the configuration builds from a genesis and a current version only
    where the two versions are the same and the root is zero. *)
Theorem fetched_fork_data data fds :
  fork_data_of data = Ok fds ->
  exists cv gvr,
    hex_decode (trim_start_matches "0x" (cf_current_version (fdr_fork data))) =
      Ok (fb_bytes cv) /\
    hex_decode (trim_start_matches "0x" (fdr_genesis_validators_root data)) =
      Ok (fb_bytes gvr) /\
    fds_proposer fds = {| fd_current_version := cv; fd_genesis_validators_root := gvr |} /\
    fds_builder fds = fds_proposer fds /\
    (forall genesis current root,
       fds = ForkDatas_from_genesis_and_current_version genesis current root <->
       genesis = cv /\ current = cv /\ root = gvr /\ gvr = array_default 32).
Proof.
  unfold fork_data_of. rewrite and_then_Ok. intros (bytes & Hg & Hk).
  apply map_err_Ok in Hg. apply and_then_Ok in Hk as (gvr & Ha & Hk).
  apply ok_or_Ok, array_try_from_Some in Ha. subst bytes.
  apply and_then_Ok in Hk as (cv & Hc & [= <-]). apply hex_array_length in Hc.
  exists cv, gvr. do 4 (split; [done|]). intros genesis current root.
  unfold ForkDatas_from_genesis_and_current_version, ForkDatas_new.
  split; [by intros [=]; subst|by intros (-> & -> & -> & ->)].
Qed.

End api_properties.

(** The fork data of mainnet after Deneb. *)
Definition sample_fork_resp : ForkDataResp := {|
  fdr_genesis_validators_root :=
    "0x4b363db94e286120d76eb905340fdd4e54bfe9f06bf33ff6cf5ad27f511bfe95";
  fdr_fork := {| cf_current_version := "0x04000000" |};
|}.

Example sample_fork_data :
  match fork_data_of sample_fork_resp with
  | Ok fds => fb_bytes (fd_current_version (fds_builder fds)) = [x04; x00; x00; x00]
  | Err _ => False
  end.
Proof. vm_compute. reflexivity. Qed.

Lemma fetched_fork_data_witness :
  exists fds, fork_data_of sample_fork_resp = Ok fds /\ fds_builder fds = fds_proposer fds.
Proof.
  pose (r := fork_data_of sample_fork_resp). vm_compute in r.
  match (eval unfold r in r) with Ok ?f => exists f end.
  match goal with |- ?a /\ _ => assert (H : a) by (vm_compute; reflexivity) end.
  split; [exact H|].
  destruct (fetched_fork_data _ _ H) as (cv & gvr & _ & _ & _ & Hb & _). exact Hb.
Defined.

Section publish.
Context `{HexLib, !JsonBody json, !JsonValue ExecutionPayload}.
Context {W : Type} (h : handler httpE W).

(** What a publication answers, from the answer to its request. *)
Definition publish_outcome (sent : result Response string) :
    outcome (result (FixedBytes 32) BeaconError) :=
  match sent with
  | Err e => Done (Err (BE_Http e))
  | Ok resp =>
      if is_success resp then
        match json_of_body (T := json) (body_bytes resp) with
        | Err e => Done (Err (BE_Deserialize e))
        | Ok body =>
            match block_root_bytes body with
            | None => Done (Err (BE_Sse "no block_root in response"))
            | Some bytes => let! arr := copy_from_slice 32 bytes in Done (Ok arr)
            end
        end
      else Done (Err (api_error resp))
  end.

Lemma api_publish_block_run self block submission_type w :
  run_value h (api_publish_block self block submission_type) w =
  match to_value (bbb_execution_payload (sbc_body block)) with
  | Err e => Done (Err (BE_Sse ("serialization error: " +:+ e)))
  | Ok payload =>
      publish_outcome (fst (h _ (HttpPost (api_url self +:+ "eth/v1/builder/blocks")
        (content_type submission_type) (publish_body block payload)) w))
  end.
Proof.
  unfold run_value, api_publish_block. rewrite http_try_ret.
  destruct (to_value _) as [payload|e]; cbn [map_err]; [|done].
  cbn [mbind prog_mbind prog_bind perform run].
  destruct (h _ _ w) as [[resp|e] w']; cbn [fst publish_outcome];
    rewrite http_try_ret; cbn [map_err]; [|done].
  rewrite http_reject. destruct (is_success resp); cbn [negb]; [|done].
  rewrite http_try_ret. destruct (json_of_body _) as [body|e]; cbn [map_err]; [|done].
  rewrite http_try_ret. destruct (block_root_bytes body) as [bytes|]; cbn [ok_or]; [|done].
  by destruct (copy_from_slice 32 bytes).
Qed.

(** C40: Publishing a block panics exactly when the beacon node accepts it and answers
    with a root, written in hex after a [0x], that is not 32 bytes long; every
    other answer is returned as a value or as an error. *)
Theorem publish_block_panics_iff self block submission_type w :
  (exists msg, run_value h (api_publish_block self block submission_type) w = Panicked msg) <->
  exists payload resp body bytes,
    to_value (bbb_execution_payload (sbc_body block)) = Ok payload /\
    fst (h _ (HttpPost (api_url self +:+ "eth/v1/builder/blocks")
                (content_type submission_type) (publish_body block payload)) w) = Ok resp /\
    is_success resp = true /\
    json_of_body (body_bytes resp) = Ok body /\
    block_root_bytes body = Some bytes /\
    Z.of_nat (length bytes) <> 32.
Proof.
  rewrite api_publish_block_run. split.
  - intros [msg Hmsg]. destruct (to_value _) as [payload|e]; [|done].
    exists payload. unfold publish_outcome in Hmsg.
    destruct (fst _) as [resp|e]; [|done]. exists resp.
    destruct (is_success resp) eqn:?; [|done].
    destruct (json_of_body _) as [body|e] eqn:?; [|done]. exists body.
    destruct (block_root_bytes body) as [bytes|] eqn:?; [|done]. exists bytes.
    do 5 (split; [done|]). apply copy_from_slice_panics.
    destruct (copy_from_slice 32 bytes); [done|eauto].
  - intros (payload & resp & body & bytes & -> & Hresp & Hok & Hbody & Hbytes & Hlen).
    rewrite Hresp. unfold publish_outcome. rewrite Hok, Hbody, Hbytes.
    apply copy_from_slice_panics in Hlen as [msg ->]. by exists msg.
Qed.

End publish.
