(* ===== verification/Commands.v ===== *)
(** * The beacon service and its handles

    The task that runs the calls to the beacon node for the rest of the program
    ([gateway/src/beacon/service/mod.rs]) and the handles through which the program
    reaches it ([service/handle.rs]).  A handle sends a command on a queue, with
    the sending end of a fresh one-shot channel; the service answers every command
    with the future of the call, which the handle then awaits.

    The one-shot channels are numbered, and their contents kept with the type that
    the command asks for.  A system state is the queue, the channels and one call of
    interest; the other handles, the service and the runtime take steps around it. *)

From stdpp Require Import gmap.
From S2P Require Import Prelude Effects Text External Concrete Crypto Entity Beacon.

(** What a call to the beacon node answers. *)
Inductive answer : Type :=
| A_SyncStatus | A_ForkData | A_ProposerDuties | A_KnownValidator | A_PublishBlock.

#[export] Instance answer_eq_dec : EqDecision answer.
Proof. solve_decision. Defined.

Section service.
Context `{Blst}.

Definition answer_type (a : answer) : Type :=
  match a with
  | A_SyncStatus => SyncStatus
  | A_ForkData => ForkDatas
  | A_ProposerDuties => list ProposerDuty
  | A_KnownValidator => KnownValidator
  | A_PublishBlock => FixedBytes 32
  end.

Definition BoxedFuture (a : answer) : Type := prog httpE (result (answer_type a) BeaconError).

Class BeaconApi (API : Type) : Type := {
  call_sync_status : API -> BoxedFuture A_SyncStatus;
  call_proposer_duties : API -> Z -> BoxedFuture A_ProposerDuties;
  call_get_fork_data : API -> BoxedFuture A_ForkData;
  call_get_known_validator : API -> BlsPublicKey -> BoxedFuture A_KnownValidator;
  call_publish_block : API -> SignedBeaconBlockContent -> SubmissionType -> BoxedFuture A_PublishBlock;
}.

#[export] Instance BeaconNodeApi_BeaconApi `{!HexLib, !JsonBody SyncStatusResponse,
    !JsonBody ProposerDutiesResponse, !JsonBody GetForkResponse, !JsonBody ValidatorResponse,
    !JsonBody json, !JsonValue ExecutionPayload} : BeaconApi BeaconNodeApi := {|
  call_sync_status := api_sync_status;
  call_proposer_duties := api_proposer_duties;
  call_get_fork_data := api_get_fork_data;
  call_get_known_validator := api_get_known_validator;
  call_publish_block := api_publish_block;
|}.

(** [oneshot::Sender<BoxedFuture<..>>]: the number of its channel. *)
Definition Sender (a : answer) : Type := nat.

Inductive BeaconCommands : Type :=
| Command_SyncStatus (tx : Sender A_SyncStatus)
| Command_ForkData (tx : Sender A_ForkData)
| Command_ProposerDuties (epoch : Z) (tx : Sender A_ProposerDuties)
| Command_KnownValidator (pubkey : BlsPublicKey) (tx : Sender A_KnownValidator)
| Command_PublishBlock (block : SignedBeaconBlockContent) (submission_type : SubmissionType)
    (tx : Sender A_PublishBlock).

(** The sender that a command carries. *)
Definition command_tx (c : BeaconCommands) : nat :=
  match c with
  | Command_SyncStatus tx => tx
  | Command_ForkData tx => tx
  | Command_ProposerDuties _ tx => tx
  | Command_KnownValidator _ tx => tx
  | Command_PublishBlock _ _ tx => tx
  end.

(** A one-shot channel: empty, holding its value, or missing one of its ends. *)
Inductive oneshot : Type :=
| Empty
| Sent {a : answer} (fut : BoxedFuture a)
| SenderDropped
| ReceiverDropped.

Record Bus : Type := {
  command_rx : list BeaconCommands;
  oneshots : gmap nat oneshot;
  serving : bool;
}.

Definition set_oneshots (f : gmap nat oneshot -> gmap nat oneshot) (b : Bus) : Bus :=
  {| command_rx := command_rx b; oneshots := f (oneshots b); serving := serving b |}.

(** [tx.send(fut)]: nothing happens when the receiver is gone. *)
Definition oneshot_send {a} (tx : nat) (fut : BoxedFuture a) (b : Bus) : Bus :=
  match oneshots b !! tx with
  | Some Empty => set_oneshots <[tx := Sent fut]> b
  | _ => b
  end.

(** What the receiver of channel [rx] finds. *)
Definition oneshot_receive {a : answer} (rx : nat) (b : Bus) :
    poll (result (BoxedFuture a) string) :=
  match oneshots b !! rx with
  | Some (@Sent a' fut) =>
      match decide (a' = a) with
      | left e => Ready (Ok (eq_rect a' BoxedFuture fut a e))
      | right _ => Pending
      end
  | Some SenderDropped => Ready (Err "channel closed")
  | _ => Pending
  end.

(** ** The service *)

Context {API : Type} `{!BeaconApi API}.

Record BeaconService : Type := { service_api : API }.

Definition Bus_new : Bus := {| command_rx := []; oneshots := ∅; serving := true |}.

(** The service, and the channel between it and its handles. *)
Definition BeaconService_new (api : API) : BeaconService * Bus :=
  ({| service_api := api |}, Bus_new).

Definition BeaconService_sync_status (self : BeaconService) : BoxedFuture A_SyncStatus :=
  call_sync_status (service_api self).
Definition BeaconService_get_fork_data (self : BeaconService) : BoxedFuture A_ForkData :=
  call_get_fork_data (service_api self).
Definition BeaconService_proposer_duties (self : BeaconService) (epoch : Z) :
    BoxedFuture A_ProposerDuties :=
  call_proposer_duties (service_api self) epoch.
Definition BeaconService_get_known_validator (self : BeaconService) (pubkey : BlsPublicKey) :
    BoxedFuture A_KnownValidator :=
  call_get_known_validator (service_api self) pubkey.
Definition BeaconService_publish_block (self : BeaconService) (block : SignedBeaconBlockContent)
    (submission_type : SubmissionType) : BoxedFuture A_PublishBlock :=
  call_publish_block (service_api self) block submission_type.

(** One command taken from the queue. *)
Definition BeaconService_serve (self : BeaconService) (b : Bus) (command : BeaconCommands) : Bus :=
  match command with
  | Command_SyncStatus tx =>
      let fut := BeaconService_sync_status self in oneshot_send tx fut b
  | Command_ForkData tx =>
      let fut := BeaconService_get_fork_data self in oneshot_send tx fut b
  | Command_ProposerDuties epoch tx =>
      let fut := BeaconService_proposer_duties self epoch in oneshot_send tx fut b
  | Command_KnownValidator pubkey tx =>
      let fut := BeaconService_get_known_validator self pubkey in oneshot_send tx fut b
  | Command_PublishBlock block submission_type tx =>
      let fut := BeaconService_publish_block self block submission_type in
      oneshot_send tx fut b
  end.

(** A poll of the service drains the queue and is always pending. *)
Definition BeaconService_poll (self : BeaconService) (b : Bus) : poll unit * Bus :=
  let b' := {| command_rx := []; oneshots := oneshots b; serving := serving b |} in
  (Pending, fold_left (BeaconService_serve self) (command_rx b) b').

(** The runtime drops the service, with the commands in its queue: their senders
    are dropped. *)
Definition drop_sender (m : gmap nat oneshot) (c : BeaconCommands) : gmap nat oneshot :=
  match m !! command_tx c with
  | Some Empty => <[command_tx c := SenderDropped]> m
  | _ => m
  end.

Definition BeaconService_drop (b : Bus) : Bus :=
  {| command_rx := []; oneshots := fold_left drop_sender (command_rx b) (oneshots b);
     serving := false |}.

(** ** The handles *)

(** A call through a handle: about to send its command, waiting on the receiver of
    its channel, running the future it received, or failed. *)
Inductive handle_call (a : answer) : Type :=
| Sending (command : Sender a -> BeaconCommands)
| Waiting (rx : nat)
| Running (fut : BoxedFuture a)
| Failed (e : BeaconError).
#[global] Arguments Sending {a} command.
#[global] Arguments Waiting {a} rx.
#[global] Arguments Running {a} fut.
#[global] Arguments Failed {a} e.

(** [self.to_service.send(command)]: fails when the service is gone. *)
Definition to_service_send (c : BeaconCommands) (b : Bus) : option Bus :=
  if serving b then
    Some {| command_rx := command_rx b ++ [c];
            oneshots := <[command_tx c := Empty]> (oneshots b);
            serving := true |}
  else None.

(** [oneshot::channel()]: a channel that was never used. *)
Definition new_oneshot (b : Bus) : nat := fresh (dom (oneshots b)).

(** A poll of the call, up to the future it awaits. *)
Definition handle_poll {a} (b : Bus) (call : handle_call a) : Bus * handle_call a :=
  match call with
  | Sending command =>
      let tx := new_oneshot b in
      match to_service_send (command tx) b with
      | Some b' => (b', Waiting tx)
      | None => (b, Failed (BE_Channel "channel closed"))
      end
  | Waiting rx =>
      match oneshot_receive rx b with
      | Ready (Ok fut) => (b, Running fut)
      | Ready (Err e) => (b, Failed (BE_Channel e))
      | Pending => (b, Waiting rx)
      end
  | Running _ | Failed _ => (b, call)
  end.

Definition BeaconHandle_sync_status : handle_call A_SyncStatus :=
  Sending (fun tx => Command_SyncStatus tx).
Definition BeaconHandle_get_fork_data : handle_call A_ForkData :=
  Sending (fun tx => Command_ForkData tx).
Definition BeaconHandle_get_known_validator (pubkey : BlsPublicKey) :
    handle_call A_KnownValidator :=
  Sending (fun tx => Command_KnownValidator pubkey tx).
Definition BeaconHandle_proposer_duties (epoch : Z) : handle_call A_ProposerDuties :=
  Sending (fun tx => Command_ProposerDuties epoch tx).
Definition BeaconHandle_publish_block (block : SignedBeaconBlockContent)
    (submission_type : SubmissionType) : handle_call A_PublishBlock :=
  Sending (fun tx => Command_PublishBlock block submission_type tx).

(** ** The system around one call *)

Section system.
Variable self : BeaconService.

(** A poll of the call, of the service, and of the call again. *)
Definition settle {a} (b : Bus) (call : handle_call a) : handle_call a :=
  let '(b1, call1) := handle_poll b call in
  snd (handle_poll (snd (BeaconService_poll self b1)) call1).

Inductive system_step {a} : Bus * handle_call a -> Bus * handle_call a -> Prop :=
| step_call b call : system_step (b, call) (handle_poll b call)
| step_service b call :
    serving b = true -> system_step (b, call) (snd (BeaconService_poll self b), call)
| step_send b call c b' :
    command_tx c = new_oneshot b -> to_service_send c b = Some b' ->
    system_step (b, call) (b', call)
| step_cancel b call rx :
    call <> Waiting rx ->
    system_step (b, call) (set_oneshots <[rx := ReceiverDropped]> b, call)
| step_drop b call : system_step (b, call) (BeaconService_drop b, call).

(** The methods of a handle, with the calls of the API they stand for. *)
Inductive handle_method : forall a, handle_call a -> BoxedFuture a -> Prop :=
| method_sync_status :
    handle_method A_SyncStatus BeaconHandle_sync_status (call_sync_status (service_api self))
| method_get_fork_data :
    handle_method A_ForkData BeaconHandle_get_fork_data (call_get_fork_data (service_api self))
| method_get_known_validator pubkey :
    handle_method A_KnownValidator (BeaconHandle_get_known_validator pubkey)
      (call_get_known_validator (service_api self) pubkey)
| method_proposer_duties epoch :
    handle_method A_ProposerDuties (BeaconHandle_proposer_duties epoch)
      (call_proposer_duties (service_api self) epoch)
| method_publish_block block submission_type :
    handle_method A_PublishBlock (BeaconHandle_publish_block block submission_type)
      (call_publish_block (service_api self) block submission_type).

End system.
End service.

(** ** Lemmas *)

Section lemmas.
Context `{Blst} {API : Type} `{!BeaconApi API}.
Variable self : BeaconService (API := API).

Lemma oneshot_send_lookup {a} (tx rx : nat) (fut : BoxedFuture a) b :
  oneshots (oneshot_send tx fut b) !! rx =
  match oneshots b !! rx with
  | Some Empty => if decide (tx = rx) then Some (Sent fut) else Some Empty
  | o => o
  end.
Proof.
  unfold oneshot_send. destruct (decide (tx = rx)) as [->|Hne].
  - destruct (oneshots b !! rx) as [[]|] eqn:Hb; try done. simpl.
    by rewrite lookup_insert_eq.
  - transitivity (oneshots b !! rx); [|by destruct (oneshots b !! rx) as [[]|]].
    destruct (oneshots b !! tx) as [[]|]; simpl; [by apply lookup_insert_ne|done..].
Qed.

Lemma oneshot_send_serving {a} tx (fut : BoxedFuture a) b :
  serving (oneshot_send tx fut b) = serving b.
Proof. unfold oneshot_send. by destruct (oneshots b !! tx) as [[]|]. Qed.

(** Serving a command is one send on its channel. *)
Lemma serve_is_send c :
  exists a (fut : BoxedFuture a), forall b,
    BeaconService_serve self b c = oneshot_send (command_tx c) fut b.
Proof. destruct c; by do 2 eexists. Qed.

Lemma serve_others cs rx b :
  filter (fun c => command_tx c = rx) cs = [] \/ oneshots b !! rx <> Some Empty ->
  oneshots (fold_left (BeaconService_serve self) cs b) !! rx = oneshots b !! rx.
Proof.
  revert b. induction cs as [|c cs IH]; intros b Hc; [done|]. cbn [fold_left].
  destruct (serve_is_send c) as (a & fut & Hs). rewrite Hs.
  rewrite filter_cons in Hc.
  assert (Hb : oneshots (oneshot_send (command_tx c) fut b) !! rx = oneshots b !! rx).
  { rewrite oneshot_send_lookup. destruct (decide (command_tx c = rx)).
    - destruct Hc as [Hc|Hc]; [done|]. by destruct (oneshots b !! rx) as [[]|].
    - by destruct (oneshots b !! rx) as [[]|]. }
  rewrite IH, Hb; [done|]. rewrite Hb. destruct Hc as [Hc|Hc]; [left|by right].
  by destruct (decide (command_tx c = rx)).
Qed.

Lemma serve_serving cs b : serving (fold_left (BeaconService_serve self) cs b) = serving b.
Proof.
  revert b. induction cs as [|c cs IH]; intros b; [done|]. cbn [fold_left].
  destruct (serve_is_send c) as (a & fut & Hs). by rewrite Hs, IH, oneshot_send_serving.
Qed.

Lemma serve_queue cs b :
  command_rx (fold_left (BeaconService_serve self) cs b) = command_rx b.
Proof.
  revert b. induction cs as [|c cs IH]; intros b; [done|]. cbn [fold_left].
  destruct (serve_is_send c) as (a & fut & Hs). rewrite Hs, IH. unfold oneshot_send.
  by destruct (oneshots b !! _) as [[]|].
Qed.

(** The command that the service answers with [fut]. *)
Definition answers {a} (command : Sender a -> BeaconCommands) (fut : BoxedFuture a) : Prop :=
  forall tx b, command_tx (command tx) = tx /\
    BeaconService_serve self b (command tx) = oneshot_send tx fut b.

Lemma handle_method_answers a (call : handle_call a) fut :
  handle_method self a call fut -> exists command, call = Sending command /\ answers command fut.
Proof. destruct 1; eexists; (split; [reflexivity|]); by intros tx b. Qed.

Section one_call.
Context {a : answer} (command : Sender a -> BeaconCommands) (fut : BoxedFuture a).
Hypothesis Hanswers : answers command fut.

Lemma serve_ours cs rx b :
  filter (fun c => command_tx c = rx) cs = [command rx] -> oneshots b !! rx = Some Empty ->
  oneshots (fold_left (BeaconService_serve self) cs b) !! rx = Some (Sent fut).
Proof.
  revert b. induction cs as [|c cs IH]; intros b; [done|].
  rewrite filter_cons. cbn [fold_left]. destruct (decide (command_tx c = rx)) as [Hc|Hc].
  - intros [= -> Hcs] Hb. destruct (Hanswers rx b) as [_ Hs]. rewrite Hs.
    rewrite serve_others by by left. rewrite oneshot_send_lookup, Hb. by rewrite decide_True.
  - intros Hcs Hb. destruct (serve_is_send c) as (a' & fut' & Hs). rewrite Hs. apply IH; [done|].
    rewrite oneshot_send_lookup, Hb. by rewrite decide_False.
Qed.

(** Our command is either in the queue, once, or answered; or its sender is gone
    with the service. *)
Definition wait_ok (rx : nat) (b : Bus) : Prop :=
  (oneshots b !! rx = Some Empty /\ serving b = true /\
   filter (fun c => command_tx c = rx) (command_rx b) = [command rx]) \/
  oneshots b !! rx = Some (Sent fut) \/
  (oneshots b !! rx = Some SenderDropped /\ serving b = false).

Definition call_ok (b : Bus) (call : handle_call a) : Prop :=
  match call with
  | Sending command' => command' = command
  | Waiting rx => wait_ok rx b
  | Running fut' => fut' = fut
  | Failed e => serving b = false /\ e = BE_Channel "channel closed"
  end.

(** The senders in the queue belong to channels that were opened. *)
Definition bus_ok (b : Bus) : Prop :=
  Forall (fun c => is_Some (oneshots b !! command_tx c)) (command_rx b).

Lemma new_oneshot_None b : oneshots b !! new_oneshot b = None.
Proof. apply not_elem_of_dom, is_fresh. Qed.

Lemma filter_fresh b rx :
  bus_ok b -> oneshots b !! rx = None ->
  filter (fun c => command_tx c = rx) (command_rx b) = [].
Proof.
  unfold bus_ok. intros Hb Hrx. induction Hb as [|c cs Hc Hcs IH]; [done|].
  rewrite filter_cons, decide_False; [done|]. intros Heq. rewrite Heq, Hrx in Hc. by destruct Hc.
Qed.

Lemma bus_ok_send b b' c :
  bus_ok b -> to_service_send c b = Some b' -> bus_ok b'.
Proof.
  unfold to_service_send, bus_ok. intros Hb. destruct (serving b); [intros [= <-]|done]. simpl.
  apply Forall_app. split.
  - apply (Forall_impl _ _ _ Hb). intros c' [o Ho].
    destruct (decide (command_tx c = command_tx c')) as [->|Hne].
    + by rewrite lookup_insert_eq.
    + rewrite lookup_insert_ne by done. by exists o.
  - constructor; [|constructor]. by rewrite lookup_insert_eq.
Qed.

(** A send on another, fresh, channel. *)
Lemma wait_ok_send b b' c rx :
  command_tx c = new_oneshot b -> to_service_send c b = Some b' ->
  wait_ok rx b -> wait_ok rx b'.
Proof.
  intros Hc. unfold to_service_send. destruct (serving b) eqn:Hs; [intros [= <-]|done].
  intros Hw. assert (Hne : command_tx c <> rx).
  { intros <-. pose proof (new_oneshot_None b) as Hn. rewrite <- Hc in Hn.
    destruct Hw as [[Hw _]|[Hw|[Hw _]]]; by rewrite Hn in Hw. }
  unfold wait_ok; simpl. rewrite lookup_insert_ne by done.
  rewrite filter_app, filter_cons, decide_False, filter_nil, app_nil_r by done.
  destruct Hw as [(? & _ & ?)|[?|[_ ?]]]; [auto..|congruence].
Qed.

Lemma wait_ok_new b b' :
  bus_ok b -> to_service_send (command (new_oneshot b)) b = Some b' ->
  wait_ok (new_oneshot b) b'.
Proof.
  intros Hb. unfold to_service_send. destruct (serving b) eqn:Hs; [intros [= <-]|done].
  destruct (Hanswers (new_oneshot b) b) as [Htx _].
  left. simpl. rewrite Htx, lookup_insert_eq. split; [done|]. split; [done|].
  rewrite filter_app, filter_cons, decide_True, filter_nil by done.
  by rewrite filter_fresh by (done || apply new_oneshot_None).
Qed.

Lemma wait_ok_poll b rx :
  serving b = true -> wait_ok rx b ->
  oneshots (snd (BeaconService_poll self b)) !! rx = Some (Sent fut).
Proof.
  intros Hs Hw. unfold BeaconService_poll; cbn [snd].
  destruct Hw as [(He & _ & Hf)|[He|[_ ?]]]; [|rewrite serve_others; [done|]|congruence].
  - by apply serve_ours.
  - right. simpl. by rewrite He.
Qed.

Lemma drop_sender_lookup m c rx :
  drop_sender m c !! rx =
  match m !! rx with
  | Some Empty => if decide (command_tx c = rx) then Some SenderDropped else Some Empty
  | o => o
  end.
Proof.
  unfold drop_sender. destruct (decide (command_tx c = rx)) as [->|Hne].
  - destruct (m !! rx) as [[]|] eqn:Hm; try done. by rewrite lookup_insert_eq.
  - transitivity (m !! rx); [|by destruct (m !! rx) as [[]|]].
    destruct (m !! command_tx c) as [[]|]; [by apply lookup_insert_ne|done..].
Qed.

Lemma drop_others cs m rx :
  m !! rx <> Some Empty -> fold_left drop_sender cs m !! rx = m !! rx.
Proof.
  revert m. induction cs as [|c cs IH]; intros m Hm; [done|]. cbn [fold_left].
  assert (Hd : drop_sender m c !! rx = m !! rx).
  { rewrite drop_sender_lookup. by destruct (m !! rx) as [[]|]. }
  by rewrite IH; rewrite Hd.
Qed.

Lemma drop_ours cs m rx c :
  filter (fun c => command_tx c = rx) cs = [c] -> m !! rx = Some Empty ->
  fold_left drop_sender cs m !! rx = Some SenderDropped.
Proof.
  revert m. induction cs as [|c' cs IH]; intros m; [done|]. cbn [fold_left].
  rewrite filter_cons. destruct (decide (command_tx c' = rx)) as [Hc|Hc]; intros Hf Hm.
  - assert (Hd : drop_sender m c' !! rx = Some SenderDropped)
      by by rewrite drop_sender_lookup, Hm, decide_True.
    by rewrite drop_others; rewrite Hd.
  - apply IH; [done|]. by rewrite drop_sender_lookup, Hm, decide_False.
Qed.

Lemma wait_ok_drop b rx : wait_ok rx b -> wait_ok rx (BeaconService_drop b).
Proof.
  unfold wait_ok, BeaconService_drop; simpl. intros [(He & _ & Hf)|[He|[He _]]].
  - right; right. split; [|done]. by eapply drop_ours.
  - right; left. by rewrite drop_others; rewrite He.
  - right; right. split; [|done]. by rewrite drop_others; rewrite He.
Qed.

Lemma wait_ok_receive b rx :
  wait_ok rx b -> call_ok b (snd (handle_poll b (Waiting (a := a) rx))) /\
  (oneshots b !! rx = Some (Sent fut) -> snd (handle_poll b (Waiting rx)) = Running fut).
Proof.
  intros Hw. simpl. unfold oneshot_receive.
  destruct Hw as [(He & Hs & Hf)|[He|[He Hs]]]; rewrite He; cbn.
  - split; [|done]. left. auto.
  - rewrite (decide_True_pi (P := a = a) eq_refl). done.
  - done.
Qed.

Lemma handle_poll_ok b call :
  bus_ok b -> call_ok b call ->
  bus_ok (fst (handle_poll b call)) /\
  call_ok (fst (handle_poll b call)) (snd (handle_poll b call)).
Proof.
  intros Hb Hc. destruct call as [command'|rx|fut'|e]; [|..]; cbn [call_ok] in Hc.
  - subst command'. simpl.
    destruct (to_service_send _ b) as [b'|] eqn:Hs; simpl.
    + split; [by eapply bus_ok_send|by apply wait_ok_new].
    + split; [done|]. unfold to_service_send in Hs. by destruct (serving b).
  - destruct (wait_ok_receive b rx Hc) as [Hr _]. revert Hr. simpl.
    by destruct (oneshot_receive rx b) as [[fut'|e]|].
  - done.
  - done.
Qed.

(** Every step of the system keeps the call and its command. *)
Lemma system_step_ok (s s' : Bus * handle_call a) :
  system_step self s s' -> bus_ok (fst s) /\ call_ok (fst s) (snd s) ->
  bus_ok (fst s') /\ call_ok (fst s') (snd s').
Proof.
  destruct 1 as [b call|b call Hs|b call c b' Hc Hs|b call rx Hrx|b call];
    cbn [fst snd]; intros [Hb Hcall].
  - by apply handle_poll_ok.
  - split.
    + unfold bus_ok, BeaconService_poll; cbn [snd]. rewrite serve_queue. by constructor.
    + destruct call as [command'|rx|fut'|e]; cbn [call_ok] in *; [done| |done|destruct Hcall; congruence].
      right; left. by apply wait_ok_poll.
  - split; [by eapply bus_ok_send|].
    destruct call as [command'|rx|fut'|e]; cbn [call_ok] in *; [done| |done|].
    + by eapply wait_ok_send.
    + unfold to_service_send in Hs. destruct Hcall as [Hn _]. by rewrite Hn in Hs.
  - split.
    + apply (Forall_impl _ _ _ Hb). intros c [o Ho]. simpl.
      destruct (decide (rx = command_tx c)) as [->|Hne].
      * by rewrite lookup_insert_eq.
      * rewrite lookup_insert_ne by done. by exists o.
    + destruct call as [command'|rx'|fut'|e]; cbn [call_ok] in *; [done| |done|done].
      assert (Hne : rx <> rx') by (intros ->; by apply Hrx).
      unfold wait_ok in *; simpl. by rewrite lookup_insert_ne.
  - split; [by constructor|].
    destruct call as [command'|rx'|fut'|e]; cbn [call_ok] in *; [done| |done|].
    + by apply wait_ok_drop.
    + by destruct Hcall.
Qed.

Lemma system_reachable_ok b call :
  rtc (system_step self) (Bus_new, Sending command) (b, call) -> bus_ok b /\ call_ok b call.
Proof.
  intros Hr. change (bus_ok (fst (b, call)) /\ call_ok (fst (b, call)) (snd (b, call))).
  assert (H0 : bus_ok (fst (Bus_new, Sending command)) /\
               call_ok (fst (Bus_new, Sending command)) (snd (Bus_new, Sending command)))
    by (split; [constructor|done]).
  revert H0. induction Hr as [s|s1 s2 s3 Hstep _ IH]; [done|].
  intros H0. apply IH. by apply (system_step_ok s1).
Qed.

(** A served call that is not there yet takes one poll of each side. *)
Lemma settle_running b call :
  bus_ok b -> call_ok b call -> serving b = true -> settle self b call = Running fut.
Proof.
  intros Hb Hc Hs. unfold settle.
  destruct (handle_poll b call) as [b1 call1] eqn:Hp.
  pose proof (handle_poll_ok b call Hb Hc) as [Hb1 Hc1]. rewrite Hp in Hb1, Hc1. cbn [fst snd] in *.
  assert (Hs1 : serving b1 = true).
  { destruct call as [command'|rx|fut'|e]; simpl in Hp.
    - unfold to_service_send in Hp. rewrite Hs in Hp. by simplify_eq.
    - by destruct (oneshot_receive rx b) as [[]|]; simplify_eq.
    - by simplify_eq.
    - by simplify_eq. }
  destruct call1 as [command'|rx|fut'|e]; cbn [call_ok] in Hc1.
  - exfalso. destruct call as [command''|rx|fut'|e]; simpl in Hp.
    + destruct (to_service_send _ b); simplify_eq.
    + by destruct (oneshot_receive rx b) as [[]|].
    + done.
    + done.
  - pose proof (wait_ok_poll b1 rx Hs1 Hc1) as Hrx.
    apply wait_ok_receive; [|done]. by right; left.
  - by subst fut'.
  - destruct Hc1. congruence.
Qed.

End one_call.

(** C13: a call through a handle is the call of the API.  Whatever the other handles,
    the service and the runtime do around it, the future that the call receives is
    the one its own command names; while the service lives, one poll of the call,
    of the service and of the call again is enough to receive it; and the call
    fails only when the service has been dropped, as a closed channel. *)
Theorem handle_call_is_api_call {a} (call st : handle_call a) (fut : BoxedFuture a) (b : Bus) :
  handle_method self a call fut ->
  rtc (system_step self) (Bus_new, call) (b, st) ->
  (forall fut', st = Running fut' -> fut' = fut) /\
  (serving b = true -> settle self b st = Running fut) /\
  (forall e, st = Failed e -> serving b = false /\ e = BE_Channel "channel closed").
Proof.
  intros Hm Hr. apply handle_method_answers in Hm as (command & -> & Hans).
  destruct (system_reachable_ok command fut Hans b st Hr) as [Hb Hc]. split; [|split].
  - by intros fut' ->.
  - by apply settle_running with (command := command).
  - by intros e ->.
Qed.

End lemmas.

(** ** A call with another one in the queue *)

Section sample.

Instance sample_api : BeaconApi unit := {
  call_sync_status _ := Ret (Err (BE_Sse "syncing"));
  call_proposer_duties _ epoch := Ret (Err (BE_Sse (u64_to_string epoch)));
  call_get_fork_data _ := Ret (Err (BE_Sse "fork"));
  call_get_known_validator _ _ := Ret (Err (BE_Sse "validator"));
  call_publish_block _ _ _ := Ret (Err (BE_Sse "block"));
}.

Definition sample_service : BeaconService (API := unit) := fst (BeaconService_new tt).

(** Another handle's command is first in the queue. *)
Definition sample_bus : Bus :=
  default Bus_new (to_service_send (Command_SyncStatus (new_oneshot Bus_new)) Bus_new).

Lemma handle_call_is_api_call_witness :
  settle sample_service sample_bus (BeaconHandle_proposer_duties 7) =
  Running (Ret (Err (BE_Sse "7"))).
Proof.
  assert (Hr : rtc (system_step sample_service)
            (Bus_new, BeaconHandle_proposer_duties 7) (sample_bus, BeaconHandle_proposer_duties 7)).
  { apply rtc_once. by eapply step_send with (c := Command_SyncStatus (new_oneshot Bus_new)). }
  pose proof (handle_call_is_api_call sample_service _ _ _ _
    (method_proposer_duties sample_service 7) Hr) as (_ & H & _).
  apply H. reflexivity.
Defined.

End sample.
