(* ===== verification/BeaconEvents.v ===== *)
(** * The event streams of the beacon node

    The gateway's parser of server-sent events, the stream that merges the two
    subscriptions and the client that opens them ([gateway/src/beacon/events/mod.rs],
    [events/stream.rs]).  A stream is a state with a poll function; the stream of a
    response's chunks is the list of what its polls answer, and is pending once the
    list is used up. *)

From S2P Require Import Prelude Effects Text External Concrete Crypto Entity Beacon.

(** ** Streams *)

Class Stream (S T : Type) : Type := poll_next : S -> poll (option T) * S.

#[export] Instance list_stream T : Stream (list (poll (option T))) T := fun l =>
  match l with [] => (Pending, []) | p :: l' => (p, l') end.

(** The answers to the next [n] polls. *)
Fixpoint polls {S T} `{!Stream S T} (n : nat) (s : S) : list (poll (option T)) * S :=
  match n with
  | O => ([], s)
  | Datatypes.S n' =>
      let '(p, s') := poll_next s in
      let '(ps, s'') := polls n' s' in (p :: ps, s'')
  end.

(** The items that were delivered without an error. *)
Definition delivered {A Er} (ps : list (poll (option (result A Er)))) : list A :=
  omap (fun p => match p with Ready (Some (Ok a)) => Some a | _ => None end) ps.

(** ** [SseByteStream] *)

Section events.
Context `{!JsonDeserialize HeadEvent, !JsonDeserialize PayloadAttributesEvent}.

Definition RETRY_DELAY_SECS : Z := 5.

Abbreviation bytes_stream_t := (list (poll (option (result (list byte) BeaconError)))).

Record SseByteStream : Type := {
  sse_stream : bytes_stream_t;
  sse_buffer : list byte;
  sse_pending_events : list (result BeaconEvent BeaconError);
}.

Definition SseByteStream_new (stream : bytes_stream_t) : SseByteStream :=
  {| sse_stream := stream; sse_buffer := []; sse_pending_events := [] |}.

(** [l.windows(n)] *)
Fixpoint windows (n : nat) (l : list byte) : list (list byte) :=
  match l with
  | [] => []
  | _ :: l' => if (n <=? length l)%nat then take n l :: windows n l' else []
  end.

(** [iter.position(p)] *)
Fixpoint position {A} (p : A -> bool) (l : list A) : option nat :=
  match l with
  | [] => None
  | a :: l' => if p a then Some O else S <$> position p l'
  end.

(** The lines of an event: the type is that of the last [event] line, the data are
    joined by spaces. *)
Definition parse_line (acc : option string * string) (line : string) : option string * string :=
  let '(event_type, event_data) := acc in
  match strip_prefix "event: " line with
  | Some val => (Some (trim val), event_data)
  | None =>
      match strip_prefix "data: " line with
      | Some val =>
          let event_data := if String.eqb event_data "" then event_data
                            else event_data +:+ " " in
          (event_type, event_data +:+ trim val)
      | None => (event_type, event_data)
      end
  end.

Definition parse_event (data : list byte) : option (result BeaconEvent BeaconError) :=
  text ← from_utf8 data;
  let '(event_type, event_data) := fold_left parse_line (lines text) (None, "") in
  event_type ← event_type;
  if String.eqb event_data "" then None
  else if String.eqb event_type "head" then
    Some (map_err BE_Sse (map_ok Head (from_json (T := HeadEvent) event_data)))
  else if String.eqb event_type "payload_attributes" then
    Some (map_err BE_Sse
            (map_ok PayloadAttributesEv (from_json (T := PayloadAttributesEvent) event_data)))
  else None.

(** [drain_buffer]; every round but the last removes at least four bytes. *)
Fixpoint drain_buffer_fuel (fuel : nat) (buffer : list byte)
    (pending_events : list (result BeaconEvent BeaconError)) :
    list byte * list (result BeaconEvent BeaconError) :=
  match fuel with
  | O => (buffer, pending_events)
  | S fuel' =>
      match position (fun w => bool_decide (w = [x0a; x0a])) (windows 4 buffer) with
      | None => (buffer, pending_events)
      | Some pos =>
          let complete := take pos buffer in
          let buffer := drop (pos + 4) buffer in
          match complete with
          | [] => drain_buffer_fuel fuel' buffer pending_events
          | _ :: _ =>
              match parse_event complete with
              | Some event => drain_buffer_fuel fuel' buffer (pending_events ++ [event])
              | None => drain_buffer_fuel fuel' buffer pending_events
              end
          end
      end
  end.

Definition drain_buffer (buffer : list byte)
    (pending_events : list (result BeaconEvent BeaconError)) :
    list byte * list (result BeaconEvent BeaconError) :=
  drain_buffer_fuel (S (length buffer)) buffer pending_events.

(** The [while let] of [poll_next]. *)
Fixpoint sse_poll_chunks (stream : bytes_stream_t) (buffer : list byte) :
    poll (option (result BeaconEvent BeaconError)) * SseByteStream :=
  match stream with
  | [] | Pending :: _ =>
      (Pending, {| sse_stream := tail stream; sse_buffer := buffer; sse_pending_events := [] |})
  | Ready (Some (Ok data)) :: stream' =>
      let '(buffer, pending_events) := drain_buffer (buffer ++ data) [] in
      match pending_events with
      | event :: rest =>
          (Ready (Some event),
           {| sse_stream := stream'; sse_buffer := buffer; sse_pending_events := rest |})
      | [] => sse_poll_chunks stream' buffer
      end
  | Ready (Some (Err e)) :: stream' =>
      (Ready (Some (Err e)),
       {| sse_stream := stream'; sse_buffer := buffer; sse_pending_events := [] |})
  | Ready None :: stream' =>
      (Ready None, {| sse_stream := stream'; sse_buffer := buffer; sse_pending_events := [] |})
  end.

#[export] Instance SseByteStream_Stream :
    Stream SseByteStream (result BeaconEvent BeaconError) := fun self =>
  match sse_pending_events self with
  | event :: rest =>
      (Ready (Some event),
       {| sse_stream := sse_stream self; sse_buffer := sse_buffer self;
          sse_pending_events := rest |})
  | [] => sse_poll_chunks (sse_stream self) (sse_buffer self)
  end.

(** ** [stream.rs] *)

Section merged.
Context {P H : Type} `{!Stream P (result BeaconEvent BeaconError)}.
Context `{!Stream H (result BeaconEvent BeaconError)}.

Record BeaconEventsStream : Type := mkBeaconEventsStream {
  es_payload_attributes : P;
  es_new_head : H;
}.

Definition BeaconEventsStream_new (payload_attributes : P) (new_head : H) : BeaconEventsStream :=
  mkBeaconEventsStream payload_attributes new_head.

#[export] Instance BeaconEventsStream_Stream :
    Stream BeaconEventsStream (result BeaconEvent BeaconError) := fun self =>
  let '(pa, payload_attributes) := poll_next (es_payload_attributes self) in
  let poll_head :=
    let '(head, new_head) := poll_next (es_new_head self) in
    let self := mkBeaconEventsStream payload_attributes new_head in
    match head with
    | Ready (Some (Ok event)) => (Ready (Some (Ok event)), self)
    | Ready (Some (Err _)) => (Ready None, self)
    | Ready None => (Ready None, self)
    | Pending => (Pending, self)
    end in
  match pa with
  | Ready (Some (Ok event)) =>
      (Ready (Some (Ok event)), mkBeaconEventsStream payload_attributes (es_new_head self))
  | Ready (Some (Err _)) =>
      (Ready None, mkBeaconEventsStream payload_attributes (es_new_head self))
  | Ready None => poll_head
  | Pending => poll_head
  end.

End merged.

(** ** [BeaconEventsClient] *)

Record BeaconEventsClient : Type := { events_url : string }.

Definition BeaconEventsClient_new (url : string) : BeaconEventsClient := {| events_url := url |}.

(** [chunk.map_err(BeaconError::Http)] on the polls of the body. *)
Definition http_chunk (p : poll (option (result (list byte) string))) :
    poll (option (result (list byte) BeaconError)) :=
  match p with
  | Ready (Some chunk) => Ready (Some (map_err BE_Http chunk))
  | Ready None => Ready None
  | Pending => Pending
  end.

Definition subscribe_once (self : BeaconEventsClient) (topics : list string) :
    prog httpE (result SseByteStream BeaconError) :=
  let url := events_url self +:+ "eth/v1/events?topics=" +:+ String.concat "," topics in
  let? response := checked_get url in
  let byte_stream := map http_chunk (bytes_stream response) in
  Ret (Ok (SseByteStream_new byte_stream)).

(** [None] when the attempts are used up. *)
Fixpoint subscribe_with_retry (attempts : nat) (self : BeaconEventsClient)
    (topics : list string) : prog httpE (option SseByteStream) :=
  match attempts with
  | O => Ret None
  | S attempts' =>
      let! subscribed := subscribe_once self topics in
      match subscribed with
      | Ok s => Ret (Some s)
      | Err _ =>
          let! _ := perform (Sleep RETRY_DELAY_SECS) in
          subscribe_with_retry attempts' self topics
      end
  end.

Definition new_head (attempts : nat) (self : BeaconEventsClient) :
    prog httpE (option SseByteStream) := subscribe_with_retry attempts self ["head"].
Definition payload_attributes (attempts : nat) (self : BeaconEventsClient) :
    prog httpE (option SseByteStream) :=
  subscribe_with_retry attempts self ["payload_attributes"].

(** [BeaconConnection::stream] *)
Definition events_stream (attempts : nat) (self : BeaconEventsClient) :
    prog httpE (option (BeaconEventsStream (P := SseByteStream) (H := SseByteStream))) :=
  let! pa := payload_attributes attempts self in
  match pa with
  | None => Ret None
  | Some pa =>
      let! head := new_head attempts self in
      match head with
      | None => Ret None
      | Some head => Ret (Some (BeaconEventsStream_new pa head))
      end
  end.

End events.

(** ** Lemmas *)

Section byte_stream.
Context `{!JsonDeserialize HeadEvent, !JsonDeserialize PayloadAttributesEvent}.

Lemma windows_length n l w : In w (windows n l) -> length w = n.
Proof.
  induction l as [|b l IH]; [done|]. cbn [windows].
  destruct (n <=? length (b :: l))%nat eqn:Hn; [|done].
  apply Nat.leb_le in Hn. intros [<-|Hw]; [|by apply IH].
  rewrite length_take. lia.
Qed.

Lemma position_None {A} (p : A -> bool) l : (forall a, In a l -> p a = false) -> position p l = None.
Proof.
  induction l as [|a l IH]; [done|]. intros Hp. simpl. rewrite (Hp a) by by left.
  rewrite IH; [done|]. intros a' Ha. apply Hp. by right.
Qed.

(** A window of four bytes is never the two-byte separator. *)
Lemma drain_buffer_id buffer pending_events :
  drain_buffer buffer pending_events = (buffer, pending_events).
Proof.
  unfold drain_buffer. cbn [drain_buffer_fuel]. rewrite position_None; [done|].
  intros w Hw. apply windows_length in Hw. apply bool_decide_false. by intros ->.
Qed.

(** The chunks of data of a poll are only buffered. *)
Fixpoint after_data (stream : list (poll (option (result (list byte) BeaconError)))) :=
  match stream with
  | Ready (Some (Ok _)) :: stream' => after_data stream'
  | _ => stream
  end.

Definition no_event (p : poll (option (result (list byte) BeaconError))) :
    poll (option (result BeaconEvent BeaconError)) :=
  match p with
  | Ready (Some (Err e)) => Ready (Some (Err e))
  | Ready (Some (Ok _)) => Pending
  | Ready None => Ready None
  | Pending => Pending
  end.

Lemma sse_poll_chunks_spec stream buffer :
  exists buffer', sse_poll_chunks stream buffer =
    (no_event (fst (poll_next (after_data stream))),
     {| sse_stream := snd (poll_next (after_data stream)); sse_buffer := buffer';
        sse_pending_events := [] |}).
Proof.
  revert buffer. induction stream as [|[[[data|e]|]|] stream IH]; intros buffer;
    cbn [sse_poll_chunks after_data].
  - by exists buffer.
  - rewrite drain_buffer_id. apply IH.
  - by exists buffer.
  - by exists buffer.
  - by exists buffer.
Qed.

Lemma sse_polls_no_event n self :
  sse_pending_events self = [] -> delivered (fst (polls n self)) = [].
Proof.
  revert self. induction n as [|n IH]; intros self Hself; [done|]. cbn [polls].
  unfold poll_next at 1, SseByteStream_Stream. rewrite Hself.
  destruct (sse_poll_chunks_spec (sse_stream self) (sse_buffer self)) as [buffer ->].
  specialize (IH {| sse_stream := snd (poll_next (after_data (sse_stream self)));
                    sse_buffer := buffer; sse_pending_events := [] |} eq_refl).
  destruct (polls n _) as [ps s]. cbn [fst] in *. unfold delivered in *. cbn [omap list_omap].
  rewrite IH. by destruct (fst (poll_next (after_data (sse_stream self)))) as [[[]|]|].
Qed.

End byte_stream.

(** An interleaving of two lists. *)
Inductive interleaves {A} : list A -> list A -> list A -> Prop :=
| interleaves_nil : interleaves [] [] []
| interleaves_left a l r m : interleaves l r m -> interleaves (a :: l) r (a :: m)
| interleaves_right a l r m : interleaves l r m -> interleaves l (a :: r) (a :: m).

Section merging.

Abbreviation events_list := (list (poll (option (result BeaconEvent BeaconError)))).
Abbreviation merged := (BeaconEventsStream (P := events_list) (H := events_list)).

Lemma delivered_app {A Er} (ps qs : list (poll (option (result A Er)))) :
  delivered (ps ++ qs) = delivered ps ++ delivered qs.
Proof. apply omap_app. Qed.

Lemma interleaves_app {A} (l1 r1 m1 l2 r2 m2 : list A) :
  interleaves l1 r1 m1 -> interleaves l2 r2 m2 -> interleaves (l1 ++ l2) (r1 ++ r2) (m1 ++ m2).
Proof. induction 1; simpl; eauto using @interleaves. Qed.

(** What one poll takes from the two streams is what it delivers. *)
Lemma merged_poll (s : merged) :
  exists pa head,
    es_payload_attributes s = pa ++ es_payload_attributes (snd (poll_next s)) /\
    es_new_head s = head ++ es_new_head (snd (poll_next s)) /\
    interleaves (delivered pa) (delivered head) (delivered [fst (poll_next s)]).
Proof.
  destruct s as [pa head]. exists (take 1 pa).
  destruct pa as [|[[[ev|e]|]|] pa].
  2, 3: by exists []; repeat split; repeat constructor.
  all: exists (take 1 head); destruct head as [|[[[ev|e]|]|] head];
    by repeat split; repeat constructor.
Qed.

(** C32: the merged stream of the two subscriptions loses and reorders no event:
    after any number of polls, what it has delivered is an interleaving, in order,
    of the events that it took from the two streams. *)
Theorem merged_stream_interleaves n pa head :
  let '(ps, s) := polls n (BeaconEventsStream_new pa head : merged) in
  exists pa_taken head_taken,
    pa = pa_taken ++ es_payload_attributes s /\ head = head_taken ++ es_new_head s /\
    interleaves (delivered pa_taken) (delivered head_taken) (delivered ps).
Proof.
  unfold BeaconEventsStream_new.
  revert pa head. induction n as [|n IH]; intros pa head; cbn [polls].
  { exists [], []. repeat split; constructor. }
  destruct (merged_poll (mkBeaconEventsStream pa head)) as (pa1 & head1 & Hpa & Hhead & H1).
  destruct (poll_next (mkBeaconEventsStream pa head)) as [p [pa' head']]. cbn in Hpa, Hhead, H1.
  specialize (IH pa' head'). destruct (polls n _) as [ps s].
  destruct IH as (pa2 & head2 & Hpa2 & Hhead2 & H2).
  exists (pa1 ++ pa2), (head1 ++ head2).
  split; [by rewrite <- app_assoc, <- Hpa2|]. split; [by rewrite <- app_assoc, <- Hhead2|].
  change (p :: ps) with ([p] ++ ps). rewrite !delivered_app. by apply interleaves_app.
Qed.

End merging.

(** ** Subscribing *)

(** A node that answers a list of requests in turn, and the time spent asleep. *)
Definition script_handler : handler httpE (list (result Response string) * Z) := fun X e w =>
  let '(script, slept) := w in
  let answer := match script with [] => Err "no answer" | a :: _ => a end in
  match e in httpE X return X * (list (result Response string) * Z) with
  | HttpGet _ => (answer, (tail script, slept))
  | HttpPost _ _ _ => (answer, (tail script, slept))
  | Sleep secs => (tt, (script, slept + secs))
  end.

Definition refused (answer : result Response string) : bool :=
  match answer with Ok resp => negb (is_success resp) | Err _ => true end.

Section subscribing.
Context `{!JsonDeserialize HeadEvent, !JsonDeserialize PayloadAttributesEvent}.

Lemma subscribe_once_run self topics answer script slept :
  run script_handler (subscribe_once self topics) (answer :: script, slept) =
  (Done (match answer with
         | Err e => Err (BE_Http e)
         | Ok resp => if is_success resp
                      then Ok (SseByteStream_new (map http_chunk (bytes_stream resp)))
                      else Err (api_error resp)
         end), (script, slept)).
Proof.
  unfold subscribe_once. rewrite http_try_bind, checked_get_run. cbn [script_handler fst snd tail].
  destruct answer as [resp|e]; [|done]. by destruct (is_success resp).
Qed.

(** A subscription outlasts any number of refusals: given one attempt more, it
    answers the stream of the first accepted request, fresh and from its first
    byte, having slept five seconds after every refusal. *)
Theorem subscription_outlasts_refusals self topics (failures : list (result Response string))
    (resp : Response) rest attempts :
  forallb refused failures = true -> is_success resp = true ->
  (length failures < attempts)%nat ->
  run script_handler (subscribe_with_retry attempts self topics) (failures ++ Ok resp :: rest, 0) =
  (Done (Some (SseByteStream_new (map http_chunk (bytes_stream resp)))),
   (rest, RETRY_DELAY_SECS * Z.of_nat (length failures))).
Proof.
  intros Hf Hr. rewrite <- (Z.add_0_l (RETRY_DELAY_SECS * _)).
  generalize 0 as slept. revert attempts.
  induction failures as [|answer failures IH]; intros [|attempts] slept Hlen; try (simpl in Hlen; lia);
    cbn [subscribe_with_retry]; change (subscribe_once self topics ≫= ?f) with
      (prog_bind (subscribe_once self topics) f); rewrite run_bind; cbn [app];
    rewrite subscribe_once_run.
  - rewrite Hr. simpl. by rewrite Z.add_0_r.
  - simpl in Hf. apply andb_prop in Hf as [Ha Hf]. simpl in Hlen.
    assert (Hrec : forall e, run script_handler
        match (Err e : result SseByteStream BeaconError) with
        | Ok s => Ret (Some s)
        | Err _ => let! _ := perform (Sleep RETRY_DELAY_SECS) in
                   subscribe_with_retry attempts self topics
        end (failures ++ Ok resp :: rest, slept) =
      (Done (Some (SseByteStream_new (map http_chunk (bytes_stream resp)))),
       (rest, slept + RETRY_DELAY_SECS * Z.of_nat (length (answer :: failures))))).
    { intros e. cbn [mbind prog_mbind prog_bind perform run script_handler].
      rewrite IH by (done || lia).
      replace (slept + RETRY_DELAY_SECS * Z.of_nat (length (answer :: failures)))
        with (slept + RETRY_DELAY_SECS + RETRY_DELAY_SECS * Z.of_nat (length failures))
        by (cbn [length]; unfold RETRY_DELAY_SECS; lia).
      done. }
    destruct answer as [resp'|e]; [|apply (Hrec (BE_Http e))].
    simpl in Ha. destruct (is_success resp'); [done|]. apply (Hrec (api_error resp')).
Qed.

End subscribing.

(** ** What a subscription delivers *)

Section no_event.
Context `{!JsonDeserialize HeadEvent, !JsonDeserialize PayloadAttributesEvent}.

(** C33: a stream of server-sent events delivers no event: whatever bytes arrive, in
    whatever chunks, and however often it is polled, it only passes on the errors
    and the end of its source, because a window of four bytes is compared with the
    two bytes of an empty line. *)
Theorem sse_stream_delivers_no_event n stream :
  delivered (fst (polls n (SseByteStream_new stream))) = [] /\
  fst (poll_next (SseByteStream_new stream)) = no_event (fst (poll_next (after_data stream))).
Proof.
  split; [by apply sse_polls_no_event|].
  destruct (sse_poll_chunks_spec stream []) as [buffer Hs].
  unfold poll_next at 1, SseByteStream_Stream, SseByteStream_new; cbn [sse_pending_events sse_stream sse_buffer].
  by rewrite Hs.
Qed.

End no_event.

Section samples.

Instance sample_head_json : JsonDeserialize HeadEvent := fun s =>
  Ok {| he_slot := 123; he_block := s; he_epoch_transition := false;
        he_execution_optimistic := false |}.
Instance sample_attributes_json : JsonDeserialize PayloadAttributesEvent := fun _ => Err "no".

Definition sample_event : list byte :=
  String.list_byte_of_string
    ("event: head" +:+ String newline "" +:+ "data: {}" +:+ String newline (String newline "")).

(** The event would be parsed, but its stream does not deliver it. *)
Example sample_event_parsed :
  (match parse_event sample_event with
   | Some (Ok (Head e)) => he_slot e =? 123
   | _ => false
   end) = true /\
  fst (poll_next (SseByteStream_new [Ready (Some (Ok sample_event))])) = Pending.
Proof. split; vm_compute; reflexivity. Qed.

Definition sample_accepted : Response :=
  {| status := 200; text := Ok ""; body_bytes := sample_event;
     bytes_stream := [Ready (Some (Ok sample_event))] |}.

Definition sample_refusal : result Response string :=
  Ok {| status := 503; text := Ok "syncing"; body_bytes := []; bytes_stream := [] |}.

Lemma subscription_outlasts_refusals_witness :
  exists s, run script_handler
    (subscribe_with_retry 3 (BeaconEventsClient_new "http://127.0.0.1:3500/") ["head"])
    ([sample_refusal; Err "connection refused"] ++ [Ok sample_accepted], 0) = (Done (Some s), ([], 10)).
Proof.
  eexists.
  apply (subscription_outlasts_refusals (BeaconEventsClient_new "http://127.0.0.1:3500/") ["head"]
           [sample_refusal; Err "connection refused"] sample_accepted [] 3);
    [reflexivity|reflexivity|simpl; lia].
Defined.

End samples.
