(* ===== verification/CrateTests.v ===== *)
(** * The unit tests of the [crypto], [entity], [datastore] and [gateway] crates

    The test modules of these crates, in the form of [UseCaseTests.v].  [ikm] and [ikm']
    are what successive calls of [BlsSecretKey::random] draw. *)

From S2P Require Import Prelude Effects External Concrete Crypto Entity Storage Auctioneer.
From S2P Require Import Text UseCaseTests Beacon BeaconEvents.

(** [Option::unwrap] *)
Definition unwrap_some {A} (o : option A) : outcome A :=
  match o with
  | Some a => Done a
  | None => Panicked "called `Option::unwrap()` on a `None` value"
  end.

Definition is_none {A} (o : option A) : bool := match o with Some _ => false | None => true end.

Section crypto_tests.
Context `{Blst, TreeHashLib, HexLib}.

(** ** [fork.rs] *)

Record TestMsg : Type := { tm_value : Z }.

#[local] Instance TestMsg_tree_hash : TreeHash TestMsg :=
  fun m => container_root [u64_root (tm_value m)].

Definition test_builder_domain_starts_with_0001 : outcome bool :=
  let domain := ForkData_compute_builder_domain ForkData_default in
  Done (bool_decide (take 4 (fb_bytes domain) = [x00; x00; x00; x01])).

Definition test_proposer_domain_starts_with_0000 : outcome bool :=
  let domain := ForkData_compute_proposer_domain ForkData_default in
  Done (bool_decide (take 4 (fb_bytes domain) = [x00; x00; x00; x00])).

Definition test_builder_and_proposer_domains_differ : outcome bool :=
  let builder := ForkData_compute_builder_domain ForkData_default in
  let proposer := ForkData_compute_proposer_domain ForkData_default in
  Done (bool_decide (builder <> proposer)).

Definition test_fork_datas_default_gives_different_domains : outcome bool :=
  let! fds := ForkDatas_default in
  Done (bool_decide (compute_builder_domain fds <> compute_proposer_domain fds)).

Definition test_fork_version_from_str_ok : outcome bool :=
  let! parsed := ForkVersion_from_str "0x20000093" in
  let! fv := unwrap parsed in
  Done (bool_decide (ForkVersion_as_ref fv = [x20; x00; x00; x93])).

Definition test_fork_version_from_str_no_prefix : outcome bool :=
  let! parsed := ForkVersion_from_str "20000093" in
  let! fv := unwrap parsed in
  Done (bool_decide (ForkVersion_as_ref fv = [x20; x00; x00; x93])).

Definition test_fork_version_from_str_invalid : outcome bool :=
  let! result := ForkVersion_from_str "xyz" in Done (negb (is_ok result)).

Definition test_fork_version_from_str_invalid_length : outcome bool :=
  let! result := ForkVersion_from_str "0x123456789" in Done (negb (is_ok result)).

Definition test_try_from_chain_mainnet : outcome bool :=
  let! fv := unwrap (ForkVersion_try_from_chain Mainnet) in
  Done (bool_decide (ForkVersion_into fv = bytes4 x00 x00 x00 x00)).

Definition test_try_from_chain_holesky : outcome bool :=
  let! fv := unwrap (ForkVersion_try_from_chain Holesky) in
  Done (bool_decide (ForkVersion_into fv = bytes4 x01 x01 x70 x00)).

Definition test_signing_root_differs_by_domain : outcome bool :=
  let msg := {| tm_value := 42 |} in
  let builder_domain := ForkData_compute_builder_domain ForkData_default in
  let proposer_domain := ForkData_compute_proposer_domain ForkData_default in
  Done (bool_decide (signing_root msg builder_domain <> signing_root msg proposer_domain)).

Definition test_from_fork_version_roundtrip : outcome bool :=
  let! fv := unwrap (ForkVersion_try_from_chain Mainnet) in
  Done (bool_decide (Chain_from_fork_version (ForkVersion_into fv) = Some Mainnet)).

Definition fork_tests : list (outcome bool) :=
  [test_builder_domain_starts_with_0001; test_proposer_domain_starts_with_0000;
   test_builder_and_proposer_domains_differ; test_fork_datas_default_gives_different_domains;
   test_fork_version_from_str_ok; test_fork_version_from_str_no_prefix;
   test_fork_version_from_str_invalid; test_fork_version_from_str_invalid_length;
   test_try_from_chain_mainnet; test_try_from_chain_holesky;
   test_signing_root_differs_by_domain; test_from_fork_version_roundtrip].

(** ** [public_key.rs] *)

Definition test_pk_serialize_roundtrip (ikm : FixedBytes 32) : outcome bool :=
  let! sk := BlsSecretKey_random ikm in
  let pk := BlsSecretKey_public_key sk in
  let! pk2 := unwrap (BlsPublicKey_deserialize (fb_bytes (BlsPublicKey_serialize pk))) in
  Done (bool_decide (pk = pk2)).

Definition test_pk_deserialize_invalid_length : outcome bool :=
  Done (negb (is_ok (BlsPublicKey_deserialize (repeat x00 10)))).

Definition test_deserialize_zero_bytes : outcome bool :=
  Done (negb (is_ok (BlsPublicKey_deserialize (repeat x00 48)))).

Definition test_different_keys_different_serialization (ikm ikm' : FixedBytes 32) :
    outcome bool :=
  let! sk1 := BlsSecretKey_random ikm in
  let! sk2 := BlsSecretKey_random ikm' in
  Done (bool_decide (BlsPublicKey_serialize (BlsSecretKey_public_key sk1) <>
                     BlsPublicKey_serialize (BlsSecretKey_public_key sk2))).

Definition test_from_secret_key_consistency (ikm : FixedBytes 32) : outcome bool :=
  let! sk := BlsSecretKey_random ikm in
  Done (bool_decide (BlsSecretKey_public_key sk = BlsPublicKey_from_secret_key sk)).

(** ** [secret_key.rs] *)

Definition test_random_public_key_not_zero (ikm : FixedBytes 32) : outcome bool :=
  let! sk := BlsSecretKey_random ikm in
  Done (bool_decide (BlsPublicKey_serialize (BlsSecretKey_public_key sk) <> array_default 48)).

Definition test_sk_serialize_roundtrip (ikm : FixedBytes 32) : outcome bool :=
  let! sk := BlsSecretKey_random ikm in
  let! sk2 := unwrap (BlsSecretKey_deserialize (fb_bytes (BlsSecretKey_serialize sk))) in
  Done (bool_decide (BlsSecretKey_serialize sk = BlsSecretKey_serialize sk2)).

Definition test_different_random_keys (ikm ikm' : FixedBytes 32) : outcome bool :=
  let! sk1 := BlsSecretKey_random ikm in
  let! sk2 := BlsSecretKey_random ikm' in
  Done (bool_decide (BlsSecretKey_serialize sk1 <> BlsSecretKey_serialize sk2)).

Definition test_sk_deserialize_invalid_length : outcome bool :=
  Done (negb (is_ok (BlsSecretKey_deserialize (repeat x00 10)))).

(** ** [signature.rs] *)

Definition raw_signature (sk : BlsSecretKey) (msg : list byte) : BlsSignature :=
  mkBlsSignature (sk_sign (BlsSecretKey_0 sk) msg DST []).

Definition test_verify_correct (ikm : FixedBytes 32) : outcome bool :=
  let! sk := BlsSecretKey_random ikm in
  let msg := String.list_byte_of_string "hello world" in
  Done (BlsSignature_verify (raw_signature sk msg) (BlsSecretKey_public_key sk) msg).

Definition test_signature_wrong_key (ikm ikm' : FixedBytes 32) : outcome bool :=
  let! sk := BlsSecretKey_random ikm in
  let msg := String.list_byte_of_string "some message" in
  let! other := BlsSecretKey_random ikm' in
  Done (negb (BlsSignature_verify (raw_signature sk msg) (BlsSecretKey_public_key other) msg)).

Definition test_serialize_round_trip (ikm : FixedBytes 32) : outcome bool :=
  let! sk := BlsSecretKey_random ikm in
  let msg := String.list_byte_of_string "roundtrip_test" in
  let bytes := BlsSignature_serialize (raw_signature sk msg) in
  let! sig2 := unwrap (BlsSignature_deserialize (fb_bytes bytes)) in
  Done (BlsSignature_verify sig2 (BlsSecretKey_public_key sk) msg).

Definition test_sig_deserialize_invalid_length : outcome bool :=
  Done (negb (is_ok (BlsSignature_deserialize (repeat x00 10)))).

(** ** [signer.rs] *)

Definition test_sign_and_verify (ikm : FixedBytes 32) : outcome bool :=
  let! signer := BlsSigner_default ikm in
  let msg := {| tm_value := 42 |} in
  Done (BlsSigner_verify signer (BlsSigner_sign signer msg) (BlsSigner_public_key signer) msg).

Definition test_signer_wrong_key (ikm ikm' : FixedBytes 32) : outcome bool :=
  let! signer := BlsSigner_default ikm in
  let msg := {| tm_value := 42 |} in
  let! other := BlsSigner_default ikm' in
  Done (negb (BlsSigner_verify signer (BlsSigner_sign signer msg)
                (BlsSigner_public_key other) msg)).

Definition test_verify_wrong_message (ikm : FixedBytes 32) : outcome bool :=
  let! signer := BlsSigner_default ikm in
  let sig := BlsSigner_sign signer {| tm_value := 1 |} in
  Done (negb (BlsSigner_verify signer sig (BlsSigner_public_key signer) {| tm_value := 2 |})).

Definition key_tests (ikm ikm' : FixedBytes 32) : list (outcome bool) :=
  [test_pk_serialize_roundtrip ikm; test_pk_deserialize_invalid_length;
   test_deserialize_zero_bytes; test_different_keys_different_serialization ikm ikm';
   test_from_secret_key_consistency ikm;
   test_random_public_key_not_zero ikm; test_sk_serialize_roundtrip ikm;
   test_different_random_keys ikm ikm'; test_sk_deserialize_invalid_length;
   test_verify_correct ikm; test_signature_wrong_key ikm ikm'; test_serialize_round_trip ikm;
   test_sig_deserialize_invalid_length;
   test_sign_and_verify ikm; test_signer_wrong_key ikm ikm'; test_verify_wrong_message ikm].

End crypto_tests.

(** ** [head_slot.rs] and [validator.rs] *)

Definition test_is_duty_refresh_slot_true : outcome bool :=
  HeadSlot_is_duty_refresh_slot (HeadSlot_from 33) 32.

Definition test_is_duty_refresh_slot_false : outcome bool :=
  let! r := HeadSlot_is_duty_refresh_slot (HeadSlot_from 34) 32 in Done (negb r).

(** The cases of the loop of [test_epoch_calculation]. *)
Fixpoint epochs_are (cases : list (Z * Z)) : outcome bool :=
  match cases with
  | [] => Done true
  | (slot, expected_epoch) :: cases' =>
      let! epoch := HeadSlot_epoch (HeadSlot_from slot) 32 in
      if epoch =? expected_epoch then epochs_are cases' else Done false
  end.

Definition test_epoch_calculation : outcome bool :=
  epochs_are [(32, 1); (33, 1); (64, 2); (65, 2)].

Section datastore_tests.
Context `{Blst, Alloy, TreeHashLib, HexLib}.

Definition test_validator_registration_tree_hash : outcome bool :=
  let! fee_recipient :=
    unwrap (Address_from_str "0x0000000000000000000000000000000000000001") in
  let reg := {| vr_fee_recipient := fee_recipient; vr_gas_limit := 30000000;
                vr_timestamp := 1711287496; vr_pubkey := BlsPublicKey_default |} in
  Done (bool_decide (tree_hash_root reg <> array_default 32)).

Definition entity_tests : list (outcome bool) :=
  [test_is_duty_refresh_slot_true; test_is_duty_refresh_slot_false; test_epoch_calculation;
   test_validator_registration_tree_hash].

(** ** [storage.rs] *)

Definition empty_storage : MemoryStorage := MemoryStorage_new [].

Definition test_head_slot_roundtrip : outcome bool :=
  let storage := set_head_slot (mkHeadSlot 42) empty_storage in
  Done (bool_decide (read_head_slot storage = mkHeadSlot 42)).

Definition test_payload_attributes_roundtrip : outcome bool :=
  let attrs := {| pa_timestamp := 12345; pa_prev_randao := array_default 32;
                  pa_suggested_fee_recipient := Address_default |} in
  let storage := set_payload_attributes attrs empty_storage in
  Done (pa_timestamp (read_payload_attributes storage) =? 12345).

(** The registrations of the tests. *)
Definition storage_reg (gas_limit timestamp : Z) (pubkey : BlsPublicKey) :
    ValidatorRegistration :=
  {| vr_fee_recipient := Address_default; vr_gas_limit := gas_limit;
     vr_timestamp := timestamp; vr_pubkey := pubkey |}.

Definition test_validator_registration : outcome bool :=
  let key := BlsPublicKey_default in
  let storage := set_validator_registration key (storage_reg 30000000 1000 key) empty_storage in
  let! read := unwrap_some (read_validator_registration key storage) in
  Done (empty_validator_regs empty_storage &&
        is_none (read_validator_registration key empty_storage) &&
        negb (empty_validator_regs storage) && (vr_gas_limit read =? 30000000)).

Definition test_whitelist : outcome bool :=
  let key := BlsPublicKey_default in
  let! other := let! sk := key_gen x01 in public_key_of sk in
  let storage := MemoryStorage_new [key] in
  Done (is_whitelisted_builder key storage && negb (is_whitelisted_builder other storage)).

Definition test_proposer_duties : outcome bool :=
  let duty := {| pd_pubkey := BlsPublicKey_default; pd_validator_index := 1; pd_slot := 10 |} in
  let storage := set_proposer_duties [duty] empty_storage in
  let! found := unwrap_some (find_duty_by_slot 10 storage) in
  Done (is_none (find_duty_by_slot 10 empty_storage) && (pd_validator_index found =? 1) &&
        (length (read_proposer_duties storage) =? 1)%nat).

Definition test_blinded_block_response : outcome bool :=
  let key := BlsPublicKey_default in
  let resp := {|
    bbr_execution_payload := test_payload 0 0 B256_default B256_default;
    bbr_blobs_bundle := None |} in
  let storage := set_blinded_block_response key resp empty_storage in
  let! read := unwrap_some (read_blinded_block_response key storage) in
  Done (is_none (read_blinded_block_response key empty_storage) &&
        is_none (bbr_blobs_bundle read)).

(** There is no assertion. *)
Definition test_delivered_blocks : outcome bool :=
  let hash := mkB256 (array_repeat 32 xab) in
  let storage := set_delivered_blocks hash empty_storage in
  let _ := set_delivered_blocks hash storage in
  Done true.

Definition test_set_validator_registrations_overwrites : outcome bool :=
  let key1 := BlsPublicKey_default in
  let! key2 := let! sk2 := key_gen x02 in public_key_of sk2 in
  let reg1 := storage_reg 30000000 1000 key1 in
  let reg2 := storage_reg 36000000 2000 key2 in
  let storage := set_validator_registrations {[ key1 := reg1 ]} empty_storage in
  let! read1 := unwrap_some (read_validator_registration key1 storage) in
  let storage := set_validator_registrations {[ key1 := reg2 ]} storage in
  let! read2 := unwrap_some (read_validator_registration key1 storage) in
  Done ((vr_gas_limit read1 =? 30000000) && (vr_gas_limit read2 =? 36000000)).

Definition storage_tests : list (outcome bool) :=
  [test_head_slot_roundtrip; test_payload_attributes_roundtrip; test_validator_registration;
   test_whitelist; test_proposer_duties; test_blinded_block_response; test_delivered_blocks;
   test_set_validator_registrations_overwrites].

(** ** [auctioneer.rs] *)

Context {C : Type} `{!MokaCache Z (Arc BidSubmission) C}.

Definition dummy_sig : outcome BlsSignature :=
  let! sk := key_gen x2a in
  let sig := sk_sign sk (String.list_byte_of_string "dummy") [] [] in
  unwrap (BlsSignature_deserialize (fb_bytes (sig_compress sig))).

(** [ptr] is where the [Arc] is allocated. *)
Definition auction_bid (ptr : N) (slot value : Z) : outcome (Arc BidSubmission) :=
  let! sig := dummy_sig in
  Done (mkArc ptr (BidSubmission_new {|
    bt_slot := slot;
    bt_parent_hash := B256_default;
    bt_block_hash := B256_default;
    bt_builder_pubkey := BlsPublicKey_default;
    bt_proposer_pubkey := BlsPublicKey_default;
    bt_proposer_fee_recipient := Address_default;
    bt_gas_limit := 30000000;
    bt_gas_used := 15000000;
    bt_value := mkU256 value;
  |} (test_payload 0 0 B256_default B256_default) BlobsBundle_default sig)).

(** An auctioneer as its test makes it; the calls of a test are made at time 0. *)
Definition test_auctioneer : MemoryAuctioneer (C := C) := MemoryAuctioneer_new 60.

Definition value_is (value : Z) (best : Arc BidSubmission) : bool :=
  bool_decide (bt_value (message (arc_val best)) = mkU256 value).

Definition test_first_bid_wins : outcome bool :=
  let! bid := auction_bid 0 1 100 in
  Done (is_ok (fst (compare_and_bid 0 1 bid test_auctioneer))).

Definition test_higher_bid_replaces_lower : outcome bool :=
  let! low := auction_bid 0 1 50 in
  let! high := auction_bid 1 1 100 in
  let '(first, auctioneer) := compare_and_bid 0 1 low test_auctioneer in
  let '(second, auctioneer) := compare_and_bid 0 1 high auctioneer in
  let! best := unwrap (fst (get_best_bid 0 1 auctioneer)) in
  Done (is_ok first && is_ok second && value_is 100 best).

Definition test_lower_bid_rejected : outcome bool :=
  let! high := auction_bid 0 1 100 in
  let! low := auction_bid 1 1 50 in
  let '(first, auctioneer) := compare_and_bid 0 1 high test_auctioneer in
  let! err := unwrap_err (fst (compare_and_bid 0 1 low auctioneer)) in
  Done (is_ok first && bool_decide (err = BidValueNotHighEnough "50" "100")).

Definition test_get_best_bid_not_found : outcome bool :=
  let! err := unwrap_err (fst (get_best_bid 0 99 test_auctioneer)) in
  Done (bool_decide (err = BidNotFound 99)).

Definition test_different_slots_independent : outcome bool :=
  let! bid1 := auction_bid 0 1 100 in
  let! bid2 := auction_bid 1 2 200 in
  let '(first, auctioneer) := compare_and_bid 0 1 bid1 test_auctioneer in
  let '(second, auctioneer) := compare_and_bid 0 2 bid2 auctioneer in
  let '(best1, auctioneer) := get_best_bid 0 1 auctioneer in
  let '(best2, auctioneer) := get_best_bid 0 2 auctioneer in
  let! best1 := unwrap best1 in
  let! best2 := unwrap best2 in
  Done (is_ok first && is_ok second && value_is 100 best1 && value_is 200 best2).

Definition auctioneer_tests : list (outcome bool) :=
  [test_first_bid_wins; test_higher_bid_replaces_lower; test_lower_bid_rejected;
   test_get_best_bid_not_found; test_different_slots_independent].

End datastore_tests.

(** ** [stream.rs] *)

Definition make_head (slot : Z) : result BeaconEvent BeaconError :=
  Ok (Head {| he_slot := slot; he_block := "0xabc"; he_epoch_transition := false;
              he_execution_optimistic := false |}).

Definition make_pa : result BeaconEvent BeaconError :=
  Ok (PayloadAttributesEv {|
    pae_version := "deneb";
    pae_data := {|
      pad_proposal_slot := 1;
      pad_parent_block_hash := "0xdef";
      pad_payload_attributes := {| ipa_timestamp := 1000; ipa_prev_randao := "0x123";
                                   ipa_suggested_fee_recipient := "0xdead" |} |} |}).

Abbreviation event_items := (list (poll (option (result BeaconEvent BeaconError)))).

(** [futures::stream::iter(items)] *)
Definition stream_iter (items : list (result BeaconEvent BeaconError)) : event_items :=
  map (fun item => Ready (Some item)) items ++ [Ready None].

Abbreviation merged_stream := (BeaconEventsStream (P := event_items) (H := event_items)).

(** [stream.next().await]: a test that waits for ever does not pass. *)
Definition next (stream : merged_stream) :
    outcome (option (result BeaconEvent BeaconError) * merged_stream) :=
  match poll_next stream with
  | (Ready item, stream) => Done (item, stream)
  | (Pending, _) => Panicked "pending"
  end.

(** [stream.next().await.unwrap().unwrap()] *)
Definition next_event (stream : merged_stream) : outcome (BeaconEvent * merged_stream) :=
  let! got := next stream in
  let '(item, stream) := got in
  let! item := unwrap_some item in
  let! event := unwrap item in
  Done (event, stream).

Definition is_attributes (e : BeaconEvent) : bool :=
  match e with PayloadAttributesEv _ => true | _ => false end.
Definition is_head (e : BeaconEvent) : bool := match e with Head _ => true | _ => false end.

Definition test_merged_stream_pa_first : outcome bool :=
  let stream := BeaconEventsStream_new (stream_iter [make_pa]) (stream_iter [make_head 1]) in
  let! got1 := next_event stream in
  let! got2 := next_event (snd got1) in
  Done (is_attributes (fst got1) && is_head (fst got2)).

Definition test_merged_stream_pa_error_terminates : outcome bool :=
  let stream := BeaconEventsStream_new (stream_iter [make_pa; Err (BE_Sse "test error")])
                  (stream_iter [make_head 1]) in
  let! got1 := next_event stream in
  let! got2 := next (snd got1) in
  Done (is_attributes (fst got1) && is_none (fst got2)).

Definition test_merged_stream_head_error_terminates : outcome bool :=
  let stream := BeaconEventsStream_new (stream_iter [make_pa])
                  (stream_iter [Err (BE_Sse "test error")]) in
  let! got1 := next_event stream in
  let! got2 := next (snd got1) in
  Done (is_attributes (fst got1) && is_none (fst got2)).

Definition stream_tests : list (outcome bool) :=
  [test_merged_stream_pa_first; test_merged_stream_pa_error_terminates;
   test_merged_stream_head_error_terminates].

(** ** [events/mod.rs]

    The texts of the tests have apostrophes here for their quotation marks. *)

Definition quoted (s : string) : string :=
  String.string_of_list_ascii
    (map (fun c => if Ascii.eqb c "'" then "034"%char else c) (String.list_ascii_of_string s)).

Definition head_json : string :=
  quoted "{'slot':'123','block':'0xabc','epoch_transition':false,'execution_optimistic':false}".

Definition attributes_json : string :=
  quoted ("{'version':'deneb','data':{'proposal_slot':'456','parent_block_hash':'0xdef'," +:+
          "'payload_attributes':{'timestamp':'1000','prev_randao':'0x123'," +:+
          "'suggested_fee_recipient':'0xdead'}}}").

(** The bytes of an event of one line of data. *)
Definition event_text (type data : string) : list byte :=
  String.list_byte_of_string
    ("event: " +:+ type +:+ String newline "" +:+ "data: " +:+ data).

Section event_tests.
Context `{!JsonDeserialize HeadEvent, !JsonDeserialize PayloadAttributesEvent}.

Definition test_parse_head_event : outcome bool :=
  match parse_event (event_text "head" head_json) with
  | Some (Ok (Head head)) => Done ((he_slot head =? 123) && String.eqb (he_block head) "0xabc")
  | _ => Panicked "expected Head event"
  end.

Definition test_parse_payload_attributes_event : outcome bool :=
  match parse_event (event_text "payload_attributes" attributes_json) with
  | Some (Ok (PayloadAttributesEv pa)) =>
      Done (ipa_timestamp (pad_payload_attributes (pae_data pa)) =? 1000)
  | _ => Panicked "expected PayloadAttributes event"
  end.

Definition test_skip_unknown_event : outcome bool :=
  Done (is_none (parse_event (event_text "unknown" (quoted "{'foo':'bar'}")))).

Definition parse_tests : list (outcome bool) :=
  [test_parse_head_event; test_parse_payload_attributes_event; test_skip_unknown_event].

End event_tests.

(** ** The tests on the concrete libraries *)

Section concrete_crates.

(** What [serde_json] answers on the two texts of the tests. *)
#[local] Instance test_head_json : JsonDeserialize HeadEvent := fun s =>
  if String.eqb s head_json
  then Ok {| he_slot := 123; he_block := "0xabc"; he_epoch_transition := false;
             he_execution_optimistic := false |}
  else Err "expected value".

#[local] Instance test_attributes_json : JsonDeserialize PayloadAttributesEvent := fun s =>
  if String.eqb s attributes_json
  then Ok {|
    pae_version := "deneb";
    pae_data := {|
      pad_proposal_slot := 456;
      pad_parent_block_hash := "0xdef";
      pad_payload_attributes := {| ipa_timestamp := 1000; ipa_prev_randao := "0x123";
                                   ipa_suggested_fee_recipient := "0xdead" |} |} |}
  else Err "expected value".

Definition crate_tests : list (outcome bool) :=
  fork_tests ++ key_tests (array_repeat 32 x07) (array_repeat 32 x08) ++ entity_tests ++
  storage_tests ++ auctioneer_tests (C := ToyCache (Arc BidSubmission)) ++
  stream_tests ++ parse_tests.

End concrete_crates.
