(* ===== verification/RelayService.v ===== *)
(** * The relay service

    The task of the [app] crate ([app/src/relay_service.rs]) that follows the head of
    the chain: it reads the beacon node's event stream, falls back to polling when the
    stream fails, and keeps the head slot, the payload attributes and the proposer
    duties of the storage.  Its operations are those of the storage and of the beacon
    node; between two of them the tasks of the gRPC services may run. *)

From S2P Require Import Prelude Effects Text External Concrete Crypto Entity Storage Beacon.
From S2P Require Import Auctioneer UseCase UseCaseSpec.

Section relay_service.
Context `{Blst, Alloy}.
Context `{!JsonDeserialize HeadEvent, !JsonDeserialize PayloadAttributesEvent, !JsonBody json}.
Context `{!Tokio}.

(** ** Operations *)

(** What the service asks of the beacon node and of the clock.  [NodeDuties] is a call
    of [BeaconHandle::proposer_duties], [Tick] one tick of a [tokio] interval. *)
Inductive nodeE : Type -> Type :=
| NodeHttp {X} (e : httpE X) : nodeE X
| NodeDuties (epoch : Z) : nodeE (result (list ProposerDuty) BeaconError)
| Tick : nodeE unit.

Inductive appE : Type -> Type :=
| Store {X} (e : storageE X) : appE X
| Node {X} (e : nodeE X) : appE X.

Record AppWorld (S N : Type) : Type := mkAppWorld { aw_storage : S; aw_node : N }.
#[global] Arguments mkAppWorld {S N} _ _.
#[global] Arguments aw_storage {S N} _.
#[global] Arguments aw_node {S N} _.

Definition app_handler {S N} (hs : handler storageE S) (hn : handler nodeE N) :
    handler appE (AppWorld S N) := fun X e w =>
  let 'mkAppWorld s n := w in
  match e in appE X return X * AppWorld S N with
  | Store e => let '(x, s') := hs _ e s in (x, mkAppWorld s' n)
  | Node e => let '(x, n') := hn _ e n in (x, mkAppWorld s n')
  end.

Abbreviation app := (prog appE).

Definition store {X} (e : storageE X) : app X := perform (Store e).
Definition http {R} (p : prog httpE R) : app R :=
  prog_map (fun X e => Node (NodeHttp e)) p.
Definition duties_call (epoch : Z) : app (result (list ProposerDuty) BeaconError) :=
  perform (Node (NodeDuties epoch)).

(** ** The service *)

Variable profile : build_profile.

Record RelayService : Type := {
  bn_client : BeaconNodeApi;
  rls_slots_per_epoch : Z;
  polling_interval : Z;
}.

Definition RelayService_new (bn_client : BeaconNodeApi) (slots_per_epoch : Z)
    (polling_interval_secs : Z) : RelayService :=
  {| bn_client := bn_client; rls_slots_per_epoch := slots_per_epoch;
     polling_interval := polling_interval_secs |}.

(** The duties of the registered validators, in their order. *)
Fixpoint filter_registered (duties : list ProposerDuty) : app (list ProposerDuty) :=
  match duties with
  | [] => Ret []
  | duty :: duties' =>
      let! reg := store (ReadValidatorRegistration (pd_pubkey duty)) in
      let! rest := filter_registered duties' in
      Ret (match reg with Some _ => duty :: rest | None => rest end)
  end.

Definition filter_duties (duties : list ProposerDuty) : app (list ProposerDuty) :=
  let! empty := store EmptyValidatorRegs in
  if empty : bool then Ret [] else filter_registered duties.

Definition sync_duties (epoch : Z) : app (result unit string) :=
  let! got := duties_call epoch in
  match got with
  | Ok duties =>
      let! filtered := filter_duties duties in
      let! next_epoch := lift_outcome (u64_add profile epoch 1) in
      let! next_epoch_duties := duties_call next_epoch in
      let! _ := match next_epoch_duties with
                | Ok next =>
                    let! next_filtered := filter_duties next in
                    store (SetProposerDuties (filtered ++ next_filtered))
                | Err _ => store (SetProposerDuties filtered)
                end in
      Ret (Ok tt)
  | Err e => throw (BeaconError_to_string e)
  end.

Definition handle_head_event (self : RelayService) (event : HeadEvent) : app unit :=
  let slot := mkHeadSlot (he_slot event) in
  let! _ := store (SetHeadSlot slot) in
  let! refresh := lift_outcome (HeadSlot_is_duty_refresh_slot slot (rls_slots_per_epoch self)) in
  if refresh : bool then
    let! current_epoch := lift_outcome (HeadSlot_epoch slot (rls_slots_per_epoch self)) in
    let! _ := sync_duties current_epoch in Ret tt
  else Ret tt.

Definition handle_payload_attributes_event (event : PayloadAttributesEvent) : app unit :=
  let inner := pad_payload_attributes (pae_data event) in
  match b256_from_str (ipa_prev_randao inner) with
  | Err _ => Ret tt
  | Ok prev_randao =>
      match Address_from_str (ipa_suggested_fee_recipient inner) with
      | Err _ => Ret tt
      | Ok suggested_fee_recipient =>
          let attrs := {|
            pa_timestamp := ipa_timestamp inner;
            pa_prev_randao := prev_randao;
            pa_suggested_fee_recipient := suggested_fee_recipient;
          |} in
          store (SetPayloadAttributes attrs)
      end
  end.

Definition handle_event (self : RelayService) (event : BeaconEvent) : app unit :=
  match event with
  | Head head => handle_head_event self head
  | PayloadAttributesEv pa => handle_payload_attributes_event pa
  end.

(** The event of a line, and what is left in [current_event]. *)
Definition process_sse_line (line : string) (current_event : option string) :
    option BeaconEvent * option string :=
  if String.eqb line "" || starts_with ":" line then (None, current_event)
  else
    match strip_prefix "event: " line with
    | Some event => (None, Some (trim event))
    | None =>
        match strip_prefix "data: " line with
        | Some data =>
            match current_event with
            | None => (None, None)
            | Some event_type =>
                (if String.eqb event_type "head" then
                   Head <$> ok (from_json (T := HeadEvent) data)
                 else if String.eqb event_type "payload_attributes" then
                   PayloadAttributesEv <$> ok (from_json (T := PayloadAttributesEvent) data)
                 else None, None)
            end
        | None => (None, current_event)
        end
    end.

(** The inner loop: every round takes a line from the buffer. *)
Fixpoint sse_lines (fuel : nat) (self : RelayService) (line_buf : string)
    (current_event : option string) : app (string * option string) :=
  match fuel with
  | O => Ret (line_buf, current_event)
  | S fuel' =>
      match split_newline line_buf with
      | None => Ret (line_buf, current_event)
      | Some (line, rest) =>
          let '(event, current_event) := process_sse_line line current_event in
          let! _ := match event with
                    | Some event => handle_event self event
                    | None => Ret tt
                    end in
          sse_lines fuel' self rest current_event
      end
  end.

(** The outer loop, over the polls of [byte_stream.next().await].  A stream need not
    end: the list holds what it has given so far, and the loop is [Pending] when it
    has handled all of that and still waits for the next chunk. *)
Fixpoint sse_chunks (self : RelayService)
    (byte_stream : list (poll (option (result (list byte) string))))
    (line_buf : string) (current_event : option string) : app (poll (result unit string)) :=
  match byte_stream with
  | [] => Ret Pending
  | Pending :: byte_stream' => sse_chunks self byte_stream' line_buf current_event
  | Ready None :: _ => Ret (Ready (Err "SSE stream ended"))
  | Ready (Some (Ok bytes)) :: byte_stream' =>
      let line_buf := line_buf +:+ from_utf8_lossy bytes in
      let! st := sse_lines (S (String.length line_buf)) self line_buf current_event in
      sse_chunks self byte_stream' (fst st) (snd st)
  | Ready (Some (Err e)) :: _ => Ret (Ready (Err e))
  end.

(** [connect_sse]; [Pending] while its stream stays open. *)
Definition connect_sse (self : RelayService) : app (poll (result unit string)) :=
  let! subscribed := http (subscribe_events (bn_client self)) in
  match map_err BeaconError_to_string subscribed with
  | Ok response => sse_chunks self (bytes_stream response) "" None
  | Err e => Ret (Ready (Err e))
  end.

Definition poll_once (self : RelayService) : app unit :=
  let! _ := perform (Node Tick) in
  let! fetched := http (fetch_head_slot (bn_client self)) in
  match fetched with
  | Ok slot =>
      let slot := mkHeadSlot slot in
      let! _ := store (SetHeadSlot slot) in
      let! epoch := lift_outcome (HeadSlot_epoch slot (rls_slots_per_epoch self)) in
      let! refresh := lift_outcome (HeadSlot_is_duty_refresh_slot slot
                                      (rls_slots_per_epoch self)) in
      if refresh : bool then let! _ := sync_duties epoch in Ret tt else Ret tt
  | Err _ => Ret tt
  end.

(** The first [ticks] rounds of the polling loop, which never ends. *)
Fixpoint polling_rounds (ticks : nat) (self : RelayService) : app unit :=
  match ticks with
  | O => Ret tt
  | S ticks' => let! _ := poll_once self in polling_rounds ticks' self
  end.

Definition polling_loop (ticks : nat) (self : RelayService) : app unit :=
  let! _ := lift_outcome (tokio_interval (polling_interval self)) in
  polling_rounds ticks self.

(** [run], up to [connections] connections and [ticks] rounds of polling: it stays in
    [connect_sse] while the stream is open, and nothing follows the polling loop. *)
Fixpoint RelayService_run (connections ticks : nat) (self : RelayService) : app unit :=
  match connections with
  | O => Ret tt
  | S connections' =>
      let! connected := connect_sse self in
      match connected with
      | Pending => Ret tt
      | Ready (Ok _) =>
          let! _ := http (perform (Sleep 5)) in RelayService_run connections' ticks self
      | Ready (Err _) => polling_loop ticks self
      end
  end.

End relay_service.

(** ** Runs *)

Section runs.
Context `{Blst, Alloy}.
Context `{!JsonDeserialize HeadEvent, !JsonDeserialize PayloadAttributesEvent, !JsonBody json}.
Context {S N : Type} (hs : handler storageE S) (hn : handler nodeE N).

Definition app_run {R} (p : prog appE R) (w : AppWorld S N) : outcome R * AppWorld S N :=
  run (app_handler hs hn) p w.

Lemma app_bind {A B} (p : prog appE A) (k : A -> prog appE B) w :
  app_run (p ≫= k) w =
  match app_run p w with
  | (Done a, w') => app_run (k a) w'
  | (Panicked msg, w') => (Panicked msg, w')
  end.
Proof. apply run_bind. Qed.

Lemma app_store {X R} (e : storageE X) (k : X -> prog appE R) s n :
  app_run (store e ≫= k) (mkAppWorld s n) =
  app_run (k (fst (hs _ e s))) (mkAppWorld (snd (hs _ e s)) n).
Proof. unfold app_run. simpl. by destruct (hs _ e s). Qed.

Lemma app_duties {R} epoch (k : _ -> prog appE R) s n :
  app_run (duties_call epoch ≫= k) (mkAppWorld s n) =
  app_run (k (fst (hn _ (NodeDuties epoch) n))) (mkAppWorld s (snd (hn _ (NodeDuties epoch) n))).
Proof. unfold app_run. simpl. by destruct (hn _ _ n). Qed.

Lemma app_lift {X R} (o : outcome X) (k : X -> prog appE R) w :
  app_run (lift_outcome o ≫= k) w =
  match o with Done x => app_run (k x) w | Panicked msg => (Panicked msg, w) end.
Proof. by destruct o. Qed.

End runs.

(** ** The event stream *)

Section sse.
Context `{Blst, Alloy}.
Context `{!JsonDeserialize HeadEvent, !JsonDeserialize PayloadAttributesEvent, !JsonBody json}.
Variable profile : build_profile.
Variable self : RelayService.

(** Specification: the events of a text, what follows its last newline, and the
    event type still pending. *)
Fixpoint scan_fuel (fuel : nat) (s : string) (current_event : option string) :
    list BeaconEvent * (string * option string) :=
  match fuel with
  | O => ([], (s, current_event))
  | S fuel' =>
      match split_newline s with
      | None => ([], (s, current_event))
      | Some (line, rest) =>
          let '(event, current_event) := process_sse_line line current_event in
          let '(events, remaining) := scan_fuel fuel' rest current_event in
          (option_list event ++ events, remaining)
      end
  end.

Definition scan (s : string) (current_event : option string) :
    list BeaconEvent * (string * option string) :=
  scan_fuel (S (String.length s)) s current_event.

Definition events_of (s : string) : list BeaconEvent := fst (scan s None).

Fixpoint handle_events (events : list BeaconEvent) : prog appE unit :=
  match events with
  | [] => Ret tt
  | event :: events' =>
      let! _ := handle_event profile self event in handle_events events'
  end.

Lemma scan_fuel_enough n m s cur :
  (String.length s < n)%nat -> (String.length s < m)%nat ->
  scan_fuel n s cur = scan_fuel m s cur.
Proof.
  revert m s cur. induction n as [|n IH]; intros [|m] s cur Hn Hm; try lia. simpl.
  destruct (split_newline s) as [[line rest]|] eqn:Hs; [|done].
  apply split_newline_length in Hs. destruct (process_sse_line line cur) as [event cur'].
  by rewrite (IH m) by lia.
Qed.

Lemma scan_cons s line rest cur :
  split_newline s = Some (line, rest) ->
  scan s cur =
  let '(event, cur') := process_sse_line line cur in
  let '(events, remaining) := scan rest cur' in (option_list event ++ events, remaining).
Proof.
  intros Hs. unfold scan. cbn [scan_fuel]. rewrite Hs.
  apply split_newline_length in Hs. destruct (process_sse_line line cur) as [event cur'].
  by rewrite (scan_fuel_enough (String.length s) (S (String.length rest))) by lia.
Qed.

Lemma scan_nil s cur : split_newline s = None -> scan s cur = ([], (s, cur)).
Proof. intros Hs. unfold scan. cbn [scan_fuel]. by rewrite Hs. Qed.

(** What is left has no newline. *)
Lemma scan_left s cur : split_newline (fst (snd (scan s cur))) = None.
Proof.
  unfold scan. assert (Hn : (String.length s < S (String.length s))%nat) by lia. revert Hn.
  generalize (S (String.length s)) as n. intros n. revert s cur.
  induction n as [|n IH]; intros s cur Hn; [lia|]. simpl.
  destruct (split_newline s) as [[line rest]|] eqn:Hs; [|done].
  apply split_newline_length in Hs. destruct (process_sse_line line cur) as [event cur'].
  specialize (IH rest cur'). destruct (scan_fuel n rest cur') as [events remaining]. apply IH. lia.
Qed.

(** The events of a text that arrives in two parts. *)
Lemma scan_app s t cur :
  scan (s +:+ t) cur =
  let '(events1, (rest, cur')) := scan s cur in
  let '(events2, remaining) := scan (rest +:+ t) cur' in (events1 ++ events2, remaining).
Proof.
  remember (String.length s) as n eqn:Hn. revert s cur Hn.
  induction (lt_wf n) as [n _ IH]. intros s cur ->.
  destruct (split_newline s) as [[line rest]|] eqn:Hs.
  - rewrite (scan_cons s line rest) by done.
    rewrite (scan_cons (s +:+ t) line (rest +:+ t)) by by apply split_newline_app.
    apply split_newline_length in Hs. destruct (process_sse_line line cur) as [event cur'].
    rewrite (IH (String.length rest)) by (done || lia).
    destruct (scan rest cur') as [events1 [rest' cur'']]. destruct (scan (rest' +:+ t) cur'').
    by rewrite app_assoc.
  - rewrite (scan_nil s) by done. by destruct (scan (s +:+ t) cur).
Qed.

Section runs.
Context {S N : Type} (hs : handler storageE S) (hn : handler nodeE N).

Lemma handle_events_app events1 events2 w :
  app_run hs hn (handle_events (events1 ++ events2)) w =
  app_run hs hn (let! _ := handle_events events1 in handle_events events2) w.
Proof.
  revert w. induction events1 as [|event events1 IH]; intros w; [done|].
  cbn [app handle_events]. rewrite !app_bind.
  destruct (app_run hs hn (handle_event profile self event) w) as [[[]|msg] w']; [|done].
  by rewrite IH, app_bind.
Qed.

(** The inner loop handles the events of the buffer. *)
Lemma sse_lines_run n s cur w :
  app_run hs hn (sse_lines profile n self s cur) w =
  app_run hs hn (let! _ := handle_events (fst (scan_fuel n s cur)) in
                 Ret (snd (scan_fuel n s cur))) w.
Proof.
  revert s cur w. induction n as [|n IH]; intros s cur w; [done|].
  cbn [sse_lines scan_fuel]. destruct (split_newline s) as [[line rest]|]; [|done].
  destruct (process_sse_line line cur) as [event cur'].
  pose proof (IH rest cur') as IHr. destruct (scan_fuel n rest cur') as [events remaining].
  cbn [fst snd] in *. destruct event as [event|]; [|apply IHr].
  change (option_list (Some event) ++ events) with (event :: events).
  cbn [handle_events]. rewrite !app_bind.
  destruct (app_run hs hn (handle_event profile self event) w) as [[[]|msg] w']; [|done].
  by rewrite IHr, app_bind.
Qed.

(** The chunks that have arrived, up to the end of the stream: the pending polls are
    waited out. *)
Fixpoint stream_items {T} (polls : list (poll (option T))) : list T :=
  match polls with
  | [] | Ready None :: _ => []
  | Ready (Some t) :: polls' => t :: stream_items polls'
  | Pending :: polls' => stream_items polls'
  end.

(** Where a connection is after the polls of its stream: at the first error, at the
    end of the stream, or still waiting. *)
Fixpoint stream_end (polls : list (poll (option (result (list byte) string)))) :
    poll (result unit string) :=
  match polls with
  | [] => Pending
  | Ready None :: _ => Ready (Err "SSE stream ended")
  | Ready (Some (Err e)) :: _ => Ready (Err e)
  | Ready (Some (Ok _)) :: polls' | Pending :: polls' => stream_end polls'
  end.

Lemma sse_chunks_run polls chunks buf cur w :
  stream_items polls = map Ok chunks ->
  Forall (fun b => is_ascii b = true) (concat chunks) -> split_newline buf = None ->
  app_run hs hn (sse_chunks profile self polls buf cur) w =
  app_run hs hn (let! _ := handle_events
                   (fst (scan (buf +:+ String.string_of_list_byte (concat chunks)) cur)) in
                 Ret (stream_end polls)) w.
Proof.
  revert chunks buf cur w.
  induction polls as [|[[[bytes|e]|]|] polls IH]; intros [|chunk chunks] buf cur w Hitems Hascii Hbuf;
    try discriminate Hitems; cbn [sse_chunks stream_end]; [..|].
  all: try (change (concat []) with (@nil byte); change (String.string_of_list_byte []) with "";
            by rewrite string_app_nil_r, scan_nil).
  all: try by apply IH.
  - cbn [concat map stream_items] in *. injection Hitems as -> Hitems.
    apply Forall_app in Hascii as [Hc Hcs].
    rewrite from_utf8_lossy_ascii by done.
    rewrite string_of_list_byte_app, <- string_app_assoc.
    generalize (buf +:+ String.string_of_list_byte chunk). intros s.
    rewrite app_bind, sse_lines_run, scan_app. fold (scan s cur).
    pose proof (scan_left s cur) as Hleft.
    destruct (scan s cur) as [events1 [rest cur']]. cbn [fst snd] in *.
    destruct (scan (rest +:+ _) cur') as [events2 remaining] eqn:Hscan. cbn [fst].
    rewrite !app_bind, handle_events_app, app_bind.
    destruct (app_run hs hn (handle_events events1) w) as [[[]|msg] w']; [|done].
    change (app_run hs hn (Ret (rest, cur')) w') with (Done (rest, cur'), w'). cbn [fst snd].
    by rewrite (IH chunks), app_bind, Hscan.
Qed.

(** C12: a connection whose stream has so far given ASCII text has handled the events
    of the text, in their order and however the text was cut into chunks: its effect
    depends on the concatenation of the chunks alone.  It then reports the end of the
    stream if the stream is over, and waits for the next chunk otherwise. *)
Theorem sse_stream_handles_events response chunks w w1 :
  app_run hs hn (http (subscribe_events (bn_client self))) w = (Done (Ok response), w1) ->
  stream_items (bytes_stream response) = map Ok chunks ->
  Forall (fun b => is_ascii b = true) (concat chunks) ->
  app_run hs hn (connect_sse profile self) w =
  app_run hs hn (let! _ := handle_events
                   (events_of (String.string_of_list_byte (concat chunks))) in
                 Ret (stream_end (bytes_stream response))) w1.
Proof.
  intros Hsub Hitems Hascii. unfold connect_sse. rewrite app_bind, Hsub.
  cbn [map_err]. by apply (sse_chunks_run _ chunks "" None).
Qed.

End runs.
End sse.

(** ** The state of the storage *)

Section state.
Context `{Blst, Alloy}.
Context `{!JsonDeserialize HeadEvent, !JsonDeserialize PayloadAttributesEvent, !JsonBody json}.
Variable profile : build_profile.
Variable self : RelayService.

(** The duties of the registered validators. *)
Definition registered (v : StorageView) : list ProposerDuty -> list ProposerDuty :=
  filter (fun d => is_Some (v_regs v !! pd_pubkey d)).

Definition with_head (slot : HeadSlot) (v : StorageView) : StorageView :=
  Build_StorageView slot (v_attrs v) (v_regs v) (v_duties v) (v_whitelist v) (v_blinded v)
    (v_delivered v).

Definition with_duties (duties : list ProposerDuty) (v : StorageView) : StorageView :=
  Build_StorageView (v_head v) (v_attrs v) (v_regs v) duties (v_whitelist v) (v_blinded v)
    (v_delivered v).

Section spec.
Context {N : Type} (hn : handler nodeE N).

Abbreviation spec_app := (app_run spec_handler hn).

Lemma filter_registered_run duties v (n : N) :
  spec_app (filter_registered duties) (mkAppWorld v n) =
  (Done (registered v duties), mkAppWorld v n).
Proof.
  induction duties as [|d duties IH]; [done|]. cbn [filter_registered].
  rewrite app_store, app_bind. destruct v as [h a r ds wl b dl] eqn:Hv. cbn [spec_handler fst snd] in *.
  rewrite IH. unfold registered; rewrite filter_cons; simpl.
  destruct (r !! pd_pubkey d) as [reg|] eqn:Hr.
  - by rewrite decide_True by eauto.
  - rewrite decide_False; [done|]. by intros [? ?].
Qed.

(** The early return for an empty registry changes nothing. *)
Lemma filter_duties_run duties v (n : N) :
  spec_app (filter_duties duties) (mkAppWorld v n) =
  (Done (registered v duties), mkAppWorld v n).
Proof.
  unfold filter_duties. rewrite app_store. destruct v as [h a r ds wl b dl].
  cbn [spec_handler fst snd]. case_bool_decide as Hr; [|apply filter_registered_run].
  subst r. unfold app_run. simpl. do 2 f_equal. unfold registered. simpl.
  induction duties as [|d duties IH]; [done|]. rewrite filter_cons, decide_False; [done|].
  rewrite lookup_empty. by intros [? ?].
Qed.

(** The duties of two epochs, as the node answers them. *)
Definition synced_duties (v : StorageView) (epoch : Z) (n : N) :
    result (list ProposerDuty) string * N :=
  let '(current, n1) := hn _ (NodeDuties epoch) n in
  match current with
  | Err e => (Err (BeaconError_to_string e), n1)
  | Ok duties =>
      let '(next, n2) := hn _ (NodeDuties (epoch + 1)) n1 in
      (Ok (registered v duties ++
           match next with Ok next => registered v next | Err _ => [] end), n2)
  end.

Definition duties_view (r : result (list ProposerDuty) string) (v : StorageView) : StorageView :=
  match r with Ok duties => with_duties duties v | Err _ => v end.

Lemma sync_duties_run epoch v (n : N) :
  epoch + 1 < u64_modulus ->
  spec_app (sync_duties profile epoch) (mkAppWorld v n) =
  (Done (map_ok (fun _ => tt) (fst (synced_duties v epoch n))),
   mkAppWorld (duties_view (fst (synced_duties v epoch n)) v) (snd (synced_duties v epoch n))).
Proof.
  intros He. unfold sync_duties, synced_duties. rewrite app_duties.
  destruct (hn _ (NodeDuties epoch) n) as [[duties|e] n1]; cbn [fst snd]; [|done].
  rewrite app_bind, filter_duties_run, app_lift, u64_add_fits by done. rewrite app_duties.
  destruct (hn _ (NodeDuties (epoch + 1)) n1) as [[next|e] n2]; cbn [fst snd]; rewrite app_bind.
  - rewrite app_bind, filter_duties_run. by destruct v.
  - rewrite app_nil_r. by destruct v.
Qed.

(** What a head slot does to the storage. *)
Definition refreshed (slot : Z) (v : StorageView) (n : N) : StorageView * N :=
  let v := with_head (mkHeadSlot slot) v in
  if slot mod rls_slots_per_epoch self =? 1 then
    let '(duties, n) := synced_duties v (slot / rls_slots_per_epoch self) n in
    (duties_view duties v, n)
  else (v, n).

(** A refresh slot lies in an epoch that has a successor. *)
Lemma refresh_epoch_fits slot spe :
  0 < spe -> u64_range slot -> slot mod spe = 1 -> slot / spe + 1 < u64_modulus.
Proof.
  unfold u64_range, u64_modulus. intros Hs Hr Hm.
  destruct (Z.eq_dec spe 1) as [->|Hne]; [by rewrite Z.mod_1_r in Hm|].
  assert (slot / spe <= slot / 2) by (apply Z.div_le_compat_l; lia).
  assert (slot / 2 < 2 ^ 63) by (apply Z.div_lt_upper_bound; lia). lia.
Qed.

Lemma handle_head_event_run event v (n : N) :
  0 < rls_slots_per_epoch self -> u64_range (he_slot event) ->
  spec_app (handle_head_event profile self event) (mkAppWorld v n) =
  (Done tt, mkAppWorld (fst (refreshed (he_slot event) v n)) (snd (refreshed (he_slot event) v n))).
Proof.
  intros Hs Hr. unfold handle_head_event, refreshed. rewrite app_store.
  assert (Hh : snd (spec_handler _ (SetHeadSlot (mkHeadSlot (he_slot event))) v) =
               with_head (mkHeadSlot (he_slot event)) v) by by destruct v.
  rewrite Hh. unfold HeadSlot_is_duty_refresh_slot, HeadSlot_epoch; cbn [HeadSlot_0].
  rewrite app_lift, u64_rem_pos by lia. cbn [mbind outcome_bind].
  destruct (_ =? 1) eqn:Hm; [|done]. apply Z.eqb_eq in Hm.
  rewrite app_lift, u64_div_pos by lia.
  rewrite app_bind, sync_duties_run by by apply refresh_epoch_fits.
  by destruct (synced_duties _ _ n) as [[duties|e] n'].
Qed.

End spec.
End state.

(** ** Properties *)

Section properties.
Context `{Blst, Alloy}.
Context `{!JsonDeserialize HeadEvent, !JsonDeserialize PayloadAttributesEvent, !JsonBody json}.
Context `{!Tokio, !TokioLaws}.
Context {S N : Type} `{!Storage S, !StorageLaws S} (hn : handler nodeE N).
Variable profile : build_profile.
Variable self : RelayService.

(** The storage as its specification sees it. *)
Definition app_view (w : AppWorld S N) : StorageView := storage_view (aw_storage w).

Lemma app_refines {R} (p : prog appE R) (w : AppWorld S N) :
  fst (app_run storage_handler hn p w) =
    fst (app_run spec_handler hn p (mkAppWorld (app_view w) (aw_node w))) /\
  mkAppWorld (app_view (snd (app_run storage_handler hn p w)))
    (aw_node (snd (app_run storage_handler hn p w))) =
    snd (app_run spec_handler hn p (mkAppWorld (app_view w) (aw_node w))).
Proof.
  apply (run_refines (app_handler storage_handler hn) (app_handler spec_handler hn)
           (fun w v => mkAppWorld (app_view w) (aw_node w) = v)); [|done].
  intros X e [s n] v <-. destruct e as [X e|X e]; unfold app_view; simpl.
  - destruct (storage_refines X e s) as [Hx Hv].
    destruct (storage_handler X e s), (spec_handler X e (storage_view s)); simpl in *.
    by subst.
  - by destruct (hn X e n).
Qed.

(** C18: a head event always sets the head slot.  In the second slot of an epoch it
    also replaces the duties: by those of the registered proposers for the epoch
    and, when the node answers them too, for the next one; a node that does not
    answer leaves the duties as they are.  Nothing else changes, and no slot makes
    the arithmetic panic or overflow. *)
Theorem head_event_updates (event : HeadEvent) (w : AppWorld S N) :
  0 < rls_slots_per_epoch self -> u64_range (he_slot event) ->
  fst (app_run storage_handler hn (handle_head_event profile self event) w) = Done tt /\
  app_view (snd (app_run storage_handler hn (handle_head_event profile self event) w)) =
    fst (refreshed self hn (he_slot event) (app_view w) (aw_node w)).
Proof.
  intros Hs Hr.
  destruct (app_refines (handle_head_event profile self event) w) as [Hv Hw].
  rewrite handle_head_event_run in Hv, Hw by done. split; [done|]. by injection Hw.
Qed.

(** ** What the service asks of the storage *)

Definition any_answer X (e : appE X) (x : X) : Prop := True.

Section asks.
Variable ok_op : forall X, appE X -> Prop.

Abbreviation asking := (safe ok_op any_answer (fun _ => True)).

Lemma asking_bind {A B} (p : prog appE A) (k : A -> prog appE B) :
  asking p -> (forall a, asking (k a)) -> asking (p ≫= k).
Proof. intros Hp Hk. by eapply safe_bind; [exact Hp|]. Qed.

Lemma asking_op {X} (e : appE X) : ok_op X e -> asking (perform e).
Proof. by split. Qed.

Lemma asking_lift {R} (o : outcome R) : asking (lift_outcome o).
Proof. by destruct o. Qed.

(** The operations of the polls, and those of the events besides. *)
Record polls_ok : Prop := {
  ok_node X (e : nodeE X) : ok_op X (Node e);
  ok_empty : ok_op bool (Store EmptyValidatorRegs);
  ok_read key : ok_op _ (Store (ReadValidatorRegistration key));
  ok_head slot : ok_op unit (Store (SetHeadSlot slot));
  ok_duties duties : ok_op unit (Store (SetProposerDuties duties));
}.

Hypothesis Hok : polls_ok.

Lemma asking_http {R} (p : prog httpE R) : asking (http p).
Proof.
  induction p as [r|msg|X e k IH]; simpl; [done..|].
  split; [by apply ok_node|]. intros x _. apply IH.
Qed.

Lemma asking_filter duties : asking (filter_duties duties).
Proof.
  apply asking_bind; [by apply asking_op, ok_empty|]. intros [|]; [done|].
  induction duties as [|d duties IH]; [done|].
  apply asking_bind; [by apply asking_op, ok_read|]. intros reg. by apply asking_bind.
Qed.

Lemma asking_sync epoch : asking (sync_duties profile epoch).
Proof.
  apply asking_bind; [by apply asking_op, ok_node|]. intros [duties|e]; [|done].
  apply asking_bind; [apply asking_filter|]. intros filtered.
  apply asking_bind; [apply asking_lift|]. intros next_epoch.
  apply asking_bind; [by apply asking_op, ok_node|]. intros next.
  apply asking_bind; [|done]. destruct next as [next|e]; [|by apply asking_op, ok_duties].
  apply asking_bind; [apply asking_filter|]. intros ?. by apply asking_op, ok_duties.
Qed.

Lemma asking_poll_once : asking (poll_once profile self).
Proof.
  apply asking_bind; [by apply asking_op, ok_node|]. intros [].
  apply asking_bind; [apply asking_http|]. intros [slot|e]; [|done].
  apply asking_bind; [by apply asking_op, ok_head|]. intros [].
  apply asking_bind; [apply asking_lift|]. intros epoch.
  apply asking_bind; [apply asking_lift|]. intros [|]; [|done].
  apply asking_bind; [apply asking_sync|done].
Qed.

Lemma asking_polling_rounds ticks : asking (polling_rounds profile ticks self).
Proof.
  induction ticks as [|ticks IH]; [done|].
  apply asking_bind; [apply asking_poll_once|]. by intros [].
Qed.

Lemma asking_polling ticks : asking (polling_loop profile ticks self).
Proof. apply asking_bind; [apply asking_lift|]. intros []. apply asking_polling_rounds. Qed.

Hypothesis ok_attributes : forall attrs, ok_op unit (Store (SetPayloadAttributes attrs)).

Lemma asking_event event : asking (handle_event profile self event).
Proof.
  destruct event as [head|pa]; cbn [handle_event].
  - apply asking_bind; [by apply asking_op, ok_head|]. intros [].
    apply asking_bind; [apply asking_lift|]. intros [|]; [|done].
    apply asking_bind; [apply asking_lift|]. intros epoch.
    apply asking_bind; [apply asking_sync|done].
  - unfold handle_payload_attributes_event. destruct (b256_from_str _); [|done].
    destruct (Address_from_str _); [|done]. by apply asking_op.
Qed.

Lemma asking_lines fuel buf cur : asking (sse_lines profile fuel self buf cur).
Proof.
  revert buf cur. induction fuel as [|fuel IH]; intros buf cur; [done|]. cbn [sse_lines].
  destruct (split_newline buf) as [[line rest]|]; [|done].
  destruct (process_sse_line line cur) as [event cur'].
  apply asking_bind; [|intros _; apply IH]. destruct event; [apply asking_event|done].
Qed.

Lemma asking_chunks polls buf cur : asking (sse_chunks profile self polls buf cur).
Proof.
  revert buf cur.
  induction polls as [|[[[bytes|e]|]|] polls IH]; intros buf cur; cbn [sse_chunks]; try done.
  apply asking_bind; [apply asking_lines|]. intros st. apply IH.
Qed.

Lemma asking_run connections ticks :
  asking (RelayService_run profile connections ticks self).
Proof.
  induction connections as [|connections IH]; [done|]. cbn [RelayService_run].
  apply asking_bind.
  - unfold connect_sse. apply asking_bind; [apply asking_http|].
    intros [response|e]; [apply asking_chunks|done].
  - intros [[[]|e]|]; [|apply asking_polling|done]. apply asking_bind; [apply asking_http|done].
Qed.

End asks.

(** ** Payload attributes and polling *)

Definition keeps_attributes X (e : appE X) : Prop :=
  match e with Store (SetPayloadAttributes _) => False | _ => True end.

Lemma keeping_run {R} (p : prog appE R) (w : AppWorld S N) :
  safe keeps_attributes any_answer (fun _ => True) p ->
  v_attrs (app_view (snd (app_run storage_handler hn p w))) = v_attrs (app_view w).
Proof.
  intros Hp.
  refine (proj1 (safe_run (app_handler storage_handler hn) keeps_attributes any_answer
    (fun w' => v_attrs (app_view w') = v_attrs (app_view w)) (fun _ => True) p w _ Hp eq_refl)).
  intros X e [s n] Hw Hpre. split; [done|]. destruct e as [X e|X e]; simpl.
  - destruct (storage_refines X e s) as [_ Hv]. unfold app_view in *. simpl in Hw.
    destruct (storage_handler X e s) as [x s']. cbn [fst snd aw_storage] in *. rewrite Hv, <- Hw.
    by destruct e, (storage_view s).
  - by destruct (hn X e n).
Qed.

(** ** What the service does returns, without a panic *)

(** The integers of a decoded event are [u64]s. *)
Definition head_events_typed : Prop :=
  forall s event, from_json (T := HeadEvent) s = Ok event -> u64_range (he_slot event).

Section ends.
Hypothesis spe_pos : 0 < rls_slots_per_epoch self.
Hypothesis typed : head_events_typed.

Abbreviation ending := (returns (E := appE) (fun _ => True)).

Lemma ending_filter duties : ending (filter_duties duties).
Proof.
  apply returns_op. intros [|]; [done|]. induction duties as [|d duties IH]; [done|].
  apply returns_op. intros reg. by eapply returns_bind; [exact IH|].
Qed.

Lemma ending_sync epoch : epoch + 1 < u64_modulus -> ending (sync_duties profile epoch).
Proof.
  intros He. apply returns_op. intros [duties|e]; [|done].
  eapply returns_bind; [apply ending_filter|]. intros filtered _.
  eapply returns_lift; [by apply u64_add_fits|]. apply returns_op. intros next.
  apply (returns_bind (fun _ => True)); [|done]. destruct next as [next|e]; [|done].
  eapply returns_bind; [apply ending_filter|]. done.
Qed.

Lemma refresh_slot_of slot :
  HeadSlot_is_duty_refresh_slot (mkHeadSlot slot) (rls_slots_per_epoch self) =
  Done (slot mod rls_slots_per_epoch self =? 1).
Proof. unfold HeadSlot_is_duty_refresh_slot; simpl. by rewrite u64_rem_pos by lia. Qed.

Lemma epoch_of slot :
  HeadSlot_epoch (mkHeadSlot slot) (rls_slots_per_epoch self) =
  Done (slot / rls_slots_per_epoch self).
Proof. unfold HeadSlot_epoch; simpl. by rewrite u64_div_pos by lia. Qed.

Lemma ending_head_event event :
  u64_range (he_slot event) -> ending (handle_head_event profile self event).
Proof.
  intros Hr. apply returns_op. intros _.
  eapply returns_lift; [by apply refresh_slot_of|]. destruct (_ =? 1) eqn:Hm; [|done].
  apply Z.eqb_eq in Hm. eapply returns_lift; [by apply epoch_of|].
  eapply returns_bind; [by apply ending_sync, refresh_epoch_fits|done].
Qed.

(** The events that lines can give. *)
Definition event_typed (event : BeaconEvent) : Prop :=
  match event with Head head => u64_range (he_slot head) | PayloadAttributesEv _ => True end.

Lemma process_sse_line_typed line cur event cur' :
  process_sse_line line cur = (Some event, cur') -> event_typed event.
Proof.
  unfold process_sse_line. destruct (_ || _); [done|].
  destruct (strip_prefix "event: " line); [done|].
  destruct (strip_prefix "data: " line) as [data|]; [|done]. destruct cur as [ty|]; [|done].
  destruct (String.eqb ty "head").
  - destruct (from_json data) as [head|e] eqn:Hd; simpl; [|done]. intros [= <- _]. by eapply typed.
  - destruct (String.eqb ty "payload_attributes"); [|done].
    destruct (from_json data) as [pa|e]; simpl; [|done]. by intros [= <- _].
Qed.

Lemma ending_event event : event_typed event -> ending (handle_event profile self event).
Proof.
  destruct event as [head|pa]; cbn [handle_event]; [apply ending_head_event|].
  intros _. unfold handle_payload_attributes_event. destruct (b256_from_str _); [|done].
  by destruct (Address_from_str _).
Qed.

(** With fuel for every byte of the buffer the loop stops for lack of a newline. *)
Lemma ending_lines fuel buf cur :
  (String.length buf < fuel)%nat ->
  returns (fun st => split_newline (fst st) = None) (sse_lines profile fuel self buf cur).
Proof.
  revert buf cur. induction fuel as [|fuel IH]; intros buf cur Hf; [lia|]. cbn [sse_lines].
  destruct (split_newline buf) as [[line rest]|] eqn:Hs; [|done].
  apply split_newline_length in Hs.
  destruct (process_sse_line line cur) as [event cur'] eqn:Hp.
  apply (returns_bind (fun _ => True)); [|intros _ _; apply IH; lia].
  destruct event as [event|]; [|done].
  by eapply ending_event, process_sse_line_typed.
Qed.

Lemma ending_chunks polls buf cur :
  returns (fun r => r = stream_end polls) (sse_chunks profile self polls buf cur).
Proof.
  revert buf cur.
  induction polls as [|[[[bytes|e]|]|] polls IH]; intros buf cur; cbn [sse_chunks stream_end];
    try done.
  eapply returns_bind; [apply ending_lines; lia|]. intros st _. apply IH.
Qed.

Lemma ending_subscribe : ending (http (subscribe_events (bn_client self))).
Proof.
  apply returns_map. apply returns_op. intros sent. apply returns_try_pure; [done|].
  intros resp _. by apply returns_reject.
Qed.

Lemma ending_poll_once : ending (poll_once profile self).
Proof.
  apply returns_op. intros [].
  eapply (returns_bind (fun r => forall slot, r = Ok slot -> u64_range slot)).
  - apply returns_map. unfold fetch_head_slot.
    apply (returns_bind (fun _ => True)).
    { apply returns_op. intros sent. apply returns_try_pure; [done|].
      intros resp _. by apply returns_reject. }
    intros [resp|e] _; [|done]. apply returns_try_pure; [done|]. intros body _.
    apply returns_try_pure; [done|]. intros str _. apply returns_try_pure; [done|].
    intros slot Hslot%map_err_Ok.
    intros slot' [= <-]. by eapply parse_u64_range.
  - intros [slot|e] Hr; [|done]. specialize (Hr slot eq_refl). apply returns_op. intros _.
    eapply returns_lift; [by apply epoch_of|]. eapply returns_lift; [by apply refresh_slot_of|].
    destruct (_ =? 1) eqn:Hm; [|done]. apply Z.eqb_eq in Hm.
    eapply returns_bind; [by apply ending_sync, refresh_epoch_fits|done].
Qed.

Lemma ending_polling_rounds ticks : ending (polling_rounds profile ticks self).
Proof.
  induction ticks as [|ticks IH]; [done|].
  eapply returns_bind; [apply ending_poll_once|]. intros _ _. apply IH.
Qed.

End ends.

(** Where the answer of the subscription and its stream leave a connection. *)
Definition connection_end (subscribed : result Response BeaconError) :
    poll (result unit string) :=
  match subscribed with
  | Ok response => stream_end (bytes_stream response)
  | Err e => Ready (Err (BeaconError_to_string e))
  end.

Section connection.
Hypothesis spe_pos : 0 < rls_slots_per_epoch self.
Hypothesis typed : head_events_typed.

Lemma connect_sse_ends (w : AppWorld S N) : exists subscribed w1 w2,
  app_run storage_handler hn (http (subscribe_events (bn_client self))) w =
    (Done subscribed, w1) /\
  app_run storage_handler hn (connect_sse profile self) w =
    (Done (connection_end subscribed), w2).
Proof.
  destruct (returns_run (app_handler storage_handler hn) _ _ w ending_subscribe)
    as (subscribed & w1 & Hrun & _). exists subscribed, w1.
  unfold connect_sse. rewrite app_bind. unfold app_run at 1 2. rewrite Hrun.
  destruct subscribed as [response|e]; cbn [map_err connection_end]; [|by exists w1].
  destruct (returns_run (app_handler storage_handler hn) _ _ w1
    (ending_chunks spe_pos typed (bytes_stream response) "" None)) as (r & w2 & Hr & ->).
  by exists w2.
Qed.

(** A connection never ends well. *)
Lemma connection_end_fails subscribed : connection_end subscribed <> Ready (Ok tt).
Proof.
  destruct subscribed as [response|e]; cbn [connection_end]; [|done].
  by induction (bytes_stream response) as [|[[[bytes|e]|]|] polls IH].
Qed.

Lemma polling_rounds_done ticks (w : AppWorld S N) : exists w',
  app_run storage_handler hn (polling_rounds profile ticks self) w = (Done tt, w').
Proof.
  destruct (returns_run (app_handler storage_handler hn) _ _ w
    (ending_polling_rounds spe_pos ticks)) as ([] & w' & Hrun & _). by exists w'.
Qed.

(** The service after the end of its stream. *)
Lemma service_after_stream connections ticks e (w w1 : AppWorld S N) :
  app_run storage_handler hn (connect_sse profile self) w = (Done (Ready (Err e)), w1) ->
  app_run storage_handler hn (RelayService_run profile (Datatypes.S connections) ticks self) w =
  match tokio_interval (polling_interval self) with
  | Done _ => app_run storage_handler hn (polling_rounds profile ticks self) w1
  | Panicked msg => (Panicked msg, w1)
  end.
Proof.
  intros Hc. cbn [RelayService_run]. rewrite app_bind, Hc. unfold polling_loop. by rewrite app_lift.
Qed.

(** With a positive interval the service gets through all the rounds it is given. *)
Lemma service_runs connections ticks (w : AppWorld S N) :
  0 < polling_interval self -> exists w',
  app_run storage_handler hn (RelayService_run profile connections ticks self) w = (Done tt, w').
Proof.
  intros Hi. destruct connections as [|connections]; [by exists w|].
  destruct (connect_sse_ends w) as (subscribed & w1 & w2 & _ & Hc).
  pose proof (connection_end_fails subscribed) as Hfail.
  destruct (connection_end subscribed) as [[[]|e]|]; [done| |].
  - rewrite (service_after_stream _ _ _ _ _ Hc), tokio_interval_positive by done.
    apply polling_rounds_done.
  - exists w2. cbn [RelayService_run]. by rewrite app_bind, Hc.
Qed.

(** One more round is one more poll. *)
Lemma polling_rounds_next ticks (w : AppWorld S N) :
  app_run storage_handler hn (polling_rounds profile (Datatypes.S ticks) self) w =
  app_run storage_handler hn
    (let! _ := polling_rounds profile ticks self in poll_once profile self) w.
Proof.
  revert w. induction ticks as [|ticks IH]; intros w.
  - change (polling_rounds profile 1 self) with
      (let! _ := poll_once profile self in Ret tt : prog appE unit).
    change (polling_rounds profile 0 self) with (Ret tt : prog appE unit).
    rewrite !app_bind. change (app_run _ _ (Ret tt) w) with (@Done unit tt, w). cbv iota beta.
    by destruct (app_run _ _ (poll_once profile self) w) as [[[]|msg] w'].
  - change (polling_rounds profile (Datatypes.S (Datatypes.S ticks)) self) with
      (let! _ := poll_once profile self in polling_rounds profile (Datatypes.S ticks) self).
    rewrite app_bind. cbn [polling_rounds] in *. rewrite !app_bind.
    destruct (app_run _ _ (poll_once profile self) w) as [[[]|msg] w']; [|done].
    by rewrite IH, app_bind.
Qed.

End connection.

(** C19: the loop that takes lines from the buffer ends: with more fuel than the buffer
    has bytes it returns, with a rest that has no newline and the same result for any
    such fuel.  With a positive number of slots per epoch the handling of whatever a
    stream has given returns without a panic, and the connection is over exactly when
    the subscription failed or the stream gave an error or ended, with that error; it
    waits for the next chunk while the stream is open. *)
Theorem connection_ends fuel buf cur polls (w : AppWorld S N) :
  0 < rls_slots_per_epoch self -> head_events_typed -> (String.length buf < fuel)%nat ->
  (exists rest cur' w',
     app_run storage_handler hn (sse_lines profile fuel self buf cur) w = (Done (rest, cur'), w') /\
     app_run storage_handler hn
       (sse_lines profile (Datatypes.S (String.length buf)) self buf cur) w =
       (Done (rest, cur'), w') /\
     split_newline rest = None) /\
  (exists w', app_run storage_handler hn (sse_chunks profile self polls buf cur) w =
     (Done (stream_end polls), w')) /\
  (exists subscribed w1 w2,
     app_run storage_handler hn (http (subscribe_events (bn_client self))) w =
       (Done subscribed, w1) /\
     app_run storage_handler hn (connect_sse profile self) w =
       (Done (connection_end subscribed), w2)).
Proof.
  intros Hs Ht Hf. split; [|split; [|by apply connect_sse_ends]].
  - destruct (returns_run (app_handler storage_handler hn) _ _ w
      (ending_lines Hs Ht fuel buf cur Hf)) as ([rest cur'] & w' & Hrun & Hrest).
    exists rest, cur', w'. split; [exact Hrun|]. split; [|exact Hrest].
    rewrite <- Hrun. fold (app_run storage_handler hn (sse_lines profile fuel self buf cur) w).
    rewrite !sse_lines_run. by rewrite (scan_fuel_enough fuel (Datatypes.S (String.length buf))) by lia.
  - destruct (returns_run (app_handler storage_handler hn) _ _ w
      (ending_chunks Hs Ht polls buf cur)) as (r & w' & Hrun & ->). by exists w'.
Qed.

(** C24: with a positive number of slots per epoch the service panics in one case only:
    its polling interval is zero and its connection is over, and then before the
    first poll, with the panic of [tokio::time::interval] and the storage as the
    connection left it.  While its stream is open, and with any other interval, it never
    panics, whatever the node answers and the storage holds. *)
Theorem relay_service_panics_iff connections ticks msg (w w' : AppWorld S N) :
  0 < rls_slots_per_epoch self -> 0 <= polling_interval self -> head_events_typed ->
  app_run storage_handler hn
    (RelayService_run profile (Datatypes.S connections) ticks self) w = (Panicked msg, w') <->
  polling_interval self = 0 /\ tokio_interval 0 = Panicked msg /\
  exists e, app_run storage_handler hn (connect_sse profile self) w = (Done (Ready (Err e)), w').
Proof.
  intros Hs Hi Ht. destruct (connect_sse_ends Hs Ht w) as (subscribed & w1 & w2 & _ & Hc).
  pose proof (connection_end_fails subscribed) as Hfail.
  destruct (connection_end subscribed) as [[[]|e]|]; [done| |].
  - rewrite (service_after_stream _ _ _ _ _ Hc), Hc.
    destruct (Z.eq_dec (polling_interval self) 0) as [->|Hne].
    + destruct tokio_interval_zero as [msg' ->].
      split; [intros [= -> <-]; eauto|]. by intros (_ & [= ->] & e' & [= _ ->]).
    + rewrite tokio_interval_positive by lia.
      destruct (polling_rounds_done Hs ticks w2) as [w3 ->]. by split; [|intros (? & _)].
  - cbn [RelayService_run]. rewrite app_bind, Hc. by split; [|intros (_ & _ & e & ?)].
Qed.

(** C20: polling is following head events: one poll waits for its tick, asks for the
    head slot, and does with it what a head event of that slot does; it does nothing
    when the node does not answer. *)
Theorem poll_is_head_event (block : string) (epoch_transition optimistic : bool)
    (w : AppWorld S N) :
  rls_slots_per_epoch self <> 0 ->
  app_run storage_handler hn (poll_once profile self) w =
  app_run storage_handler hn
    (let! _ := perform (Node Tick) in
     let! fetched := http (fetch_head_slot (bn_client self)) in
     match fetched with
     | Ok slot =>
         handle_event profile self
           (Head {| he_slot := slot; he_block := block; he_epoch_transition := epoch_transition;
                    he_execution_optimistic := optimistic |})
     | Err _ => Ret tt
     end) w.
Proof.
  intros Hs. unfold poll_once. rewrite !app_bind.
  destruct (app_run _ _ (perform (Node Tick)) w) as [[[]|msg] w1]; [|done]. rewrite !app_bind.
  destruct (app_run _ _ (http _) w1) as [[[slot|e]|msg] [s n]]; [|done..].
  cbn [handle_event]. unfold handle_head_event. cbn [he_slot]. rewrite !app_store.
  unfold HeadSlot_is_duty_refresh_slot, HeadSlot_epoch; cbn [HeadSlot_0].
  rewrite u64_rem_pos, u64_div_pos by done. cbn [mbind outcome_bind mret]. rewrite !app_lift.
  by destruct (_ =? 1).
Qed.

(** C31: once its connection is over a service with a positive polling interval and a
    positive number of slots per epoch polls for ever: for every number of ticks it
    has made exactly that many polls, each of which returned without a panic, and one
    more tick is one more poll.  In every state on the way the payload attributes are
    those that the connection left. *)
Theorem polling_freezes_attributes connections e (w w1 : AppWorld S N) :
  0 < rls_slots_per_epoch self -> head_events_typed -> 0 < polling_interval self ->
  app_run storage_handler hn (connect_sse profile self) w = (Done (Ready (Err e)), w1) ->
  exists polled : nat -> AppWorld S N,
    polled O = w1 /\
    forall ticks,
      app_run storage_handler hn
        (RelayService_run profile (Datatypes.S connections) ticks self) w =
        (Done tt, polled ticks) /\
      app_run storage_handler hn (poll_once profile self) (polled ticks) =
        (Done tt, polled (Datatypes.S ticks)) /\
      v_attrs (app_view (polled ticks)) = v_attrs (app_view w1).
Proof.
  intros Hs Ht Hi Hc.
  exists (fun ticks => snd (app_run storage_handler hn (polling_rounds profile ticks self) w1)).
  split; [done|]. intros ticks. rewrite (service_after_stream _ _ _ _ _ Hc).
  rewrite tokio_interval_positive by done.
  pose proof (polling_rounds_next ticks w1) as Hnext.
  destruct (polling_rounds_done Hs (Datatypes.S ticks) w1) as [w3 Hw3].
  destruct (polling_rounds_done Hs ticks w1) as [w2 Hw2].
  rewrite Hw3, app_bind, Hw2 in Hnext. rewrite Hw3, Hw2. cbn [snd].
  split; [done|]. split; [done|].
  change w2 with (snd (Done tt, w2)) at 1. rewrite <- Hw2.
  by apply keeping_run, asking_polling_rounds.
Qed.

End properties.

(** A character cut by the boundary of two chunks becomes two replacement characters. *)
Lemma split_character_replaced :
  from_utf8_lossy [xc3; xa9] = String.string_of_list_byte [xc3; xa9] /\
  from_utf8_lossy [xc3] +:+ from_utf8_lossy [xa9] =
    String.string_of_list_byte (replacement ++ replacement).
Proof. by split. Qed.

(** Without a head in the second slot of an epoch the duties stay as they are. *)
Lemma skipped_refresh_slot `{Blst, Alloy} {N} (self : RelayService) (hn : handler nodeE N) slot
    (v : StorageView) n :
  slot mod rls_slots_per_epoch self <> 1 -> v_duties (fst (refreshed self hn slot v n)) = v_duties v.
Proof. intros Hm. unfold refreshed. by rewrite (proj2 (Z.eqb_neq _ _) Hm). Qed.

(** ** A head event in two chunks *)

Section samples.

Instance sample_head_event_json : JsonDeserialize HeadEvent := fun s =>
  Ok {| he_slot := 65; he_block := s; he_epoch_transition := false;
        he_execution_optimistic := false |}.
Instance sample_no_attributes_json : JsonDeserialize PayloadAttributesEvent :=
  fun _ => Err "no".
Instance sample_slot_json : JsonBody json := fun _ => Ok JNull.

Definition sample_rls : RelayService :=
  RelayService_new (BeaconNodeApi_new "http://127.0.0.1:3500/") 32 6.

(** A node that knows the duties of one registered and one unknown proposer. *)
Definition sample_node : handler nodeE unit := fun X e n =>
  match e in nodeE X return X * unit with
  | NodeHttp e => match e in httpE X return X * unit with
                  | HttpGet _ => (Err "no", n)
                  | HttpPost _ _ _ => (Err "no", n)
                  | Sleep _ => (tt, n)
                  end
  | NodeDuties epoch =>
      (if epoch =? 2 then
         Ok [{| pd_pubkey := BlsSecretKey_public_key sample_sk; pd_validator_index := 1;
                pd_slot := 66 |};
             {| pd_pubkey := sample_proposer; pd_validator_index := 2; pd_slot := 67 |}]
       else Err (BE_Channel "channel closed"), n)
  | Tick => (tt, n)
  end.

Definition sample_app : AppWorld MemoryStorage unit := mkAppWorld sample_storage tt.

Definition sample_head_event : HeadEvent :=
  {| he_slot := 65; he_block := "{}"; he_epoch_transition := false;
     he_execution_optimistic := false |}.

(** [event: he] and [ad\ndata: {}\n]. *)
Definition sample_chunks : list (list byte) :=
  [String.list_byte_of_string "event: he";
   String.list_byte_of_string ("ad" +:+ String newline "" +:+ "data: {}" +:+ String newline "")].

Definition sample_polls : list (poll (option (result (list byte) string))) :=
  Pending :: map (fun c => Ready (Some (Ok c))) sample_chunks.

(** A node that accepts the subscription and answers with the stream. *)
Definition sample_stream_node (polls : list (poll (option (result (list byte) string)))) :
    handler nodeE unit := fun X e n =>
  match e in nodeE X return X * unit with
  | NodeHttp e => match e in httpE X return X * unit with
                  | HttpGet _ =>
                      (Ok {| status := 200; text := Ok ""; body_bytes := [];
                             bytes_stream := polls |}, n)
                  | HttpPost _ _ _ => (Err "no", n)
                  | Sleep _ => (tt, n)
                  end
  | NodeDuties epoch => sample_node _ (NodeDuties epoch) n
  | Tick => (tt, n)
  end.

(** The stream stays open after its one event. *)
Lemma sse_stream_handles_events_witness :
  events_of (String.string_of_list_byte (concat sample_chunks)) = [Head sample_head_event] /\
  app_run storage_handler (sample_stream_node sample_polls) (connect_sse Release sample_rls)
    sample_app =
  app_run storage_handler (sample_stream_node sample_polls)
    (let! _ := handle_events Release sample_rls
                 (events_of (String.string_of_list_byte (concat sample_chunks))) in
     (Ret Pending : prog appE (poll (result unit string)))) sample_app.
Proof.
  split; [vm_compute; reflexivity|].
  apply (sse_stream_handles_events Release sample_rls storage_handler
    (sample_stream_node sample_polls)
    {| status := 200; text := Ok ""; body_bytes := []; bytes_stream := sample_polls |}
    sample_chunks sample_app sample_app eq_refl eq_refl).
  repeat (constructor; [reflexivity|]). constructor.
Defined.

Lemma sample_head_events_typed : head_events_typed.
Proof. intros s event [= <-]. unfold u64_range, u64_modulus. simpl. lia. Qed.

Lemma connection_ends_witness :
  0 < rls_slots_per_epoch sample_rls /\ head_events_typed /\
  (exists w', app_run storage_handler (sample_stream_node [])
     (sse_chunks Release sample_rls sample_polls "" None) sample_app = (Done Pending, w')) /\
  (exists w', app_run storage_handler (sample_stream_node [])
     (sse_chunks Release sample_rls (sample_polls ++ [Ready None]) "" None) sample_app =
     (Done (Ready (Err "SSE stream ended")), w')).
Proof.
  assert (Hs : 0 < rls_slots_per_epoch sample_rls) by reflexivity.
  split; [exact Hs|]. split; [exact sample_head_events_typed|]. split.
  - exact (proj1 (proj2 (connection_ends (sample_stream_node []) Release sample_rls 1 "" None
      sample_polls sample_app Hs sample_head_events_typed (Nat.lt_0_succ 0)))).
  - exact (proj1 (proj2 (connection_ends (sample_stream_node []) Release sample_rls 1 "" None
      (sample_polls ++ [Ready None]) sample_app Hs sample_head_events_typed (Nat.lt_0_succ 0)))).
Defined.

Definition sample_ended : handler nodeE unit := sample_stream_node (sample_polls ++ [Ready None]).

(** The storage once the stream is over, with a polling interval of [period] seconds. *)
Definition sample_left (period : Z) : AppWorld MemoryStorage unit :=
  snd (app_run storage_handler sample_ended
    (connect_sse Release (RelayService_new (BeaconNodeApi_new "http://127.0.0.1:3500/") 32 period))
    sample_app).

Lemma sample_connection_over period :
  app_run storage_handler sample_ended
    (connect_sse Release (RelayService_new (BeaconNodeApi_new "http://127.0.0.1:3500/") 32 period))
    sample_app = (Done (Ready (Err "SSE stream ended")), sample_left period).
Proof. apply injective_projections; [vm_compute|]; reflexivity. Qed.

(** The same service with a polling interval of zero. *)
Lemma relay_service_panics_iff_witness :
  let zero := RelayService_new (BeaconNodeApi_new "http://127.0.0.1:3500/") 32 0 in
  (0 < rls_slots_per_epoch zero /\ 0 <= polling_interval zero /\ head_events_typed) /\
  app_run storage_handler sample_ended (RelayService_run Release 1 3 zero) sample_app =
    (Panicked "`period` must be non-zero.", sample_left 0).
Proof.
  intros zero. assert (Hs : 0 < rls_slots_per_epoch zero) by reflexivity.
  assert (Hi : 0 <= polling_interval zero) by apply Z.le_refl.
  split; [exact (conj Hs (conj Hi sample_head_events_typed))|].
  assert (Hz : polling_interval zero = 0) by reflexivity.
  assert (Hp : tokio_interval 0 = Panicked "`period` must be non-zero.") by reflexivity.
  assert (Hc : exists e, app_run storage_handler sample_ended (connect_sse Release zero) sample_app =
    (Done (Ready (Err e)), sample_left 0))
    by (exists "SSE stream ended"; exact (sample_connection_over 0)).
  exact (proj2 (relay_service_panics_iff sample_ended Release zero 0 3 _ sample_app (sample_left 0)
    Hs Hi sample_head_events_typed) (conj Hz (conj Hp Hc))).
Defined.

Lemma polling_freezes_attributes_witness :
  exists polled : nat -> AppWorld MemoryStorage unit,
    polled O = sample_left 6 /\
    forall ticks,
      app_run storage_handler sample_ended (RelayService_run Release 1 ticks sample_rls)
        sample_app = (Done tt, polled ticks) /\
      app_run storage_handler sample_ended (poll_once Release sample_rls) (polled ticks) =
        (Done tt, polled (Datatypes.S ticks)) /\
      v_attrs (app_view (polled ticks)) = v_attrs (app_view (sample_left 6)).
Proof.
  assert (Hs : 0 < rls_slots_per_epoch sample_rls) by reflexivity.
  assert (Hi : 0 < polling_interval sample_rls) by reflexivity.
  exact (polling_freezes_attributes sample_ended Release sample_rls 0 _ sample_app (sample_left 6)
    Hs sample_head_events_typed Hi (sample_connection_over 6)).
Defined.

Lemma poll_is_head_event_witness :
  rls_slots_per_epoch sample_rls <> 0 /\
  app_run storage_handler sample_ended (poll_once Release sample_rls) sample_app =
  app_run storage_handler sample_ended
    (let! _ := perform (Node Tick) in
     let! fetched := http (fetch_head_slot (bn_client sample_rls)) in
     match fetched with
     | Ok slot =>
         handle_event Release sample_rls
           (Head {| he_slot := slot; he_block := "{}"; he_epoch_transition := false;
                    he_execution_optimistic := false |})
     | Err _ => Ret tt
     end) sample_app.
Proof.
  assert (Hs : rls_slots_per_epoch sample_rls <> 0) by discriminate.
  split; [exact Hs|].
  exact (poll_is_head_event sample_ended Release sample_rls "{}" false false sample_app Hs).
Defined.

Lemma head_event_updates_witness :
  map pd_slot (v_duties (fst (refreshed sample_rls sample_node 65 (app_view sample_app) tt))) =
    [67] /\
  app_view (snd (app_run storage_handler sample_node
    (handle_head_event Release sample_rls sample_head_event) sample_app)) =
  fst (refreshed sample_rls sample_node 65 (app_view sample_app) tt).
Proof.
  split; [vm_compute; reflexivity|].
  apply (head_event_updates sample_node Release sample_rls sample_head_event sample_app);
    [reflexivity|unfold u64_range, u64_modulus; simpl; lia].
Defined.

End samples.
