(* ===== verification/System.v ===== *)
(** * The running relay

    The connections of builders and proposers and the task that follows the chain,
    as they run in one process ([api/src/*_service.rs], [app/src/relay_service.rs],
    spawned by [app/src/lib.rs]): each is a task, and any other task may run between
    two operations of one.  What is guaranteed of everything the relay sends, and an
    interleaving in which one answer mixes two bids. *)

From S2P Require Import Prelude Effects Text External Concrete Crypto Entity Storage Auctioneer.
From S2P Require Import UseCase UseCaseSpec Concurrency Conversion Services Beacon RelayService.

Section system.
Context `{Blst, Alloy, TreeHashLib, SszTypes}.
Context `{!JsonDeserialize HeadEvent, !JsonDeserialize PayloadAttributesEvent, !JsonBody json}.
Context `{!Tokio}.
Context `{!JsonSerialize (Versioned SignedHeader), !JsonSerialize ExecutionPayload,
          !JsonSerialize BlobsBundle}.

(** ** Tasks *)

(** What the relay sends to its clients; the answer to a unary call goes with its
    request. *)
Inductive reply : Type :=
| ToBidder (m : result proto_BidResponse Status)
| ToRetriever (m : result proto_RetrieveResponse Status)
| ToUnblinder (req : proto_SubmitBlindedBlockRequest)
    (m : result proto_BlindedBlockResponse Status)
| ToValidator (m : result proto_RegisterValidatorResponse Status).

(** The operations of all tasks; a reply is sent on a numbered connection. *)
Inductive systemE : Type -> Type :=
| SysRelay {X} (e : relayE X) : systemE X
| SysNode {X} (e : nodeE X) : systemE X
| SysSend (conn : nat) (m : reply) : systemE bool.

Record SystemWorld (S A N : Type) : Type := mkSystemWorld {
  sys_relay : World S A;
  sys_node : N;
  sys_sent : list (nat * reply);
}.
#[global] Arguments mkSystemWorld {S A N} _ _ _.
#[global] Arguments sys_relay {S A N} _.
#[global] Arguments sys_node {S A N} _.
#[global] Arguments sys_sent {S A N} _.

(** [connected conn n]: the client of the connection still receives after [n] replies
    of the relay. *)
Definition system_handler {S A N} `{!Storage S, !Auctioneer A} (clock : N.t -> Z)
    (hn : handler nodeE N) (connected : nat -> nat -> bool) :
    handler systemE (SystemWorld S A N) := fun X e w =>
  let 'mkSystemWorld rw n sent := w in
  match e in systemE X return X * SystemWorld S A N with
  | SysRelay e =>
      let '(x, rw') := relay_handler storage_handler clock _ e rw in
      (x, mkSystemWorld rw' n sent)
  | SysNode e => let '(x, n') := hn _ e n in (x, mkSystemWorld rw n' sent)
  | SysSend conn m =>
      if connected conn (length sent) then (true, mkSystemWorld rw n (sent ++ [(conn, m)]))
      else (false, mkSystemWorld rw n sent)
  end.

Definition in_stream {Resp} (conn : nat) (to : result Resp Status -> reply) X
    (e : serviceE Resp X) : systemE X :=
  match e in serviceE _ X return systemE X with
  | Use e => SysRelay e
  | Send m => SysSend conn (to m)
  end.

Definition in_app X (e : appE X) : systemE X :=
  match e with Store e => SysRelay (StorageOp e) | Node e => SysNode e end.

Variable profile : build_profile.
Variable bidder : BidderServiceImpl.
Variable retriever : RetrieverServiceImpl.
Variable validator : ValidatorServiceImpl.
Variable follower : RelayService.

(** A client, with all that it will send. *)
Inductive client : Type :=
| Bidder (in_stream : list (result proto_BidRequest Status))
| Retriever (in_stream : list (result proto_RetrieveRequest Status))
| Unblinder (req : proto_SubmitBlindedBlockRequest)
| Registrant (req : proto_RegisterValidatorRequest).

(** The task that serves a client. *)
Definition serve_client (conn : nat) (c : client) : prog systemE unit :=
  match c with
  | Bidder stream => prog_map (in_stream conn ToBidder) (Bidder_bid profile bidder stream)
  | Retriever stream =>
      prog_map (in_stream conn ToRetriever) (Retriever_retrieve profile retriever stream)
  | Unblinder req =>
      let! r := prog_map (@SysRelay) (Retriever_submit_blinded_block retriever req) in
      let! _ := perform (SysSend conn (ToUnblinder req r)) in Ret tt
  | Registrant req =>
      let! r := prog_map (@SysRelay) (Validator_register_validator validator req) in
      let! _ := perform (SysSend conn (ToValidator r)) in Ret tt
  end.

(** The task that follows the chain. *)
Definition follow (connections ticks : nat) : prog systemE unit :=
  prog_map in_app (RelayService_run profile connections ticks follower).

(** Everything that runs: the follower, and a task per client. *)
Definition system_tasks (connections ticks : nat) (clients : list client) :
    list (prog systemE unit) :=
  follow connections ticks :: imap serve_client clients.

(** The submissions among what the clients send. *)
Definition sent_by (clients : list client) (bid : BidSubmission) : Prop :=
  exists stream msg, Bidder stream ∈ clients /\ Ok msg ∈ stream /\
    BidSubmission_try_from msg = Done (Ok bid).

(** ** What is sent *)

Variable fds : ForkDatas.
Variable wl : gset BlsPublicKey.
Variable src : BidSubmission -> Prop.

Abbreviation admitted := (admitted fds wl src).

(** A header of an admitted bid, signed by the relay, and the payload and blobs of an
    admitted bid for the same slot, or none. *)
Definition retrieved_ok (resp : proto_RetrieveResponse) : Prop :=
  exists slot bid, admitted slot bid /\
    rrs_signed_header resp =
      json_or_default (signed_header_of (gh_signer (rs_get_header retriever)) bid) /\
    ((rrs_execution_payload resp = [] /\ rrs_blobs_bundle resp = []) \/
     exists bid', admitted slot bid' /\
       rrs_execution_payload resp = json_or_default (execution_payload bid') /\
       rrs_blobs_bundle resp = json_or_default (bid_blobs bid')).

(** The payload and blobs of an admitted bid with the requested block hash. *)
Definition unblinded_ok (req : proto_SubmitBlindedBlockRequest)
    (resp : proto_BlindedBlockResponse) : Prop :=
  exists slot bid, admitted slot bid /\
    pbb_block_hash resp = sbb_block_hash req /\
    fb_bytes (B256_0 (ep_block_hash (execution_payload bid))) = sbb_block_hash req /\
    to_json (execution_payload bid) = Ok (pbb_execution_payload resp) /\
    pbb_blobs_bundle resp = json_or_default (bid_blobs bid).

Definition reply_ok (m : reply) : Prop :=
  match m with
  | ToRetriever (Ok resp) => retrieved_ok resp
  | ToUnblinder req (Ok resp) => unblinded_ok req resp
  | _ => True
  end.

Definition system_pre X (e : systemE X) : Prop :=
  match e with
  | SysRelay e => relay_pre fds wl src _ e
  | SysNode _ => True
  | SysSend _ m => reply_ok m
  end.

Definition system_resp X (e : systemE X) : X -> Prop :=
  match e in systemE X return X -> Prop with
  | SysRelay e => relay_resp fds wl src _ e
  | SysNode _ => fun _ => True
  | SysSend _ _ => fun _ => True
  end.

(** The use cases behind the services. *)
Definition system_relay : Relay := {|
  r_submit := bs_usecase bidder;
  r_header := rs_get_header retriever;
  r_register := vs_usecase validator;
  r_unblind := rs_unblind retriever;
|}.

(** ** Every task keeps to its side *)

Section streams.
Context {Resp : Type} (resp_ok : result Resp Status -> Prop).

Definition service_pre X (e : serviceE Resp X) : Prop :=
  match e with Use e => relay_pre fds wl src _ e | Send m => resp_ok m end.

Definition service_resp X (e : serviceE Resp X) : X -> Prop :=
  match e in serviceE _ X return X -> Prop with
  | Use e => relay_resp fds wl src _ e
  | Send _ => fun _ => True
  end.

Lemma safe_call {R T} (mid : R -> Prop) (post : T -> Prop) (p : task R)
    (k : R -> prog (serviceE Resp) T) :
  safe (relay_pre fds wl src) (relay_resp fds wl src) mid p ->
  (forall r, mid r -> safe service_pre service_resp post (k r)) ->
  safe service_pre service_resp post (call p ≫= k).
Proof.
  intros Hp Hk. eapply safe_bind; [|exact Hk].
  by apply (safe_map _ (relay_pre fds wl src) (relay_resp fds wl src)).
Qed.

Lemma safe_in_stream {R} conn (to : result Resp Status -> reply) (post : R -> Prop) p :
  (forall m, resp_ok m -> reply_ok (to m)) ->
  safe service_pre service_resp post p ->
  safe system_pre system_resp post (prog_map (in_stream conn to) p).
Proof.
  intros Hto. apply safe_map; intros X [Y e|m]; simpl; auto.
Qed.

End streams.

Abbreviation nothing := (fun _ => True).

Lemma safe_bidder stream :
  sb_fork_datas (bs_usecase bidder) = fds ->
  (forall msg bid, Ok msg ∈ stream -> BidSubmission_try_from msg = Done (Ok bid) -> src bid) ->
  safe (service_pre nothing) (service_resp (Resp := proto_BidResponse)) nothing
    (Bidder_handle_request profile (bs_usecase bidder) stream).
Proof.
  intros Hfds. induction stream as [|[msg|status] stream IH]; intros Hsrc;
    cbn [Bidder_handle_request]; [done| |by apply safe_perform].
  assert (IH' : safe (service_pre nothing) (service_resp (Resp := proto_BidResponse)) nothing
            (Bidder_handle_request profile (bs_usecase bidder) stream)).
  { apply IH. intros m b Hm. apply Hsrc. by apply list_elem_of_further. }
  apply safe_lift. intros [bid|e] Hbid; [|by apply safe_perform; [|intros [|]]].
  assert (Hb : src bid) by (apply (Hsrc msg); [apply list_elem_of_here|done]).
  apply (safe_call nothing nothing); [by apply (safe_submit fds wl src profile system_relay)|].
  intros [[]|e] _; by apply safe_perform; [|intros [|]].
Qed.

Definition retrieved_message_ok (m : result proto_RetrieveResponse Status) : Prop :=
  match m with Ok resp => retrieved_ok resp | Err _ => True end.

Lemma retrieved_ok_response slot bid current :
  admitted slot bid -> (forall b, current = Ok b -> admitted slot (arc_val b)) ->
  retrieved_ok (retrieve_response (signed_header_of (gh_signer (rs_get_header retriever)) bid)
                  (ok (E := AuctioneerError) current)).
Proof.
  intros Hbid Hcurrent. exists slot, bid. split; [done|]. split; [done|].
  destruct current as [b|e]; [right|by left]. exists (arc_val b). split; [by apply Hcurrent|done].
Qed.

Lemma safe_retriever stream :
  safe (service_pre retrieved_message_ok) service_resp nothing
    (Retriever_handle_request profile (rs_get_header retriever) stream).
Proof.
  induction stream as [|[msg|status] stream IH]; cbn [Retriever_handle_request];
    [done| |by apply safe_perform].
  apply safe_lift. intros parent_hash _.
  destruct (BlsPublicKey_deserialize _) as [proposer|e]; [|by apply safe_perform].
  eapply (safe_call retrieved_message_ok);
    [apply (safe_header fds wl src profile system_relay)|].
  intros [header|e]; [|by intros _; apply safe_perform].
  intros (bid & Hbid & _ & ->).
  apply (safe_call retrieved_message_ok (fun r => forall b, r = Ok b -> admitted (rr_slot msg) (arc_val b)));
    [by split|].
  intros current Hcurrent. apply safe_perform; [|by intros [|]].
  by eapply retrieved_ok_response.
Qed.

Lemma safe_unblinder req :
  safe (relay_pre fds wl src) (relay_resp fds wl src)
    (fun r => forall resp, r = Ok resp -> unblinded_ok req resp)
    (Retriever_submit_blinded_block retriever req).
Proof.
  unfold Retriever_submit_blinded_block. apply safe_lift. intros block_hash Hhash.
  apply safe_try_pure; [done|]. intros signature _.
  eapply safe_bind; [apply (safe_unblind fds wl src system_relay)|]. intros r Hr.
  apply safe_try_pure; [done|]. intros resp Hresp. apply map_err_Ok in Hresp. subst r.
  apply safe_try_pure; [done|]. intros payload Hpayload. apply map_err_Ok in Hpayload.
  destruct Hr as [(slot & bid & Hbid & ->) Hh]. intros answer [= <-].
  exists slot, bid. simpl in *. unfold execution_payload.
  assert (Hbytes : fb_bytes block_hash = sbb_block_hash req).
  { unfold from_slice in Hhash. destruct (array_try_from 32 _) as [a|] eqn:Ha; [|done].
    injection Hhash as <-. by apply array_try_from_Some in Ha. }
  rewrite Hh. simpl. rewrite Hbytes. done.
Qed.

Lemma safe_registrant req :
  safe (relay_pre fds wl src) (relay_resp fds wl src) nothing (Validator_register_validator validator req).
Proof.
  unfold Validator_register_validator. destruct (rvr_registration req) as [p|]; [|done].
  destruct (SignedValidatorRegistration_try_from p) as [reg|e]; [|done].
  eapply (safe_bind _ _ nothing); [|by intros [|]].
  unfold RegisterValidatorUseCase_execute. apply safe_reject; [done|]. intros _. by apply safe_perform.
Qed.

Lemma safe_client conn c :
  sb_fork_datas (bs_usecase bidder) = fds -> (forall bid, sent_by [c] bid -> src bid) ->
  safe system_pre system_resp nothing (serve_client conn c).
Proof.
  intros Hfds Hsrc. destruct c as [stream|stream|req|req]; cbn [serve_client].
  - apply (safe_in_stream nothing); [done|]. apply safe_bidder; [done|].
    intros msg bid Hm Hb. apply Hsrc. exists stream, msg. by split; [apply list_elem_of_here|].
  - apply (safe_in_stream retrieved_message_ok); [done|]. apply safe_retriever.
  - eapply safe_bind.
    + by apply (safe_map _ (relay_pre fds wl src) (relay_resp fds wl src)); [..|apply safe_unblinder].
    + intros r Hr. apply safe_perform; [|done]. destruct r as [resp|e]; [|done]. by apply Hr.
  - eapply safe_bind.
    + by apply (safe_map _ (relay_pre fds wl src) (relay_resp fds wl src)); [..|apply safe_registrant].
    + intros r _. by apply safe_perform.
Qed.

(** The follower writes neither payloads nor deliveries. *)
Definition follows X (e : appE X) : Prop :=
  match e with
  | Store (SetBlindedBlockResponse _ _) | Store (SetDeliveredBlocks _) => False
  | _ => True
  end.

Lemma safe_follow connections ticks :
  safe system_pre system_resp nothing (follow connections ticks).
Proof.
  apply (safe_map _ follows any_answer).
  - by intros X [Y [] | Y e].
  - done.
  - by apply asking_run.
Qed.

(** ** The invariant of the system *)

Section shared.
Context {S A N : Type} `{!Storage S, !StorageLaws S, !Auctioneer A, !AuctionView A, !SharedAuction A}.
Variable clock : N.t -> Z.
Hypothesis clock_mono : clock_monotone clock.
Variable hn : handler nodeE N.
Variable connected : nat -> nat -> bool.

Definition system_invariant (w : SystemWorld S A N) : Prop :=
  relay_invariant fds wl src clock (sys_relay w) /\ Forall (fun m => reply_ok (snd m)) (sys_sent w).

Lemma system_preserves :
  handler_preserves (system_handler clock hn connected) system_pre system_resp system_invariant.
Proof.
  intros X e [rw n sent] [HI Hsent] Hpre. destruct e as [X e|X e|conn m]; simpl in *.
  - pose proof (relay_preserves fds wl src clock clock_mono X e rw HI Hpre) as [Hr HI'].
    by destruct (relay_handler storage_handler clock X e rw).
  - by destruct (hn X e n).
  - destruct (connected conn (length sent)); [|done]. split; [done|]. split; [done|].
    apply Forall_app. by repeat constructor.
Qed.

Lemma system_interleavings connections ticks clients (w w' : SystemWorld S A N) ts :
  sb_fork_datas (bs_usecase bidder) = fds -> (forall bid, sent_by clients bid -> src bid) ->
  system_invariant w ->
  rtc (pool_step (system_handler clock hn connected))
    (system_tasks connections ticks clients, w) (ts, w') ->
  system_invariant w'.
Proof.
  intros Hfds Hsrc HI Hr.
  refine (proj2 (pool_invariant (system_handler clock hn connected) system_pre system_resp
    system_invariant nothing (system_tasks connections ticks clients, w) (ts, w')
    system_preserves _ HI Hr)).
  constructor; [apply safe_follow|]. apply Forall_forall. intros p Hp.
  apply elem_of_lookup_imap in Hp as (conn & c & -> & Hc). apply safe_client; [done|].
  intros bid (stream & msg & Hin & Hm). apply Hsrc. exists stream, msg. split; [|done].
  apply list_elem_of_singleton in Hin as ->. by apply list_elem_of_lookup; exists conn.
Qed.

(** C1: whatever the clients send, whatever the beacon node answers and however the
    operations of all tasks interleave, everything the relay has sent is in order:
    each retrieved header is that of an admitted bid under the relay's signature, with
    the payload and blobs of an admitted bid of the same slot, and each unblinded
    payload is that of an admitted bid with the requested block hash; and the shared
    state keeps its invariant.  An admitted bid is one that a client sent, on a stream
    of a bidder (or has any property [src] that all of these have), for its slot, not
    zero and signed by a whitelisted builder. *)
Theorem system_sends_only_admitted connections ticks clients (w w' : SystemWorld S A N) ts :
  sb_fork_datas (bs_usecase bidder) = fds -> (forall bid, sent_by clients bid -> src bid) ->
  relay_invariant fds wl src clock (sys_relay w) -> sys_sent w = [] ->
  rtc (pool_step (system_handler clock hn connected))
    (system_tasks connections ticks clients, w) (ts, w') ->
  relay_invariant fds wl src clock (sys_relay w') /\
  forall conn m, (conn, m) ∈ sys_sent w' -> reply_ok m.
Proof.
  intros Hfds Hsrc HI Hsent Hr.
  assert (HI0 : system_invariant w) by (split; [done|]; rewrite Hsent; constructor).
  destruct (system_interleavings _ _ _ _ _ _ Hfds Hsrc HI0 Hr) as [HI' Hsent'].
  split; [done|]. intros conn m Hm. exact (proj1 (Forall_forall _ _) Hsent' _ Hm).
Qed.

End shared.
End system.

(** ** Well-typed bids *)

Section typed.
Context `{Blst, AlloyLaws, TreeHashLib, SszLaws}.
Context `{!JsonDeserialize HeadEvent, !JsonDeserialize PayloadAttributesEvent, !JsonBody json}.
Context `{!Tokio}.
Context `{!JsonSerialize (Versioned SignedHeader), !JsonSerialize ExecutionPayload,
          !JsonSerialize BlobsBundle}.
Context {S A N : Type} `{!Storage S, !StorageLaws S, !Auctioneer A, !AuctionView A, !SharedAuction A}.
Variable clock : N.t -> Z.
Hypothesis clock_mono : clock_monotone clock.
Variable hn : handler nodeE N.
Variable connected : nat -> nat -> bool.

(** C23: everything the relay holds is well typed: when the messages of the clients
    are (as decoded messages are), then however the tasks interleave, every live bid
    has a slot, gas amounts and a value within their widths and is filed under its own
    slot, and its payload, like every stored payload, has a bloom of 256 bytes, at most
    32 bytes of extra data, 2^20 transactions of at most 2^30 bytes and 16 withdrawals,
    and numbers within their widths. *)
Theorem held_bids_well_typed profile (bidder : BidderServiceImpl) retriever validator follower
    fds wl connections ticks clients (w w' : SystemWorld S A N) ts :
  sb_fork_datas (bs_usecase bidder) = fds ->
  (forall stream msg, Bidder stream ∈ clients -> Ok msg ∈ stream -> proto_bid_typed msg) ->
  relay_invariant fds wl submission_typed clock (sys_relay w) -> sys_sent w = [] ->
  rtc (pool_step (system_handler clock hn connected))
    (system_tasks profile bidder retriever validator follower connections ticks clients, w) (ts, w') ->
  (forall t slot b, now clock (sys_relay w') <= t ->
     best t slot (w_auctioneer (sys_relay w')) = Some b ->
     bt_slot (message (arc_val b)) = slot /\ submission_typed (arc_val b)) /\
  (forall key resp, v_blinded (view (sys_relay w')) !! key = Some resp ->
     payload_typed (bbr_execution_payload resp)).
Proof.
  intros Hfds Hmsg HI Hsent Hr.
  assert (HI0 : system_invariant retriever fds wl submission_typed clock w) by (split; [done|]; rewrite Hsent; constructor).
  assert (Hby : forall bid, sent_by clients bid -> submission_typed bid).
  { intros bid (stream & msg & Hin & Hm & Hb).
    by apply (BidSubmission_try_from_typed msg); [apply (Hmsg stream)|]. }
  destruct (system_interleavings profile bidder retriever validator follower _ _ _ clock
    clock_mono hn connected _ _ _ _ _ _ Hfds Hby HI0 Hr) as [HI' _]. split.
  - intros t slot b Ht Hb. pose proof (inv_best _ _ _ _ _ HI' t slot b Ht Hb) as Hadm.
    split; by destruct Hadm.
  - intros key resp Hk. destruct (inv_blinded _ _ _ _ _ HI' key resp Hk) as (slot & bid & Hadm & ->).
    apply adm_source in Hadm. by destruct Hadm.
Qed.

End typed.

(** ** An answer that mixes two bids *)

(** JSON that shows block hashes only. *)
Definition show_hash (h : B256) : result (list byte) string := Ok (fb_bytes (B256_0 h)).

#[export] Instance header_json : JsonSerialize (Versioned SignedHeader) :=
  fun h => show_hash (eph_block_hash (sh_message (data h))).
#[export] Instance payload_json : JsonSerialize ExecutionPayload := fun p => show_hash (ep_block_hash p).
#[export] Instance blobs_json : JsonSerialize BlobsBundle := fun _ => Ok [].
#[export] Instance no_head_json : JsonDeserialize HeadEvent := fun _ => Err "no".
#[export] Instance no_attributes_json : JsonDeserialize PayloadAttributesEvent := fun _ => Err "no".
#[local] Instance no_json : JsonBody json := fun _ => Err "no".

Definition sample_bidder : BidderServiceImpl := BidderServiceImpl_new sample_submit_uc.
Definition sample_retriever : RetrieverServiceImpl :=
  RetrieverServiceImpl_new sample_signer sample_fds.
Definition sample_validator : ValidatorServiceImpl :=
  ValidatorServiceImpl_new (RegisterValidatorUseCase_new sample_fds).

(** A bid of the sample builder for slot 10. *)
Definition sample_bid_request (value : string) (block_hash : list byte) : proto_BidRequest :=
  sample_request (compute_builder_domain sample_fds) 10 value block_hash [x07].

(** Two builders, and a proposer between them. *)
Definition sample_clients : list client :=
  [Bidder [Ok (sample_bid_request "100" (repeat x01 32))];
   Retriever [Ok (sample_retrieve (repeat x00 32))];
   Bidder [Ok (sample_bid_request "150" (repeat x02 32))]].

Definition sample_system_handler :
    handler systemE (SystemWorld MemoryStorage (MemoryAuctioneer (C := ToyCache (Arc BidSubmission))) unit) :=
  system_handler sample_clock sample_node (fun _ _ => true).

Abbreviation sample_pool :=
  (pool (E := systemE) (W := SystemWorld MemoryStorage
     (MemoryAuctioneer (C := ToyCache (Arc BidSubmission))) unit) unit).

Definition mixed_start : sample_pool :=
  (system_tasks Debug sample_bidder sample_retriever sample_validator sample_rls 0 0 sample_clients,
   mkSystemWorld sample_world tt []).

(** The first bid is in; the proposer's task has its header; the second bid comes in;
    the task reads the payload. *)
Definition mixed_end : sample_pool :=
  run_task sample_system_handler 50 2
    (run_task sample_system_handler 50 3
       (run_task sample_system_handler 4 2
          (run_task sample_system_handler 50 1 mixed_start))).

Lemma mixed_end_reachable :
  rtc (pool_step sample_system_handler) mixed_start (fst mixed_end, snd mixed_end).
Proof.
  rewrite <- surjective_pairing. unfold mixed_end.
  do 3 (etrans; [|apply run_task_steps]). apply run_task_steps.
Qed.

Definition mixed_reply : proto_RetrieveResponse := {|
  rrs_signed_header := repeat x01 32;
  rrs_execution_payload := repeat x02 32;
  rrs_blobs_bundle := [];
|}.

Definition accepted_reply : reply := ToBidder (Ok {| brs_code := 0; brs_message := "ok" |}).

Lemma mixed_end_sent :
  sys_sent (snd mixed_end) =
  [(0%nat, accepted_reply); (2%nat, accepted_reply); (1%nat, ToRetriever (Ok mixed_reply))].
Proof. vm_cast_no_check (eq_refl (sys_sent (snd mixed_end))). Qed.

(** C28: one answer to [retrieve] can carry the header of one bid and the payload of
    another: the header is served from the best bid, and the payload from the best
    bid at the next operation, before which a higher bid may be accepted.  Here the
    header is for the block [0x01..] and the payload beside it that of [0x02..]. *)
Theorem retrieve_race_mixes_bids :
  exists c, rtc (pool_step sample_system_handler) mixed_start c /\
    (1%nat, ToRetriever (Ok mixed_reply)) ∈ sys_sent (snd c) /\
    rrs_signed_header mixed_reply = fb_bytes (B256_0 (sample_hash x01)) /\
    rrs_execution_payload mixed_reply = fb_bytes (B256_0 (sample_hash x02)).
Proof.
  exists (fst mixed_end, snd mixed_end). split; [apply mixed_end_reachable|].
  cbn [snd]. rewrite mixed_end_sent. split; [|by split].
  do 2 apply list_elem_of_further. apply list_elem_of_here.
Qed.

Lemma system_sends_only_admitted_witness :
  reply_ok sample_retriever sample_fds sample_whitelist (sent_by sample_clients) (ToRetriever (Ok mixed_reply)).
Proof.
  assert (Hin : (1%nat, ToRetriever (Ok mixed_reply)) ∈ sys_sent (snd mixed_end)).
  { rewrite mixed_end_sent. do 2 apply list_elem_of_further. apply list_elem_of_here. }
  exact (proj2 (system_sends_only_admitted Debug sample_bidder sample_retriever sample_validator
    sample_rls sample_fds sample_whitelist (sent_by sample_clients) sample_clock
    sample_clock_monotone sample_node
    (fun _ _ => true) 0 0 sample_clients (mkSystemWorld sample_world tt []) (snd mixed_end)
    (fst mixed_end) eq_refl (fun _ Hb => Hb) (sample_world_invariant _) eq_refl mixed_end_reachable) _ _ Hin).
Defined.

Lemma sample_bid_request_typed value block_hash :
  proto_bid_typed (sample_bid_request value block_hash).
Proof.
  split; intros ? [= <-]; cbv -[Z.lt Z.le]; repeat (split || constructor); lia.
Qed.

Lemma sample_clients_typed stream msg :
  Bidder stream ∈ sample_clients -> Ok msg ∈ stream -> proto_bid_typed msg.
Proof.
  unfold sample_clients. rewrite !elem_of_cons, elem_of_nil. intros Hin Hm.
  destruct Hin as [[= ->]|[?|[[= ->]|[]]]]; [|done|];
    apply list_elem_of_singleton in Hm as [= ->]; apply sample_bid_request_typed.
Qed.

(** The higher of the two bids is live, and its payload is stored. *)
Lemma held_bids_well_typed_witness :
  (forall t slot b, now sample_clock (sys_relay (snd mixed_end)) <= t ->
     best t slot (w_auctioneer (sys_relay (snd mixed_end))) = Some b ->
     bt_slot (message (arc_val b)) = slot /\ submission_typed (arc_val b)) /\
  (forall key resp, v_blinded (view (sys_relay (snd mixed_end))) !! key = Some resp ->
     payload_typed (bbr_execution_payload resp)).
Proof.
  exact (held_bids_well_typed sample_clock sample_clock_monotone sample_node (fun _ _ => true)
    Debug sample_bidder sample_retriever sample_validator sample_rls sample_fds sample_whitelist
    0 0 sample_clients (mkSystemWorld sample_world tt []) (snd mixed_end) (fst mixed_end)
    eq_refl sample_clients_typed (sample_world_invariant _) eq_refl mixed_end_reachable).
Defined.
