(* ===== verification/EndToEnd.v ===== *)
(** * From a builder's request to the revealed block

    One exchange through the gRPC services of [Services.v], request by request: a
    builder's bid is accepted, a proposer retrieves the header and hands in its
    signature.  The theorem relates the bytes of the three requests to those of the
    three answers. *)

From S2P Require Import Prelude Effects Text External Concrete Crypto Entity Storage Auctioneer.
From S2P Require Import UseCase UseCaseSpec Concurrency Conversion Services Grpc Beacon RelayService System.

Section exchange.
Context `{Blst, AlloyLaws, TreeHashLib, SszLaws}.
Context `{!JsonSerialize (Versioned SignedHeader), !JsonSerialize ExecutionPayload,
          !JsonSerialize BlobsBundle}.
Context {S A : Type} `{!Storage S, !StorageLaws S, !Auctioneer A, !AuctioneerLaws A}.
Variable clock : N.t -> Z.
Hypothesis clock_mono : clock_monotone clock.
Variable profile : build_profile.

Abbreviation serving := (service_run (S := S) (A := A) clock (fun _ => true)).

Definition accepted_response : proto_BidResponse := {| brs_code := 0; brs_message := "ok" |}.

(** The answer [0 "ok"] is given to a request that converts and is accepted alone. *)
Lemma accepted_request uc msg (w w1 : World S A) :
  serving (Bidder_handle_request profile uc [Ok msg]) (mkServiceWorld w []) =
    (Done tt, mkServiceWorld w1 [Ok accepted_response]) ->
  exists bid, BidSubmission_try_from msg = Done (Ok bid) /\
    relay_run clock (SubmitBidUseCase_execute profile uc bid) w = (Done (Ok tt), w1).
Proof.
  intros Hrun.
  destruct (bidder_step clock profile uc msg [] w []) as [(r & w' & Ha & Hs)|(err & w' & _ & Hs)];
    rewrite Hs in Hrun; [|done].
  injection Hrun as <- Hr. destruct Ha as [e _|bid w' Hc Hb|bid e w' _ _]; [done| |done].
  by exists bid.
Qed.

Lemma relay_run_is_run {R} (p : task R) (w : World S A) :
  relay_run clock p w = run (relay_handler storage_handler clock) p w.
Proof. done. Qed.

(** A retrieve request that is answered with a message was served a header, beside the
    bid that was best afterwards. *)
Lemma answered_retrieve uc rmsg (w1 w2 : World S A) resp :
  serving (Retriever_handle_request profile uc [Ok rmsg]) (mkServiceWorld w1 []) =
    (Done tt, mkServiceWorld w2 [Ok resp]) ->
  exists parent_hash proposer header w,
    BlsPublicKey_deserialize (rr_proposer_pubkey rmsg) = Ok proposer /\
    relay_run clock (GetHeaderUseCase_execute profile uc (rr_slot rmsg) parent_hash proposer) w1 =
      (Done (Ok header), w) /\
    resp = retrieve_response header (best (now clock w) (rr_slot rmsg) (w_auctioneer w)) /\
    view w2 = view w.
Proof.
  cbn [Retriever_handle_request]. rewrite service_lift. intros Hrun.
  destruct (from_slice 32 (rr_parent_hash rmsg)) as [ph|err]; [|done].
  destruct (BlsPublicKey_deserialize _) as [proposer|e]; [|by rewrite service_send in Hrun].
  rewrite service_call in Hrun.
  destruct (relay_run clock _ w1) as [[[header|e]|err] [s a n]] eqn:Hget; [| |done];
    [|by rewrite service_send in Hrun].
  exists (mkB256 ph), proposer, header, (mkWorld s a n). split; [done|]. split; [done|].
  rewrite service_call, relay_get_best, service_send, get_best_bid_value in Hrun.
  injection Hrun as <- <-. unfold now, ok. simpl. by destruct (best (clock n) (rr_slot rmsg) a).
Qed.

(** The answer to an unblinding request whose parts parse, from that of the use case. *)
Lemma submit_blinded_block_run retriever req (w : World S A) hash sig bid js :
  fb_bytes hash = sbb_block_hash req -> BlsSignature_deserialize (sbb_signature req) = Ok sig ->
  to_json (bid_payload bid) = Ok js ->
  fb_bytes (B256_0 (ep_block_hash (bid_payload bid))) = sbb_block_hash req ->
  fst (relay_run clock (Retriever_submit_blinded_block retriever req) w) =
    Done (Ok {| pbb_execution_payload := js;
                pbb_blobs_bundle := json_or_default (bid_blobs bid);
                pbb_block_hash := sbb_block_hash req |}) <->
  exists revealed, fst (relay_run clock (UnblindBlockUseCase_execute (rs_unblind retriever)
      (sbb_slot req) (sbb_proposer_index req) (mkB256 hash) sig) w) = Done (Ok revealed) /\
    to_json (bbr_execution_payload revealed) = Ok js /\
    default [] (json_or_default <$> bbr_blobs_bundle revealed) = json_or_default (bid_blobs bid).
Proof.
  intros Hhash Hsig Hjs Hbid. unfold Retriever_submit_blinded_block.
  rewrite <- Hhash at 1. rewrite from_slice_bytes.
  change (lift_outcome (Done hash) ≫= ?k) with (k hash). cbv beta.
  rewrite Hsig, relay_try_ret. cbn [map_err]. rewrite relay_run_bind.
  destruct (relay_run clock (UnblindBlockUseCase_execute _ _ _ _ _) w)
    as [[[r|e]|m] w'] eqn:Er; cbn [fst]; [| |by apply unblind_block_total in Er];
    rewrite relay_try_ret; cbn [map_err].
  2: { split; [done|]. intros (r & Hr & _). discriminate Hr. }
  destruct (unblind_block_Ok clock _ _ _ _ _ _ _ _ Er) as [duty Hall].
  pose proof (ub_hash _ _ _ _ _ _ _ _ Hall) as Hh.
  rewrite relay_try_ret. destruct (to_json (bbr_execution_payload r)) as [js'|e] eqn:Ej;
    cbn [map_err].
  - simpl. rewrite Hh. simpl. rewrite Hhash. split.
    + intros [= -> Hb]. by exists r.
    + intros (r' & [= <-] & Hr & Hb). rewrite Ej in Hr. injection Hr as ->. by rewrite Hb.
  - split; [done|]. intros (r' & [= <-] & Hr & _). by rewrite Ej in Hr.
Qed.

(** C8: a builder's block reaches the proposer byte for byte: when a bid request is
    answered [0 "ok"] and a retrieve request for its slot is then answered, the request
    carried exactly the submission whose signed header the proposer received as JSON.
    Beside the header it received the JSON of that submission's payload and blobs,
    before any signature of its own, exactly when the bid was still live when the
    auctioneer was read again, in the state [wr] that serving the header left - which it
    was if its lifetime, counted from the bid request, was not over - and nothing
    otherwise.  The unblinding request for the block hash of the builder's message is
    then answered with the JSON of that payload and of its blobs, and that hash, exactly
    when it has the index of the slot's duty and the signature of the proposer that
    retrieved the header. *)
Theorem block_reaches_proposer bidder retriever msg rmsg req t p (w w1 w2 : World S A) resp :
  HeadSlot_0 (v_head (view w)) < u64_max -> arcs_old clock w ->
  pr_bid_trace msg = Some t -> pr_execution_payload msg = Some p ->
  serving (Bidder_bid profile bidder [Ok msg]) (mkServiceWorld w []) =
    (Done tt, mkServiceWorld w1 [Ok accepted_response]) ->
  serving (Retriever_retrieve profile retriever [Ok rmsg]) (mkServiceWorld w1 []) =
    (Done tt, mkServiceWorld w2 [Ok resp]) ->
  rr_slot rmsg = pt_slot t -> sbb_slot req = pt_slot t -> sbb_block_hash req = pp_block_hash p ->
  exists bid proposer duty wr parent_hash header,
    trace_matches t (message bid) /\ payload_matches p (bid_payload bid) /\
    blobs_match (default proto_BlobsBundle_default (pr_blobs_bundle msg)) (bid_blobs bid) /\
    BlsPublicKey_deserialize (rr_proposer_pubkey rmsg) = Ok proposer /\
    is_duty_of (v_duties (view w)) (pt_slot t) duty /\ pd_pubkey duty = proposer /\
    rrs_signed_header resp =
      json_or_default (signed_header_of (gh_signer (rs_get_header retriever)) bid) /\
    relay_run clock (GetHeaderUseCase_execute profile (rs_get_header retriever) (pt_slot t)
      parent_hash proposer) w1 = (Done (Ok header), wr) /\
    (rrs_execution_payload resp, rrs_blobs_bundle resp) =
      (if is_some (best (now clock wr) (pt_slot t) (w_auctioneer wr))
       then (json_or_default (bid_payload bid), json_or_default (bid_blobs bid))
       else ([], [])) /\
    (now clock wr < now clock w + lifetime (w_auctioneer w) ->
     is_some (best (now clock wr) (pt_slot t) (w_auctioneer wr)) = true) /\
    forall js sig, to_json (bid_payload bid) = Ok js ->
      BlsSignature_deserialize (sbb_signature req) = Ok sig ->
      fst (relay_run clock (Retriever_submit_blinded_block retriever req) w2) =
        Done (Ok {| pbb_execution_payload := js;
                    pbb_blobs_bundle := json_or_default (bid_blobs bid);
                    pbb_block_hash := pp_block_hash p |}) <->
      pd_validator_index duty = sbb_proposer_index req /\
      BlsSignature_verify sig proposer
        (blinded_block_signing_root (pt_slot t) (sbb_proposer_index req)
           (ep_block_hash (bid_payload bid))
           (compute_proposer_domain (ub_fork_datas (rs_unblind retriever)))) = true.
Proof.
  intros Hhead Hold Ht Hp Hbid Hret Hrs Hbs Hbh.
  apply accepted_request in Hbid as (bid & Hconv & Hsub).
  apply answered_retrieve in Hret as (ph & proposer & header & w1' & Hpk & Hget & -> & Hview).
  pose proof (bid_parts _ _ _ _ Ht Hp Hconv) as (Htm & Hpm & Hbm).
  rewrite Hrs, <- (tm_slot _ _ Htm) in Hget.
  destruct (header_after_submit clock clock_mono _ _ _ _ _ _ _ _ _ _ Hhead Hold Hsub Hget)
    as (-> & (duty & Hs) & Hbest & Hlive).
  exists bid, proposer, duty, w1', ph, (signed_header_of (gh_signer (rs_get_header retriever)) bid).
  do 4 (split; [done|]).
  split; [rewrite <- (tm_slot _ _ Htm); by destruct Hs|]. split; [by destruct Hs|].
  split; [done|]. rewrite Hrs, <- (tm_slot _ _ Htm). split; [done|]. split; [|split].
  - destruct (best _ _ _) as [b|] eqn:Hb; [|done]. cbn. unfold execution_payload.
    by rewrite (Hbest _ _ (Z.le_refl _) Hb).
  - intros Hlt. destruct (Hlive (now clock w1') (conj (Z.le_refl _) Hlt)) as [b ->]. done.
  - intros js sig Hjs Hsig.
    pose proof (pm_block_hash _ _ Hpm) as Hhash. unfold hash_of in Hhash.
    assert (Hbh' : fb_bytes (B256_0 (ep_block_hash (bid_payload bid))) = sbb_block_hash req)
      by by rewrite Hbh.
    rewrite <- Hbh. rewrite (submit_blinded_block_run retriever req w2 _ sig bid js Hbh' Hsig Hjs Hbh').
    rewrite B256_eta, Hbs, <- (tm_slot _ _ Htm).
    rewrite <- Hview in Hs.
    rewrite <- (unblind_served clock (rs_unblind retriever) _ w2 _ _ _ _ _ sig Hs). split.
    + intros (r & Hr & _). rewrite Hr. do 2 f_equal.
      destruct (relay_run clock _ w2) as [o w3] eqn:Er. simpl in Hr. subst o.
      apply unblind_block_Ok in Er as (d & Hall).
      destruct Hs as [_ Hd2 Hpk2 _ Hst]. destruct Hall as [Hd _ _ _ Hr' _].
      apply find_duty_spec in Hd. apply find_duty_spec in Hd2.
      assert (d = duty) as -> by congruence. congruence.
    + intros Hr. by exists (to_blinded_block_response bid).
Qed.

End exchange.

(** ** An exchange *)

Abbreviation sample_serving := (service_run (S := MemoryStorage)
  (A := MemoryAuctioneer (C := ToyCache (Arc BidSubmission))) sample_clock (fun _ => true)).

Lemma service_end {S A Resp} (r : outcome unit * ServiceWorld S A Resp) out :
  fst r = Done tt -> sw_sent (snd r) = out ->
  r = (Done tt, mkServiceWorld (sw_world (snd r)) out).
Proof. destruct r as [o [w l]]; simpl. intros -> ->. reflexivity. Qed.

Definition exchange_trace : proto_BidTrace := sample_proto_trace 10 "150".
Definition exchange_payload : proto_ExecutionPayload :=
  sample_proto_payload (repeat x02 32) [x07].
Definition exchange_bid : proto_BidRequest := sample_bid_request "150" (repeat x02 32).

Abbreviation exchange_bid_end :=
  (sample_serving (Bidder_bid Debug sample_bidder [Ok exchange_bid])
    (mkServiceWorld sample_world [])).
Definition exchange_w1 : SampleWorld := sw_world (snd exchange_bid_end).

Definition exchange_retrieve : proto_RetrieveRequest := sample_retrieve (repeat x00 32).
Abbreviation exchange_retrieve_end :=
  (sample_serving (Retriever_retrieve Debug sample_retriever [Ok exchange_retrieve])
    (mkServiceWorld exchange_w1 [])).
Definition exchange_w2 : SampleWorld := sw_world (snd exchange_retrieve_end).

Definition exchange_resp : proto_RetrieveResponse := {|
  rrs_signed_header := repeat x02 32;
  rrs_execution_payload := repeat x02 32;
  rrs_blobs_bundle := [];
|}.

Definition exchange_unblind : proto_SubmitBlindedBlockRequest := {|
  sbb_slot := 10; sbb_proposer_index := 7; sbb_block_hash := repeat x02 32;
  sbb_signature := fb_bytes (BlsSignature_serialize (sample_block_signature (sample_hash x02)));
|}.

Lemma exchange_accepted : exchange_bid_end = (Done tt, mkServiceWorld exchange_w1 [Ok accepted_response]).
Proof.
  assert (Ho : fst exchange_bid_end = Done tt)
    by (vm_cast_no_check (eq_refl (Done tt : outcome unit))).
  refine (service_end exchange_bid_end _ Ho _).
  vm_cast_no_check (eq_refl (sw_sent (snd exchange_bid_end))).
Qed.

Lemma exchange_retrieved :
  exchange_retrieve_end = (Done tt, mkServiceWorld exchange_w2 [Ok exchange_resp]).
Proof.
  assert (Ho : fst exchange_retrieve_end = Done tt)
    by (vm_cast_no_check (eq_refl (Done tt : outcome unit))).
  refine (service_end exchange_retrieve_end _ Ho _).
  vm_cast_no_check (eq_refl (sw_sent (snd exchange_retrieve_end))).
Qed.

(** The unblinding request is answered with the payload. *)
Lemma exchange_unblinded :
  fst (relay_run sample_clock (Retriever_submit_blinded_block sample_retriever exchange_unblind)
         exchange_w2) =
  Done (Ok {| pbb_execution_payload := repeat x02 32; pbb_blobs_bundle := [];
              pbb_block_hash := repeat x02 32 |}).
Proof.
  vm_cast_no_check (eq_refl (Done (Ok {| pbb_execution_payload := repeat x02 32;
    pbb_blobs_bundle := []; pbb_block_hash := repeat x02 32 |}) :
    outcome (result proto_BlindedBlockResponse Status))).
Qed.

Lemma block_reaches_proposer_witness :
  exists bid proposer duty,
    payload_matches exchange_payload (bid_payload bid) /\
    is_duty_of (v_duties (view sample_world)) 10 duty /\ pd_pubkey duty = proposer /\
    rrs_signed_header exchange_resp =
      json_or_default (signed_header_of (gh_signer (rs_get_header sample_retriever)) bid) /\
    rrs_execution_payload exchange_resp = json_or_default (bid_payload bid).
Proof.
  destruct (block_reaches_proposer sample_clock sample_clock_monotone Debug sample_bidder
    sample_retriever exchange_bid exchange_retrieve exchange_unblind exchange_trace exchange_payload
    sample_world exchange_w1 exchange_w2 exchange_resp sample_world_head sample_world_old eq_refl
    eq_refl exchange_accepted exchange_retrieved eq_refl eq_refl eq_refl)
    as (bid & proposer & duty & wr & ph & header & _ & Hp & _ & _ & Hd & Hpk & Hh & _ & Hr & _).
  exists bid, proposer, duty. refine (conj Hp (conj Hd (conj Hpk (conj Hh _)))).
  destruct (is_some _); [exact (f_equal fst Hr)|discriminate Hr].
Defined.

(** ** The exchange through the generated code *)

Section through_grpc.

#[local] Existing Instances toy_tonic toy_tonic_laws.
(** Messages of the unblinding call as bytes; the other messages are not sent here. *)
#[local] Instance unblind_request_bytes : ProstMessage proto_SubmitBlindedBlockRequest := {
  prost_encode m := to_le_bytes 8 (sbb_slot m) ++ to_le_bytes 8 (sbb_proposer_index m) ++
    sbb_block_hash m ++ sbb_signature m;
  prost_decode bs := Ok {|
    sbb_slot := from_le_bytes (take 8 bs);
    sbb_proposer_index := from_le_bytes (take 8 (drop 8 bs));
    sbb_block_hash := take 32 (drop 16 bs);
    sbb_signature := drop 48 bs;
  |};
}.

#[local] Instance unblind_response_bytes : ProstMessage proto_BlindedBlockResponse := {
  prost_encode m := pbb_block_hash m ++ pbb_execution_payload m;
  prost_decode bs := Ok {|
    pbb_execution_payload := drop 32 bs; pbb_blobs_bundle := []; pbb_block_hash := take 32 bs;
  |};
}.

#[local] Instance unsent {M} : ProstMessage M | 100 := {
  prost_encode _ := []; prost_decode _ := Err "not sent";
}.

#[local] Instance debug_bidder : BidderService (E := relayE) BidderServiceImpl :=
  BidderServiceImpl_service Debug (fun _ => true).
#[local] Instance debug_retriever : RetrieverService (E := relayE) RetrieverServiceImpl :=
  RetrieverServiceImpl_service Debug (fun _ => true).
#[local] Existing Instance ValidatorServiceImpl_service.

Definition exchange_revealed : proto_BlindedBlockResponse := {|
  pbb_execution_payload := repeat x02 32; pbb_blobs_bundle := [];
  pbb_block_hash := repeat x02 32;
|}.

Abbreviation exchange_client :=
  ({| connected_routes := relay_routes (E := relayE) sample_bidder sample_retriever sample_validator |}
   : Connected relayE).

Abbreviation exchange_h := (relay_handler (S := MemoryStorage)
  (A := MemoryAuctioneer (C := ToyCache (Arc BidSubmission))) storage_handler sample_clock).

Definition exchange_w3 : SampleWorld :=
  snd (run exchange_h (Retriever_submit_blinded_block sample_retriever exchange_unblind) exchange_w2).

Lemma exchange_method :
  run exchange_h (retriever_submit_blinded_block (E := relayE) sample_retriever exchange_unblind)
    exchange_w2 = (Done (Ok exchange_revealed), exchange_w3).
Proof.
  assert (Hm : retriever_submit_blinded_block (E := relayE) sample_retriever exchange_unblind =
    Retriever_submit_blinded_block sample_retriever exchange_unblind) by reflexivity.
  rewrite Hm. unfold exchange_w3. apply pair_with_fst.
  pose proof exchange_unblinded as Hu. rewrite relay_run_is_run in Hu. exact Hu.
Qed.

(** The unblinding call of a generated client reveals the payload. *)
Lemma client_calls_methods_witness :
  (deliverable exchange_unblind /\ answer_deliverable (Ok exchange_revealed)) /\
  run exchange_h (RetrieverServiceClient_submit_blinded_block
    (RetrieverServiceClient_new exchange_client) exchange_unblind) exchange_w2 =
  (Done (Ok exchange_revealed), exchange_w3).
Proof.
  assert (Hm : deliverable exchange_unblind).
  { split; [vm_cast_no_check (eq_refl (Ok exchange_unblind : result _ string))|].
    apply Z.leb_le. vm_cast_no_check (eq_refl true). }
  assert (Hr : answer_deliverable (Ok exchange_revealed)).
  { split; [vm_cast_no_check (eq_refl (Ok exchange_revealed : result _ string))|].
    apply Z.leb_le. vm_cast_no_check (eq_refl true). }
  split; [exact (conj Hm Hr)|].
  destruct (client_calls_methods sample_bidder sample_retriever sample_validator exchange_h
    exchange_w2 exchange_w3) as (_ & _ & Hcall & _).
  exact (Hcall exchange_unblind (Ok exchange_revealed) Hm Hr exchange_method).
Defined.

(** A path of the builder's service that names no procedure. *)
Lemma routes_dispatch_witness :
  routes_call (connected_routes exchange_client) ("/relay.BidderService/Bids", []) =
  dispatched sample_bidder sample_retriever sample_validator ("/relay.BidderService/Bids", []) /\
  dispatched (E := relayE) sample_bidder sample_retriever sample_validator
    ("/relay.BidderService/Bids", []) = Ret unimplemented.
Proof.
  split; [|reflexivity].
  exact (routes_dispatch sample_bidder sample_retriever sample_validator
    ("/relay.BidderService/Bids", [])).
Defined.

End through_grpc.
