(* ===== verification/Config.v ===== *)
(** * The configuration and the start of the relay

    The command line and the configuration made from it ([app/src/cli.rs],
    [app/src/lib.rs]), and how the parts of the relay are put together when it
    starts. *)

From S2P Require Import Prelude Effects External Concrete Crypto Entity Storage Auctioneer.
From S2P Require Import UseCase UseCaseSpec Concurrency Conversion Services.
From S2P Require Import Text Beacon RelayService System.

(** [Url::parse]; the URL is kept rendered, as are the errors. *)
Class UrlLib : Type := { url_parse : string -> result string string }.

Section config.
Context `{Blst, HexLib, UrlLib, Alloy, TreeHashLib, SszTypes}.

(** ** [cli.rs] *)

Record CliArgs : Type := {
  cli_grpc_port : Z;
  cli_http_port : Z;
  cli_beacon_url : string;
  cli_bls_secret_key : string;
  cli_chain : string;
  cli_slots_per_epoch : Z;
  cli_enabled_builders : list string;
  cli_genesis_fork_version : string;
  cli_current_fork_version : string;
  cli_genesis_validators_root : string;
}.

(** The arguments when only the required one and the builders are given. *)
Definition CliArgs_default (bls_secret_key : string) (enabled_builders : list string) : CliArgs := {|
  cli_grpc_port := 50051;
  cli_http_port := 9063;
  cli_beacon_url := "http://127.0.0.1:3500";
  cli_bls_secret_key := bls_secret_key;
  cli_chain := "mainnet";
  cli_slots_per_epoch := 32;
  cli_enabled_builders := enabled_builders;
  cli_genesis_fork_version := "0x00000000";
  cli_current_fork_version := "0x20000093";
  cli_genesis_validators_root :=
    "0x4b363db94e286120d76eb905340fdd4e54bfe9f06bf33ff6cf5ad27f511bfe95";
|}.

(** ** [RelayConfig] *)

Record RelayConfig : Type := {
  grpc_port : Z;
  http_port : Z;
  beacon_url : string;
  bls_secret_key : BlsSecretKey;
  chain : ForkName;
  slots_per_epoch : Z;
  enabled_builders : list BlsPublicKey;
  fork_datas : ForkDatas;
  polling_interval_secs : Z;
}.

Definition config_hex (what s : string) : result (list byte) string :=
  map_err (fun e => what +:+ e) (hex_decode (trim_start_matches "0x" s)).

Definition chain_of (s : string) : result ForkName string :=
  if existsb (String.eqb s) ["mainnet"; "sepolia"; "holesky"] then Ok Deneb
  else Err ("unknown chain: " +:+ s).

Definition enabled_builder (hex_str : string) : result BlsPublicKey string :=
  let* bytes := config_hex "invalid builder pubkey: " hex_str in
  map_err (fun e => "invalid builder pubkey: " +:+ e) (BlsPublicKey_deserialize bytes).

Definition RelayConfig_try_from (args : CliArgs) : outcome (result RelayConfig string) :=
  let? sk_bytes := Done (config_hex "invalid bls secret key hex: " (cli_bls_secret_key args)) in
  let? bls_secret_key :=
    Done (map_err (fun e => "invalid bls key: " +:+ e) (BlsSecretKey_deserialize sk_bytes)) in
  let? chain := Done (chain_of (cli_chain args)) in
  let? gv_bytes := Done (config_hex "invalid genesis validators root: "
                           (cli_genesis_validators_root args)) in
  if negb (Z.of_nat (length gv_bytes) =? 32) then
    Done (Err "genesis validators root must be 32 bytes")
  else
    let! genesis_validators_root := from_slice 32 gv_bytes in
    let? genesis_fork_bytes := Done (config_hex "invalid genesis fork version: "
                                       (cli_genesis_fork_version args)) in
    let? current_fork_bytes := Done (config_hex "invalid current fork version: "
                                       (cli_current_fork_version args)) in
    if negb (Z.of_nat (length genesis_fork_bytes) =? 4)
       || negb (Z.of_nat (length current_fork_bytes) =? 4) then
      Done (Err "fork versions must be 4 bytes")
    else
      let! gv_arr := copy_from_slice 4 genesis_fork_bytes in
      let! cv_arr := copy_from_slice 4 current_fork_bytes in
      let fork_datas :=
        ForkDatas_from_genesis_and_current_version gv_arr cv_arr genesis_validators_root in
      let? enabled_builders :=
        Done (collect_results enabled_builder (cli_enabled_builders args)) in
      Done (Ok {|
        grpc_port := cli_grpc_port args;
        http_port := cli_http_port args;
        beacon_url := cli_beacon_url args;
        bls_secret_key := bls_secret_key;
        chain := chain;
        slots_per_epoch := cli_slots_per_epoch args;
        enabled_builders := enabled_builders;
        fork_datas := fork_datas;
        polling_interval_secs := 6;
      |}).

(** ** [run_inner] *)

(** What runs once the relay has started: the shared state, the gRPC services and
    the relay service. *)
Record Started (C : Type) : Type := {
  st_world : World MemoryStorage (MemoryAuctioneer (C := C));
  st_bidder : BidderServiceImpl;
  st_retriever : RetrieverServiceImpl;
  st_validator : ValidatorServiceImpl;
  st_relay_service : RelayService;
}.
#[global] Arguments st_world {C} _.
#[global] Arguments st_bidder {C} _.
#[global] Arguments st_retriever {C} _.
#[global] Arguments st_validator {C} _.
#[global] Arguments st_relay_service {C} _.

(** [fetched] is the answer of [beacon_handle.get_fork_data()].  The clones of the
    storage and of the auctioneer share one state. *)
Definition run_inner {C} `{!MokaCache Z (Arc BidSubmission) C} (config : RelayConfig)
    (fetched : result ForkDatas BeaconError) : outcome (Started C) :=
  let storage := MemoryStorage_new (enabled_builders config) in
  let auctioneer := MemoryAuctioneer_new 60 in
  let! beacon_url :=
    match url_parse (beacon_url config) with
    | Ok url => Done url
    | Err _ => Panicked "invalid beacon url"
    end in
  let api := BeaconNodeApi_new beacon_url in
  let fork_datas :=
    match fetched with
    | Ok fd => fd
    | Err _ => fork_datas config
    end in
  let signer := BlsSigner_new (bls_secret_key config) fork_datas (chain config) in
  let submit_bid := SubmitBidUseCase_new fork_datas in
  let register_validator := RegisterValidatorUseCase_new fork_datas in
  Done {|
    st_world := mkWorld storage auctioneer 0;
    st_bidder := BidderServiceImpl_new submit_bid;
    st_retriever := RetrieverServiceImpl_new signer fork_datas;
    st_validator := ValidatorServiceImpl_new register_validator;
    st_relay_service := RelayService_new api (slots_per_epoch config)
                          (polling_interval_secs config);
  |}.

(** [main], after the command line is parsed: the process ends with a message on the
    standard error, or the relay runs. *)
Inductive main_end : Type :=
| ExitsWith (code : Z) (stderr : string)
| RunsWith (config : RelayConfig).

Definition main (args : CliArgs) : outcome main_end :=
  let! config := RelayConfig_try_from args in
  match config with
  | Ok config => Done (RunsWith config)
  | Err e => Done (ExitsWith 1 ("config error: " +:+ e))
  end.

(** The binary of the crate [app] has the same [main]. *)
Definition app_main (args : CliArgs) : outcome main_end := main args.

End config.

(** ** Properties *)

Section properties.
Context `{Blst, HexLib}.

(** What the arguments must be for a configuration, and what it contains. *)
Record config_of (args : CliArgs) (config : RelayConfig) : Prop := {
  co_chain : cli_chain args ∈ ["mainnet"; "sepolia"; "holesky"] /\ chain config = Deneb;
  co_key : exists bytes,
    hex_decode (trim_start_matches "0x" (cli_bls_secret_key args)) = Ok bytes /\
    BlsSecretKey_deserialize bytes = Ok (bls_secret_key config);
  co_fork : exists root genesis current,
    hex_decode (trim_start_matches "0x" (cli_genesis_validators_root args)) = Ok (fb_bytes root) /\
    hex_decode (trim_start_matches "0x" (cli_genesis_fork_version args)) = Ok (fb_bytes genesis) /\
    hex_decode (trim_start_matches "0x" (cli_current_fork_version args)) = Ok (fb_bytes current) /\
    fork_datas config = ForkDatas_from_genesis_and_current_version genesis current root;
  co_builders : Forall2 (fun s key => exists bytes,
      hex_decode (trim_start_matches "0x" s) = Ok bytes /\ BlsPublicKey_deserialize bytes = Ok key)
    (cli_enabled_builders args) (enabled_builders config);
  co_rest : grpc_port config = cli_grpc_port args /\ http_port config = cli_http_port args /\
    beacon_url config = cli_beacon_url args /\
    slots_per_epoch config = cli_slots_per_epoch args /\ polling_interval_secs config = 6;
}.

Lemma config_hex_Ok what s bytes :
  config_hex what s = Ok bytes <-> hex_decode (trim_start_matches "0x" s) = Ok bytes.
Proof. apply map_err_Ok. Qed.

Lemma chain_of_Ok s c :
  chain_of s = Ok c <-> s ∈ ["mainnet"; "sepolia"; "holesky"] /\ c = Deneb.
Proof.
  unfold chain_of. destruct (existsb _ _) eqn:Hs.
  - apply List.existsb_exists in Hs as (x & Hx & Heq). apply String.eqb_eq in Heq as ->.
    apply list_elem_of_In in Hx. split; [by intros [= <-]|by intros [_ ->]].
  - split; [done|]. intros [Hin _].
    assert (Ht : existsb (String.eqb s) ["mainnet"; "sepolia"; "holesky"] = true); [|congruence].
    apply List.existsb_exists. exists s. split; [by apply list_elem_of_In|apply String.eqb_refl].
Qed.

(** A length test, and the conversion that it guards. *)
Lemma from_slice_guarded {X} n bytes (refused : outcome X) (k : FixedBytes n -> outcome X) :
  (if negb (Z.of_nat (length bytes) =? n) then refused else let! a := from_slice n bytes in k a) =
  match array_try_from n bytes with Some a => k a | None => refused end.
Proof.
  unfold from_slice. destruct (array_try_from n bytes) as [a|] eqn:Ha.
  - apply array_try_from_Some in Ha. subst bytes. by rewrite fb_len, Z.eqb_refl.
  - apply array_try_from_None in Ha. by destruct (Z.eqb_spec (Z.of_nat (length bytes)) n).
Qed.

Lemma copy_two_guarded {X} n b1 b2 (refused : outcome X) (k : FixedBytes n -> FixedBytes n -> outcome X) :
  (if negb (Z.of_nat (length b1) =? n) || negb (Z.of_nat (length b2) =? n) then refused
   else let! a1 := copy_from_slice n b1 in let! a2 := copy_from_slice n b2 in k a1 a2) =
  match array_try_from n b1, array_try_from n b2 with
  | Some a1, Some a2 => k a1 a2
  | _, _ => refused
  end.
Proof.
  unfold copy_from_slice.
  destruct (array_try_from n b1) as [a1|] eqn:E1, (array_try_from n b2) as [a2|] eqn:E2;
    rewrite ?array_try_from_Some, ?array_try_from_None, <- ?Z.eqb_neq in *;
    subst; rewrite ?fb_len, ?Z.eqb_refl, ?E1, ?E2; try done;
    by rewrite ?orb_true_r.
Qed.

Lemma enabled_builder_Ok s key :
  enabled_builder s = Ok key <-> exists bytes,
    hex_decode (trim_start_matches "0x" s) = Ok bytes /\ BlsPublicKey_deserialize bytes = Ok key.
Proof.
  unfold enabled_builder. rewrite and_then_Ok.
  split; intros (bytes & Hb & Hk); exists bytes; rewrite config_hex_Ok, map_err_Ok in *; done.
Qed.

(** The conversion, with the length tests as conversions to arrays. *)
Definition config_result (args : CliArgs) : result RelayConfig string :=
  let* sk_bytes := config_hex "invalid bls secret key hex: " (cli_bls_secret_key args) in
  let* sk := map_err (fun e => "invalid bls key: " +:+ e) (BlsSecretKey_deserialize sk_bytes) in
  let* fork := chain_of (cli_chain args) in
  let* root_bytes := config_hex "invalid genesis validators root: "
                       (cli_genesis_validators_root args) in
  let* root := ok_or "genesis validators root must be 32 bytes" (array_try_from 32 root_bytes) in
  let* genesis_bytes := config_hex "invalid genesis fork version: "
                          (cli_genesis_fork_version args) in
  let* current_bytes := config_hex "invalid current fork version: "
                          (cli_current_fork_version args) in
  let* versions := ok_or "fork versions must be 4 bytes"
    (genesis ← array_try_from 4 genesis_bytes;
     current ← array_try_from 4 current_bytes; Some (genesis, current)) in
  let* builders := collect_results enabled_builder (cli_enabled_builders args) in
  Ok {|
    grpc_port := cli_grpc_port args; http_port := cli_http_port args;
    beacon_url := cli_beacon_url args; bls_secret_key := sk; chain := fork;
    slots_per_epoch := cli_slots_per_epoch args; enabled_builders := builders;
    fork_datas := ForkDatas_from_genesis_and_current_version (fst versions) (snd versions) root;
    polling_interval_secs := 6;
  |}.

Lemma outcome_try {A B E} (r : result A E) (k : A -> outcome (result B E)) :
  try_bind (Done r) k = match r with Ok a => k a | Err e => Done (Err e) end.
Proof. by destruct r. Qed.

Lemma try_from_result args : RelayConfig_try_from args = Done (config_result args).
Proof.
  unfold RelayConfig_try_from, config_result.
  rewrite outcome_try. destruct (config_hex _ (cli_bls_secret_key args)) as [sk_bytes|e]; [|done].
  rewrite outcome_try. cbn [and_then]. destruct (map_err _ _) as [sk|e]; [|done].
  rewrite outcome_try. cbn [and_then]. destruct (chain_of _) as [c|e]; [|done].
  rewrite outcome_try. cbn [and_then]. destruct (config_hex _ _) as [root|e]; [|done].
  rewrite from_slice_guarded. cbn [and_then]. destruct (array_try_from 32 root); [|done].
  rewrite outcome_try. cbn [and_then ok_or]. destruct (config_hex _ _) as [genesis|e]; [|done].
  rewrite outcome_try. cbn [and_then]. destruct (config_hex _ _) as [current|e]; [|done].
  rewrite copy_two_guarded. cbn [and_then].
  destruct (array_try_from 4 genesis), (array_try_from 4 current); try done.
  rewrite outcome_try. cbn [and_then mbind option_bind ok_or].
  by destruct (collect_results _ _).
Qed.

Lemma config_result_Ok args config : config_result args = Ok config <-> config_of args config.
Proof.
  unfold config_result. split.
  - rewrite and_then_Ok. intros (skb & Hskb%config_hex_Ok & Hk).
    apply and_then_Ok in Hk as (sk & Hsk%map_err_Ok & Hk).
    apply and_then_Ok in Hk as (fork & [Hin ->]%chain_of_Ok & Hk).
    apply and_then_Ok in Hk as (rootb & Hrootb%config_hex_Ok & Hk).
    apply and_then_Ok in Hk as (root & Hroot%ok_or_Ok%array_try_from_Some & Hk).
    apply and_then_Ok in Hk as (gb & Hgb%config_hex_Ok & Hk).
    apply and_then_Ok in Hk as (cb & Hcb%config_hex_Ok & Hk).
    apply and_then_Ok in Hk as ([g c] & Hv%ok_or_Ok & Hk).
    apply bind_Some in Hv as (g' & Hg%array_try_from_Some & Hv).
    apply bind_Some in Hv as (c' & Hc%array_try_from_Some & [= -> ->]).
    apply and_then_Ok in Hk as (builders & Hb & [= <-]).
    subst. constructor; cbn; eauto 10.
    eapply collect_results_iff in Hb; [exact Hb|]. intros s key. apply enabled_builder_Ok.
  - intros [[Hin Hc] (skb & Hskb & Hsk) (root & g & cv & Hr & Hg & Hcv & Hf) Hb
            (Hgrpc & Hhttp & Hurl & Hspe & Hpoll)].
    unfold config_hex. rewrite Hskb. cbn [map_err and_then]. rewrite Hsk. cbn [map_err and_then].
    rewrite (proj2 (chain_of_Ok (cli_chain args) Deneb)) by done. cbn [and_then].
    rewrite Hr. cbn [map_err and_then]. rewrite array_try_from_bytes. cbn [ok_or and_then].
    rewrite Hg, Hcv. cbn [map_err and_then]. rewrite !array_try_from_bytes.
    cbn [mbind option_bind ok_or and_then].
    assert (Hb' : collect_results enabled_builder (cli_enabled_builders args) =
                  Ok (enabled_builders config)).
    { eapply collect_results_iff; [|exact Hb]. intros s key. apply enabled_builder_Ok. }
    rewrite Hb'. cbn [and_then fst snd]. destruct config; cbn in *. by subst.
Qed.

(** The conversion of the command line never panics, and succeeds exactly on valid
    arguments; the configuration holds the decoded values, with the builders in their
    order. *)
Theorem try_from_spec args :
  exists r, RelayConfig_try_from args = Done r /\
    forall config, r = Ok config <-> config_of args config.
Proof.
  exists (config_result args). split; [apply try_from_result|].
  intros config. apply config_result_Ok.
Qed.


End properties.

(** ** The relay that was started *)

Section started.
Context `{Blst, HexLib, UrlLib, Alloy, TreeHashLib, SszTypes}.
Context `{!JsonDeserialize HeadEvent, !JsonDeserialize PayloadAttributesEvent, !JsonBody json}.
Context `{!Tokio}.
Context `{!JsonSerialize (Versioned SignedHeader), !JsonSerialize ExecutionPayload,
          !JsonSerialize BlobsBundle}.
Context {C : Type} `{!MokaCache Z (Arc BidSubmission) C, !MokaLaws Z (Arc BidSubmission) C}.
Context {Nd : Type} (hn : handler nodeE Nd).
Variable clock : N -> Z.
Hypothesis clock_mono : clock_monotone clock.
Variable connected : nat -> nat -> bool.

(** The fork data that the relay signs and verifies with. *)
Definition started_fork_datas (config : RelayConfig) (fetched : result ForkDatas BeaconError) :
    ForkDatas :=
  match fetched with Ok fd => fd | Err _ => fork_datas config end.

(** The tasks of a started relay with its clients, in its first state. *)
Definition started_pool profile (connections ticks : nat) (clients : list client)
    (st : Started C) (node : Nd) :
    list (prog systemE unit) * SystemWorld MemoryStorage (MemoryAuctioneer (C := C)) Nd :=
  (system_tasks profile (st_bidder st) (st_retriever st) (st_validator st) (st_relay_service st)
     connections ticks clients,
   mkSystemWorld (st_world st) node []).

Lemma run_inner_started config fetched (st : Started C) :
  run_inner config fetched = Done st ->
  sb_fork_datas (bs_usecase (st_bidder st)) = started_fork_datas config fetched /\
  st_world st = mkWorld (MemoryStorage_new (enabled_builders config)) (MemoryAuctioneer_new 60) 0.
Proof. unfold run_inner. destruct (url_parse _); [|done]. by intros [= <-]. Qed.

(** A new relay holds nothing. *)
Lemma new_world_invariant fds builders src :
  relay_invariant fds (list_to_set builders) src clock
    (mkWorld (MemoryStorage_new builders) (MemoryAuctioneer_new (C := C) 60) 0).
Proof.
  constructor; unfold view; cbn.
  - done.
  - intros t slot b _ Hb. pose proof (memory_new_best (C := C) 60 t slot) as Hn.
    assert (Habs : Some b = None) by (rewrite <- Hb; exact Hn). discriminate.
  - intros key resp. by rewrite lookup_empty.
  - intros block_hash. by rewrite elem_of_nil.
Qed.

(** C22: a relay started from a configuration sends only what its configured builders
    signed: whatever its clients send and however the tasks interleave, every header
    it has sent commits to a bid that one of these clients submitted, signed by an enabled
    builder in the relay's domain, and every payload is that of such a bid. *)
Theorem started_relay_serves_enabled_builders config fetched (st : Started C) profile
    connections ticks clients node ts w' :
  run_inner config fetched = Done st ->
  rtc (pool_step (system_handler clock hn connected))
    (started_pool profile connections ticks clients st node) (ts, w') ->
  forall conn m, (conn, m) ∈ sys_sent w' ->
    reply_ok (st_retriever st) (started_fork_datas config fetched)
      (list_to_set (enabled_builders config)) (sent_by clients) m.
Proof.
  intros [Hfds Hw]%run_inner_started Hr conn m Hm.
  assert (HI : system_invariant (st_retriever st) (started_fork_datas config fetched)
    (list_to_set (enabled_builders config)) (sent_by clients) clock (mkSystemWorld (st_world st) node [])).
  { split; [|constructor]. cbn [sys_relay]. rewrite Hw. apply new_world_invariant. }
  destruct (system_interleavings profile (st_bidder st) (st_retriever st) (st_validator st)
    (st_relay_service st) _ _ (sent_by clients) clock clock_mono hn connected connections ticks
    clients _ w' ts Hfds (fun _ Hb => Hb) HI Hr) as [_ Hsent].
  exact (proj1 (Forall_forall _ _) Hsent _ Hm).
Qed.

(** C38: the relay service of a relay that [main] starts never panics when the command
    line gives it a positive number of slots per epoch: whatever the node answers and
    the storage holds, it follows any number of events and makes any number of polls,
    because the polling interval is not on the command line but always six seconds. *)
Theorem started_service_never_panics `{!TokioLaws} args config fetched (st : Started C) profile
    connections ticks (w : AppWorld MemoryStorage Nd) :
  main args = Done (RunsWith config) -> run_inner config fetched = Done st ->
  0 < cli_slots_per_epoch args -> head_events_typed ->
  exists w', app_run storage_handler hn
    (RelayService_run profile connections ticks (st_relay_service st)) w = (Done tt, w').
Proof.
  unfold main. rewrite try_from_result. intros Hm Hst Hs Ht.
  destruct (config_result args) as [config'|e] eqn:Hr; [|done]. injection Hm as ->.
  apply config_result_Ok, co_rest in Hr as (_ & _ & _ & Hspe & Hpoll).
  unfold run_inner in Hst. destruct (url_parse _) as [url|e]; [|done]. injection Hst as <-.
  apply service_runs; cbn; [by rewrite Hspe|done|by rewrite Hpoll].
Qed.

End started.

(** ** A relay from its start to its first header *)

Section samples.

Instance sample_url : UrlLib := { url_parse s := Ok (s +:+ "/") }.

Definition sample_config : RelayConfig := {|
  grpc_port := 50051; http_port := 9063; beacon_url := "http://127.0.0.1:3500";
  bls_secret_key := sample_sk; chain := Deneb; slots_per_epoch := 8;
  enabled_builders := [BlsSecretKey_public_key sample_sk]; fork_datas := sample_fds;
  polling_interval_secs := 6;
|}.

Abbreviation SampleStarted := (Started (ToyCache (Arc BidSubmission))).

(** The fork data could not be fetched. *)
Definition sample_fetched : result ForkDatas BeaconError := Err (BE_Channel "channel closed").

Definition sample_started : SampleStarted := {|
  st_world := mkWorld (MemoryStorage_new [BlsSecretKey_public_key sample_sk])
                (MemoryAuctioneer_new 60) 0;
  st_bidder := sample_bidder;
  st_retriever := RetrieverServiceImpl_new (BlsSigner_new sample_sk sample_fds Deneb) sample_fds;
  st_validator := sample_validator;
  st_relay_service :=
    RelayService_new (BeaconNodeApi_new "http://127.0.0.1:3500/") 8 6;
|}.

(** A node that refuses subscriptions, is at slot 9 and knows its duties. *)
Instance head_slot_json : JsonBody json := fun _ =>
  Ok (JObject [("data", JObject [("header", JObject [("message",
        JObject [("slot", JString "9")])])])]).

Definition sample_head_node : handler nodeE unit := fun X e n =>
  match e in nodeE X return X * unit with
  | NodeHttp e =>
      match e in httpE X return X * unit with
      | HttpGet url =>
          (if String.eqb url "http://127.0.0.1:3500/eth/v1/beacon/headers/head"
           then Ok {| status := 200; text := Ok ""; body_bytes := []; bytes_stream := [] |}
           else Err "connection refused", n)
      | HttpPost _ _ _ => (Err "connection refused", n)
      | Sleep _ => (tt, n)
      end
  | NodeDuties epoch =>
      (if epoch =? 1 then Ok [sample_duty] else Err (BE_Channel "channel closed"), n)
  | Tick => (tt, n)
  end.

(** The registration of the sample proposer. *)
Definition sample_registrant : proto_RegisterValidatorRequest := {|
  rvr_registration := Some {|
    psv_message := Some {|
      pvr_fee_recipient := repeat x00 20;
      pvr_gas_limit := vr_gas_limit sample_registration;
      pvr_timestamp := vr_timestamp sample_registration;
      pvr_pubkey := fb_bytes (BlsPublicKey_serialize sample_proposer);
    |};
    psv_signature := fb_bytes (BlsSignature_serialize (BlsSecretKey_sign sample_proposer_sk
      (fb_bytes (signing_root sample_registration (compute_builder_domain sample_fds)))));
  |};
|}.

Definition sample_arrivals : list client :=
  [Registrant sample_registrant; Bidder [Ok (sample_bid_request "100" (repeat x01 32))];
   Retriever [Ok (sample_retrieve (repeat x00 32))]].

Definition started_handler : handler systemE
    (SystemWorld MemoryStorage (MemoryAuctioneer (C := ToyCache (Arc BidSubmission))) unit) :=
  system_handler sample_clock sample_head_node (fun _ _ => true).

(** The validator registers, the service polls once, and then the bid and the request
    for its header come in. *)
Definition sample_end : sample_pool :=
  run_task started_handler 50 3
    (run_task started_handler 50 2
       (run_task started_handler 50 0
          (run_task started_handler 50 1
             (started_pool Debug 1 1 sample_arrivals sample_started tt)))).

Lemma sample_end_reachable :
  rtc (pool_step started_handler) (started_pool Debug 1 1 sample_arrivals sample_started tt)
    (fst sample_end, snd sample_end).
Proof.
  rewrite <- surjective_pairing. unfold sample_end.
  do 3 (etrans; [|apply run_task_steps]). apply run_task_steps.
Qed.

Definition sample_retrieved : reply := ToRetriever (Ok {|
  rrs_signed_header := repeat x01 32;
  rrs_execution_payload := repeat x01 32;
  rrs_blobs_bundle := [];
|}).

Lemma sample_end_sent :
  sys_sent (snd sample_end) =
  [(0%nat, ToValidator (Ok {| rvs_code := 0; rvs_message := "ok" |}));
   (1%nat, accepted_reply); (2%nat, sample_retrieved)].
Proof. vm_cast_no_check (eq_refl (sys_sent (snd sample_end))). Qed.

Lemma started_relay_serves_enabled_builders_witness :
  run_inner sample_config sample_fetched = Done sample_started /\
  (2%nat, sample_retrieved) ∈ sys_sent (snd sample_end) /\
  reply_ok (st_retriever sample_started) sample_fds
    (list_to_set [BlsSecretKey_public_key sample_sk]) (sent_by sample_arrivals) sample_retrieved.
Proof.
  assert (Hst : run_inner sample_config sample_fetched = Done sample_started) by reflexivity.
  assert (Hin : (2%nat, sample_retrieved) ∈ sys_sent (snd sample_end)).
  { rewrite sample_end_sent. do 2 apply list_elem_of_further. apply list_elem_of_here. }
  split; [exact Hst|]. split; [exact Hin|].
  exact (started_relay_serves_enabled_builders sample_head_node sample_clock
    sample_clock_monotone (fun _ _ => true) sample_config sample_fetched sample_started Debug
    1 1 sample_arrivals tt _ _ Hst sample_end_reachable _ _ Hin).
Defined.

(** The least that the command line must give. *)
Definition sample_args : CliArgs :=
  CliArgs_default (hex_encode (fb_bytes (array_repeat 32 x2a))) [].

Definition sample_args_config : RelayConfig :=
  match main sample_args with Done (RunsWith config) => config | _ => sample_config end.

Definition sample_args_started : SampleStarted :=
  match run_inner sample_args_config sample_fetched with
  | Done st => st
  | Panicked _ => sample_started
  end.

Lemma started_service_never_panics_witness :
  (main sample_args = Done (RunsWith sample_args_config) /\
   run_inner sample_args_config sample_fetched = Done sample_args_started /\
   0 < cli_slots_per_epoch sample_args /\ head_events_typed) /\
  exists w', app_run storage_handler sample_head_node
    (RelayService_run Release 3 100 (st_relay_service sample_args_started))
    (mkAppWorld sample_storage tt) = (Done tt, w').
Proof.
  assert (Hm : main sample_args = Done (RunsWith sample_args_config)).
  { unfold sample_args_config. destruct (main sample_args) as [[code e|config]|msg] eqn:E;
      [|reflexivity|];
      assert (Hr : match main sample_args with Done (RunsWith _) => True | _ => False end)
        by (vm_cast_no_check I); rewrite E in Hr; destruct Hr. }
  assert (Hst : run_inner sample_args_config sample_fetched = Done sample_args_started)
    by reflexivity.
  assert (Hs : 0 < cli_slots_per_epoch sample_args) by reflexivity.
  assert (Ht : head_events_typed) by (intros s event Hs'; discriminate Hs').
  split; [exact (conj Hm (conj Hst (conj Hs Ht)))|].
  exact (started_service_never_panics sample_head_node sample_args sample_args_config
    sample_fetched sample_args_started Release 3 100 _ Hm Hst Hs Ht).
Defined.

End samples.
