(* ===== verification/Served.v ===== *)
(** * A registered proposer and an honest builder are served

    The converse of the safety theorems, across the components: when a registration, a
    head event, a bid, a request for the header and the proposer's signature come one after
    the other, and each is in order, the relay serves them all. *)

From S2P Require Import Prelude Effects Text External Concrete Crypto Entity Storage Auctioneer.
From S2P Require Import UseCase UseCaseSpec Concurrency Conversion Services Grpc Beacon RelayService System.
From S2P Require Import EndToEnd Config.

(** ** Duties *)

(** The first element that satisfies [f], when it is the only one. *)
Lemma find_only {T} (f : T -> bool) l l' x :
  x ∈ l -> f x = true -> (forall y, y ∈ l -> f y = true -> y = x) ->
  List.find f (l ++ l') = Some x.
Proof.
  intros Hin Hx Hall. induction l as [|y l IH]; [by apply elem_of_nil in Hin|]. cbn [app List.find].
  destruct (f y) eqn:Hy; [by rewrite (Hall y) by (done || apply list_elem_of_here)|].
  apply IH; [|intros z Hz; by apply Hall, list_elem_of_further].
  apply elem_of_cons in Hin as [->|Hin]; [congruence|done].
Qed.

Section served.
Context `{Blst, AlloyLaws, TreeHashLib, SszLaws}.
Context `{!JsonDeserialize HeadEvent, !JsonDeserialize PayloadAttributesEvent, !JsonBody json}.
Context `{!JsonSerialize (Versioned SignedHeader), !JsonSerialize ExecutionPayload,
          !JsonSerialize BlobsBundle}.
Context {S A Nd : Type} `{!Storage S, !StorageLaws S, !Auctioneer A, !AuctioneerLaws A}.
Variable clock : N.t -> Z.
Hypothesis clock_mono : clock_monotone clock.
Variable hn : handler nodeE Nd.
Variable profile : build_profile.

Abbreviation serving := (service_run (S := S) (A := A) clock (fun _ => true)).

(** ** The registration *)

(** A request whose registration of [pubkey] converts and is signed. *)
Record registration_in_order (validator : ValidatorServiceImpl)
    (rreq : proto_RegisterValidatorRequest) (pubkey : BlsPublicKey)
    (p : proto_SignedValidatorRegistration) (reg : SignedValidatorRegistration) : Prop := {
  ro_present : rvr_registration rreq = Some p;
  ro_converts : SignedValidatorRegistration_try_from p = Ok reg;
  ro_pubkey : vr_pubkey (svr_message reg) = pubkey;
  ro_signature : SignedValidatorRegistration_verify_signature reg
                   (compute_builder_domain (rv_fork_datas (vs_usecase validator))) = true;
}.

(** The call succeeds, and of all the relay keeps only the registration changes. *)
Lemma registration_stored validator rreq pubkey p reg (w : World S A) :
  registration_in_order validator rreq pubkey p reg ->
  exists s1,
    relay_run clock (Validator_register_validator validator rreq) w =
      (Done (Ok {| rvs_code := 0; rvs_message := "ok" |}),
       mkWorld s1 (w_auctioneer w) (w_ops w + 1)%N) /\
    is_some (v_regs (storage_view s1) !! pubkey) = true /\
    v_attrs (storage_view s1) = v_attrs (view w) /\
    v_whitelist (storage_view s1) = v_whitelist (view w).
Proof.
  intros [Hp Hreg <- Hsig]. unfold Validator_register_validator.
  rewrite Hp, Hreg, relay_run_bind.
  pose proof (register_validator_exec clock (vs_usecase validator) reg (world_view w)) as Hrun.
  destruct (relay_refines clock (RegisterValidatorUseCase_execute (vs_usecase validator) reg) w)
    as [Hr Hw].
  rewrite Hrun, Hsig in Hr, Hw. destruct (relay_run clock _ w) as [r [s1 a1 n1]].
  cbn [fst snd] in Hr. subst r. unfold world_view in Hw. cbn in Hw. injection Hw as Hs -> ->.
  exists s1. split; [done|]. rewrite Hs. unfold view.
  destruct (storage_view (w_storage w)). cbn. by rewrite lookup_insert_eq.
Qed.

(** ** The head event *)

(** What the node answers for the epoch of a refresh slot, when it gives the next slot
    one duty only. *)
Record duty_announced (self : RelayService) (slot : Z) (n : Nd) (duty : ProposerDuty) : Prop := {
  da_spe : 0 < rls_slots_per_epoch self;
  da_range : 0 <= slot < u64_max;
  da_refresh : slot mod rls_slots_per_epoch self = 1;
  da_slot : pd_slot duty = slot + 1;
  da_node : exists duties,
    fst (hn _ (NodeDuties (slot / rls_slots_per_epoch self)) n) = Ok duties /\ duty ∈ duties /\
    forall d, d ∈ duties -> pd_slot d = slot + 1 -> d = duty;
}.

Lemma duty_at_refreshed self slot (v : StorageView) n duty :
  duty_announced self slot n duty -> is_some (v_regs v !! pd_pubkey duty) = true ->
  duty_at (fst (refreshed self hn slot v n)) (slot + 1) = Some duty.
Proof.
  intros [Hspe Hrange Hrefresh Hslot (duties & Hnode & Hin & Honly)] Hreg.
  unfold refreshed. rewrite Hrefresh, Z.eqb_refl. unfold synced_duties.
  destruct (hn _ (NodeDuties (slot / _)) n) as [answer n1]. cbn [fst] in Hnode. subst answer.
  destruct (hn _ (NodeDuties (_ + 1)) n1) as [next n2]. cbn [fst duties_view].
  unfold duty_at. cbn [with_duties v_duties]. apply find_only.
  - apply list_elem_of_filter. split; [|done]. cbn [with_head v_regs].
    destruct (v_regs v !! pd_pubkey duty); [by eexists|done].
  - by apply Z.eqb_eq.
  - intros d [_ Hd]%list_elem_of_filter Hds. apply Honly; [done|]. by apply Z.eqb_eq.
Qed.

(** The storage after the event, as far as bids need it. *)
Record ready_for (v v2 : StorageView) (slot : Z) (duty : ProposerDuty) : Prop := {
  rf_head : HeadSlot_0 (v_head v2) = slot;
  rf_duty : duty_at v2 (slot + 1) = Some duty;
  rf_regs : v_regs v2 = v_regs v;
  rf_attrs : v_attrs v2 = v_attrs v;
  rf_whitelist : v_whitelist v2 = v_whitelist v;
}.

Lemma refreshed_keeps self slot (v : StorageView) n :
  let v2 := fst (refreshed self hn slot v n) in
  HeadSlot_0 (v_head v2) = slot /\ v_regs v2 = v_regs v /\ v_attrs v2 = v_attrs v /\
  v_whitelist v2 = v_whitelist v.
Proof.
  unfold refreshed. destruct (_ =? 1); [|done].
  by destruct (synced_duties _ _ _) as [[duties|e] n1].
Qed.

Lemma head_event_readies self event (s : S) n duty :
  duty_announced self (he_slot event) n duty ->
  is_some (v_regs (storage_view s) !! pd_pubkey duty) = true ->
  exists s2 n2,
    app_run storage_handler hn (handle_head_event profile self event) (mkAppWorld s n) =
      (Done tt, mkAppWorld s2 n2) /\
    ready_for (storage_view s) (storage_view s2) (he_slot event) duty.
Proof.
  intros Hd Hreg.
  assert (Hr : u64_range (he_slot event)).
  { destruct Hd as [_ Hrange _ _ _]. unfold u64_range, u64_max in *. lia. }
  destruct (app_refines hn (handle_head_event profile self event) (mkAppWorld s n)) as [Hv Hw].
  rewrite handle_head_event_run in Hv, Hw by (done || by destruct Hd).
  destruct (app_run storage_handler hn (handle_head_event profile self event) (mkAppWorld s n))
    as [o [s2 n2]]. cbn [fst snd] in Hv, Hw. subst o. exists s2, n2. split; [done|].
  injection Hw as Hview _. unfold app_view in Hview. cbn [aw_storage] in Hview.
  pose proof (refreshed_keeps self (he_slot event) (storage_view s) n) as (? & ? & ? & ?).
  constructor; rewrite Hview; try done. by apply duty_at_refreshed.
Qed.

(** ** The bid *)

(** What makes a bid acceptable, besides the duty of its slot; [best_now] is the best bid
    of the slot when the auction reads it. *)
Record bid_in_order (fds : ForkDatas) (v : StorageView) (slot : Z)
    (best_now : option (Arc BidSubmission)) (bid : BidSubmission) : Prop := {
  bo_slot : bt_slot (message bid) = slot + 1;
  bo_value : U256_0 (bt_value (message bid)) <> 0;
  bo_builder : bt_builder_pubkey (message bid) ∈ v_whitelist v;
  bo_randao : pa_prev_randao (v_attrs v) = B256_0 (ep_prev_randao (bid_payload bid));
  bo_signature : BidTrace_verify_signature (message bid) (bid_signature bid)
                   (compute_builder_domain fds) = true;
  bo_highest : forall old, best_now = Some old ->
                 U256_0 (bid_value old) < U256_0 (bt_value (message bid));
}.

Lemma bid_accepted bidder msg bid v slot duty (w : World S A) :
  slot < u64_max -> arcs_old clock w -> ready_for v (view w) slot duty ->
  BidSubmission_try_from msg = Done (Ok bid) ->
  bid_in_order (sb_fork_datas (bs_usecase bidder)) v slot
    (best (clock (w_ops w + 5)%N) (slot + 1) (w_auctioneer w)) bid ->
  exists w3,
    relay_run clock (SubmitBidUseCase_execute profile (bs_usecase bidder) bid) w =
      (Done (Ok tt), w3) /\
    serving (Bidder_bid profile bidder [Ok msg]) (mkServiceWorld w []) =
      (Done tt, mkServiceWorld w3 [Ok accepted_response]).
Proof.
  intros Hs Hold [Hhead Hduty Hregs Hattrs Hwl] Hconv [Hslot Hval Hbuilder Hrandao Hsig Hhigh].
  assert (Hh : HeadSlot_0 (v_head (view w)) < u64_max) by (rewrite Hhead; exact Hs).
  pose proof (relay_of_spec clock (submit_bid_outcome clock (bs_usecase bidder) bid (world_view w))
    _ w (submit_bid_exec clock profile (bs_usecase bidder) bid (world_view w) clock_mono Hh Hold))
    as Hout.
  destruct (relay_run clock (SubmitBidUseCase_execute profile (bs_usecase bidder) bid) w)
    as [r w3] eqn:Hrun.
  unfold submit_bid_outcome in Hout. cbn [w_storage w_auctioneer w_ops world_view] in Hout.
  fold (view w) in Hout.
  rewrite (proj2 (submit_bid_requires_met _ _ _ _)) in Hout.
  2: { constructor; rewrite ?Hslot, ?Hhead, ?Hwl, ?Hattrs; try done.
       exists duty. by apply find_duty_spec. }
  destruct Hout as [-> _]. exists w3. split; [done|].
  pose proof (bidder_session_run clock profile (bs_usecase bidder) [msg] [accepted_response] w w3
    [] []) as Hsession.
  apply Hsession. econstructor; [|constructor]. by apply (answered_accepted _ _ _ _ _ bid).
Qed.

(** ** The header *)

Lemma header_answered bidder retriever bid v slot duty rmsg (w w3 : World S A) :
  slot < u64_max -> arcs_old clock w -> ready_for v (view w) slot duty ->
  is_some (v_regs v !! pd_pubkey duty) = true -> bt_slot (message bid) = slot + 1 ->
  relay_run clock (SubmitBidUseCase_execute profile (bs_usecase bidder) bid) w =
    (Done (Ok tt), w3) ->
  rr_slot rmsg = slot + 1 -> rr_parent_hash rmsg = fb_bytes (B256_0 (bt_parent_hash (message bid))) ->
  BlsPublicKey_deserialize (rr_proposer_pubkey rmsg) = Ok (pd_pubkey duty) ->
  clock (w_ops w3 + 4)%N < now clock w + lifetime (w_auctioneer w) ->
  exists w4,
    serving (Retriever_retrieve profile retriever [Ok rmsg]) (mkServiceWorld w3 []) =
      (Done tt, mkServiceWorld w4 [Ok {|
         rrs_signed_header :=
           json_or_default (signed_header_of (gh_signer (rs_get_header retriever)) bid);
         rrs_execution_payload := json_or_default (bid_payload bid);
         rrs_blobs_bundle := json_or_default (bid_blobs bid) |}]) /\
    header_served (view w) (view w4) (slot + 1) (pd_pubkey duty) bid duty.
Proof.
  intros Hs Hold Hready Hreg Hslot Hsub Hrs Hph Hpk Hlive.
  destruct Hready as [Hhead Hduty Hregs Hattrs Hwl].
  assert (Hh : HeadSlot_0 (v_head (view w)) < u64_max) by (rewrite Hhead; exact Hs).
  destruct (submit_bid_accepted clock clock_mono _ _ _ _ _ Hh Hold Hsub)
    as (duty' & Hduty' & Hv & Hbest & Hsome). rewrite Hslot in *.
  assert (duty' = duty) as -> by congruence.
  assert (Hv3 : HeadSlot_0 (v_head (view w3)) = slot /\ duty_at (view w3) (slot + 1) = Some duty /\
                v_regs (view w3) = v_regs v).
  { rewrite Hv. unfold duty_at in *. by destruct (view w). }
  destruct Hv3 as (Hhead3 & Hduty3 & Hregs3).
  assert (Ht : now clock w3 <= clock (w_ops w3 + 3)%N) by (apply clock_mono; lia).
  assert (Ht4 : clock (w_ops w3 + 3)%N <= clock (w_ops w3 + 4)%N) by (apply clock_mono; lia).
  destruct (Hsome (clock (w_ops w3 + 3)%N)) as [b Hb]; [lia|].
  pose proof (Hbest _ _ Ht Hb) as Hbid.
  assert (Hh3 : HeadSlot_0 (v_head (view w3)) < u64_max) by (rewrite Hhead3; exact Hs).
  pose proof (relay_of_spec clock (get_header_outcome clock (rs_get_header retriever) (slot + 1)
    (bt_parent_hash (message bid)) (pd_pubkey duty) (world_view w3)) _ w3
    (get_header_exec clock profile (rs_get_header retriever) (slot + 1) _ _ (world_view w3) Hh3))
    as Hout.
  destruct (relay_run clock (GetHeaderUseCase_execute profile _ _ _ _) w3) as [r w'] eqn:Hrun.
  unfold get_header_outcome in Hout. cbn [w_storage w_auctioneer w_ops world_view] in Hout.
  fold (view w3) in Hout. destruct Hout as (_ & _ & Hout).
  unfold get_header_requires in Hout. rewrite Hb, Hduty3, Hregs3, Hreg, Hhead3, Hbid in Hout.
  cbn [app is_some duty_for] in Hout. rewrite !first_failure_cons, Z.eqb_refl in Hout.
  rewrite !bool_decide_eq_true_2 in Hout by done.
  destruct Hout as (b' & [= <-] & -> & Hops). rewrite Hbid in Hrun. cbn [w_ops world_view] in Hops.
  pose proof (header_after_submit clock clock_mono profile (bs_usecase bidder)
    (rs_get_header retriever) bid w w3 w' (bt_parent_hash (message bid)) (pd_pubkey duty)
    (signed_header_of (gh_signer (rs_get_header retriever)) bid) Hh Hold Hsub) as Hafter.
  cbv zeta in Hafter. rewrite Hslot in Hafter.
  destruct (Hafter Hrun) as (_ & (duty2 & Hserved) & Hbest' & Hsome').
  assert (duty2 = duty) as ->.
  { destruct Hserved as [Hd _ _ _ _]. apply find_duty_spec in Hd. unfold duty_at in Hduty. congruence. }
  destruct (Hsome' (now clock w')) as [c Hc]; [unfold now; rewrite Hops; split; [lia|exact Hlive]|].
  pose proof (Hbest' _ _ (Z.le_refl _) Hc) as Hcb.
  destruct w' as [s' a' n'].
  exists (mkWorld s' (snd (get_best_bid (clock n') (slot + 1) a')) (n' + 1)%N). split; [|done].
  unfold Retriever_retrieve. cbn [Retriever_handle_request].
  rewrite service_lift, Hph, from_slice_bytes, Hpk, Hrs. cbv iota. rewrite service_call.
  rewrite B256_eta, Hrun, service_call, relay_get_best, service_send, get_best_bid_value.
  unfold now in Hc. cbn [w_ops w_auctioneer] in Hc. rewrite Hc. cbn. unfold retrieve_response, execution_payload.
  cbn. by rewrite Hcb.
Qed.

(** ** The block *)

Lemma block_unblinded retriever bid duty v slot req sig js (w4 : World S A) :
  header_served v (view w4) slot (pd_pubkey duty) bid duty ->
  sbb_slot req = slot -> sbb_proposer_index req = pd_validator_index duty ->
  sbb_block_hash req = fb_bytes (B256_0 (ep_block_hash (bid_payload bid))) ->
  BlsSignature_deserialize (sbb_signature req) = Ok sig ->
  BlsSignature_verify sig (pd_pubkey duty)
    (blinded_block_signing_root slot (pd_validator_index duty) (ep_block_hash (bid_payload bid))
       (compute_proposer_domain (ub_fork_datas (rs_unblind retriever)))) = true ->
  to_json (bid_payload bid) = Ok js ->
  fst (relay_run clock (Retriever_submit_blinded_block retriever req) w4) =
    Done (Ok {| pbb_execution_payload := js; pbb_blobs_bundle := json_or_default (bid_blobs bid);
                pbb_block_hash := sbb_block_hash req |}).
Proof.
  intros Hserved Hslot Hi Hhash Hsig Hverify Hjs.
  apply (submit_blinded_block_run clock retriever req w4 _ sig bid js (eq_sym Hhash) Hsig Hjs
    (eq_sym Hhash)).
  exists (to_blinded_block_response bid). split; [|done].
  rewrite B256_eta, Hslot, Hi.
  exact (proj2 (unblind_served clock _ _ _ _ _ _ _ _ _ Hserved) (conj eq_refl Hverify)).
Qed.

(** ** From the registration to the block *)

(** C9: a registered proposer and an honest builder are served.  Let a validator send a
    signed registration; let the node then report as head the first slot after the start
    of an epoch, and give the validator the only duty of the next slot; let a whitelisted
    builder then bid for that slot, with the randao of the node's attributes, a signature
    over its message, and more than the slot's best bid when the auction reads it; let the
    header be requested with the bid's parent hash while the bid lives; and let the
    proposer send the block hash, its index and its signature.  Then every one of these is
    answered, and answered right: [ok] for the registration and the bid; the bid's header
    signed by the relay, with its payload and its blobs; and payload, blobs and hash for
    the signature. *)
Theorem registered_proposer_is_served
    validator rreq p reg self event n duty bidder retriever msg bid (w : World S A) ops :
  let slot := he_slot event + 1 in
  registration_in_order validator rreq (pd_pubkey duty) p reg ->
  duty_announced self (he_slot event) n duty ->
  arcs_old clock w -> (w_ops w + 1 <= ops)%N ->
  BidSubmission_try_from msg = Done (Ok bid) ->
  bid_in_order (sb_fork_datas (bs_usecase bidder)) (view w) (he_slot event)
    (best (clock (ops + 5)%N) slot (w_auctioneer w)) bid ->
  exists w1 w2 w3 n2,
    relay_run clock (Validator_register_validator validator rreq) w =
      (Done (Ok {| rvs_code := 0; rvs_message := "ok" |}), w1) /\
    app_run storage_handler hn (handle_head_event profile self event)
      (mkAppWorld (w_storage w1) n) = (Done tt, mkAppWorld (w_storage w2) n2) /\
    w_auctioneer w2 = w_auctioneer w1 /\ w_ops w2 = ops /\
    serving (Bidder_bid profile bidder [Ok msg]) (mkServiceWorld w2 []) =
      (Done tt, mkServiceWorld w3 [Ok accepted_response]) /\
    forall rmsg,
      rr_slot rmsg = slot -> rr_parent_hash rmsg = fb_bytes (B256_0 (bt_parent_hash (message bid))) ->
      BlsPublicKey_deserialize (rr_proposer_pubkey rmsg) = Ok (pd_pubkey duty) ->
      clock (w_ops w3 + 4)%N < clock ops + lifetime (w_auctioneer w) ->
      exists w4,
        serving (Retriever_retrieve profile retriever [Ok rmsg]) (mkServiceWorld w3 []) =
          (Done tt, mkServiceWorld w4 [Ok {|
             rrs_signed_header :=
               json_or_default (signed_header_of (gh_signer (rs_get_header retriever)) bid);
             rrs_execution_payload := json_or_default (bid_payload bid);
             rrs_blobs_bundle := json_or_default (bid_blobs bid) |}]) /\
        forall req sig js,
          sbb_slot req = slot -> sbb_proposer_index req = pd_validator_index duty ->
          sbb_block_hash req = fb_bytes (B256_0 (ep_block_hash (bid_payload bid))) ->
          BlsSignature_deserialize (sbb_signature req) = Ok sig ->
          BlsSignature_verify sig (pd_pubkey duty)
            (blinded_block_signing_root slot (pd_validator_index duty)
               (ep_block_hash (bid_payload bid))
               (compute_proposer_domain (ub_fork_datas (rs_unblind retriever)))) = true ->
          to_json (bid_payload bid) = Ok js ->
          fst (relay_run clock (Retriever_submit_blinded_block retriever req) w4) =
            Done (Ok {| pbb_execution_payload := js;
                        pbb_blobs_bundle := json_or_default (bid_blobs bid);
                        pbb_block_hash := sbb_block_hash req |}).
Proof.
  intros slot Hro Hduty Hold Hops Hconv Hbid.
  destruct (registration_stored _ _ _ _ _ w Hro) as (s1 & Hreg & Hstored & Hattrs & Hwl).
  destruct (head_event_readies self event s1 n duty Hduty Hstored) as (s2 & n2 & Hhead & Hready).
  set (w2 := mkWorld s2 (w_auctioneer w) ops).
  assert (Hlt : he_slot event < u64_max) by (by destruct Hduty as [_ [] _ _ _]).
  assert (Hnow : now clock w <= clock ops) by (apply clock_mono; lia).
  assert (Hold2 : arcs_old clock w2).
  { intros t sl b Ht Hb. cbn [w2 w_ops now] in *. unfold now in Ht. cbn in Ht.
    apply N.lt_le_trans with (w_ops w); [|lia]. by apply (Hold t sl); [lia|]. }
  assert (Hbid1 : bid_in_order (sb_fork_datas (bs_usecase bidder)) (storage_view s1)
    (he_slot event) (best (clock (w_ops w2 + 5)%N) slot (w_auctioneer w2)) bid)
    by (destruct Hbid; constructor; rewrite ?Hattrs, ?Hwl; assumption).
  destruct (bid_accepted bidder msg bid _ _ duty w2 Hlt Hold2 Hready Hconv Hbid1)
    as (w3 & Hrun & Hserve).
  exists (mkWorld s1 (w_auctioneer w) (w_ops w + 1)%N), w2, w3, n2.
  do 5 (split; [done|]). intros rmsg Hs Hph Hpk Hlive.
  destruct (header_answered bidder retriever bid _ _ duty rmsg w2 w3 Hlt Hold2 Hready Hstored
    (bo_slot _ _ _ _ _ Hbid) Hrun Hs Hph Hpk Hlive) as (w4 & Hretrieve & Hserved).
  exists w4. split; [done|]. intros req sig js. by apply (block_unblinded _ _ _ (view w2)).
Qed.

End served.

(** ** A fresh relay *)

Section samples.

(** A relay with one builder and nothing else. *)
Definition fresh_world : SampleWorld :=
  mkWorld (MemoryStorage_new [BlsSecretKey_public_key sample_sk]) (MemoryAuctioneer_new 60) 0.

(** Slot 9 is the first after the start of epoch 1, of eight slots. *)
Definition fresh_head : HeadEvent :=
  {| he_slot := 9; he_block := "0x00"; he_epoch_transition := false;
     he_execution_optimistic := false |}.

Definition fresh_rls : RelayService := st_relay_service sample_started.

Definition fresh_signed : proto_SignedValidatorRegistration :=
  default {| psv_message := None; psv_signature := [] |} (rvr_registration sample_registrant).
Definition fresh_registration : SignedValidatorRegistration := {|
  svr_message := sample_registration;
  svr_signature := BlsSecretKey_sign sample_proposer_sk
    (fb_bytes (signing_root sample_registration (compute_builder_domain sample_fds)));
|}.

Definition fresh_bid : BidSubmission :=
  match BidSubmission_try_from exchange_bid with Done (Ok bid) => bid | _ => bid_b end.

Definition fresh_retrieve : proto_RetrieveRequest := {|
  rr_slot := 10;
  rr_parent_hash := fb_bytes (B256_0 (bt_parent_hash (message fresh_bid)));
  rr_proposer_pubkey := fb_bytes (BlsPublicKey_serialize sample_proposer);
|}.

Lemma fresh_registration_in_order :
  registration_in_order sample_validator sample_registrant sample_proposer fresh_signed
    fresh_registration.
Proof.
  constructor; [done| |done|].
  - vm_cast_no_check (eq_refl (SignedValidatorRegistration_try_from fresh_signed)).
  - vm_cast_no_check (eq_refl true).
Qed.

Lemma fresh_duty_announced : duty_announced sample_head_node fresh_rls 9 tt sample_duty.
Proof.
  constructor; [done|by vm_compute|done|done|]. exists [sample_duty].
  split; [done|]. split; [apply list_elem_of_here|]. by intros d ->%list_elem_of_singleton.
Qed.

Lemma fresh_bid_converts : BidSubmission_try_from exchange_bid = Done (Ok fresh_bid).
Proof. vm_cast_no_check (eq_refl (BidSubmission_try_from exchange_bid)). Qed.

Lemma fresh_bid_in_order :
  bid_in_order sample_fds (view fresh_world) 9
    (best (sample_clock 6) 10 (w_auctioneer fresh_world)) fresh_bid.
Proof.
  constructor.
  - vm_cast_no_check (eq_refl 10).
  - assert (Hv : (U256_0 (bt_value (message fresh_bid)) =? 0) = false)
      by (vm_cast_no_check (eq_refl false)).
    by apply Z.eqb_neq.
  - apply (bool_decide_eq_true_1 _). vm_cast_no_check (eq_refl true).
  - vm_cast_no_check (eq_refl (pa_prev_randao (v_attrs (view fresh_world)))).
  - vm_cast_no_check (eq_refl true).
  - intros old Hold.
    assert (Hn : best (sample_clock 6) 10 (w_auctioneer fresh_world) = None)
      by (vm_cast_no_check (eq_refl (None : option (Arc BidSubmission)))).
    by rewrite Hn in Hold.
Qed.

#[local] Instance unread_body : JsonBody json := fun _ => Err "not read".

(** The states the exchange goes through. *)
Definition fresh_w1 : SampleWorld :=
  snd (relay_run sample_clock (Validator_register_validator sample_validator sample_registrant)
         fresh_world).
Definition fresh_w2 : SampleWorld :=
  mkWorld (aw_storage (snd (app_run storage_handler sample_head_node
    (handle_head_event Debug fresh_rls fresh_head) (mkAppWorld (w_storage fresh_w1) tt))))
    (w_auctioneer fresh_w1) 1.
Definition fresh_w3 : SampleWorld :=
  sw_world (snd (sample_serving (Bidder_bid Debug sample_bidder [Ok exchange_bid])
    (mkServiceWorld fresh_w2 []))).

Lemma fresh_w3_lives :
  sample_clock (w_ops fresh_w3 + 4) < sample_clock 1 + lifetime (w_auctioneer fresh_world).
Proof.
  apply Z.ltb_lt.
  vm_cast_no_check (eq_refl true).
Qed.

(** What the proposer is sent for its signature. *)
Definition fresh_block : proto_BlindedBlockResponse := {|
  pbb_execution_payload := repeat x02 32;
  pbb_blobs_bundle := json_or_default (bid_blobs fresh_bid);
  pbb_block_hash := repeat x02 32;
|}.

Lemma registered_proposer_is_served_witness :
  (registration_in_order sample_validator sample_registrant (pd_pubkey sample_duty) fresh_signed
     fresh_registration /\
   duty_announced sample_head_node fresh_rls (he_slot fresh_head) tt sample_duty /\
   arcs_old sample_clock fresh_world /\
   BidSubmission_try_from exchange_bid = Done (Ok fresh_bid) /\
   bid_in_order sample_fds (view fresh_world) 9
     (best (sample_clock 6) 10 (w_auctioneer fresh_world)) fresh_bid) /\
  exists w4,
    fst (relay_run sample_clock (Retriever_submit_blinded_block sample_retriever exchange_unblind)
           w4) = Done (Ok fresh_block).
Proof.
  split; [exact (conj fresh_registration_in_order (conj fresh_duty_announced
    (conj sample_world_old (conj fresh_bid_converts fresh_bid_in_order))))|].
  destruct (registered_proposer_is_served sample_clock sample_clock_monotone sample_head_node Debug
    sample_validator sample_registrant fresh_signed fresh_registration fresh_rls fresh_head tt
    sample_duty sample_bidder sample_retriever exchange_bid fresh_bid fresh_world 1
    fresh_registration_in_order fresh_duty_announced sample_world_old (N.le_refl _)
    fresh_bid_converts fresh_bid_in_order)
    as (w1 & [s2 a2 n2] & w3 & m2 & Hreg & Hhead & Ha & Hn & Hbid & Hserved).
  assert (Hw1 : w1 = fresh_w1) by exact (eq_sym (f_equal snd Hreg)).
  subst w1.
  assert (Hw2 : mkWorld s2 a2 n2 = fresh_w2).
  { apply (f_equal (fun r => aw_storage (snd r))) in Hhead. cbn in Ha, Hn. rewrite Ha, Hn.
    exact (f_equal (fun s => mkWorld s _ _) (eq_sym Hhead)). }
  rewrite Hw2 in Hbid.
  assert (Hw3 : w3 = fresh_w3) by exact (eq_sym (f_equal (fun r => sw_world (snd r)) Hbid)).
  subst w3.
  destruct (Hserved fresh_retrieve eq_refl eq_refl sample_proposer_parses fresh_w3_lives)
    as (w4 & _ & Hblock).
  exists w4.
  refine (Hblock exchange_unblind (sample_block_signature (sample_hash x02)) (repeat x02 32)
    eq_refl eq_refl _ _ _ _).
  - vm_cast_no_check (eq_refl (repeat x02 32)).
  - vm_cast_no_check (eq_refl (BlsSignature_deserialize (sbb_signature exchange_unblind))).
  - vm_cast_no_check (eq_refl true).
  - vm_cast_no_check (eq_refl (to_json (bid_payload fresh_bid))).
Defined.

End samples.
