(* ===== verification/Lifecycle.v ===== *)
(** * The life of the process

    [run] and [run_inner] of [app/src/lib.rs] as a task: what it spawns, what it waits for,
    and what is left running when it returns.  [Config.run_inner] is the wiring that it
    does on the way.  The gRPC server is a state machine that does what [tonic] documents of
    [serve_with_shutdown]: it binds or fails, serves until its signal resolves, and then
    finishes the requests that are in flight. *)

From S2P Require Import Prelude Effects External Crypto Entity Storage Auctioneer.
From S2P Require Import UseCase UseCaseSpec Concurrency Conversion Services.
From S2P Require Import Text Beacon RelayService System Config.

Section lifecycle.
Context `{Blst, HexLib, UrlLib, Alloy, TreeHashLib, SszTypes}.
Context {C : Type} `{!MokaCache Z (Arc BidSubmission) C}.

(** What [run_inner] spawns. *)
Inductive spawned : Type :=
| BeaconServiceTask (api : BeaconNodeApi)
| GrpcServerTask (port : Z) (bidder : BidderServiceImpl) (retriever : RetrieverServiceImpl)
    (validator : ValidatorServiceImpl)
| HealthTask (port : Z)
| RelayServiceTask (service : RelayService).

Inductive startE : Type -> Type :=
| Spawn (t : spawned) : startE unit
| GetForkData : startE (result ForkDatas BeaconError)
| AwaitShutdown : startE unit
| DropHealthTx : startE unit.

(** [run_inner]; the storage and the auctioneer are in [Started]. *)
Definition run_inner_task (config : RelayConfig) : prog startE unit :=
  let! url := lift_outcome
    (match url_parse (beacon_url config) with
     | Ok url => Done url
     | Err _ => Panicked "invalid beacon url"
     end) in
  let api := BeaconNodeApi_new url in
  let! _ := perform (Spawn (BeaconServiceTask api)) in
  let! fetched := perform GetForkData in
  let! st := lift_outcome (run_inner (C := C) config fetched) in
  let! _ := perform (Spawn (GrpcServerTask (grpc_port config) (st_bidder st) (st_retriever st)
                              (st_validator st))) in
  let! _ := perform (Spawn (HealthTask (http_port config))) in
  let! _ := perform (Spawn (RelayServiceTask (st_relay_service st))) in
  let! _ := perform AwaitShutdown in
  perform DropHealthTx.

(** ** The process *)

(** The gRPC server, with the number of requests in flight. *)
Inductive grpc_server : Type :=
| NotStarted
| Serving (in_flight : nat)
| Draining (in_flight : nat)
| Stopped.

(** [signal]: the shutdown future has resolved; [health_tx]: the sender of the channel
    that the server's signal waits on is alive. *)
Record Process : Type := mkProcess {
  p_main : prog startE unit;
  p_spawned : list spawned;
  p_grpc : grpc_server;
  p_signal : bool;
  p_health_tx : bool;
}.

Definition process_start (config : RelayConfig) : Process :=
  mkProcess (run_inner_task config) [] NotStarted false true.

Definition is_server (t : spawned) : bool :=
  match t with GrpcServerTask _ _ _ _ => true | _ => false end.

(** The state of the server after a task is spawned; [bound] is whether the port could be
    bound: the error of [serve_with_shutdown] is dropped by [.ok()]. *)
Definition after_spawn (t : spawned) (bound : bool) (g : grpc_server) : grpc_server :=
  if is_server t then (if bound then Serving 0 else Stopped) else g.

Inductive server_step (health_tx : bool) : grpc_server -> grpc_server -> Prop :=
| request_arrives n : server_step health_tx (Serving n) (Serving (S n))
| request_served n : server_step health_tx (Serving (S n)) (Serving n)
| signal_resolves n : health_tx = false -> server_step health_tx (Serving n) (Draining n)
| drained_one n : server_step health_tx (Draining (S n)) (Draining n)
| drained : server_step health_tx (Draining 0) Stopped.

(** The process runs until its main task has returned or panicked. *)
Inductive process_step : Process -> Process -> Prop :=
| step_spawn t k sp g s h bound :
    process_step (mkProcess (Vis (Spawn t) k) sp g s h)
                 (mkProcess (k tt) (sp ++ [t]) (after_spawn t bound g) s h)
| step_fork_data k sp g s h fetched :
    process_step (mkProcess (Vis GetForkData k) sp g s h) (mkProcess (k fetched) sp g s h)
| step_shutdown k sp g h :
    process_step (mkProcess (Vis AwaitShutdown k) sp g true h) (mkProcess (k tt) sp g true h)
| step_drop k sp g s h :
    process_step (mkProcess (Vis DropHealthTx k) sp g s h) (mkProcess (k tt) sp g s false)
| step_signal X (e : startE X) k sp g s h :
    process_step (mkProcess (Vis e k) sp g s h) (mkProcess (Vis e k) sp g true h)
| step_server X (e : startE X) k sp g g' s h :
    server_step h g g' ->
    process_step (mkProcess (Vis e k) sp g s h) (mkProcess (Vis e k) sp g' s h).

(** ** The server serves until the shutdown *)

(** The sender is dropped after the shutdown only. *)
Fixpoint drops_after_shutdown (signal : bool) (p : prog startE unit) : Prop :=
  match p with
  | Ret _ | Panic _ => True
  | Vis e k =>
      match e in startE X return (X -> prog startE unit) -> Prop with
      | Spawn _ => fun k => forall x, drops_after_shutdown signal (k x)
      | GetForkData => fun k => forall x, drops_after_shutdown signal (k x)
      | AwaitShutdown => fun k => forall x, drops_after_shutdown true (k x)
      | DropHealthTx => fun k => signal = true /\ forall x, drops_after_shutdown signal (k x)
      end k
  end.

Lemma drops_mono p : drops_after_shutdown false p -> drops_after_shutdown true p.
Proof.
  induction p as [|msg|X e k IH]; [done..|]. destruct e; simpl; eauto. by intros [? _].
Qed.

Ltac start_simpl :=
  cbn [lift_outcome mbind prog_mbind prog_bind perform drops_after_shutdown after_spawn is_server].

Lemma run_inner_drops config : drops_after_shutdown false (run_inner_task config).
Proof.
  unfold run_inner_task. destruct (url_parse _) as [url|e]; [|done].
  start_simpl. intros _ fetched. by destruct (run_inner config fetched) as [st|msg]; start_simpl.
Qed.

Definition is_draining (g : grpc_server) : Prop := match g with Draining _ => True | _ => False end.

Record process_ok (p : Process) : Prop := {
  ok_main : drops_after_shutdown (p_signal p) (p_main p);
  ok_health : p_health_tx p = false -> p_signal p = true;
  ok_draining : is_draining (p_grpc p) -> p_health_tx p = false;
}.

Lemma process_step_ok p p' : process_step p p' -> process_ok p -> process_ok p'.
Proof.
  intros Hs [Hm Hh Hd]. destruct Hs; constructor; simpl in *; auto.
  - unfold after_spawn. destruct (is_server t), bound; simpl; auto; done.
  - by apply Hm.
  - intros _. by destruct Hm.
  - destruct s; [done|]. exact (drops_mono (Vis e k) Hm).
  - match goal with Hg : server_step _ _ _ |- _ => destruct Hg; simpl in *; auto end.
Qed.

(** The server starts to drain only after the shutdown future has resolved, whatever
    happens before. *)
Theorem server_drains_after_shutdown config p :
  rtc process_step (process_start config) p ->
  is_draining (p_grpc p) -> p_signal p = true /\ p_health_tx p = false.
Proof.
  intros Hr.
  assert (Hok : process_ok p).
  { assert (Hstart : process_ok (process_start config)).
    { constructor; simpl; [apply run_inner_drops|done|done]. }
    revert Hstart. induction Hr as [|x y z Hxy _ IH]; [done|].
    intros Hx. apply IH. by eapply process_step_ok. }
  intros Hd. split; [by apply Hok, Hok|by apply Hok].
Qed.

(** ** What the process does not wait for *)

Lemma server_reaches X (e : startE X) k sp s h n :
  rtc process_step (mkProcess (Vis e k) sp (Serving 0) s h)
                   (mkProcess (Vis e k) sp (Serving n) s h).
Proof.
  induction n as [|n IH]; [done|]. eapply rtc_r; [exact IH|]. apply step_server, request_arrives.
Qed.

(** A process that has started waits for the shutdown with its four tasks spawned; its
    server serves any number of requests, or is not there at all because its port could
    not be bound. *)
Lemma started_awaits config fetched (st : Started C) (g : grpc_server) :
  run_inner config fetched = Done st -> (exists n, g = Serving n) \/ g = Stopped ->
  exists sp, length sp = 4%nat /\
    rtc process_step (process_start config)
      (mkProcess (let! _ := perform AwaitShutdown in perform DropHealthTx) sp g false true).
Proof.
  intros Hst Hg.
  assert (Hurl : exists url, url_parse (beacon_url config) = Ok url).
  { unfold run_inner in Hst. destruct (url_parse _) as [url|e]; [by exists url|done]. }
  destruct Hurl as [url Hurl].
  exists [BeaconServiceTask (BeaconNodeApi_new url);
          GrpcServerTask (grpc_port config) (st_bidder st) (st_retriever st) (st_validator st);
          HealthTask (http_port config); RelayServiceTask (st_relay_service st)].
  split; [done|].
  assert (Hbound : exists bound : bool, forall X (e : startE X) k sp,
    rtc process_step (mkProcess (Vis e k) sp (if bound then Serving 0 else Stopped) false true)
                     (mkProcess (Vis e k) sp g false true)).
  { destruct Hg as [[n ->]| ->]; [|by exists false].
    exists true. intros. apply server_reaches. }
  destruct Hbound as [bound Hrest].
  unfold process_start, run_inner_task. rewrite Hurl. start_simpl.
  eapply rtc_l; [apply (step_spawn _ _ _ _ _ _ true)|]. start_simpl.
  eapply rtc_l; [apply (step_fork_data _ _ _ _ _ fetched)|]. start_simpl.
  rewrite Hst. start_simpl.
  do 3 (eapply rtc_l; [apply (step_spawn _ _ _ _ _ _ bound)|]; start_simpl).
  apply Hrest.
Qed.

(** The main task returns as soon as it has dropped the sender: for any number of requests
    in flight there is an execution in which the process ends with all of them unanswered,
    before the server has begun to drain; and a relay whose gRPC port could not be bound
    runs on without its server until the shutdown. *)
Theorem shutdown_abandons_requests config fetched (st : Started C) n :
  run_inner config fetched = Done st ->
  (exists p, rtc process_step (process_start config) p /\
     p_main p = Ret tt /\ p_grpc p = Serving n /\ forall p', ~ process_step p p') /\
  (exists p, rtc process_step (process_start config) p /\ length (p_spawned p) = 4%nat /\
     p_grpc p = Stopped /\ p_signal p = false).
Proof.
  intros Hst. split.
  - destruct (started_awaits config fetched st (Serving n)) as (sp & _ & Hr); [done|by eauto|].
    exists (mkProcess (Ret tt) sp (Serving n) true false). split; [|split; [|split]]; try done.
    + etrans; [exact Hr|]. eapply rtc_l; [apply step_signal|].
      eapply rtc_l; [apply step_shutdown|]. eapply rtc_l; [apply step_drop|]. done.
    + intros p' Hs. inversion Hs.
  - destruct (started_awaits config fetched st Stopped) as (sp & Hl & Hr); [done|by auto|].
    by eexists.
Qed.

End lifecycle.
