(* ===== verification/IntegrationTest.v ===== *)
(** * The integration test of the repository

    [tests/integration.rs]: a relay is started on a mock beacon node, a validator
    registers, a builder bids, the proposer retrieves the header and unblinds the block,
    each through a generated client.  The test as a computation, with the mock node as a
    handler of HTTP requests; what the runtime decides in it - how far the relay service
    has got when the registration arrives, and how often it polls in the second that the
    test then sleeps - are parameters.  Its runs on the concrete libraries, and those of
    the unit tests, validate the model: they are no properties of the program. *)

From S2P Require Import Prelude Effects Text External Concrete Crypto Entity Storage Auctioneer.
From S2P Require Import UseCase UseCaseSpec UseCaseTests Concurrency Conversion Services.
From S2P Require Import ApiTests Grpc Beacon CrateTests RelayService System Config.

(** ** The mock beacon node *)

(** [format!("{b:02x}")] of every byte *)
Definition pk_hex (bytes : list byte) : string :=
  String.string_of_list_ascii
    (List.concat (map (fun b => [hex_digit (Z_of_byte b / 16); hex_digit (Z_of_byte b mod 16)]) bytes)).

Definition first_head : string := quoted "{'data':{'header':{'message':{'slot':'0'}}}}".
Definition later_head : string := quoted "{'data':{'header':{'message':{'slot':'1'}}}}".

Definition duties_prefix : string := quoted "{'data':[{'pubkey':'0x".
Definition duties_suffix : string := quoted "','validator_index':'1','slot':'2'}]}".

Definition proposer_duties_body (validator_pk : list byte) : string :=
  duties_prefix +:+ pk_hex validator_pk +:+ duties_suffix.

Definition fork_body : string := quoted "{
        'data': {
            'genesis_validators_root': '0x0000000000000000000000000000000000000000000000000000000000000000',
            'fork': {
                'current_version': '0x00000000'
            }
        }
    }".

Definition events_body : string :=
  "data: {}" +:+ String newline (String newline "").

(** The response to a request for a path: its status and its body.  The state is the
    number of requests for the head so far. *)
Definition mock_answer (validator_pk : list byte) (path : string) (head_call_count : Z) :
    Z * string * Z :=
  if starts_with "/eth/v1/validator/duties/proposer/" path then
    (200, proposer_duties_body validator_pk, head_call_count)
  else if String.eqb path "/eth/v1/beacon/headers/head" then
    (200, if head_call_count =? 0 then first_head else later_head, head_call_count + 1)
  else if starts_with "/eth/v2/debug/beacon/states/head" path then
    (200, fork_body, head_call_count)
  else if starts_with "/eth/v1/events" path then (200, events_body, head_call_count)
  else if starts_with "/eth/v1/node/syncing" path then
    (200, quoted "{'data':{'is_syncing':false}}", head_call_count)
  else (404, "not found", head_call_count).

Definition mock_url (port : Z) : string := "http://127.0.0.1:" +:+ u64_to_string port +:+ "/".

Definition http_response (status : Z) (body : string) : Response :=
  let bytes := String.list_byte_of_string body in
  {| status := status; text := Ok body; body_bytes := bytes;
     bytes_stream := [Ready (Some (Ok bytes)); Ready None] |}.

(** The mock serves the requests to its port; it reads the path and nothing else. *)
Definition mock_beacon (validator_pk : list byte) (port : Z) : handler httpE Z := fun X e n =>
  let serve url : result Response string * Z :=
    match strip_prefix (mock_url port) url with
    | Some path =>
        let '(status, body, n') := mock_answer validator_pk ("/" +:+ path) n in
        (Ok (http_response status body), n')
    | None => (Err "connection refused", n)
    end in
  match e in httpE X return X * Z with
  | HttpGet url => serve url
  | HttpPost url _ _ => serve url
  | Sleep _ => (tt, n)
  end.

(** Messages can be compared. *)
#[local] Instance proto_ValidatorRegistrationMessage_eq_dec : EqDecision proto_ValidatorRegistrationMessage.
Proof. solve_decision. Defined.
#[local] Instance proto_SignedValidatorRegistration_eq_dec : EqDecision proto_SignedValidatorRegistration.
Proof. solve_decision. Defined.
#[local] Instance proto_RegisterValidatorRequest_eq_dec : EqDecision proto_RegisterValidatorRequest.
Proof. solve_decision. Defined.
#[local] Instance proto_BidTrace_eq_dec : EqDecision proto_BidTrace.
Proof. solve_decision. Defined.
#[local] Instance proto_Withdrawal_eq_dec : EqDecision proto_Withdrawal.
Proof. solve_decision. Defined.
#[local] Instance proto_ExecutionPayload_eq_dec : EqDecision proto_ExecutionPayload.
Proof. solve_decision. Defined.
#[local] Instance proto_BlobsBundle_eq_dec : EqDecision proto_BlobsBundle.
Proof. solve_decision. Defined.
#[local] Instance proto_BidRequest_eq_dec : EqDecision proto_BidRequest.
Proof. solve_decision. Defined.
#[local] Instance proto_RetrieveRequest_eq_dec : EqDecision proto_RetrieveRequest.
Proof. solve_decision. Defined.
#[local] Instance proto_SubmitBlindedBlockRequest_eq_dec : EqDecision proto_SubmitBlindedBlockRequest.
Proof. solve_decision. Defined.
#[local] Instance proto_RegisterValidatorResponse_eq_dec : EqDecision proto_RegisterValidatorResponse.
Proof. solve_decision. Defined.
#[local] Instance proto_BidResponse_eq_dec : EqDecision proto_BidResponse.
Proof. solve_decision. Defined.
#[local] Instance proto_RetrieveResponse_eq_dec : EqDecision proto_RetrieveResponse.
Proof. solve_decision. Defined.
#[local] Instance proto_BlindedBlockResponse_eq_dec : EqDecision proto_BlindedBlockResponse.
Proof. solve_decision. Defined.
#[local] Instance Status_eq_dec : EqDecision Status.
Proof. solve_decision. Defined.

Section flow.
Context `{Blst, HexLib, UrlLib, Alloy, TreeHashLib, SszTypes}.
Context `{!JsonDeserialize HeadEvent, !JsonDeserialize PayloadAttributesEvent, !JsonBody json}.
Context `{!Tokio}.
Context `{!JsonBody GetForkResponse, !JsonBody ProposerDutiesResponse}.
Context `{!JsonSerialize (Versioned SignedHeader), !JsonSerialize ExecutionPayload,
          !JsonSerialize BlobsBundle}.
Context {C : Type} `{!MokaCache Z (Arc BidSubmission) C}.
Context `{!Tonic}.
Context `{!ProstMessage proto_BidRequest, !ProstMessage proto_BidResponse}.
Context `{!ProstMessage proto_RetrieveRequest, !ProstMessage proto_RetrieveResponse}.
Context `{!ProstMessage proto_SubmitBlindedBlockRequest, !ProstMessage proto_BlindedBlockResponse}.
Context `{!ProstMessage proto_RegisterValidatorRequest,
          !ProstMessage proto_RegisterValidatorResponse}.

(** ** The messages *)

Definition register_validator_payload (validator_key : BlsPublicKey) (signing_sk : SecretKey) :
    outcome proto_RegisterValidatorRequest :=
  let registration := {|
    vr_fee_recipient := Address_default; vr_gas_limit := 30000000; vr_timestamp := 1000;
    vr_pubkey := validator_key |} in
  let! fds := ForkDatas_default in
  let root := signing_root registration (compute_builder_domain fds) in
  let! sig := sign_bytes signing_sk (fb_bytes root) in
  Done {|
    rvr_registration := Some {|
      psv_message := Some {|
        pvr_fee_recipient := fb_bytes (Address_0 (vr_fee_recipient registration));
        pvr_gas_limit := vr_gas_limit registration;
        pvr_timestamp := vr_timestamp registration;
        pvr_pubkey := fb_bytes (BlsPublicKey_serialize (vr_pubkey registration)) |};
      psv_signature := fb_bytes (BlsSignature_serialize sig) |} |}.

(** The function of the same name in [bidder_service.rs], at a randao of zeros. *)
Definition flow_bid_request (slot value : Z) (builder_pk proposer_pk : BlsPublicKey)
    (signing_sk : SecretKey) : outcome proto_BidRequest :=
  create_signed_bid_request slot value (repeat x00 32) builder_pk proposer_pk signing_sk.

(** The test computes the root that a proposer signs by itself. *)
Definition flow_signing_root (slot proposer_index : Z) (block_hash : B256)
    (domain : FixedBytes 32) : list byte :=
  let data := to_le_bytes 8 slot ++ to_le_bytes 8 proposer_index ++ fb_bytes (B256_0 block_hash) in
  let hash := keccak256 data in
  let root := fb_bytes hash ++ fb_bytes domain in
  fb_bytes (keccak256 root).

Definition unblind_request (validator_sk : SecretKey) : proto_SubmitBlindedBlockRequest :=
  let proposer_domain :=
    compute_proposer_domain (ForkDatas_new ForkData_default ForkData_default) in
  let block_hash := B256_default in
  let root := flow_signing_root 2 1 block_hash proposer_domain in
  {| sbb_slot := 2; sbb_proposer_index := 1; sbb_block_hash := fb_bytes (B256_0 block_hash);
     sbb_signature := fb_bytes (sig_compress (sk_sign validator_sk root DST [])) |}.

Definition retrieve_request (validator_pk : BlsPublicKey) : proto_RetrieveRequest :=
  {| rr_slot := 2; rr_parent_hash := repeat x00 32;
     rr_proposer_pubkey := fb_bytes (BlsPublicKey_serialize validator_pk) |}.

(** ** The relay under test *)

Definition flow_config (grpc_port http_port beacon_port : Z) (relayer_sk : BlsSecretKey)
    (builder_pk : BlsPublicKey) (fds : ForkDatas) : RelayConfig := {|
  grpc_port := grpc_port;
  http_port := http_port;
  beacon_url := mock_url beacon_port;
  bls_secret_key := relayer_sk;
  chain := Deneb;
  slots_per_epoch := 32;
  enabled_builders := [builder_pk];
  fork_datas := fds;
  polling_interval_secs := 1;
|}.

(** The relay's node: HTTP requests go to the mock, and a call through the beacon handle
    is the call of the API. *)
Definition mock_node (validator_pk : list byte) (port : Z) : handler nodeE Z := fun X e n =>
  match e in nodeE X return X * Z with
  | NodeHttp e => mock_beacon validator_pk port _ e n
  | NodeDuties epoch =>
      match run (mock_beacon validator_pk port)
              (api_proposer_duties (BeaconNodeApi_new (mock_url port)) epoch) n with
      | (Done r, n') => (r, n')
      | (Panicked _, n') => (Err (BE_Channel "channel closed"), n')
      end
  | Tick => (tt, n)
  end.

Abbreviation flow_world := (SystemWorld MemoryStorage (MemoryAuctioneer (C := C)) Z).

(** At most [n] operations of a task. *)
Fixpoint run_ops {E W R} (h : handler E W) (n : nat) (p : prog E R) (w : W) : prog E R * W :=
  match n with
  | O => (p, w)
  | Datatypes.S n' =>
      match task_step h p w with
      | Some (p', w') => run_ops h n' p' w'
      | None => (p, w)
      end
  end.

Abbreviation flow_relay_handler :=
  (relay_handler (S := MemoryStorage) (A := MemoryAuctioneer (C := C)) storage_handler Z.of_N).

(** A call of a client, with nothing else running. *)
Definition client_does {R} (p : task R) (w : flow_world) : outcome R * flow_world :=
  let '(r, rw) := run flow_relay_handler p (sys_relay w) in
  (r, mkSystemWorld rw (sys_node w) (sys_sent w)).

(** What the clients of the test can call. *)
Record flow_calls : Type := {
  fc_register : proto_RegisterValidatorRequest -> flow_world ->
    outcome (result proto_RegisterValidatorResponse Status) * flow_world;
  fc_bid : list proto_BidRequest -> flow_world ->
    outcome (streaming proto_BidResponse) * flow_world;
  fc_retrieve : list proto_RetrieveRequest -> flow_world ->
    outcome (streaming proto_RetrieveResponse) * flow_world;
  fc_unblind : proto_SubmitBlindedBlockRequest -> flow_world ->
    outcome (result proto_BlindedBlockResponse Status) * flow_world;
}.

(** [stream.next().await.unwrap().unwrap()] of a call's [unwrap]ped stream *)
Definition first_of_stream {Resp} (r : streaming Resp) : outcome Resp :=
  let! items := unwrap r in
  let! got := recv_unwrap items in
  unwrap (fst got).

#[local] Instance flow_bidder : BidderService (E := relayE) BidderServiceImpl :=
  BidderServiceImpl_service Debug (fun _ => true).
#[local] Instance flow_retriever : RetrieverService (E := relayE) RetrieverServiceImpl :=
  RetrieverServiceImpl_service Debug (fun _ => true).
#[local] Existing Instance ValidatorServiceImpl_service.

(** The relay is started with the fork data that it fetches. *)
Definition flow_start (validator_pk : list byte) (grpc_port http_port beacon_port : Z)
    (relayer_ikm : FixedBytes 32) (builder_pk : BlsPublicKey) : outcome (Started C * Z) :=
  let! relayer_sk := BlsSecretKey_random relayer_ikm in
  let! fds := ForkDatas_default in
  let config := flow_config grpc_port http_port beacon_port relayer_sk builder_pk fds in
  let '(fetched, n) := run (mock_beacon validator_pk beacon_port)
    (api_get_fork_data (BeaconNodeApi_new (mock_url beacon_port))) 0 in
  let! fetched := fetched in
  let! st := run_inner (C := C) config fetched in
  Done (st, n).

(** Generated clients, connected to the router of the relay. *)
Definition client_calls (st : Started C) : flow_calls :=
  let client : Connected relayE :=
    {| connected_routes := relay_routes (st_bidder st) (st_retriever st) (st_validator st) |} in
  {| fc_register m := client_does (ValidatorServiceClient_register_validator
       (ValidatorServiceClient_new client) m);
     fc_bid ms := client_does (BidderServiceClient_bid (BidderServiceClient_new client) ms);
     fc_retrieve ms :=
       client_does (RetrieverServiceClient_retrieve (RetrieverServiceClient_new client) ms);
     fc_unblind m := client_does (RetrieverServiceClient_submit_blinded_block
       (RetrieverServiceClient_new client) m) |}.

(** The bid, the retrieval and the unblinding; the test stops at an assertion that does
    not hold. *)
Definition flow_exchange (calls : flow_calls) (bid : proto_BidRequest)
    (retrieve : proto_RetrieveRequest) (unblind : proto_SubmitBlindedBlockRequest)
    (w : flow_world) : outcome bool :=
  let '(answer, w) := fc_bid calls [bid] w in
  let! stream := answer in
  let! resp := first_of_stream stream in
  if negb (brs_code resp =? 0) then Done false else
  let '(answer, w) := fc_retrieve calls [retrieve] w in
  let! stream := answer in
  let! resp := first_of_stream stream in
  if is_empty (rrs_signed_header resp) then Done false else
  let '(answer, w) := fc_unblind calls unblind w in
  let! resp := answer in
  let! resp := unwrap resp in
  Done (negb (is_empty (pbb_execution_payload resp)) && negb (is_empty (pbb_block_hash resp))).

(** The keys of the test: the builder's, the validator's and the bid's proposer's. *)
Definition flow_keys :
    outcome ((SecretKey * BlsPublicKey) * (SecretKey * BlsPublicKey) * BlsPublicKey) :=
  let! builder := deterministic_key x2a in
  let! validator := deterministic_key x2b in
  let! proposer := deterministic_key x63 in
  Done (builder, validator, snd proposer).

(** Polls that begin after the others are over. *)
Definition further_polls (ticks : nat) (service : RelayService) : prog systemE unit :=
  prog_map in_app (polling_rounds Debug ticks service).

(** The relay service has performed [n] operations of its first [before] polls when the
    registration arrives - or all of them, when they are fewer.  During the second that
    the test then sleeps, which is as long as the polling interval, it finishes these
    polls and makes one more at least, [S after] of them. *)
Definition full_flow (calls_of : Started C -> flow_calls) (relayer_ikm : FixedBytes 32)
    (grpc_port http_port beacon_port : Z) (before n after : nat) : outcome bool :=
  let! keys := flow_keys in
  let '((builder_sk, builder_pk), (validator_sk, validator_pk), proposer_pk) := keys in
  let mock_pk := fb_bytes (BlsPublicKey_serialize validator_pk) in
  let! started := flow_start mock_pk grpc_port http_port beacon_port relayer_ikm builder_pk in
  let '(st, head_calls) := started in
  let h := system_handler Z.of_N (mock_node mock_pk beacon_port) (fun _ _ => true) in
  let '(follower, w) := run_ops h n (follow Debug (st_relay_service st) 1 before)
    (mkSystemWorld (st_world st) head_calls []) in
  let! registration := register_validator_payload validator_pk validator_sk in
  let '(answer, w) := fc_register (calls_of st) registration w in
  let! resp := answer in
  let! resp := unwrap resp in
  if negb (rvs_code resp =? 0) then Done false else
  let '(polled, w) := run h follower w in
  let! _ := polled in
  let '(polled, w) := run h (further_polls (Datatypes.S after) (st_relay_service st)) w in
  let! _ := polled in
  let! bid := flow_bid_request 2 101 builder_pk proposer_pk builder_sk in
  flow_exchange (calls_of st) bid (retrieve_request validator_pk) (unblind_request validator_sk) w.

Definition test_relay_full_flow :
    FixedBytes 32 -> Z -> Z -> Z -> nat -> nat -> nat -> outcome bool :=
  full_flow client_calls.

(** ** The test without the transport *)

(** What the test sends and may receive. *)
Record flow_messages : Type := {
  fm_registration : proto_RegisterValidatorRequest;
  fm_bid : proto_BidRequest;
  fm_retrieve : proto_RetrieveRequest;
  fm_unblind : proto_SubmitBlindedBlockRequest;
  fm_registered : proto_RegisterValidatorResponse;
  fm_bid_answer : proto_BidResponse;
  fm_retrieved : proto_RetrieveResponse;
  fm_unblinded : proto_BlindedBlockResponse;
}.

(** The messages arrive as they were sent. *)
Record flow_deliverable (fm : flow_messages) : Prop := {
  fd_registration : deliverable (fm_registration fm);
  fd_bid : deliverable (fm_bid fm);
  fd_retrieve : deliverable (fm_retrieve fm);
  fd_unblind : deliverable (fm_unblind fm);
  fd_registered : deliverable (fm_registered fm);
  fd_bid_answer : deliverable (fm_bid_answer fm);
  fd_retrieved : deliverable (fm_retrieved fm);
  fd_unblinded : deliverable (fm_unblinded fm);
}.

(** A method called without a client, when the message and its answer are expected. *)
Definition expected_call {Req Resp} (sent : Req -> Prop) `{!forall m, Decision (sent m)}
    (received : Resp -> Prop) `{!forall r, Decision (received r)}
    (method : Req -> task Resp) (m : Req) (w : flow_world) : outcome Resp * flow_world :=
  if decide (sent m) then
    match client_does (method m) w with
    | (Done r, w') => if decide (received r) then (Done r, w') else (Panicked "unexpected", w')
    | panicked => panicked
    end
  else (Panicked "unexpected", w).

(** The methods themselves. *)
Definition expected_calls (fm : flow_messages) (st : Started C) : flow_calls := {|
  fc_register := expected_call (fun m => m = fm_registration fm)
    (fun r => r = Ok (fm_registered fm)) (validator_register_validator (st_validator st));
  fc_bid ms := expected_call (fun ms => ms = [fm_bid fm])
    (fun r => r = Ok [Ok (fm_bid_answer fm)])
    (fun ms => bidder_bid (st_bidder st) (map Ok ms)) ms;
  fc_retrieve := expected_call (fun ms => ms = [fm_retrieve fm])
    (fun r => r = Ok [Ok (fm_retrieved fm)])
    (fun ms => retriever_retrieve (st_retriever st) (map Ok ms));
  fc_unblind := expected_call (fun m => m = fm_unblind fm)
    (fun r => r = Ok (fm_unblinded fm)) (retriever_submit_blinded_block (st_retriever st));
|}.

(** ** The transport changes nothing *)

Lemma client_does_Done {R} (p : task R) w r w' :
  client_does p w = (Done r, w') <->
  exists rw, run flow_relay_handler p (sys_relay w) = (Done r, rw) /\
             w' = mkSystemWorld rw (sys_node w) (sys_sent w).
Proof.
  unfold client_does. destruct (run _ p _) as [o rw].
  split; [intros [= -> <-]; eauto|by intros (? & [= -> ->] & ->)].
Qed.

Lemma expected_call_Done {Req Resp} (sent : Req -> Prop) `{!forall m, Decision (sent m)}
    (received : Resp -> Prop) `{!forall r, Decision (received r)} (method : Req -> task Resp) m w r w' :
  expected_call sent received method m w = (Done r, w') ->
  sent m /\ received r /\ client_does (method m) w = (Done r, w').
Proof.
  unfold expected_call. case_decide as Hm; [|done].
  destruct (client_does (method m) w) as [[r'|] w'']; [|done].
  case_decide as Hr; [|done]. by intros [= -> ->].
Qed.

(** What [calls] answer, [calls'] answer. *)
Record answers_as (calls calls' : flow_calls) : Prop := {
  aa_register m w r w' : fc_register calls m w = (Done r, w') -> fc_register calls' m w = (Done r, w');
  aa_bid m w r w' : fc_bid calls m w = (Done r, w') -> fc_bid calls' m w = (Done r, w');
  aa_retrieve m w r w' : fc_retrieve calls m w = (Done r, w') -> fc_retrieve calls' m w = (Done r, w');
  aa_unblind m w r w' : fc_unblind calls m w = (Done r, w') -> fc_unblind calls' m w = (Done r, w');
}.

Lemma outcome_bind_mono {X Y} (o : outcome X) (k k' : X -> outcome Y) y :
  (forall x, k x = Done y -> k' x = Done y) ->
  (let! x := o in k x) = Done y -> (let! x := o in k' x) = Done y.
Proof. intros Hk. destruct o as [x|msg]; [apply (Hk x)|done]. Qed.

(** An answer that the rest of the test goes on with. *)
Lemma answer_then {X Y : Type} (call : outcome X * flow_world) (call' : outcome X * flow_world)
    (k k' : X -> flow_world -> outcome Y) y :
  (forall x w', call = (Done x, w') -> call' = (Done x, w')) ->
  (forall x w', k x w' = Done y -> k' x w' = Done y) ->
  (let '(o, w) := call in let! x := o in k x w) = Done y ->
  (let '(o, w) := call' in let! x := o in k' x w) = Done y.
Proof.
  intros Hc Hk. destruct call as [[x|msg] w]; [|done].
  rewrite (Hc x w eq_refl). apply Hk.
Qed.

Lemma flow_exchange_mono calls calls' bid retrieve unblind w b :
  answers_as calls calls' ->
  flow_exchange calls bid retrieve unblind w = Done b ->
  flow_exchange calls' bid retrieve unblind w = Done b.
Proof.
  intros Ha. apply answer_then; [apply (aa_bid _ _ Ha)|].
  intros stream w1. apply outcome_bind_mono. intros resp.
  destruct (negb _); [done|]. apply answer_then; [apply (aa_retrieve _ _ Ha)|].
  intros stream2 w2. apply outcome_bind_mono. intros resp2.
  destruct (is_empty _); [done|]. by apply answer_then; [apply (aa_unblind _ _ Ha)|].
Qed.

Lemma full_flow_mono calls_of calls_of' ikm p1 p2 p3 before n after b :
  (forall st, answers_as (calls_of st) (calls_of' st)) ->
  full_flow calls_of ikm p1 p2 p3 before n after = Done b ->
  full_flow calls_of' ikm p1 p2 p3 before n after = Done b.
Proof.
  intros Ha. apply outcome_bind_mono. intros [[[bsk bpk] [vsk vpk]] ppk].
  apply outcome_bind_mono. intros [st calls]. cbv zeta.
  destruct (run_ops _ n _ _) as [follower w]. apply outcome_bind_mono. intros registration.
  apply answer_then; [apply (aa_register _ _ (Ha st))|].
  intros answer w1. apply outcome_bind_mono. intros resp.
  destruct (negb _); [done|]. destruct (run _ follower w1) as [o w2].
  apply outcome_bind_mono. intros _. destruct (run _ (further_polls _ _) w2) as [o' w3].
  apply outcome_bind_mono. intros _.
  apply outcome_bind_mono. intros bid. by apply flow_exchange_mono.
Qed.

Context `{!TonicLaws}.

(** A generated client answers what the method answers, when both messages are
    deliverable. *)
Lemma clients_answer fm st :
  flow_deliverable fm -> answers_as (expected_calls fm st) (client_calls st).
Proof.
  intros [Hreg Hbid Hret Hunb Hreg' Hbid' Hret' Hunb']. constructor; intros m w r w'; cbn;
    intros (-> & -> & (rw & Hrun & ->)%client_does_Done)%expected_call_Done;
    apply client_does_Done; exists rw; split; try done.
  - apply (unary_call_run _ _ _ _ _ _ (validator_register_validator (st_validator st)));
      try done.
    unfold dispatched. by rewrite client_request_path.
  - apply (streaming_call_run _ _ _ _ _ [fm_bid fm] (bidder_bid (st_bidder st)) _
      (Ok [Ok (fm_bid_answer fm)])); try done.
    + unfold dispatched. by rewrite client_request_path.
    + by constructor.
    + by constructor.
  - apply (streaming_call_run _ _ _ _ _ [fm_retrieve fm] (retriever_retrieve (st_retriever st)) _
      (Ok [Ok (fm_retrieved fm)])); try done.
    + unfold dispatched. by rewrite client_request_path.
    + by constructor.
    + by constructor.
  - apply (unary_call_run _ _ _ _ _ _ (retriever_submit_blinded_block (st_retriever st)));
      try done.
    unfold dispatched. by rewrite client_request_path.
Qed.

(** The test over the transport ends as it does without it. *)
Lemma flow_over_transport fm ikm p1 p2 p3 before n after b :
  flow_deliverable fm -> full_flow (expected_calls fm) ikm p1 p2 p3 before n after = Done b ->
  test_relay_full_flow ikm p1 p2 p3 before n after = Done b.
Proof.
  intros Hd. apply full_flow_mono. intros st. by apply clients_answer.
Qed.

End flow.

(** ** The test on the concrete libraries *)

Section concrete_flow.

#[local] Instance plain_url : UrlLib := { url_parse s := Ok s }.

#[local] Instance no_head_event : JsonDeserialize HeadEvent := fun _ => Err "expected value".
#[local] Instance no_attributes_event : JsonDeserialize PayloadAttributesEvent :=
  fun _ => Err "expected value".
#[local] Instance flow_header_json : JsonSerialize (Versioned SignedHeader) :=
  fun _ => Ok [x7b; x7d].
#[local] Instance flow_payload_json : JsonSerialize ExecutionPayload := fun _ => Ok [x7b; x7d].
#[local] Instance flow_blobs_json : JsonSerialize BlobsBundle := fun _ => Ok [x7b; x7d].

Definition head_value (slot : string) : json :=
  JObject [("data", JObject [("header", JObject [("message",
    JObject [("slot", JString slot)])])])].

(** What [serde_json] answers on the bodies of the mock. *)
#[local] Instance flow_head_json : JsonBody json := fun body =>
  let s := String.string_of_list_byte body in
  if String.eqb s first_head then Ok (head_value "0")
  else if String.eqb s later_head then Ok (head_value "1")
  else Err "expected value".

#[local] Instance flow_fork_json : JsonBody GetForkResponse := fun body =>
  if String.eqb (String.string_of_list_byte body) fork_body then
    Ok {| gfr_data := {|
      fdr_genesis_validators_root :=
        "0x0000000000000000000000000000000000000000000000000000000000000000";
      fdr_fork := {| cf_current_version := "0x00000000" |} |} |}
  else Err "expected value".

#[local] Instance flow_duties_json : JsonBody ProposerDutiesResponse := fun body =>
  match strip_prefix duties_prefix (String.string_of_list_byte body) with
  | Some rest =>
      let hex := String.substring 0 96 rest in
      if String.eqb rest (hex +:+ duties_suffix) then
        map_ok (fun pk => {| pdr_data := [
                  {| pdd_slot := 2; pdd_pubkey := pk; pdd_validator_index := 1 |}] |})
          (BlsPublicKey_serde_deserialize ("0x" +:+ hex))
      else Err "expected value"
  | None => Err "expected value"
  end.

Definition flow_messages_of : outcome flow_messages :=
  let! keys := flow_keys in
  let '((builder_sk, builder_pk), (validator_sk, validator_pk), proposer_pk) := keys in
  let! registration := register_validator_payload validator_pk validator_sk in
  let! bid := flow_bid_request 2 101 builder_pk proposer_pk builder_sk in
  Done {|
    fm_registration := registration;
    fm_bid := bid;
    fm_retrieve := retrieve_request validator_pk;
    fm_unblind := unblind_request validator_sk;
    fm_registered := {| rvs_code := 0; rvs_message := "ok" |};
    fm_bid_answer := {| brs_code := 0; brs_message := "ok" |};
    fm_retrieved := {| rrs_signed_header := [x7b; x7d]; rrs_execution_payload := [x7b; x7d];
                       rrs_blobs_bundle := [x7b; x7d] |};
    fm_unblinded := {| pbb_execution_payload := [x7b; x7d]; pbb_blobs_bundle := [x7b; x7d];
                       pbb_block_hash := repeat x00 32 |};
  |}.

Definition expected_messages : flow_messages :=
  match flow_messages_of with
  | Done fm => fm
  | Panicked _ => {|
      fm_registration := {| rvr_registration := None |}; fm_bid := no_fields;
      fm_retrieve := retrieve_msg []; fm_unblind := {| sbb_slot := 0; sbb_proposer_index := 0;
        sbb_block_hash := []; sbb_signature := [] |};
      fm_registered := {| rvs_code := 0; rvs_message := "" |}; fm_bid_answer := {| brs_code := 0; brs_message := "" |};
      fm_retrieved := {| rrs_signed_header := []; rrs_execution_payload := [];
                         rrs_blobs_bundle := [] |};
      fm_unblinded := {| pbb_execution_payload := []; pbb_blobs_bundle := [];
                         pbb_block_hash := [] |} |}
  end.

Abbreviation direct_flow grpc_port http_port := (full_flow (C := ToyCache (Arc BidSubmission))
  (expected_calls expected_messages) (array_repeat 32 x07) grpc_port http_port 3500).

(** The registration before, within and after the first [before] polls: the first one,
    with its connection, takes five operations and every other one seven. *)
Definition flow_cases : list (nat * nat * nat) :=
  filter (fun '(before, n, after) => 1 <= before + after)%nat
    (list_prod (list_prod (seq 0 4) (seq 0 21)) (seq 0 2)).

Lemma direct_flow_passes grpc_port http_port :
  map (fun '(before, n, after) => direct_flow grpc_port http_port before n after) flow_cases =
  map (fun _ => Done true) flow_cases.
Proof.
  vm_cast_no_check (eq_refl (map (fun _ => Done true : outcome bool) flow_cases)).
Qed.

(** The integration test of the repository passes: through generated clients over any
    lawful transport that delivers its messages, a validator registers, the builder's bid
    is accepted, its header is served and its payload unblinded, wherever in the first
    three polls of the relay service the registration falls.  The service makes two polls
    at least: the first one, at once when it starts, sees the head in slot 0, where no
    duties are read. *)
Lemma relay_full_flow_passes `{TonicLaws}
    `{!ProstMessage proto_BidRequest, !ProstMessage proto_BidResponse}
    `{!ProstMessage proto_RetrieveRequest, !ProstMessage proto_RetrieveResponse}
    `{!ProstMessage proto_SubmitBlindedBlockRequest, !ProstMessage proto_BlindedBlockResponse}
    `{!ProstMessage proto_RegisterValidatorRequest, !ProstMessage proto_RegisterValidatorResponse}
    grpc_port http_port before n after :
  flow_deliverable expected_messages -> (1 <= before + after)%nat -> (before <= 3)%nat -> (n <= 20)%nat -> (after <= 1)%nat ->
  test_relay_full_flow (C := ToyCache (Arc BidSubmission)) (array_repeat 32 x07)
    grpc_port http_port 3500 before n after = Done true.
Proof.
  intros Hd H2 Hb Hn Ha. apply (flow_over_transport expected_messages); [done|].
  assert (Hin : In (before, n, after) flow_cases)
    by (apply list_elem_of_In, list_elem_of_filter, conj; [done|];
        apply list_elem_of_In; rewrite !in_prod_iff, !in_seq; lia).
  exact (ext_in_map (direct_flow_passes grpc_port http_port) _ Hin).
Qed.

(** A transport on which these messages, and no others, arrive. *)
#[local] Existing Instances toy_tonic toy_tonic_laws.

Definition only {M} (ms : list M) `{!EqDecision M} : ProstMessage M := {|
  prost_encode m :=
    match list_find (eq m) ms with Some (i, _) => [byte_of_Z (Z.of_nat i)] | None => [] end;
  prost_decode bytes :=
    match bytes with
    | [b] => ok_or "unknown" (ms !! Z.to_nat (Z_of_byte b))
    | _ => Err "unknown"
    end;
|}.

#[local] Instance only_registration : ProstMessage proto_RegisterValidatorRequest :=
  only [fm_registration expected_messages].
#[local] Instance only_bid : ProstMessage proto_BidRequest := only [fm_bid expected_messages].
#[local] Instance only_retrieve : ProstMessage proto_RetrieveRequest :=
  only [fm_retrieve expected_messages].
#[local] Instance only_unblind : ProstMessage proto_SubmitBlindedBlockRequest :=
  only [fm_unblind expected_messages].
#[local] Instance only_registered : ProstMessage proto_RegisterValidatorResponse :=
  only [fm_registered expected_messages].
#[local] Instance only_bid_answer : ProstMessage proto_BidResponse :=
  only [fm_bid_answer expected_messages].
#[local] Instance only_retrieved : ProstMessage proto_RetrieveResponse :=
  only [fm_retrieved expected_messages].
#[local] Instance only_unblinded : ProstMessage proto_BlindedBlockResponse :=
  only [fm_unblinded expected_messages].

Lemma only_deliverable {M} (ms : list M) `{!EqDecision M} :
  (length ms <= 256)%nat ->
  Forall (fun m => @deliverable M (only ms) m) ms.
Proof.
  intros Hlen. apply Forall_forall. intros m Hin. split.
  - unfold prost_encode, prost_decode, only.
    destruct (list_find (eq m) ms) as [[i x]|] eqn:Hf.
    + apply list_find_Some in Hf as (Hi & -> & _).
      pose proof (lookup_lt_Some _ _ _ Hi).
      by rewrite Z_of_byte_of_Z, Z.mod_small, Nat2Z.id, Hi by lia.
    + apply list_find_None in Hf. rewrite Forall_forall in Hf. by apply Hf in Hin.
  - unfold prost_encode, only. destruct (list_find _ _) as [[i x]|]; cbn; unfold
      DEFAULT_MAX_RECV_MESSAGE_SIZE; lia.
Qed.

Lemma only_one_deliverable {M} (m : M) `{!EqDecision M} : @deliverable M (only [m]) m.
Proof.
  apply (Forall_inv (l := [])). apply only_deliverable. simpl. lia.
Qed.

Lemma expected_deliverable : flow_deliverable expected_messages.
Proof. constructor; apply only_one_deliverable. Qed.

(** The registration arrives within the second poll. *)
Lemma relay_full_flow_on_toy_transport :
  test_relay_full_flow (C := ToyCache (Arc BidSubmission)) (array_repeat 32 x07)
    50051 9063 3500 2 6 0 = Done true.
Proof. apply (relay_full_flow_passes 50051 9063 2 6 0); [exact expected_deliverable|lia..]. Qed.

End concrete_flow.

(** ** All tests *)

Definition repository_unit_tests : list (outcome bool) :=
  usecase_tests_on_concrete ++ api_tests_on_concrete ++ crate_tests.

Lemma repository_tests_all_pass : forallb passes repository_unit_tests = true.
Proof. vm_cast_no_check (eq_refl true). Qed.

(** The unit tests of the repository hold of the model: each of the 97 tests of the
    crates, on the concrete implementation of the cryptography and of the cache, returns
    without a panic and with its assertions true. *)
Lemma unit_tests_pass :
  length repository_unit_tests = 97%nat /\
  Forall (fun test => passes test = true) repository_unit_tests.
Proof.
  split; [vm_cast_no_check (eq_refl 97%nat)|].
  apply Forall_forall. intros test Hin. apply list_elem_of_In in Hin.
  exact (proj1 (forallb_forall _ _) repository_tests_all_pass test Hin).
Qed.
